(* ===== verification/_CoqProject ===== *)
-Q . S2P
Prelude.v
GoMem.v
GoCopy.v
GoStrings.v
GoFlag.v
Effects.v
Deps.v
Api.v
DeepCopy.v
Toy.v
DeepCopySpec.v
AppResource.v
Revision.v
Builders.v
PkgUtil.v
Services.v
ToyServer.v
Porch.v
PkgRev.v
RoundTrip.v
TenantUtils.v
Reconciler.v
Wanted.v
Cluster.v
Steady.v
Stable.v
Settle.v
Protocol.v
Refinement.v
Safety.v
Progress.v
Publish.v
Concurrency.v
Startup.v
