(* ===== verification/Prelude.v ===== *)
(** * Verification of the tenant admin controller

    The program is a Kubernetes operator with one resource, the Tenant.  For
    every tenant it keeps a kpt package in Porch: it copies the package the
    tenant refers to, moves its documents to the namespace of the tenant, adds a
    Namespace and Kptfiles, writes the result as a package revision, proposes and
    approves it, and deletes the revisions when the tenant goes away.

    ** The files, and the code they model

    - [Prelude] (this file): outcomes of Go calls (value, error, panic), the
      state monad [St] of functions that mutate a store, iteration orders of Go
      maps, 64-bit conversions.
    - [GoStrings]: the functions of strings, strconv, path/filepath and the HTML
      escaper that the code calls, with their lemmas.
    - [GoFlag]: package flag, the parsing of a command line with its exits.
    - [Effects]: programs that call servers, as trees of requests ([prog]); the
      relation [exec] of their behaviours against every environment; the program
      logics [pwp], [wp] and [traced] (symbolic execution with the exchanges
      recorded); [run], execution against one environment; the monad [M] of
      methods that mutate a store and call servers.
    - [Deps]: the libraries, as classes.  [ExtTypes] and [ExtOps] are the types
      and functions of kyaml, kio, the Kubernetes clients, Porch and ndd-runtime;
      [ErrorLaws], [KYamlLaws], [KFieldLaws], [KioLaws] and [LifecycleLaws] are
      what the theorems rely on.  Documents live in a store; a [*yaml.RNode] is an
      index into it.
    - [Api]: api/v1alpha1 (the Tenant types and accessors, [IsFound]).
    - [GoMem], [GoCopy]: Go memory as a list of cells, with pointers to structs,
      fields and elements, nil, maps and slices; the value below a struct, and the
      contract of a deep copy with the rules that compose it.  [DeepCopy]:
      api/v1alpha1/zz_generated.deepcopy.go, the Tenant types as they lie in
      memory and their generated copies; [DeepCopySpec]: what the copies promise.
    - [Toy], [ToyServer]: one concrete instance of the libraries and one small
      API server, in which every definition runs and every law holds; the
      witnesses evaluate there.
    - [AppResource]: pkg/appresource/resource.go.  [IsEqual] deletes from the
      slice it ranges over, so the slice and its backing array are explicit.
    - [Revision]: the revision numbers of pkg/pkgrev/util.go.
    - [Builders]: pkg/kptfile/v1 and pkg/namespace/v1.
    - [PkgUtil]: pkg/pkgutil/pkgutil.go (read, merge and write packages).
    - [Services]: the requests to the servers ([op], [resp]) and the store of a
      reconciliation ([gstate]: the documents, the [packageRevision] object of
      pkg/pkgrev, the tenant).
    - [Porch]: pkg/porch/porch.go.
    - [PkgRev]: pkg/pkgrev (pkgrev.go, util.go, packagerevision.go).
    - [RoundTrip]: [PkgUtil], [AppResource] and [PkgRev] composed: what is written
      is read back, and compares as equal.
    - [TenantUtils]: internal/controllers/tenant/utils.go.
    - [Reconciler]: internal/controllers/tenant/reconciler.go, one reconciliation
      with every branch that reports a failure.
    - [Wanted]: the package of a tenant as a function of what is read
      ([wanted_package], the specification of the document computations), that
      [Reconcile] computes it, and that map orders do not matter to it.
    - [Cluster]: a specification of the servers as far as the package of a tenant
      is concerned, a store of tenants, package revisions and contents: the answers
      it gives ([answers], [lawful]; any request may be refused) and what a request
      changes ([applied]).  What Porch puts into a revision it creates is a
      parameter.
    - [Protocol]: the abstract specification of a reconciliation, a state machine
      over its exchanges; [Refinement]: [Reconcile] implements it; [Safety]: the
      theorems about all reconciliations; [Progress]: those about servers that
      refuse nothing; [Concurrency]: several reconciliations at once, as the
      interleavings of their requests to one server.
    - [Steady], [Stable], [Settle]: the stability of an up-to-date package, from
      [RoundTrip] to the decision of the reconciler, to two whole runs of
      [Reconcile] and to any number of runs against [Cluster].
    - [Publish]: the progress of a live tenant, whole runs of [Reconcile] against
      servers that refuse nothing.
    - [Startup]: cmd/main.go (the flags and the start), internal/controllers/controller.go,
      pkg/porch/client.go and the [Setup] of the tenant controller.

    ** What the theorems show

    The theorems of [Safety] hold for every answer of the servers and every
    content of the documents: the behaviours of [Reconcile] follow the
    protocol; a finalizer is removed only after every revision of the package
    is deleted; nothing is created, written or approved for a tenant that is
    being deleted, and only its own package is touched; package contents are
    written only into Drafts or new revisions; every failure is reported;
    success is reported only for a published package. [PkgRev] has the
    functional behaviour of each operation on a package revision, among them
    that a new revision is later than every listed one and that an approval is
    of the revision at hand. [AppResource], [PkgUtil], [TenantUtils] and
    [Builders] have the functional behaviour of the document operations and
    their independence of map iteration orders, [PkgUtil] also that a merged
    package lies in KRM files entirely; [RoundTrip] that such a package survives
    being written and read; [Wanted] that the documents of the source package
    are moved to the tenant, every one of them; [Stable] that the resources sent
    to Porch are the files of the wanted package, and that a later
    reconciliation that finds them writes nothing; [Settle] that in a cluster
    where others leave the tenant and its packages alone such a package is never
    written again, in any history of runs, refused requests included; [Revision]
    the bounds of revision numbers; [Startup] that the command line reaches the
    variables, the order of a start and its exit status.
    [DeepCopySpec] shows that a copy has the value of the original in memory of
    its own, shares nothing with it and leaves the rest of memory as it was.
    [Progress] shows that a deletion and an approval come to their end when no
    request is refused, and [Publish] that the reconciliation of a live tenant
    then ends with success recorded; [Concurrency] that reconciliations of tenants with
    different names touch different packages in every interleaving, and that
    tenants of the same name do not. The theorems that record a defect say so:
    the two about repeated documents in [IsEqual], the nil pointers and the
    lost package of the reconciler, and the revision numbers that wrap.

    ** Modelling choices

    A Go function that returns an error is a computation with outcome [Ok], [Err]
    or [Panic]; the store survives all three.  A loop over a Go map takes the
    iteration order as an argument ([map_order]) or, in effectful code, asks the
    environment for it ([OMapOrder]).  An object that a client call fills is part
    of the response, whether or not the call fails, so a server may answer
    anything.  No definition needs fuel: every loop of the code ranges over a
    list or a map.  A tenant in [Api] is a value, since the controller works on
    the one it decoded; in [DeepCopy], where sharing matters, it is a graph of
    cells.  The parsers of integer and duration flags, and the flags libraries put
    on the command line, are parameters of [Startup].  Integers are [Z] with the conversions [to_uint64] and
    [to_int64] of a 64-bit platform.

    ** What is not modelled

    Logging and printing (but a [MustString] in the arguments of a log line can
    panic and is kept); contexts and cancellation; the controller-runtime
    machinery that calls [Reconcile] (queue, watches, leader election), of which
    [Concurrency] has only that several reconciliations may run at once; the
    registration of the Tenant types with the scheme builder and what a scheme
    holds; the capacity of slices that are copied; the annotations of events;
    commented-out code. *)

From stdpp Require Import base tactics list gmap strings numbers.

(** ** Outcomes of Go calls

    A Go function that returns [(T, error)] either returns a value, returns a
    non-nil error, or panics.  [Panic] records the run-time fault. *)

Inductive panic :=
  | NilDeref       (** a nil pointer (or a pointer outside the heap) is read *)
  | SliceBounds    (** "slice bounds out of range" *)
  | IndexRange     (** "index out of range" *)
  | NilMapWrite    (** "assignment to entry in nil map" *)
  | MustFailed.    (** a [Must...] helper of a library met an error *)

#[export] Instance panic_eq_dec : EqDecision panic.
Proof. solve_decision. Defined.

Inductive outcome (E A : Type) :=
  | Ok (a : A)
  | Err (e : E)
  | Panic (p : panic).
Arguments Ok {_ _} _.
Arguments Err {_ _} _.
Arguments Panic {_ _} _.

(** The result of a library function, [inl] an error and [inr] a value. *)
Definition of_sum {E A} (r : E + A) : outcome E A :=
  match r with inl e => Err e | inr a => Ok a end.

Definition of_option {E A} (p : panic) (o : option A) : outcome E A :=
  match o with Some a => Ok a | None => Panic p end.

Definition is_panic {E A} (o : outcome E A) : bool :=
  match o with Panic _ => true | _ => false end.

(** ** The state monad of Go functions that mutate a store [S]

    The store survives an error or a panic, as the mutations made before a
    [return err] do. *)

Definition St (E S A : Type) : Type := S → outcome E A * S.

#[export] Instance St_ret E S : MRet (St E S) := λ A a s, (Ok a, s).
#[export] Instance St_bind E S : MBind (St E S) := λ A B k m s,
  match m s with
  | (Ok a, s') => k a s'
  | (Err e, s') => (Err e, s')
  | (Panic p, s') => (Panic p, s')
  end.

Definition st_lift {E S A} (o : outcome E A) : St E S A := λ s, (o, s).
Definition st_err {E S A} (e : E) : St E S A := λ s, (Err e, s).
Definition st_panic {E S A} (p : panic) : St E S A := λ s, (Panic p, s).

(** A loop over a list whose body mutates the store and may return early. *)
Fixpoint st_iter {E S A} (f : A → St E S ()) (l : list A) : St E S () :=
  match l with
  | [] => mret ()
  | a :: l' => _ ← f a; st_iter f l'
  end.

(** A loop that appends one result per iteration. *)
Fixpoint st_map {E S A B} (f : A → St E S B) (l : list A) : St E S (list B) :=
  match l with
  | [] => mret []
  | a :: l' => b ← f a; bs ← st_map f l'; mret (b :: bs)
  end.

Section St_lemmas.
Context {E S : Type}.

Lemma st_bind_ok {A B} (m : St E S A) (k : A → St E S B) s a s' :
  m s = (Ok a, s') → (m ≫= k) s = k a s'.
Proof. intros H. unfold mbind, St_bind. by rewrite H. Qed.

Lemma st_bind_err {A B} (m : St E S A) (k : A → St E S B) s e s' :
  m s = (Err e, s') → (m ≫= k) s = (Err e, s').
Proof. intros H. unfold mbind, St_bind. by rewrite H. Qed.

Lemma st_bind_panic {A B} (m : St E S A) (k : A → St E S B) s p s' :
  m s = (Panic p, s') → (m ≫= k) s = (Panic p, s').
Proof. intros H. unfold mbind, St_bind. by rewrite H. Qed.

Lemma st_bind_ok_inv {A B} (m : St E S A) (k : A → St E S B) s b s'' :
  (m ≫= k) s = (Ok b, s'') → ∃ a s', m s = (Ok a, s') ∧ k a s' = (Ok b, s'').
Proof.
  unfold mbind, St_bind. destruct (m s) as [[a|e|p] s'] eqn:Hm; intros H;
    simplify_eq; eauto.
Qed.

(** [st_rel R m]: on every run, also a failing one, [m] moves the store along
    [R]. *)
Definition st_rel (R : relation S) {A} (m : St E S A) : Prop := ∀ s, R s (m s).2.

Lemma st_rel_run {R A} {m : St E S A} {s o s'} : st_rel R m → m s = (o, s') → R s s'.
Proof. intros H Hm. specialize (H s). by rewrite Hm in H. Qed.

Lemma st_rel_bind R `{!Transitive R} {A B} (m : St E S A) (k : A → St E S B) :
  st_rel R m → (∀ s a s', m s = (Ok a, s') → st_rel R (k a)) → st_rel R (m ≫= k).
Proof.
  intros Hm Hk s. specialize (Hm s). unfold mbind, St_bind.
  destruct (m s) as [[a|e|p] s1] eqn:Hs; simpl in *; [|done..].
  etrans; [exact Hm|]. by eapply Hk.
Qed.

Lemma st_rel_pure R `{!Reflexive R} {A} (o : outcome E A) : st_rel R (λ s, (o, s)).
Proof. intros s. done. Qed.

Lemma st_rel_iter R `{!PreOrder R} {A} (f : A → St E S ()) l :
  (∀ a, a ∈ l → st_rel R (f a)) → st_rel R (st_iter f l).
Proof.
  induction l as [|a l IH]; intros H; simpl; [apply (st_rel_pure R)|].
  apply (st_rel_bind R); [apply H; set_solver|]. intros _ _ _ _. apply IH. set_solver.
Qed.

Lemma st_rel_map R `{!PreOrder R} {A B} (f : A → St E S B) l :
  (∀ a, a ∈ l → st_rel R (f a)) → st_rel R (st_map f l).
Proof.
  induction l as [|a l IH]; intros H; simpl; [apply (st_rel_pure R)|].
  apply (st_rel_bind R); [apply H; set_solver|]. intros _ b _ _.
  apply (st_rel_bind R); [apply IH; set_solver|]. intros _ bs _ _. apply (st_rel_pure R).
Qed.

Lemma st_iter_app {A} (f : A → St E S ()) l1 l2 s :
  st_iter f (l1 ++ l2) s = (_ ← st_iter f l1; st_iter f l2) s.
Proof.
  revert s. induction l1 as [|a l1 IH]; intros s; [done|].
  simpl. unfold mbind, St_bind in *. destruct (f a s) as [[]?]; auto.
Qed.

(** The loop rule: an invariant on the store preserved by the body. *)
Lemma st_iter_inv {A} (f : A → St E S ()) (I : S → Prop) l s u s' :
  (∀ a s u s', a ∈ l → I s → f a s = (Ok u, s') → I s') →
  I s → st_iter f l s = (Ok u, s') → I s'.
Proof.
  revert s. induction l as [|a l IH]; intros s Hf HI H; simpl in H.
  { inversion H; by subst. }
  apply st_bind_ok_inv in H as (a' & s1 & H1 & H2).
  eapply (IH s1); [|eapply Hf; [|done..]; set_solver|done].
  intros b ????; apply Hf. set_solver.
Qed.

(** A body that always returns normally gives a loop that does. *)
Lemma st_iter_total {A} (f : A → St E S ()) (I : S → Prop) l s :
  (∀ a s, a ∈ l → I s → ∃ s', f a s = (Ok (), s') ∧ I s') →
  I s → ∃ s', st_iter f l s = (Ok (), s') ∧ I s'.
Proof.
  revert s. induction l as [|a l IH]; intros s Hf HI; simpl; [by eauto|].
  destruct (Hf a s) as (s1 & H1 & HI1); [set_solver|done|].
  destruct (IH s1) as (s2 & H2 & HI2); [|done|].
  { intros b ??; apply Hf. set_solver. }
  exists s2. split; [|done]. by rewrite (st_bind_ok _ _ _ _ _ H1).
Qed.

(** The loop rule for a body that ends normally: [I done s] holds when the
    elements [done] are done. *)
Lemma st_iter_rule {A} (f : A → St E S ()) (I : list A → S → Prop) l s :
  (∀ done a rest s, l = done ++ a :: rest → I done s →
    ∃ s', f a s = (Ok (), s') ∧ I (done ++ [a]) s') →
  I [] s → ∃ s', st_iter f l s = (Ok (), s') ∧ I l s'.
Proof.
  intros Hf HI.
  assert (∀ rest done, l = done ++ rest → ∀ s, I done s →
    ∃ s', st_iter f rest s = (Ok (), s') ∧ I l s') as H; [|by apply (H l [])].
  induction rest as [|a rest IH]; intros done Hl s1 H1; simpl.
  { rewrite app_nil_r in Hl. subst. eauto. }
  destruct (Hf done a rest s1 Hl H1) as (s2 & H2 & HI2).
  rewrite (st_bind_ok _ _ _ _ _ H2). apply (IH (done ++ [a])); [|done].
  by rewrite <-(assoc_L (++)).
Qed.

Lemma st_map_length {A B} (f : A → St E S B) l s bs s' :
  st_map f l s = (Ok bs, s') → length bs = length l.
Proof.
  revert s bs. induction l as [|a l IH]; intros s bs H; simpl in H.
  { inversion H; by subst. }
  apply st_bind_ok_inv in H as (b & s1 & _ & H).
  apply st_bind_ok_inv in H as (bs' & s2 & H & H2).
  inversion H2; subst; simpl. f_equal. eauto.
Qed.
End St_lemmas.

(** [st_inv H] peels the binds of a successful run in [H]. *)
Ltac st_inv H :=
  lazymatch type of H with
  | mbind _ _ _ = (Ok _, _) =>
      let a := fresh "a" in let s := fresh "s" in
      let H1 := fresh "Hrun" in
      apply st_bind_ok_inv in H as (a & s & H1 & H);
      try st_inv H
  | _ => idtac
  end.

(** ** Iteration over a Go map

    The order in which [range] visits a map is unspecified; it is a value the
    run-time picks, and every definition that ranges over a map takes it. *)

Record map_order := MapOrder {
  mo_keys :> list string → list string;
  mo_perm : ∀ ks, mo_keys ks ≡ₚ ks }.

Definition map_range {V} (o : map_order) (m : gmap string V) : list (string * V) :=
  omap (λ k, (λ v, (k, v)) <$> m !! k) (o (map_to_list m).*1).

Program Definition mo_id : map_order := MapOrder id _.
Next Obligation. done. Qed.

Program Definition mo_rev : map_order := MapOrder reverse _.
Next Obligation. intros. apply reverse_Permutation. Qed.

Lemma omap_lookup_keys {V} (m : gmap string V) (l : list (string * V)) :
  (∀ k v, (k, v) ∈ l → m !! k = Some v) →
  omap (λ k, (λ v, (k, v)) <$> m !! k) l.*1 = l.
Proof.
  induction l as [|[k v] l IH]; intros Hl; [done|]. csimpl.
  rewrite (Hl k v) by set_solver. csimpl. f_equal. apply IH. set_solver.
Qed.

Lemma map_range_perm {V} (o : map_order) (m : gmap string V) :
  map_range o m ≡ₚ map_to_list m.
Proof.
  unfold map_range. rewrite (mo_perm o).
  rewrite omap_lookup_keys; [done|]. intros k v. apply elem_of_map_to_list.
Qed.

Lemma elem_of_map_range {V} (o : map_order) (m : gmap string V) k v :
  (k, v) ∈ map_range o m ↔ m !! k = Some v.
Proof. rewrite map_range_perm. apply elem_of_map_to_list. Qed.

Lemma map_range_empty {V} (o : map_order) : map_range o (∅ : gmap string V) = [].
Proof. apply Permutation_nil_r. by rewrite map_range_perm, map_to_list_empty. Qed.

Lemma map_range_NoDup {V} (o : map_order) (m : gmap string V) :
  NoDup (map_range o m).*1.
Proof. rewrite map_range_perm. apply NoDup_fst_map_to_list. Qed.

Create HintDb go.
#[export] Hint Resolve map_range_NoDup : go.

(** ** Machine integers of a 64-bit platform *)

Definition two63 : Z := 9223372036854775808.
Definition two64 : Z := 18446744073709551616.

(** [uint64(x)] and [int(x)]: the conversions reduce modulo 2^64. *)
Definition to_uint64 (z : Z) : Z := z `mod` two64.
Definition to_int64 (z : Z) : Z := (z + two63) `mod` two64 - two63.

Lemma to_uint64_range z : (0 ≤ to_uint64 z < two64)%Z.
Proof. apply Z.mod_pos_bound. done. Qed.

Lemma to_int64_range z : (- two63 ≤ to_int64 z < two63)%Z.
Proof.
  unfold to_int64, two63, two64.
  pose proof (Z.mod_pos_bound (z + 9223372036854775808) 18446744073709551616). lia.
Qed.

Lemma to_uint64_small z : (0 ≤ z < two64)%Z → to_uint64 z = z.
Proof. intros. by apply Z.mod_small. Qed.

Lemma to_int64_small z : (- two63 ≤ z < two63)%Z → to_int64 z = z.
Proof. unfold to_int64, two63, two64. intros. rewrite Z.mod_small; lia. Qed.

Lemma to_uint64_int64 z : to_uint64 (to_int64 z) = to_uint64 z.
Proof.
  unfold to_uint64, to_int64.
  rewrite Zminus_mod_idemp_l. f_equal. lia.
Qed.

Lemma to_uint64_add_int64 a b :
  to_uint64 (to_int64 a + b) = to_uint64 (a + b).
Proof.
  unfold to_uint64, to_int64.
  replace (_ - two63 + b)%Z with ((a + two63) `mod` two64 + (b - two63))%Z by lia.
  rewrite Zplus_mod_idemp_l. f_equal. lia.
Qed.
