(* ===== verification/GoMem.v ===== *)
(** * Go memory: pointers, allocation, deep copies

    A memory is a growing list of cells, one per allocation; a reference is an
    index into it.  A pointer is a cell together with the part of it that the
    pointer addresses, so [&x.f] and [&s[i]] are pointers as [&x] is. *)

From stdpp Require Import base tactics list gmap strings.
From S2P Require Import Prelude.

Local Open Scope nat_scope.

Section memory.
Context {cell : Type}.

Abbreviation mem := (list cell).
Abbreviation GoM := (St Empty_set mem).

(** [*T] as stored in memory: nil or the index of the cell. *)
Definition ref (T : Type) : Type := option nat.

(** [[]T]: nil, or a window of a backing array.  (The capacity is not read.) *)
Record window := Window { w_array : nat; w_off : nat; w_len : nat }.
Definition sref (T : Type) : Type := option window.

(** What can be the content of a cell. *)
Class IsCell (T : Type) := {
  of_val : T → cell;
  as_val : cell → option T;
  as_of t : as_val (of_val t) = Some t;
  of_as c t : as_val c = Some t → of_val t = c }.

(** ** Pointers *)

Record ptr (T : Type) := Ptr {
  p_base : nat;
  p_get : cell → option T;
  p_set : T → cell → cell;
  p_get_set c t t' : p_get c = Some t → p_get (p_set t' c) = Some t';
  p_set_set c t t' : p_set t (p_set t' c) = p_set t c;
  p_set_get c t : p_get c = Some t → p_set t c = c }.
#[global] Arguments Ptr {_} _ _ _ _ _ _.
#[global] Arguments p_base {_} _.
#[global] Arguments p_get {_} _ _.
#[global] Arguments p_set {_} _ _ _.
#[global] Arguments p_get_set {_} _ _ _ _ _.
#[global] Arguments p_set_set {_} _ _ _ _.
#[global] Arguments p_set_get {_} _ _ _ _.

(** A whole cell. *)
Definition cell_set `{IsCell T} (t : T) (c : cell) : cell :=
  match as_val c with Some _ => of_val t | None => c end.

Program Definition at_ `{IsCell T} (l : nat) : ptr T := Ptr l as_val cell_set _ _ _.
Next Obligation. intros T ? _ c t t' Hc. unfold cell_set. by rewrite Hc, as_of. Qed.
Next Obligation.
  intros T ? _ c t t'. unfold cell_set.
  destruct (as_val c) eqn:Hc; [by rewrite as_of|by rewrite Hc].
Qed.
Next Obligation. intros T ? _ c t Hc. unfold cell_set. rewrite Hc. by apply of_as. Qed.

(** The field of a struct. *)
Record field (S T : Type) := Field {
  f_get : S → T;
  f_set : T → S → S;
  f_get_set s t : f_get (f_set t s) = t;
  f_set_set s t t' : f_set t (f_set t' s) = f_set t s;
  f_set_get s : f_set (f_get s) s = s }.
#[global] Arguments Field {_ _} _ _ _ _ _.
#[global] Arguments f_get {_ _} _ _.
#[global] Arguments f_set {_ _} _ _ _.
#[global] Arguments f_get_set {_ _} _ _ _.
#[global] Arguments f_set_set {_ _} _ _ _ _.
#[global] Arguments f_set_get {_ _} _ _.

(** [&p.f]. *)
Definition fld_set {S T} (p : ptr S) (f : field S T) (t : T) (c : cell) : cell :=
  match p_get p c with Some s => p_set p (f_set f t s) c | None => c end.

Program Definition fld {S T} (p : ptr S) (f : field S T) : ptr T :=
  Ptr (p_base p) (λ c, f_get f <$> p_get p c) (fld_set p f) _ _ _.
Next Obligation.
  intros S T p f c t t' Hc. simpl in Hc. unfold fld_set. destruct (p_get p c) as [s|] eqn:E; [|done].
  rewrite (p_get_set _ _ _ _ E). simpl. by rewrite f_get_set.
Qed.
Next Obligation.
  intros S T p f c t t'. unfold fld_set.
  destruct (p_get p c) as [s|] eqn:E; [|by rewrite E].
  by rewrite (p_get_set _ _ _ _ E), p_set_set, f_set_set.
Qed.
Next Obligation.
  intros S T p f c t Hc. simpl in Hc. unfold fld_set. destruct (p_get p c) as [s|] eqn:E; [|done].
  injection Hc as <-. by rewrite f_set_get, (p_set_get _ _ _ E).
Qed.

(** [&s[i]]. *)
Definition elem_set `{IsCell (list T)} (n : nat) (t : T) (c : cell) : cell :=
  match as_val c with Some xs => of_val (<[n := t]> xs) | None => c end.

Program Definition elem `{IsCell (list T)} (w : window) (i : nat) : ptr T :=
  Ptr (w_array w) (λ c, as_val c ≫= lookup (w_off w + i)) (elem_set (w_off w + i)) _ _ _.
Next Obligation.
  intros T ? w i c t t' Hc. simpl in Hc. unfold elem_set. destruct (as_val c) as [xs|]; [|done].
  rewrite as_of. simpl. apply list_lookup_insert_eq. by eapply lookup_lt_Some.
Qed.
Next Obligation.
  intros T ? w i c t t'. unfold elem_set. destruct (as_val c) as [xs|] eqn:E; [|by rewrite E].
  by rewrite as_of, list_insert_insert_eq.
Qed.
Next Obligation.
  intros T ? w i c t Hc. simpl in Hc. unfold elem_set. destruct (as_val c) as [xs|] eqn:E; [|done].
  rewrite list_insert_id by done. by apply of_as.
Qed.

Definition get_at {T} (p : ptr T) (m : mem) : option T := m !! p_base p ≫= p_get p.
Definition put {T} (p : ptr T) (t : T) (m : mem) : mem := alter (p_set p t) (p_base p) m.

(** [*p], [*p = t], [new(T)] and [make]. *)
Definition load {T} (p : ptr T) : GoM T := λ m, (of_option NilDeref (get_at p m), m).
Definition store {T} (p : ptr T) (t : T) : GoM () := λ m,
  match get_at p m with
  | Some _ => (Ok (), put p t m)
  | None => (Panic NilDeref, m)
  end.
Definition alloc `{IsCell T} (t : T) : GoM nat := λ m, (Ok (length m), m ++ [of_val t]).
Definition deref {T} (r : ref T) : GoM nat := st_lift (of_option NilDeref r).

(** [m[k] = v], [&s[i]] and [len(s)]. *)
Definition map_put `{IsCell (gmap string V)} (r : ref (gmap string V)) (k : string) (v : V) :
    GoM () :=
  match r with
  | None => st_panic NilMapWrite
  | Some l => x ← load (at_ l); store (at_ l) (<[k := v]> x)
  end.
Definition map_get `{IsCell (gmap string V)} (r : ref (gmap string V)) : GoM (gmap string V) :=
  match r with None => mret ∅ | Some l => load (at_ l) end.
Definition slice_len {T} (s : sref T) : nat := from_option w_len 0 s.
Definition index `{IsCell (list T)} (s : sref T) (i : nat) : GoM (ptr T) :=
  match s with
  | Some w => if decide (i < w_len w) then mret (elem w i) else st_panic IndexRange
  | None => st_panic IndexRange
  end.

(** ** The copy loops

    The bodies that the generator writes for a pointer, a map and a slice.  The
    order of each range over a map is that of the map it fills: [mo] chooses it
    by the cell of that map. *)

Definition unless_nil {A} (i : ptr (option A)) (body : GoM ()) : GoM () :=
  r ← load i;
  match r with None => mret () | Some _ => body end.

Definition copy_new `{IsCell T} (zero : T) (into : ptr T → ptr T → GoM ())
    (i o : ptr (ref T)) : GoM () :=
  l ← alloc zero;
  _ ← store o (Some l);
  ri ← load i; li ← deref ri;
  ro ← load o; lo ← deref ro;
  into (at_ li) (at_ lo).

Definition copy_map `{IsCell (gmap string V)} (mo : nat → map_order)
    (i o : ptr (ref (gmap string V))) : GoM () :=
  l ← alloc (∅ : gmap string V);
  _ ← store o (Some l);
  ri ← load i; src ← map_get ri;
  st_iter (λ '(k, v), ro ← load o; map_put ro k v) (map_range (mo l) src).

Definition copy_slice `{IsCell (list T)} (zero : T) (body : ptr T → ptr T → GoM ())
    (i o : ptr (sref T)) : GoM () :=
  s0 ← load i;
  l ← alloc (replicate (slice_len s0) zero);
  _ ← store o (Some (Window l 0 (slice_len s0)));
  s1 ← load i;
  st_iter (λ k,
    si ← load i; pi ← index si k;
    so ← load o; po ← index so k;
    body pi po) (seq 0 (slice_len s1)).
End memory.
Abbreviation GoM cell := (St Empty_set (list cell)).
#[global] Arguments IsCell : clear implicits.
#[global] Arguments ptr : clear implicits.
#[global] Arguments at_ {_ _ _} _.

(** ** Reads and writes *)

Section access.
Context {cell : Type}.
Abbreviation mem := (list cell).
Abbreviation ptr := (ptr cell).
Implicit Types m new : mem.

Lemma list_alter_ext {A} (f g : A → A) (l : list A) n :
  (∀ x, l !! n = Some x → f x = g x) → alter f n l = alter g n l.
Proof.
  intros H. apply list_eq. intros j. destruct (decide (n = j)) as [<-|Hj].
  - rewrite !list_lookup_alter_eq. destruct (l !! n) eqn:E; simpl; [|done]. by rewrite H.
  - by rewrite !list_lookup_alter_ne.
Qed.

Lemma get_at_lt {T} (p : ptr T) t m : get_at p m = Some t → p_base p < length m.
Proof.
  unfold get_at. destruct (m !! p_base p) eqn:E; [|done]. intros _. by eapply lookup_lt_Some.
Qed.

Lemma load_ok {T} (p : ptr T) t m : get_at p m = Some t → load p m = (Ok t, m).
Proof. unfold load. by intros ->. Qed.

Lemma store_ok {T} (p : ptr T) t t' m : get_at p m = Some t → store p t' m = (Ok (), put p t' m).
Proof. unfold store. by intros ->. Qed.

Lemma length_put {T} (p : ptr T) t m : length (put p t m) = length m.
Proof. apply length_alter. Qed.

Lemma lookup_put_ne {T} (p : ptr T) t m l : p_base p ≠ l → put p t m !! l = m !! l.
Proof. apply list_lookup_alter_ne. Qed.

Lemma get_put {T} (p : ptr T) t t' m : get_at p m = Some t → get_at p (put p t' m) = Some t'.
Proof.
  unfold get_at, put. rewrite (list_lookup_alter_eq (p_set p t') m (p_base p)).
  destruct (lookup (M:=list cell) (p_base p) m); simpl; [apply p_get_set|done].
Qed.

Lemma get_put_ne {S T} (p : ptr S) (q : ptr T) t m :
  p_base p ≠ p_base q → get_at q (put p t m) = get_at q m.
Proof. intros. unfold get_at. by rewrite lookup_put_ne. Qed.

Lemma get_app {T} (p : ptr T) t m new : get_at p m = Some t → get_at p (m ++ new) = Some t.
Proof. intros H. unfold get_at. rewrite lookup_app_l; [done|]. by eapply get_at_lt. Qed.

Lemma put_app {T} (p : ptr T) t t0 m new :
  get_at p m = Some t0 → put p t (m ++ new) = put p t m ++ new.
Proof. intros H%get_at_lt. by apply alter_app_l. Qed.

Lemma put_put {T} (p : ptr T) t t' m : put p t (put p t' m) = put p t m.
Proof.
  unfold put. rewrite list_alter_alter_eq. apply list_alter_ext.
  intros c _. apply p_set_set.
Qed.

Lemma put_get {T} (p : ptr T) t m : get_at p m = Some t → put p t m = m.
Proof.
  unfold get_at, put. intros H. transitivity (alter id (p_base p) m).
  - apply list_alter_ext. intros c Hc. rewrite Hc in H. by apply p_set_get.
  - by apply list_alter_id.
Qed.

Lemma get_fld {S T} (p : ptr S) (f : field S T) m :
  get_at (fld p f) m = f_get f <$> get_at p m.
Proof. unfold get_at. simpl. by destruct (m !! p_base p). Qed.

Lemma put_fld {S T} (p : ptr S) (f : field S T) s t m :
  get_at p m = Some s → put (fld p f) t m = put p (f_set f t s) m.
Proof.
  unfold get_at, put. intros H. apply list_alter_ext.
  intros c Hc. simpl in *. unfold fld_set. rewrite Hc in H. simpl in H. by rewrite H.
Qed.

Lemma get_at_new `{IsCell cell T} (t : T) l m new :
  l = length m → get_at (at_ l) (m ++ of_val t :: new) = Some t.
Proof.
  intros ->.
  unfold get_at. simpl. rewrite lookup_app_r, Nat.sub_diag by done. simpl. apply as_of.
Qed.

Lemma put_at_new `{IsCell cell T} (t t' : T) l m new :
  l = length m → put (at_ l) t' (m ++ of_val t :: new) = m ++ of_val t' :: new.
Proof.
  intros ->.
  unfold put. rewrite alter_app_r_alt by (simpl; lia). simpl. rewrite Nat.sub_diag. simpl.
  unfold cell_set. by rewrite as_of.
Qed.
End access.
