(* ===== verification/GoCopy.v ===== *)
(** * Deep copies in Go memory

    [snap] reads the whole value below a struct and the cells it occupies;
    [copies] is the contract of a [DeepCopyInto], and the lemmas build it for
    pointers, maps, slices and structs from the contract of what they hold. *)

From stdpp Require Import base tactics list gmap strings.
From S2P Require Import Prelude.
From S2P Require Import GoMem.

Local Open Scope nat_scope.

(** ** What a struct holds

    [snap] reads the value below a struct, following its references, and lists
    the cells it occupies. *)

Abbreviation snapshot V := (option (V * list nat)).
Definition snap_ret {V} (v : V) : snapshot V := Some (v, []).
Definition snap_bind {A B} (s : snapshot A) (k : A → snapshot B) : snapshot B :=
  '(a, ls) ← s; '(b, ls') ← k a; Some (b, ls ++ ls').

Declare Scope snap_scope.
Delimit Scope snap_scope with snap.
Notation "'let!' x := s 'in' k" := (snap_bind s (λ x, k))
  (at level 10, x name, k at level 200) : snap_scope.
#[global] Open Scope snap_scope.

Section snap.
Context {cell : Type}.
Abbreviation mem := (list cell).
Abbreviation ptr := (ptr cell).

Definition snap_cell `{IsCell cell T} (l : nat) (m : mem) : snapshot T :=
  x ← m !! l ≫= as_val; Some (x, [l]).
Definition snap_guard (P : Prop) `{Decision P} : snapshot () :=
  if decide P then snap_ret () else None.

Definition snap_ptr `{IsCell cell T} {V} (sn : mem → T → snapshot V) (m : mem) (r : ref T) :
    snapshot (option V) :=
  match r with
  | None => snap_ret None
  | Some l => let! x := snap_cell l m in let! v := sn m x in snap_ret (Some v)
  end.

Fixpoint snap_list {T V} (sn : mem → T → snapshot V) (m : mem) (xs : list T) :
    snapshot (list V) :=
  match xs with
  | [] => snap_ret []
  | x :: xs => let! v := sn m x in let! vs := snap_list sn m xs in snap_ret (v :: vs)
  end.

Definition in_window {T} (w : window) (xs : list T) : list T :=
  take (w_len w) (drop (w_off w) xs).
Definition snap_slice `{IsCell cell (list T)} {V} (sn : mem → T → snapshot V) (m : mem)
    (r : sref T) : snapshot (option (list V)) :=
  match r with
  | None => snap_ret None
  | Some w =>
      let! xs := snap_cell (w_array w) m in
      let! _ := snap_guard (w_off w + w_len w ≤ length xs) in
      let! vs := snap_list sn m (in_window w xs) in snap_ret (Some vs)
  end.

(** A snapshot depends on the listed cells only, and these exist. *)
Definition local_read {V} (f : mem → snapshot V) : Prop := ∀ m v ls,
  f m = Some (v, ls) →
  (∀ l, l ∈ ls → l < length m) ∧
  (∀ m', (∀ l, l ∈ ls → m' !! l = m !! l) → f m' = Some (v, ls)).

Class Readable (R V : Type) := {
  snap : mem → R → snapshot V;
  snap_local r : local_read (λ m, snap m r) }.

(** Cells allocated between two sizes of the memory, each listed once. *)
Definition between (a b : nat) (ls : list nat) : Prop :=
  NoDup ls ∧ ∀ l, l ∈ ls → a ≤ l < b.

(** ** The contract of a [DeepCopyInto]

    It ends normally; of the cells that existed, only the struct at [o] changes;
    that struct holds the value below [i], every cell of it is new, and no cell
    of it is shared. *)
Definition copies {R V} `{Readable R V} (Pre : R → R → Prop)
    (into : ptr R → ptr R → GoM cell ()) : Prop := ∀ i o m r r0 v ls,
  get_at i m = Some r → get_at o m = Some r0 → Pre r r0 →
  snap m r = Some (v, ls) → p_base o ≠ p_base i → p_base o ∉ ls →
  ∃ r' new ls',
    into i o m = (Ok (), put o r' m ++ new) ∧
    snap (put o r' m ++ new) r' = Some (v, ls') ∧
    between (length m) (length m + length new) ls'.

(** A part that is nil stays as it is. *)
Definition nil_ok {A} (r r0 : option A) : Prop := r = None → r0 = None.

(** The operations of a deep-copyable struct, and its law. *)
Class CopyOps (R : Type) := {
  cp_zero : R;
  cp_into : (nat → map_order) → ptr R → ptr R → GoM cell () }.
Class CopyLaw (R V : Type) `{CopyOps R} `{Readable R V} : Prop :=
  cp_law mo : copies (λ _ _, True) (cp_into mo).

(** [x.DeepCopy()]. *)
Definition DeepCopy {R} `{IsCell cell R} `{CopyOps R} (mo : nat → map_order) (x : ref R) :
    GoM cell (ref R) :=
  match x with
  | None => mret None
  | Some li =>
      out ← alloc cp_zero;
      _ ← cp_into mo (at_ li) (at_ out);
      mret (Some out)
  end.
End snap.
#[global] Arguments Readable : clear implicits.
#[global] Arguments CopyOps : clear implicits.
#[global] Arguments CopyLaw _ _ _ {_ _}.

(** ** Snapshots *)

Lemma snap_bind_Some {A B} (s : snapshot A) (k : A → snapshot B) b ls :
  snap_bind s k = Some (b, ls) ↔
  ∃ a ls1 ls2, s = Some (a, ls1) ∧ k a = Some (b, ls2) ∧ ls = ls1 ++ ls2.
Proof.
  unfold snap_bind. split.
  - destruct s as [[a ls1]|]; simpl; [|done].
    destruct (k a) as [[b' ls2]|] eqn:E; simpl; [|done]. intros [= <- <-]. eauto 10.
  - intros (a & ls1 & ls2 & -> & Hk & ->). simpl. by rewrite Hk.
Qed.

(** [snap_inv H] takes a successful snapshot apart; [snap_ok] puts one together. *)
Ltac snap_inv H :=
  lazymatch type of H with
  | snap_bind _ _ = Some _ =>
      let a := fresh "a" in let l1 := fresh "ls" in let l2 := fresh "ls" in
      let H1 := fresh "Hs" in
      apply snap_bind_Some in H as (a & l1 & l2 & H1 & H & ->); snap_inv H
  | snap_ret _ = Some _ => injection H as <- <-
  | _ => idtac
  end.

Lemma snap_bind_ok {A B} (s : snapshot A) (k : A → snapshot B) a ls1 b ls2 :
  s = Some (a, ls1) → k a = Some (b, ls2) → snap_bind s k = Some (b, ls1 ++ ls2).
Proof. intros H1 H2. apply snap_bind_Some. eauto 10. Qed.

Section snapshots.
Context {cell : Type}.
Abbreviation mem := (list cell).
Abbreviation ptr := (ptr cell).
Implicit Types m new : mem.

Lemma local_ret {V} (v : V) : local_read (λ _ : mem, snap_ret v).
Proof. intros m v' ls [= <- <-]. split; [set_solver|done]. Qed.

Lemma local_const {V} (s : option V) :
  local_read (λ _ : mem, v ← s; snap_ret v).
Proof. intros m v ls H. destruct s; [|done]. injection H as <- <-. split; [set_solver|done]. Qed.

Lemma local_guard (P : Prop) `{Decision P} : local_read (λ _ : mem, snap_guard P).
Proof.
  intros m v ls. unfold snap_guard. destruct (decide P); [|done].
  intros [= <- <-]. split; [set_solver|done].
Qed.

Lemma local_bind {A B} (f : mem → snapshot A) (k : A → mem → snapshot B) :
  local_read f → (∀ a, local_read (k a)) → local_read (λ m, snap_bind (f m) (λ a, k a m)).
Proof.
  intros Hf Hk m b ls H. simpl in H. snap_inv H.
  destruct (Hf _ _ _ Hs) as [Hd1 Hm1], (Hk _ _ _ _ H) as [Hd2 Hm2].
  split; [set_solver|]. intros m' Hm. eapply snap_bind_ok; [apply Hm1|apply Hm2]; set_solver.
Qed.

Lemma local_cell `{IsCell cell T} l : local_read (snap_cell (T:=T) l).
Proof.
  intros m v ls. unfold snap_cell. destruct (m !! l) as [c|] eqn:E; simpl; [|done].
  destruct (as_val c) as [x|] eqn:Ec; simpl; [|done]. intros [= <- <-].
  split; [by intros ? ->%list_elem_of_singleton; eapply lookup_lt_Some|].
  intros m' Hm. rewrite Hm, E by set_solver. simpl. by rewrite Ec.
Qed.

Lemma local_ptr `{IsCell cell T} {V} (sn : mem → T → snapshot V) r :
  (∀ x, local_read (λ m, sn m x)) → local_read (λ m, snap_ptr sn m r).
Proof.
  intros Hsn. destruct r as [l|]; [|apply local_ret].
  apply local_bind; [apply local_cell|]. intros x. apply local_bind; [apply Hsn|].
  intros v. apply local_ret.
Qed.

Lemma local_list {T V} (sn : mem → T → snapshot V) xs :
  (∀ x, local_read (λ m, sn m x)) → local_read (λ m, snap_list sn m xs).
Proof.
  intros Hsn. induction xs as [|x xs IH]; simpl; [apply local_ret|].
  apply local_bind; [apply Hsn|]. intros v. apply local_bind; [apply IH|].
  intros vs. apply local_ret.
Qed.

Lemma local_slice `{IsCell cell (list T)} {V} (sn : mem → T → snapshot V) r :
  (∀ x, local_read (λ m, sn m x)) → local_read (λ m, snap_slice sn m r).
Proof.
  intros Hsn. destruct r as [w|]; [|apply local_ret].
  apply local_bind; [apply local_cell|]. intros xs.
  apply local_bind; [apply local_guard|]. intros _.
  apply local_bind; [by apply local_list|]. intros vs. apply local_ret.
Qed.

(** A local reading sees neither new cells nor a write elsewhere. *)
Lemma local_old {V T} (f : mem → snapshot V) (o : ptr T) x m new v ls :
  local_read f → f m = Some (v, ls) → p_base o ∉ ls → f (put o x m ++ new) = Some (v, ls).
Proof.
  intros Hf H Ho. destruct (Hf _ _ _ H) as [Hd Hm]. apply Hm. intros l Hl.
  rewrite lookup_app_l by (rewrite length_put; auto).
  apply lookup_put_ne. congruence.
Qed.

Lemma local_new {V T} (f : mem → snapshot V) (o : ptr T) x x' m new new' v ls :
  local_read f → f (put o x m ++ new) = Some (v, ls) → p_base o < length m →
  (∀ l, l ∈ ls → length m ≤ l) → f (put o x' m ++ new ++ new') = Some (v, ls).
Proof.
  intros Hf H Ho Hls. destruct (Hf _ _ _ H) as [Hd Hm]. apply Hm. intros l Hl.
  specialize (Hls l Hl). specialize (Hd l Hl).
  rewrite length_app, length_put in Hd.
  rewrite (lookup_app_r (put o x' m)), (lookup_app_r (put o x m))
    by (rewrite length_put; lia).
  rewrite !length_put.   apply lookup_app_l. lia.
Qed.

Lemma between_nil a b : between a b [].
Proof. split; [constructor|set_solver]. Qed.

Lemma between_weaken a b a' b' ls : between a b ls → a' ≤ a → b ≤ b' → between a' b' ls.
Proof. intros [Hn Hb] ??. split; [done|]. intros l Hl%Hb. lia. Qed.

Lemma between_cons a b ls : between (S a) b ls → a < b → between a b (a :: ls).
Proof.
  intros [Hn Hb] ?. split.
  - constructor; [|done]. intros Ha%Hb. lia.
  - intros l [->|Hl%Hb]%elem_of_cons; lia.
Qed.

Lemma between_app a b c ls ls' :
  between a b ls → between b c ls' → a ≤ b ≤ c → between a c (ls ++ ls').
Proof.
  intros [Hn Hb] [Hn' Hb'] ?. split.
  - apply NoDup_app. split_and!; [done| |done]. intros l ?%Hb ?%Hb'. lia.
  - intros l [?%Hb|?%Hb']%elem_of_app; lia.
Qed.
End snapshots.

(** A reading composed of readings is local. *)
Ltac solve_local :=
  repeat first [apply local_bind; [apply snap_local|intros ?] | apply local_ret].

#[export] Instance readable_map {cell V} : Readable cell (gmap string V) (gmap string V) :=
  {| snap _ x := snap_ret x; snap_local _ := local_ret _ |}.
#[export] Instance readable_ref {cell T V} `{IsCell cell T, Readable cell T V} :
  Readable cell (ref T) (option V) :=
  {| snap := snap_ptr snap; snap_local r := local_ptr _ r snap_local |}.
#[export] Instance readable_sref {cell T V} `{IsCell cell (list T), Readable cell T V} :
  Readable cell (sref T) (option (list V)) :=
  {| snap := snap_slice snap; snap_local r := local_slice _ r snap_local |}.

(** ** Pointers, maps and slices are copied when what they hold is *)

Section copying.
Context {cell : Type}.
Abbreviation mem := (list cell).
Abbreviation ptr := (ptr cell).
Implicit Types m new : mem.

Lemma snap_cell_get `{IsCell cell T} l m (x : T) ls :
  snap_cell l m = Some (x, ls) ↔ get_at (at_ l) m = Some x ∧ ls = [l].
Proof.
  unfold snap_cell, get_at. simpl. destruct (m !! l ≫= as_val); simpl; naive_solver.
Qed.

Lemma alloc_store `{IsCell cell T} {A B} (z : T) (o : ptr (option A)) (g : nat → A) r0
    (k : nat → GoM cell B) m :
  get_at o m = Some r0 →
  (l ← alloc z; _ ← store o (Some (g l)); k l) m =
  k (length m) (put o (Some (g (length m))) m ++ [of_val z]).
Proof.
  intros Ho. rewrite (st_bind_ok _ _ _ (length m) (m ++ [of_val z])) by done.
  rewrite (st_bind_ok _ _ _ _ _ (store_ok _ _ _ _ (get_app _ _ _ _ Ho))).
  by rewrite (put_app _ _ _ _ _ Ho).
Qed.

Lemma unless_nil_run {A} (i : ptr (option A)) r body m :
  get_at i m = Some r →
  unless_nil i body m = if r is Some _ then body m else (Ok (), m).
Proof.
  intros Hi. unfold unless_nil. rewrite (st_bind_ok _ _ _ _ _ (load_ok _ _ _ Hi)).
  by destruct r.
Qed.

(** Nothing to copy. *)
Lemma copies_nil {A V} `{Readable cell (option A) (option V)} (o : ptr (option A)) r0 m :
  get_at o m = Some r0 → nil_ok None r0 → snap m None = Some (None, []) →
  ∃ r' new ls', (Ok (), m) = (Ok (E:=Empty_set) (), put o r' m ++ new) ∧
    snap (put o r' m ++ new) r' = Some (None, ls') ∧
    between (length m) (length m + length new) ls'.
Proof.
  intros Ho Hz Hs. rewrite (Hz eq_refl) in Ho.
  exists None, [], []. rewrite app_nil_r, (put_get _ _ _ Ho).
  split_and!; [done|done|apply between_nil].
Qed.

Lemma copies_new {T V} `{IsCell cell T, Readable cell T V} zero into :
  copies (R:=T) (V:=V) (λ _ _, True) into →
  copies (R:=ref T) (V:=option V) nil_ok (λ i o, unless_nil i (copy_new zero into i o)).
Proof.
  intros Hinto i o m r r0 v ls Hi Ho Hz Hsn Hio Hls. rewrite (unless_nil_run _ _ _ _ Hi).
  destruct r as [l|]; [|injection Hsn as <- <-; by eapply copies_nil].
  simpl in Hsn. snap_inv Hsn. apply snap_cell_get in Hs as [Hx ->].
  rewrite app_nil_r in Hls. pose proof (get_at_lt _ _ _ Hx) as Hl. simpl in Hl.
  assert (p_base o ≠ l ∧ p_base o ∉ ls) as [Hol Hlso] by set_solver.
  unfold copy_new. rewrite (alloc_store _ _ _ _ _ _ Ho).
  set (m1 := put (T:=ref T) o (Some (length m)) m ++ [of_val zero]).
  assert (get_at i m1 = Some (Some l)) as Hi1.
  { apply get_app. by rewrite get_put_ne. }
  assert (get_at o m1 = Some (Some (length m))) as Ho1.
  { apply get_app. by eapply get_put. }
  rewrite (st_bind_ok _ _ _ _ _ (load_ok _ _ _ Hi1)).
  rewrite (st_bind_ok _ _ _ l m1) by done.
  rewrite (st_bind_ok _ _ _ _ _ (load_ok _ _ _ Ho1)).
  rewrite (st_bind_ok _ _ _ (length m) m1) by done.
  edestruct (Hinto (at_ l) (at_ (length m)) m1) as (x' & new & ls' & Hrun & Hs' & Hb).
  - apply get_app. by rewrite get_put_ne.
  - apply get_at_new. by rewrite length_put.
  - done.
  - by apply (local_old _ _ _ _ _ _ _ (snap_local _) Hs0).
  - simpl. lia.
  - simpl. intros Hin. apply (snap_local _ _ _ _ Hs0) in Hin. lia.
  - rewrite Hrun. unfold m1 in Hs', Hb |- *. rewrite length_app, length_put in Hb.
    rewrite put_at_new, <-(assoc_L (++)) in Hs' |- * by (by rewrite length_put).
    exists (Some (length m)), ([of_val x'] ++ new), (length m :: ls').
    split_and!; [done| |].
    + simpl. change (length m :: ls') with ([length m] ++ ls').
      eapply snap_bind_ok.
      * apply snap_cell_get. split; [|done]. apply get_at_new. by rewrite length_put.
      * rewrite <-(app_nil_r ls'). by eapply snap_bind_ok.
    + apply between_cons; [|rewrite length_app; simpl; lia].
      eapply between_weaken; [exact Hb|..]; simpl; lia.
Qed.

Lemma list_to_map_range {V} (mo : map_order) (x : gmap string V) :
  list_to_map (reverse (map_range mo x)) = x.
Proof.
  rewrite <-(list_to_map_to_list x) at 2. apply list_to_map_proper.
  - rewrite reverse_Permutation. apply map_range_NoDup.
  - by rewrite reverse_Permutation, map_range_perm.
Qed.

Lemma map_put_run `{IsCell cell (gmap string V)} l k (v : V) x m :
  get_at (at_ l) m = Some x →
  map_put (Some l) k v m = (Ok (), put (at_ l) (<[k := v]> x) m).
Proof.
  intros Hx. unfold map_put. rewrite (st_bind_ok _ _ _ _ _ (load_ok _ _ _ Hx)).
  by rewrite (store_ok _ _ _ _ Hx).
Qed.

Lemma copies_map `{IsCell cell (gmap string V)} mo :
  copies (R:=ref (gmap string V)) (V:=option (gmap string V)) nil_ok
    (λ i o, unless_nil i (copy_map mo i o)).
Proof.
  intros i o m r r0 v ls Hi Ho Hz Hsn Hio Hls. rewrite (unless_nil_run _ _ _ _ Hi).
  destruct r as [l|]; [|injection Hsn as <- <-; by eapply copies_nil].
  simpl in Hsn. snap_inv Hsn. injection Hsn as <- <-. apply snap_cell_get in Hs as [Hx ->].
  rename a into x. pose proof (get_at_lt _ _ _ Hx) as Hl. simpl in Hl.
  assert (p_base o ≠ l) as Hol by set_solver.
  unfold copy_map. rewrite (alloc_store _ _ _ _ _ _ Ho).
  set (m0 := put (T:=ref (gmap string V)) o (Some (length m)) m).
  assert (length m = length m0) as Hm0 by (symmetry; apply length_put).
  set (st x := m0 ++ [of_val (T:=gmap string V) x]).
  change (put (T:=option nat) o (Some (length m)) m ++ [of_val ∅]) with (st ∅).
  assert (∀ x, get_at i (st x) = Some (Some l)) as Hi1.
  { intros. apply get_app. unfold m0. by rewrite get_put_ne. }
  assert (∀ x, get_at o (st x) = Some (Some (length m))) as Ho1.
  { intros. apply get_app. by eapply get_put. }
  rewrite (st_bind_ok _ _ _ _ _ (load_ok _ _ _ (Hi1 ∅))).
  rewrite (st_bind_ok _ _ _ x (st ∅)).
  2:{ apply load_ok, get_app. unfold m0. by rewrite get_put_ne. }
  destruct (st_iter_rule
    (λ '(k, v), ro ← load o; map_put (cell:=cell) ro k v)
    (λ done s, s = st (list_to_map (reverse done)))
    (map_range (mo (length m)) x) (st ∅)) as (s' & Hrun & ->); [|done|].
  - intros done [k v] rest s _ ->. eexists. split; [|done].
    rewrite (st_bind_ok _ _ _ _ _ (load_ok _ _ _ (Ho1 _))).
    rewrite (map_put_run _ _ _ (list_to_map (reverse done))) by by apply get_at_new.
    f_equal. unfold st. rewrite put_at_new by done. by rewrite reverse_snoc.
  - rewrite list_to_map_range in Hrun. rewrite Hrun.
    exists (Some (length m)), [of_val x], [length m]. split_and!; [done| |].
    + simpl. eapply (snap_bind_ok _ _ x [_] _ []); [|done].
      apply snap_cell_get. split; [|done]. by apply get_at_new.
    + apply between_cons; [apply between_nil|simpl; lia].
Qed.

(** *** Slices *)

Lemma snap_list_length {T V} (sn : mem → T → snapshot V) m xs vs ls :
  snap_list sn m xs = Some (vs, ls) → length vs = length xs.
Proof.
  revert vs ls. induction xs as [|x xs IH]; intros vs ls Hsn; simpl in Hsn; snap_inv Hsn; [done|].
  simpl. f_equal. eauto.
Qed.

Lemma snap_list_lookup {T V} (sn : mem → T → snapshot V) m xs vs ls k x :
  snap_list sn m xs = Some (vs, ls) → xs !! k = Some x →
  ∃ v ls1, vs !! k = Some v ∧ sn m x = Some (v, ls1) ∧ ls1 ⊆ ls.
Proof.
  revert vs ls k. induction xs as [|y xs IH]; intros vs ls k Hsn Hk; [done|].
  simpl in Hsn. snap_inv Hsn. destruct k as [|k]; simpl in Hk.
  - injection Hk as ->. eexists _, _. split_and!; [done|exact Hs|set_solver].
  - destruct (IH _ _ _ Hs0 Hk) as (v & ls3 & ? & ? & ?). exists v, ls3. set_solver.
Qed.

Lemma snap_list_snoc {T V} (sn : mem → T → snapshot V) m xs vs ls x v ls' :
  snap_list sn m xs = Some (vs, ls) → sn m x = Some (v, ls') →
  snap_list sn m (xs ++ [x]) = Some (vs ++ [v], ls ++ ls').
Proof.
  intros Hsn Hx. revert vs ls Hsn. induction xs as [|y xs IH]; intros vs ls Hsn; simpl in *.
  - injection Hsn as <- <-. simpl. rewrite <-(app_nil_r ls').
    eapply snap_bind_ok; [exact Hx|]. reflexivity.
  - snap_inv Hsn. rewrite app_nil_r, <-(assoc_L (++)).
    eapply snap_bind_ok; [exact Hs|]. rewrite <-(app_nil_r (_ ++ ls')).
    eapply snap_bind_ok; [by apply IH|]. reflexivity.
Qed.

Lemma in_window_lookup {T} (w : window) (xs : list T) k :
  k < w_len w → in_window w xs !! k = xs !! (w_off w + k).
Proof. intros. unfold in_window. by rewrite lookup_take_lt, lookup_drop. Qed.

Lemma length_in_window {T} (w : window) (xs : list T) :
  w_off w + w_len w ≤ length xs → length (in_window w xs) = w_len w.
Proof. intros. unfold in_window. rewrite length_take, length_drop. lia. Qed.

Lemma get_elem `{IsCell cell (list T)} w k (xs : list T) m :
  get_at (at_ (w_array w)) m = Some xs → get_at (elem w k) m = xs !! (w_off w + k).
Proof.
  unfold get_at. simpl. destruct (m !! w_array w); simpl; [|done]. by intros ->.
Qed.

Lemma put_elem_new `{IsCell cell (list T)} (xs : list T) x w k m new :
  w_array w = length m →
  put (elem w k) x (m ++ of_val xs :: new) = m ++ of_val (<[w_off w + k := x]> xs) :: new.
Proof.
  intros Hw. unfold put. simpl. rewrite Hw, alter_app_r_alt, Nat.sub_diag by done. simpl.
  unfold elem_set. by rewrite as_of.
Qed.

Lemma index_run `{IsCell cell (list T)} w k m :
  k < w_len w → index (cell:=cell) (T:=T) (Some w) k m = (Ok (elem w k), m).
Proof. intros. unfold index. by rewrite decide_True. Qed.

Lemma local_tail {V} (f : mem → snapshot V) m c c' new new' v ls :
  local_read f → f (m ++ c :: new) = Some (v, ls) → (∀ l, l ∈ ls → S (length m) ≤ l) →
  f (m ++ c' :: new ++ new') = Some (v, ls).
Proof.
  intros Hf H Hls. destruct (Hf _ _ _ H) as [Hd Hm]. apply Hm. intros l Hl.
  specialize (Hls l Hl). specialize (Hd l Hl). rewrite length_app in Hd. simpl in Hd.
  rewrite !(lookup_app_r m) by lia.
  destruct (l - length m) as [|j] eqn:E; [lia|]. simpl. apply lookup_app_l. lia.
Qed.

(** The loop of [copy_slice] when the first elements are copied. *)
Section slice_loop.
Context `{IsCell cell (list T), Readable cell T V}.
Context (Pre : T → T → Prop) (zero : T) (body : ptr T → ptr T → GoM cell ()).
Context (Hbody : copies (V:=V) Pre body) (Hzero : ∀ x, Pre x zero).
Context (i o : ptr (sref T)) (m0 : mem) (wi : window) (xs : list T) (vs : list V).
Abbreviation w := (Window (length m0) 0 (w_len wi)).
Context (Hi : ∀ new, get_at i (m0 ++ new) = Some (Some wi)).
Context (Ho : ∀ new, get_at o (m0 ++ new) = Some (Some w)).
Context (Hxs : ∀ new, get_at (at_ (w_array wi)) (m0 ++ new) = Some xs).
Context (Harr : w_array wi < length m0).
Context (Hlen : w_off wi + w_len wi ≤ length xs).
Context (Hvs : ∀ k x, in_window wi xs !! k = Some x → ∃ v, vs !! k = Some v ∧
  ∀ new, ∃ ls, snap (m0 ++ new) x = Some (v, ls) ∧ length m0 ∉ ls).

Definition copied (done : list nat) (s : mem) : Prop := ∃ ys new ls,
  length ys = length done ∧
  s = m0 ++ of_val (ys ++ replicate (w_len wi - length done) zero) :: new ∧
  snap_list snap s ys = Some (take (length done) vs, ls) ∧
  between (S (length m0)) (S (length m0) + length new) ls.

Lemma copied_step done k s :
  k < w_len wi → length done = k → copied done s →
  ∃ s', (si ← load i; pi ← index si k; so ← load o; po ← index so k; body pi po) s =
    (Ok (), s') ∧ copied (done ++ [k]) s'.
Proof.
  intros Hk <- (ys & new & ls & Hys & -> & Hsn & Hb). set (k := length done) in *.
  assert (∃ x, in_window wi xs !! k = Some x) as [x Hx].
  { apply lookup_lt_is_Some. rewrite length_in_window; done. }
  destruct (Hvs _ _ Hx) as (v & Hv & Hsx).
  replace (w_len wi - k) with (S (w_len wi - S k)) in * by lia. simpl replicate in *.
  set (zs := ys ++ zero :: _) in *. set (s := m0 ++ of_val zs :: new) in *.
  destruct (Hsx (of_val zs :: new)) as (lsx & Hsx' & Hnx). fold s in Hsx'.
  assert (get_at i s = Some (Some wi)) as His by apply Hi.
  assert (get_at o s = Some (Some w)) as Hos by apply Ho.
  rewrite (st_bind_ok _ _ _ _ _ (load_ok _ _ _ His)).
  rewrite (st_bind_ok _ _ _ _ _ (index_run _ _ _ Hk)).
  rewrite (st_bind_ok _ _ _ _ _ (load_ok _ _ _ Hos)).
  rewrite (st_bind_ok _ _ _ _ _ (index_run _ _ _ (Hk : k < w_len w))).
  edestruct (Hbody (elem wi k) (elem w k) s) as (r' & new' & ls' & Hrun & Hs' & Hb').
  - rewrite (get_elem _ _ xs) by apply Hxs. by rewrite <-in_window_lookup.
  - rewrite (get_elem _ _ zs) by (by apply get_at_new). simpl.
    unfold zs. by rewrite list_lookup_middle.
  - apply Hzero.
  - exact Hsx'.
  - simpl. lia.
  - done.
  - assert (<[0 + k:=r']> zs = (ys ++ [r']) ++ replicate (w_len wi - S k) zero) as Hzs.
    { unfold zs. rewrite <-(assoc_L (++)). simpl. rewrite <-Hys.
      by rewrite (Nat.add_0_r (length ys)) || rewrite insert_app_r_alt, Nat.sub_diag by lia. }
    assert (length s = S (length m0) + length new) as Hls.
    { unfold s. rewrite length_app. simpl. lia. }
    unfold s in Hs'. rewrite put_elem_new, <-(assoc_L (++)) in Hs' by done. simpl app in Hs'.
    eexists. split; [exact Hrun|]. unfold s. rewrite put_elem_new, <-(assoc_L (++)) by done.
    exists (ys ++ [r']), (new ++ new'), (ls ++ ls'). rewrite !length_app. simpl length.
    split_and!; [fold k; lia| | |].
    + rewrite Nat.add_1_r. fold k. simpl in Hzs |- *. by rewrite Hzs.
    + rewrite Nat.add_1_r. fold k. rewrite (take_S_r _ _ _ Hv). eapply snap_list_snoc; [|exact Hs'].
      eapply (local_tail (λ m, snap_list snap m ys)); [|exact Hsn|].
      * apply local_list, snap_local.
      * intros l Hl. by apply Hb.
    + eapply between_app; [exact Hb| |lia]. rewrite Hls in Hb'.
      eapply between_weaken; [exact Hb'|..]; lia.
Qed.
End slice_loop.

Lemma seq_split n done k rest : seq 0 n = done ++ k :: rest → length done = k ∧ k < n.
Proof.
  intros Hs. assert (seq 0 n !! length done = Some k) as Hk.
  { by rewrite Hs, list_lookup_middle. }
  apply lookup_seq in Hk as [-> ?]. done.
Qed.

Lemma copies_slice `{IsCell cell (list T), Readable cell T V} (Pre : T → T → Prop) zero body :
  copies (V:=V) Pre body → (∀ x, Pre x zero) →
  copies (R:=sref T) (V:=option (list V)) nil_ok
    (λ i o, unless_nil i (copy_slice zero body i o)).
Proof.
  intros Hbody Hzero i o m r r0 v ls Hi Ho Hz Hsn Hio Hls.
  rewrite (unless_nil_run _ _ _ _ Hi).
  destruct r as [wi|]; [|injection Hsn as <- <-; by eapply copies_nil].
  simpl in Hsn. snap_inv Hsn. apply snap_cell_get in Hs as [Hxs ->]. rename a into xs, a1 into vs.
  unfold snap_guard in Hs0. destruct (decide _) as [Hlen|]; [|done]. injection Hs0 as _ <-.
  pose proof (get_at_lt _ _ _ Hxs) as Harr. simpl in Harr. rewrite app_nil_r in Hls. simpl in Hls.
    assert (p_base o ≠ w_array wi ∧ p_base o ∉ ls1) as [Hoa Hol] by set_solver.
  set (w := Window (length m) 0 (w_len wi)). set (m0 := put (T:=sref T) o (Some w) m).
  assert (length m = length m0) as Hm0 by (symmetry; apply length_put).
  assert (∀ new, get_at i (m0 ++ new) = Some (Some wi)) as Hi1.
  { intros. apply get_app. unfold m0. by rewrite get_put_ne. }
  assert (∀ new, get_at o (m0 ++ new) = Some (Some w)) as Ho1.
  { intros. apply get_app. by eapply get_put. }
  unfold copy_slice. rewrite (st_bind_ok _ _ _ _ _ (load_ok _ _ _ Hi)). simpl slice_len.
  rewrite (alloc_store _ _ (λ l, Window l 0 (w_len wi)) _ _ _ Ho).
  set (s := put _ _ _ ++ _).
  rewrite (st_bind_ok _ _ _ _ _ (load_ok _ _ _ (Hi1 _ : get_at i s = _))). simpl slice_len.
  destruct (st_iter_rule (λ k, si ← load i; pi ← index si k; so ← load o; po ← index so k;
      body pi po) (copied zero m0 wi vs) (seq 0 (w_len wi)) s) as (s' & Hrun & Hcopied).
  - intros done k rest s1 [Hk Hlt]%seq_split Hd.
    apply (copied_step Pre zero body Hbody Hzero i o m0 wi xs vs); try done; try lia.
    + by rewrite <-Hm0.
    + intros. apply get_app. unfold m0. by rewrite get_put_ne.
    + intros k' x Hx. destruct (snap_list_lookup _ _ _ _ _ _ _ Hs1 Hx) as (y & ls0 & Hy & Hsx & Hsub).
      exists y. split; [done|]. intros new. exists ls0. split.
      * by apply (local_old _ _ _ _ _ _ _ (snap_local _) Hsx); set_solver.
      * intros Hin. apply (snap_local _ _ _ _ Hsx) in Hin. lia.
  - exists [], [], []. simpl. rewrite Nat.sub_0_r. split_and!; [done|done|by rewrite take_0|apply between_nil].
  - rewrite Hrun. destruct Hcopied as (ys & new & ls' & Hys & -> & Hsn' & Hb).
    rewrite length_seq in *. rewrite Nat.sub_diag in *. simpl replicate in *.
    rewrite app_nil_r in *. exists (Some w), (of_val ys :: new), (length m :: ls'). split_and!; [done| |].
    + eapply (snap_bind_ok _ _ ys [_]).
      { apply snap_cell_get. split; [|done]. by apply get_at_new. }
      eapply (snap_bind_ok _ _ () []).
      { unfold snap_guard. rewrite decide_True by (simpl; lia). done. }
      rewrite <-(app_nil_r ls'). eapply snap_bind_ok; [|done].
      unfold in_window. simpl. rewrite drop_0, firstn_all2 by lia.
      apply snap_list_length in Hs1. rewrite length_in_window in Hs1 by done.
      rewrite firstn_all2 in Hsn' by lia. exact Hsn'.
    + simpl. rewrite <-Hm0 in Hb. apply between_cons; [|lia].
      eapply between_weaken; [exact Hb|..]; lia.
Qed.

(** *** Structs

    A struct is first copied as it is, then field by field; in between the
    memory is [put o s' m ++ new]: the copy has the value [s'] and the cells
    [new] are allocated. *)

Definition assign {T} (i o : ptr T) : GoM cell () := x ← load i; store o x.

Section structs.
Context {S : Type} (i o : ptr S) (m : mem) (s z : S).
Context (Hi : get_at i m = Some s) (Ho : get_at o m = Some z) (Hio : p_base o ≠ p_base i).

Lemma assign_struct : assign i o m = (Ok (), put o s m ++ []).
Proof.
  unfold assign. rewrite (st_bind_ok _ _ _ _ _ (load_ok _ _ _ Hi)), app_nil_r.
  by apply (store_ok _ z).
Qed.

Lemma get_in s' new : get_at i (put o s' m ++ new) = Some s.
Proof. apply get_app. by rewrite get_put_ne. Qed.

Lemma get_out s' new : get_at o (put o s' m ++ new) = Some s'.
Proof. apply get_app. by eapply get_put. Qed.

Lemma put_field {R} (f : field S R) x s' new :
  put (fld o f) x (put o s' m ++ new) = put o (f_set f x s') m ++ new.
Proof.
  rewrite (put_fld _ _ s') by apply get_out.
  rewrite (put_app _ _ s') by by eapply get_put. by rewrite put_put.
Qed.

Lemma assign_field {R} (f : field S R) s' new :
  assign (fld i f) (fld o f) (put o s' m ++ new) =
  (Ok (), put o (f_set f (f_get f s) s') m ++ new).
Proof.
  unfold assign. rewrite (st_bind_ok _ _ _ (f_get f s) (put o s' m ++ new)).
  - rewrite (store_ok _ (f_get f s')) by (by rewrite get_fld, get_out). by rewrite put_field.
  - apply load_ok. by rewrite get_fld, get_in.
Qed.

Lemma copies_field `{Readable cell R V} Pre into (f : field S R) s' new v ls :
  copies Pre into → snap m (f_get f s) = Some (v, ls) → p_base o ∉ ls →
  Pre (f_get f s) (f_get f s') →
  ∃ q new' ls', let m' := put o (f_set f q s') m ++ new ++ new' in
    into (fld i f) (fld o f) (put o s' m ++ new) = (Ok (), m') ∧
    snap m' q = Some (v, ls') ∧
    between (length m + length new) (length m + length (new ++ new')) ls'.
Proof.
  intros Hc Hs Hls Hp.
  edestruct (Hc (fld i f) (fld o f) (put o s' m ++ new)) as (q & new' & ls' & Hrun & Hs' & Hb).
  - by rewrite get_fld, get_in.
  - by rewrite get_fld, get_out.
  - exact Hp.
  - by apply (local_old _ _ _ _ _ _ _ (snap_local _) Hs).
  - done.
  - done.
  - exists q, new', ls'. rewrite put_field, <-(assoc_L (++)) in Hrun, Hs'.
    rewrite length_app, length_put in Hb. rewrite length_app, Nat.add_assoc.
    split_and!; assumption.
Qed.

End structs.

(** A copied field keeps its value while the other fields are copied. *)
Lemma snap_keep {S} (o : ptr S) z m `{Readable cell R V} (q : R) s1 s2 new new' v a ls :
  get_at o m = Some z → snap (put o s1 m ++ new) q = Some (v, ls) →
  between (length m + a) (length m + length new) ls →
  snap (put o s2 m ++ new ++ new') q = Some (v, ls).
Proof.
  intros Ho Hs Hb. apply (local_new _ _ _ _ _ _ _ _ _ (snap_local _) Hs).
  - by eapply get_at_lt.
  - intros l [? _]%Hb. lia.
Qed.

Lemma snap_same {S} (o : ptr S) z m `{Readable cell R V} (q : R) s1 s2 new v a ls :
  get_at o m = Some z → snap (put o s1 m ++ new) q = Some (v, ls) →
  between (length m + a) (length m + length new) ls →
  snap (put o s2 m ++ new) q = Some (v, ls).
Proof. intros Ho Hs Hb. rewrite <-(app_nil_r new). by eapply snap_keep. Qed.

(** ** [DeepCopy] *)
Lemma DeepCopy_ok {R V} `{IsCell cell R, CopyLaw cell R V} mo m l r v ls :
  get_at (at_ l) m = Some r → snap m r = Some (v, ls) →
  ∃ r' new ls', let m' := m ++ of_val r' :: new in
    DeepCopy (R:=R) mo (Some l) m = (Ok (Some (length m)), m') ∧
    snap m' r' = Some (v, ls') ∧ between (S (length m)) (length m') ls'.
Proof.
  intros Hl Hs. unfold DeepCopy.
  rewrite (st_bind_ok _ _ _ (length m) (m ++ [of_val cp_zero])) by done.
  pose proof (get_at_lt _ _ _ Hl) as Hlt. simpl in Hlt.
  edestruct (cp_law mo (at_ l) (at_ (length m)) (m ++ [of_val cp_zero]))
    as (r' & new & ls' & Hrun & Hs' & Hb).
  - by apply get_app.
  - by apply get_at_new.
  - done.
  - apply (snap_local _ _ _ _ Hs). intros k Hk. apply lookup_app_l.
    by apply (snap_local _ _ _ _ Hs).
  - simpl. lia.
  - simpl. intros Hin. apply (snap_local _ _ _ _ Hs) in Hin. lia.
  - rewrite put_at_new, <-(assoc_L (++)) in Hrun, Hs' by done.
    exists r', new, ls'. split_and!; [by rewrite (st_bind_ok _ _ _ _ _ Hrun)|exact Hs'|].
    rewrite length_app in *. eapply between_weaken; [exact Hb|..]; simpl; lia.
Qed.
End copying.
