(* ===== verification/GoStrings.v ===== *)
(** * The parts of Go's standard library the controller computes with

    [strings] (HasPrefix, ReplaceAll, Split, Join), [strconv] (Atoi, Itoa),
    [path/filepath] on Unix (Base, Clean, Join, Match) and the text escaper of
    [html/template].  Go strings are byte strings, here Rocq [string]s. *)

From Stdlib Require Import Ascii.
From stdpp Require Import base tactics list strings numbers.
From S2P Require Import Prelude.

Local Open Scope string_scope.
#[local] Arguments String.append !_ _ / : simpl nomatch.
#[local] Arguments String.prefix !_ !_ /.

(** ** Characters and strings *)

Fixpoint str_all (P : ascii → bool) (s : string) : bool :=
  match s with
  | "" => true
  | String c s' => P c && str_all P s'
  end.

Definition slash : ascii := "/".
Definition no_char (c : ascii) (s : string) : bool :=
  str_all (λ x, negb (Ascii.eqb x c)) s.

Lemma str_all_app P s t : str_all P (s +:+ t) = str_all P s && str_all P t.
Proof. induction s as [|c s IH]; simpl; [done|]. by rewrite IH, andb_assoc. Qed.

Lemma str_all_impl (P Q : ascii → bool) s :
  (∀ c, P c = true → Q c = true) → str_all P s = true → str_all Q s = true.
Proof.
  intros HPQ. induction s as [|c s IH]; simpl; [done|].
  rewrite !andb_true_iff. intros [??]; auto.
Qed.

Lemma no_char_cons c d s : no_char c (String d s) = true ↔ d ≠ c ∧ no_char c s = true.
Proof. unfold no_char. simpl. by rewrite andb_true_iff, negb_true_iff, Ascii.eqb_neq. Qed.

Lemma no_char_app c s t : no_char c (s +:+ t) = no_char c s && no_char c t.
Proof. apply str_all_app. Qed.

Lemma app_nil_r_str s : s +:+ "" = s.
Proof. induction s as [|c s IH]; simpl; [done|by rewrite IH]. Qed.

Lemma app_assoc_str s t u : (s +:+ t) +:+ u = s +:+ (t +:+ u).
Proof. induction s as [|c s IH]; simpl; [done|by rewrite IH]. Qed.

Lemma length_app_str s t : String.length (s +:+ t) = String.length s + String.length t.
Proof. induction s as [|c s IH]; simpl; auto. Qed.

Lemma app_inj_prefix s1 s2 u1 u2 :
  s1 +:+ u1 = s2 +:+ u2 → String.length s1 = String.length s2 → s1 = s2.
Proof.
  revert s2. induction s1 as [|c s1 IH]; intros [|d s2]; simpl; try done.
  intros [= -> H] [= Hl]. f_equal. eauto.
Qed.

Lemma prefix_app s t : String.prefix s (s +:+ t) = true.
Proof.
  induction s as [|c s IH]; simpl; [by destruct t|].
  destruct (Ascii.ascii_dec c c); [apply IH|done].
Qed.

Lemma prefix_true_inv s t : String.prefix s t = true → ∃ u, t = s +:+ u.
Proof.
  revert t. induction s as [|c s IH]; intros t H; [by exists t|].
  destruct t as [|d t]; simpl in H; [done|].
  destruct (Ascii.ascii_dec c d) as [->|]; [|done].
  destruct (IH t H) as [u ->]. by exists u.
Qed.

(** ** Package strings *)

Definition HasPrefix (s p : string) : bool := String.prefix p s.

(** [strings.ReplaceAll] for a non-empty [old]: the matches are found from
    left to right and do not overlap.  [skip] counts the bytes of a match that
    are still to be dropped. *)
Fixpoint replace_go (old new s : string) (skip : nat) : string :=
  match s with
  | "" => ""
  | String c s' =>
      match skip with
      | S k => replace_go old new s' k
      | 0 => if String.prefix old s
             then new +:+ replace_go old new s' (String.length old - 1)
             else String c (replace_go old new s' 0)
      end
  end.
Definition ReplaceAll (s old new : string) : string := replace_go old new s 0.

(** [strings.Split] for a non-empty separator; [cur] is the piece being read. *)
Fixpoint split_go (sep s : string) (skip : nat) (cur : string) : list string :=
  match s with
  | "" => [cur]
  | String c s' =>
      match skip with
      | S k => split_go sep s' k cur
      | 0 => if String.prefix sep s
             then cur :: split_go sep s' (String.length sep - 1) ""
             else split_go sep s' 0 (cur +:+ String c "")
      end
  end.
Definition Split (s sep : string) : list string := split_go sep s 0 "".

(** [strings.Join]. *)
Fixpoint Join (elems : list string) (sep : string) : string :=
  match elems with
  | [] => ""
  | [e] => e
  | e :: es => e +:+ sep +:+ Join es sep
  end.

(** [strings.ToLower] on ASCII. *)
Definition lower_chr (c : ascii) : ascii :=
  let n := nat_of_ascii c in
  if ((65 <=? n) && (n <=? 90))%nat then ascii_of_nat (n + 32) else c.
Fixpoint ToLower (s : string) : string :=
  match s with "" => "" | String c s' => String (lower_chr c) (ToLower s') end.

(** ** Package strconv *)

Definition digit_val (c : ascii) : option Z :=
  let d := (Z.of_nat (nat_of_ascii c) - 48)%Z in
  if ((0 <=? d) && (d <=? 9))%Z then Some d else None.

Definition digit_chr (d : Z) : ascii := ascii_of_nat (Z.to_nat (48 + d)).

Definition is_digit (c : ascii) : bool := bool_decide (is_Some (digit_val c)).

Fixpoint parse_digits (s : string) (acc : Z) : option Z :=
  match s with
  | "" => Some acc
  | String c s' =>
      match digit_val c with
      | Some d => parse_digits s' (acc * 10 + d)%Z
      | None => None
      end
  end.

(** [strconv.Atoi]: an optional sign, one digit or more, nothing else, and the
    value within [int]; [None] stands for the returned error. *)
Definition Atoi (s : string) : option Z :=
  let '(neg, ds) :=
    match s with
    | String "-" r => (true, r)
    | String "+" r => (false, r)
    | _ => (false, s)
    end in
  match ds with
  | "" => None
  | _ =>
      n ← parse_digits ds 0;
      let z := (if neg then - n else n)%Z in
      if ((- two63 <=? z) && (z <? two63))%Z then Some z else None
  end.

(** [strconv.Itoa]; the fuel is at least the number of decimal digits. *)
Fixpoint fmt_digits (fuel : nat) (n : Z) (acc : string) : string :=
  match fuel with
  | 0 => acc
  | S f =>
      let acc' := String (digit_chr (n `mod` 10)) acc in
      if (n <? 10)%Z then acc' else fmt_digits f (n `div` 10) acc'
  end.

Definition fmt_nat (n : Z) : string := fmt_digits (S (Z.to_nat (Z.log2 n))) n "".

Definition Itoa (z : Z) : string :=
  if (z <? 0)%Z then String "-" (fmt_nat (- z)) else fmt_nat z.

(** ** Package path/filepath (Unix) *)

(** [trim_slashes] removes the trailing slashes; [last_elem] is what follows
    the last slash. *)
Fixpoint trim_slashes (s : string) : string :=
  match s with
  | "" => ""
  | String c s' =>
      match trim_slashes s' with
      | "" => if Ascii.eqb c slash then "" else String c ""
      | r => String c r
      end
  end.

Fixpoint last_elem (s cur : string) : string :=
  match s with
  | "" => cur
  | String c s' =>
      if Ascii.eqb c slash then last_elem s' "" else last_elem s' (cur +:+ String c "")
  end.

Definition Base (path : string) : string :=
  match path with
  | "" => "."
  | _ => match last_elem (trim_slashes path) "" with
         | "" => "/"
         | e => e
         end
  end.

(** [filepath.Clean]: the elements are processed from left to right, [out]
    holds the elements kept so far, the last one first. *)
Definition clean_step (rooted : bool) (out : list string) (e : string) : list string :=
  if decide (e = "" ∨ e = ".") then out
  else if decide (e = "..") then
    match out with
    | x :: out' => if decide (x = "..") then e :: out else out'
    | [] => if rooted then [] else [e]
    end
  else e :: out.

Definition clean_elems (rooted : bool) (es : list string) : list string :=
  reverse (foldl (clean_step rooted) [] es).

Definition Clean (path : string) : string :=
  let rooted := String.prefix "/" path in
  let body := Join (clean_elems rooted (Split path "/")) "/" in
  if rooted then "/" +:+ body
  else match body with "" => "." | _ => body end.

(** [filepath.Join]: the leading empty elements are dropped. *)
Fixpoint FJoin (elems : list string) : string :=
  match elems with
  | [] => ""
  | "" :: es => FJoin es
  | _ => Clean (Join elems "/")
  end.

(** [filepath.Match] on patterns made of literal characters and ['*'];
    [None] is the malformed-pattern error, given here for every pattern with
    a ['?'], a character class or an escape, which no caller uses. *)
Definition glob_plain (c : ascii) : bool :=
  negb (Ascii.eqb c "?" || Ascii.eqb c "[" || Ascii.eqb c "]" || Ascii.eqb c "\").

Fixpoint glob (p : string) : string → bool :=
  match p with
  | "" => λ s, match s with "" => true | _ => false end
  | String c p' =>
      if Ascii.eqb c "*" then
        fix star (s : string) : bool :=
          glob p' s ||
          match s with
          | "" => false
          | String d s' => negb (Ascii.eqb d slash) && star s'
          end
      else λ s, match s with
                | "" => false
                | String d s' => Ascii.eqb c d && glob p' s'
                end
  end.

Definition Match (pattern name : string) : option bool :=
  if str_all glob_plain pattern then Some (glob pattern name) else None.

(** ** Package html/template: the escaper of a text context *)

Definition html_chr (c : ascii) : string :=
  if Ascii.eqb c "034" then "&#34;"
  else if Ascii.eqb c "&" then "&amp;"
  else if Ascii.eqb c "'" then "&#39;"
  else if Ascii.eqb c "+" then "&#43;"
  else if Ascii.eqb c "<" then "&lt;"
  else if Ascii.eqb c ">" then "&gt;"
  else if Ascii.eqb c "000" then String "239" (String "191" (String "189" ""))
  else String c "".

Fixpoint html_escape (s : string) : string :=
  match s with
  | "" => ""
  | String c s' => html_chr c +:+ html_escape s'
  end.

(** ** Lemmas: decimal numerals *)

Lemma digit_val_chr d : (0 ≤ d < 10)%Z → digit_val (digit_chr d) = Some d.
Proof.
  intros H. assert (d = 0 ∨ d = 1 ∨ d = 2 ∨ d = 3 ∨ d = 4 ∨ d = 5 ∨ d = 6 ∨
    d = 7 ∨ d = 8 ∨ d = 9)%Z as Hd by lia.
  by destruct_or! Hd; subst.
Qed.

Lemma parse_fmt_digits fuel n acc :
  (0 ≤ n < 2 ^ Z.of_nat fuel)%Z → (0 < fuel)%nat →
  parse_digits (fmt_digits fuel n acc) 0 = parse_digits acc n.
Proof.
  revert n acc. induction fuel as [|fuel IH]; intros n acc Hn Hf; [lia|].
  cbn [fmt_digits]. pose proof (Z.mod_pos_bound n 10 ltac:(lia)) as Hm.
  pose proof (Z.div_mod n 10 ltac:(lia)) as Hdm.
  destruct (Z.ltb_spec n 10).
  - simpl. rewrite digit_val_chr by lia. f_equal. rewrite Z.mod_small; lia.
  - rewrite Nat2Z.inj_succ, Z.pow_succ_r in Hn by lia.
    rewrite IH.
    + simpl. rewrite digit_val_chr by lia. f_equal. lia.
    + split; [apply Z.div_pos; lia|]. apply Z.div_lt_upper_bound; lia.
    + destruct fuel; simpl in *; lia.
Qed.

(** The fuel of [fmt_nat] is enough for every natural number. *)
Lemma parse_fmt_nat n : (0 ≤ n)%Z → parse_digits (fmt_nat n) 0 = Some n.
Proof.
  intros Hn. unfold fmt_nat. rewrite parse_fmt_digits; [done| |lia].
  split; [lia|]. rewrite Nat2Z.inj_succ, Z2Nat.id by apply Z.log2_nonneg.
  destruct (decide (n = 0)%Z) as [->|]; [done|]. apply Z.log2_spec. lia.
Qed.

Lemma is_digit_chr d : (0 ≤ d < 10)%Z → is_digit (digit_chr d) = true.
Proof. intros. apply bool_decide_eq_true. rewrite digit_val_chr by done. eauto. Qed.

Lemma fmt_digits_all fuel n acc :
  (0 ≤ n)%Z → str_all is_digit acc = true → str_all is_digit (fmt_digits fuel n acc) = true.
Proof.
  revert n acc. induction fuel as [|fuel IH]; intros n acc Hn Ha; [done|]. cbn [fmt_digits].
  pose proof (Z.mod_pos_bound n 10 ltac:(lia)).
  assert (str_all is_digit (String (digit_chr (n `mod` 10)) acc) = true)
    by (simpl; by rewrite is_digit_chr, Ha by lia).
  destruct (n <? 10)%Z; [done|]. apply IH; [|done]. apply Z.div_pos; lia.
Qed.

Lemma fmt_nat_all n : (0 ≤ n)%Z → str_all is_digit (fmt_nat n) = true.
Proof. intros. by apply fmt_digits_all. Qed.

Lemma fmt_digits_cons fuel n acc :
  (0 < fuel)%nat ∨ acc ≠ "" → ∃ c s, fmt_digits fuel n acc = String c s.
Proof.
  revert n acc. induction fuel as [|fuel IH]; intros n acc H; cbn [fmt_digits].
  - destruct acc; [destruct H; [lia|done]|eauto].
  - destruct (n <? 10)%Z; [eauto|]. apply IH. by right.
Qed.

Lemma fmt_nat_cons n : ∃ c s, fmt_nat n = String c s.
Proof. apply fmt_digits_cons. left. lia. Qed.

Lemma digit_not_sign c : is_digit c = true → c ≠ "-"%char ∧ c ≠ "+"%char ∧ c ≠ "v"%char.
Proof. intros H. split_and!; intros ->; vm_compute in H; discriminate. Qed.

(** [strconv.Atoi] reads back what [strconv.Itoa] prints, on the range of [int]. *)
Lemma Atoi_Itoa z : (- two63 ≤ z < two63)%Z → Atoi (Itoa z) = Some z.
Proof.
  intros Hz. unfold Itoa. destruct (Z.ltb_spec z 0).
  - unfold Atoi. destruct (fmt_nat_cons (- z)) as (c & s & Hf). rewrite Hf, <-Hf.
    rewrite parse_fmt_nat by lia. simpl. rewrite Z.opp_involutive.
    destruct (Z.leb_spec (- two63) z), (Z.ltb_spec z two63); simpl; [done|lia..].
  - destruct (fmt_nat_cons z) as (c & s & Hf).
    pose proof (fmt_nat_all z ltac:(lia)) as Ha. rewrite Hf in Ha. simpl in Ha.
    apply andb_true_iff in Ha as [Hc _]. apply digit_not_sign in Hc as (Hm & Hp & _).
    unfold Atoi. rewrite Hf.
    assert ((match String c s with
             | String "-" r => (true, r) | String "+" r => (false, r)
             | _ => (false, String c s) end) = (false, String c s)) as ->.
    { destruct c as [[] [] [] [] [] [] [] []]; done. }
    cbv beta iota. rewrite <-Hf, parse_fmt_nat by lia. simpl.
    destruct (Z.leb_spec (- two63) z), (Z.ltb_spec z two63); simpl; [done|lia..].
Qed.

Lemma Atoi_range s z : Atoi s = Some z → (- two63 ≤ z < two63)%Z.
Proof.
  unfold Atoi. destruct (match s with String "-" r => _ | _ => _ end) as [neg ds].
  destruct ds; [done|].
  destruct (parse_digits _ _) as [n|]; simpl; [|done].
  set (z' := (if neg then - n else n)%Z).
  destruct (Z.leb_spec (- two63) z'), (Z.ltb_spec z' two63); simpl;
    intros; simplify_eq; lia.
Qed.

(** ** Lemmas: replacing and splitting *)

Lemma replace_absent c new s :
  no_char c s = true → ReplaceAll s (String c "") new = s.
Proof.
  unfold ReplaceAll. induction s as [|d s IH]; simpl; [done|].
  rewrite no_char_cons. intros [Hd Hs].
  destruct (Ascii.ascii_dec c d); [congruence|]. by rewrite IH.
Qed.

Lemma replace_cons c s : ReplaceAll (String c s) (String c "") "" = ReplaceAll s (String c "") "".
Proof.
  unfold ReplaceAll. simpl. destruct (Ascii.ascii_dec c c); [|done]. by destruct s.
Qed.

Lemma Itoa_no_v z : no_char "v" (Itoa z) = true.
Proof.
  assert (∀ n, (0 ≤ n)%Z → no_char "v" (fmt_nat n) = true) as Hd.
  { intros n Hn. eapply str_all_impl; [|by apply fmt_nat_all].
    intros c (_ & _ & Hc)%digit_not_sign. apply negb_true_iff.
    by apply Ascii.eqb_neq. }
  unfold Itoa. destruct (Z.ltb_spec z 0); [simpl; unfold no_char in *; simpl|]; apply Hd; lia.
Qed.

Lemma split_go_cons_ne sep s skip cur : split_go sep s skip cur ≠ [].
Proof.
  revert skip cur. induction s as [|c s IH]; intros [|skip] cur; simpl;
    [discriminate|discriminate| |apply IH].
  destruct (String.prefix sep (String c s)); [discriminate|apply IH].
Qed.

Lemma Join_cons e es sep : es ≠ [] → Join (e :: es) sep = e +:+ sep +:+ Join es sep.
Proof. by destruct es. Qed.

Fixpoint str_drop (n : nat) (s : string) : string :=
  match n, s with
  | S n', String _ s' => str_drop n' s'
  | _, _ => s
  end.

Lemma str_drop_app s t : str_drop (String.length s) (s +:+ t) = t.
Proof. induction s as [|c s IH]; simpl; auto. Qed.

Lemma split_go_join sep s skip cur :
  sep ≠ "" → Join (split_go sep s skip cur) sep = cur +:+ str_drop skip s.
Proof.
  intros Hsep. revert skip cur.
  induction s as [|c s IH]; intros [|skip] cur; simpl.
  - by rewrite app_nil_r_str.
  - by rewrite app_nil_r_str.
  - destruct (String.prefix sep (String c s)) eqn:Hp.
    + rewrite Join_cons by apply split_go_cons_ne. rewrite IH. f_equal. simpl.
      apply prefix_true_inv in Hp as [u Hu]. destruct sep as [|d sep]; [done|].
      simpl in Hu. injection Hu as -> ->. simpl.
      by rewrite Nat.sub_0_r, str_drop_app.
    + rewrite IH. by rewrite app_assoc_str.
  - apply IH.
Qed.

(** [strings.Join (strings.Split s sep) sep] is [s]. *)
Lemma Join_Split s sep : sep ≠ "" → Join (Split s sep) sep = s.
Proof. intros. unfold Split. by rewrite split_go_join. Qed.

Lemma split_go_no_char d s cur :
  no_char d s = true → split_go (String d "") s 0 cur = [cur +:+ s].
Proof.
  revert cur. induction s as [|c s IH]; intros cur; simpl.
  { by rewrite app_nil_r_str. }
  rewrite no_char_cons. intros [Hc Hs].
  destruct (Ascii.ascii_dec d c); [congruence|].
  rewrite IH by done. by rewrite app_assoc_str.
Qed.

Lemma split_go_app d a s cur :
  no_char d a = true →
  split_go (String d "") (a +:+ String d s) 0 cur = (cur +:+ a) :: Split s (String d "").
Proof.
  revert cur. induction a as [|c a IH]; intros cur; simpl.
  { intros _. destruct (Ascii.ascii_dec d d); [|done].
    rewrite app_nil_r_str. by destruct s. }
  rewrite no_char_cons. intros [Hc Hs].
  destruct (Ascii.ascii_dec d c); [congruence|].
  rewrite IH by done. by rewrite app_assoc_str.
Qed.

(** Splitting at a one-character separator undoes the join of pieces that do
    not hold it. *)
Lemma Split_Join d l :
  l ≠ [] → Forall (λ e, no_char d e = true) l →
  Split (Join l (String d "")) (String d "") = l.
Proof.
  intros Hl Hf. induction Hf as [|e l He Hf IH]; [done|].
  destruct l as [|e' l]; [by apply split_go_no_char|].
  rewrite Join_cons by done. unfold Split. simpl.
  rewrite split_go_app by done. f_equal. apply IH. done.
Qed.

(** No piece holds a one-character separator. *)
Lemma split_go_pieces d s cur :
  no_char d cur = true →
  Forall (λ e, no_char d e = true) (split_go (String d "") s 0 cur).
Proof.
  revert cur. induction s as [|c s IH]; intros cur Hc; simpl; [by repeat constructor|].
  destruct (Ascii.ascii_dec d c) as [<-|Hne].
  - assert (String.prefix "" s = true) as -> by by destruct s. constructor; [done|]. by apply IH.
  - apply IH. rewrite no_char_app, Hc. by apply no_char_cons.
Qed.

Lemma Split_no_char d s : Forall (λ e, no_char d e = true) (Split s (String d "")).
Proof. by apply split_go_pieces. Qed.

(** ** Lemmas: globs *)

Lemma glob_literal p s :
  no_char "*" p = true → glob p s = true ↔ s = p.
Proof.
  revert s. induction p as [|c p IH]; intros s; [by destruct s|].
  rewrite no_char_cons. intros [Hc Hp]. simpl.
  destruct (Ascii.eqb_spec c "*"); [done|]. destruct s as [|d s]; [done|].
  rewrite andb_true_iff, Ascii.eqb_eq, IH by done.
  split; [by intros [-> ->]|by intros [= -> ->]].
Qed.

Lemma glob_star_suffix p s :
  no_char "*" p = true →
  glob (String "*" p) s = true ↔ ∃ stem, s = stem +:+ p ∧ no_char slash stem = true.
Proof.
  intros Hp. change (glob (String "*" p)) with
    (fix star (s : string) : bool :=
       glob p s || match s with "" => false
                   | String d s' => negb (Ascii.eqb d slash) && star s' end).
  induction s as [|d s IH]; rewrite orb_true_iff, glob_literal by done.
  - split; [intros [<-|?]; [by exists ""|done]|].
    intros ([] & Hs & _); [by left|done].
  - rewrite andb_true_iff, negb_true_iff, Ascii.eqb_neq, IH. split.
    + intros [<-|(Hd & stem & -> & Hs)]; [by exists ""|].
      exists (String d stem). by rewrite no_char_cons.
    + intros ([|x stem] & Heq & Hs); simpl in Heq; [by left|].
      injection Heq as -> ->. apply no_char_cons in Hs as [??]. right. eauto.
Qed.

(** ** Lemmas: paths *)

Lemma last_elem_no_slash s cur : no_char slash s = true → last_elem s cur = cur +:+ s.
Proof.
  revert cur. induction s as [|c s IH]; intros cur; simpl.
  { by rewrite app_nil_r_str. }
  rewrite no_char_cons. intros [Hc Hs]. apply Ascii.eqb_neq in Hc as ->.
  rewrite IH by done. by rewrite app_assoc_str.
Qed.

Lemma last_elem_app a b cur : last_elem (a +:+ String slash b) cur = last_elem b "".
Proof.
  revert cur. induction a as [|c a IH]; intros cur; simpl; [done|].
  by destruct (Ascii.eqb c slash).
Qed.

Lemma last_elem_out s cur :
  no_char slash cur = true → no_char slash (last_elem s cur) = true.
Proof.
  revert cur. induction s as [|c s IH]; intros cur Hc; simpl; [done|].
  destruct (Ascii.eqb c slash) eqn:E; apply IH; [done|].
  rewrite no_char_app, Hc. simpl. rewrite no_char_cons. by apply Ascii.eqb_neq in E.
Qed.

Lemma trim_slashes_app a c b :
  no_char slash (String c b) = true → trim_slashes (a +:+ String c b) = a +:+ String c b.
Proof.
  intros Hb. induction a as [|d a IH]; simpl.
  - apply no_char_cons in Hb as [Hc Hb]. apply Ascii.eqb_neq in Hc.
    assert (trim_slashes b = b) as ->.
    { clear -Hb. induction b as [|e b IH]; simpl; [done|].
      apply no_char_cons in Hb as [He Hb]. rewrite IH by done.
      apply Ascii.eqb_neq in He as ->. by destruct b. }
    rewrite Hc. by destruct b.
  - rewrite IH. by destruct a.
Qed.

(** The base of a path is ["/"] or holds no slash. *)
Lemma Base_slash p : Base p = "/" ∨ no_char slash (Base p) = true.
Proof.
  destruct p as [|c p]; [by right|].
  assert (Base (String c p) =
    match last_elem (trim_slashes (String c p)) "" with "" => "/" | e => e end) as -> by done.
  pose proof (last_elem_out (trim_slashes (String c p)) "" eq_refl).
  destruct (last_elem _ _); auto.
Qed.

Lemma Base_app a c b :
  no_char slash (String c b) = true → Base (a +:+ String slash (String c b)) = String c b.
Proof.
  intros Hb. unfold Base. destruct (a +:+ _) eqn:E; [by destruct a|]. rewrite <-E.
  assert (a +:+ String slash (String c b) = (a +:+ String slash "") +:+ String c b) as ->
    by by rewrite app_assoc_str.
  rewrite trim_slashes_app by done. rewrite app_assoc_str. simpl.
  rewrite last_elem_app, last_elem_no_slash by done. done.
Qed.

Lemma Base_plain c b : no_char slash (String c b) = true → Base (String c b) = String c b.
Proof.
  intros Hb. unfold Base. pose proof (trim_slashes_app "" c b Hb) as Ht.
  simpl String.append in Ht. rewrite Ht, last_elem_no_slash by done. done.
Qed.

(** A path element that [Clean] keeps. *)
Definition plain_elem (e : string) : Prop :=
  e ≠ "" ∧ e ≠ "." ∧ e ≠ ".." ∧ no_char slash e = true.

#[export] Instance plain_elem_dec e : Decision (plain_elem e).
Proof. unfold plain_elem. apply _. Defined.

Lemma clean_elems_plain rooted es : Forall plain_elem es → clean_elems rooted es = es.
Proof.
  intros H. unfold clean_elems.
  assert (∀ out, foldl (clean_step rooted) out es = (reverse es ++ out)%list) as ->.
  { induction H as [|e es (?&?&?&?) H IH]; intros out; [done|]. simpl.
    unfold clean_step at 2. rewrite decide_False by (intros [?|?]; done).
    rewrite decide_False by done. rewrite IH.
    by rewrite reverse_cons, <-(assoc_L (++)). }
  by rewrite app_nil_r, reverse_involutive.
Qed.

Lemma Join_plain_cons es : es ≠ [] → Forall plain_elem es →
  ∃ c s, Join es "/" = String c s ∧ c ≠ slash.
Proof.
  intros Hne Hf. destruct es as [|e es]; [done|].
  apply Forall_cons_1 in Hf as [(Hn & _ & _ & Hs) _].
  destruct e as [|c e]; [done|]. apply no_char_cons in Hs as [Hc _].
  destruct es; [by eauto|]. rewrite Join_cons by done. simpl. eauto.
Qed.

Lemma Clean_plain es : es ≠ [] → Forall plain_elem es → Clean (Join es "/") = Join es "/".
Proof.
  intros Hne Hf. unfold Clean. rewrite Split_Join; [|done|].
  2:{ eapply Forall_impl; [|exact Hf]. by intros e (_&_&_&?). }
  rewrite clean_elems_plain by done.
  destruct (Join_plain_cons es Hne Hf) as (c & s & -> & Hc).
  destruct (String.prefix "/" (String c s)) eqn:E; [|done].
  apply prefix_true_inv in E as [u [= -> _]]. done.
Qed.

Lemma Join_app_Join es1 es2 sep : es1 ≠ [] → es2 ≠ [] →
  Join [Join es1 sep; Join es2 sep] sep = Join (es1 ++ es2)%list sep.
Proof.
  intros H1 H2. simpl. induction es1 as [|e es1 IH]; [done|].
  destruct es1 as [|e' es1]; [by destruct es2|].
  rewrite (Join_cons e (e' :: es1)) by done. simpl app.
  rewrite (Join_cons e) by done. rewrite !app_assoc_str. do 2 f_equal. by apply IH.
Qed.

(** Joining a directory and a path made of plain elements concatenates them. *)
Lemma FJoin_plain ds es :
  ds ≠ [] → es ≠ [] → Forall plain_elem ds → Forall plain_elem es →
  FJoin [Join ds "/"; Join es "/"] = Join (ds ++ es)%list "/".
Proof.
  intros Hd He Hfd Hfe. pose proof (Join_app_Join ds es "/" Hd He) as HJ.
  destruct (Join_plain_cons ds Hd Hfd) as (c & s & Hj & Hc). rewrite Hj in HJ |- *.
  change (FJoin [String c s; Join es "/"]) with (Clean (Join [String c s; Join es "/"] "/")).
  rewrite HJ. apply Clean_plain; [by destruct ds|]. by apply Forall_app.
Qed.

Lemma Base_Join es e : plain_elem e → Base (Join (es ++ [e])%list "/") = e.
Proof.
  intros (Hn & _ & _ & Hs). destruct e as [|c e]; [done|].
  destruct (decide (es = [])) as [->|Hne]; [by apply Base_plain|].
  rewrite <-Join_app_Join by done.
  change (Join [Join es "/"; Join [String c e] "/"] "/")
    with (Join es "/" +:+ String slash (String c e)).
  by apply Base_app.
Qed.
