(* ===== verification/GoFlag.v ===== *)
(** * Package flag

    [flag.Parse] on the command line, for the flags that main declares and those
    that libraries have registered.  The set of flags exits on an error, so that
    parsing ends with the variables set or with an exit status. *)

From Stdlib Require Import Ascii.
From stdpp Require Import base tactics list strings.
From S2P Require Import Prelude.
From S2P Require Import GoStrings.

Local Open Scope string_scope.

(** ** Values *)

(** [strconv.ParseBool]. *)
Definition ParseBool (s : string) : option bool :=
  if decide (s ∈ ["1"; "t"; "T"; "true"; "TRUE"; "True"]) then Some true
  else if decide (s ∈ ["0"; "f"; "F"; "false"; "FALSE"; "False"]) then Some false
  else None.

Lemma ParseBool_text (b : bool) : ParseBool (if b then "true" else "false") = Some b.
Proof. by destruct b. Qed.

(** ** Arguments *)

(** The text before the first equals sign, and the text after it. *)
Fixpoint cut_equals (s : string) : string * option string :=
  match s with
  | "" => ("", None)
  | String c s' =>
      if ascii_dec c "=" then ("", Some s')
      else let '(name, v) := cut_equals s' in (String c name, v)
  end.

(** What an argument is. *)
Inductive argument :=
  | NoFlag                                         (** parsing stops *)
  | BadSyntax
  | IsFlag (name : string) (value : option string).

Definition flag_name (s : string) : argument :=
  match s with
  | "" => BadSyntax
  | String c _ =>
      if ascii_dec c "-" then BadSyntax
      else if ascii_dec c "=" then BadSyntax
      else let '(name, v) := cut_equals s in IsFlag name v
  end.

Definition classify (s : string) : argument :=
  match s with
  | String c (String d s') =>
      if ascii_dec c "-" then
        if ascii_dec d "-" then
          match s' with "" => NoFlag | _ => flag_name s' end
        else flag_name (String d s')
      else NoFlag
  | _ => NoFlag
  end.

(** ** Parsing *)

Section parse.
Context {V : Type}.      (* the variables the flags are bound to *)

(** [flag.Value]: setting it may fail. *)
Record Flag := { IsBoolFlag : bool; FlagSet : string → V → option V }.

Context (formal : string → option Flag).

(** The status [os.Exit] is called with, or the variables. *)
Fixpoint Parse (args : list string) (st : V) : Z + V :=
  match args with
  | [] => inr st
  | s :: args' =>
      match classify s with
      | NoFlag => inr st
      | BadSyntax => inl 2%Z
      | IsFlag name value =>
          match formal name with
          | None => inl (if decide (name ∈ ["help"; "h"]) then 0%Z else 2%Z)
          | Some f =>
              let set v rest :=
                match FlagSet f v st with Some st' => Parse rest st' | None => inl 2%Z end in
              if IsBoolFlag f then set (default "true" value) args'
              else
                match value, args' with
                | Some v, _ => set v args'
                | None, v :: args'' =>
                    match FlagSet f v st with Some st' => Parse args'' st' | None => inl 2%Z end
                | None, [] => inl 2%Z
                end
          end
      end
  end.

End parse.
#[global] Arguments Flag : clear implicits.

(** ** How a setting is spelled *)

(** A name that can be given as a flag. *)
Definition flag_word (name : string) : bool :=
  match name with
  | "" => false
  | String c _ => negb (Ascii.eqb c "-") && no_char "=" name
  end.

(** The arguments that give the value [v] to the flag [name]. *)
Inductive spells (is_bool : bool) (name v : string) : list string → Prop :=
  | spells_equals dash :
      dash ∈ ["-"; "--"] → spells is_bool name v [dash +:+ name +:+ "=" +:+ v]
  | spells_next dash :
      dash ∈ ["-"; "--"] → is_bool = false → spells is_bool name v [dash +:+ name; v]
  | spells_alone dash :
      dash ∈ ["-"; "--"] → is_bool = true → v = "true" → spells is_bool name v [dash +:+ name].

(** ** Lemmas *)

Lemma cut_equals_word name v :
  no_char "=" name = true → cut_equals (name +:+ String "=" v) = (name, Some v).
Proof.
  unfold no_char. induction name as [|c s IH]; simpl; [done|].
  intros [Hc Hs]%andb_true_iff. destruct (ascii_dec c "=") as [->|_]; [done|]. by rewrite IH.
Qed.

Lemma cut_equals_none name : no_char "=" name = true → cut_equals name = (name, None).
Proof.
  unfold no_char. induction name as [|c s IH]; simpl; [done|].
  intros [Hc Hs]%andb_true_iff. destruct (ascii_dec c "=") as [->|_]; [done|]. by rewrite IH.
Qed.

Lemma flag_name_word name t n v :
  flag_word name = true → cut_equals (name +:+ t) = (n, v) → flag_name (name +:+ t) = IsFlag n v.
Proof.
  destruct name as [|c s]; [done|]. unfold flag_word. intros [Hd He]%andb_true_iff Hc.
  change (String c s +:+ t) with (String c (s +:+ t)) in *. unfold flag_name.
  destruct (ascii_dec c "-") as [->|_]; [done|].
  destruct (ascii_dec c "=") as [->|_]; [done|]. by rewrite Hc.
Qed.

Lemma classify_word dash name t n v :
  dash ∈ ["-"; "--"] → flag_word name = true → cut_equals (name +:+ t) = (n, v) →
  classify (dash +:+ name +:+ t) = IsFlag n v.
Proof.
  intros Hdash Hw Hc. pose proof (flag_name_word _ _ _ _ Hw Hc) as Hf.
  destruct name as [|c s]; [done|].
  assert (c ≠ "-"%char) as Hne.
  { intros ->. by apply andb_true_iff in Hw as [??]. }
  repeat (apply elem_of_cons in Hdash as [->|Hdash]); [| |by apply not_elem_of_nil in Hdash].
  - change ("-" +:+ String c s +:+ t) with (String "-" (String c (s +:+ t))).
    unfold classify. destruct (ascii_dec "-" "-"); [|done]. by destruct (ascii_dec c "-").
  - change ("--" +:+ String c s +:+ t) with (String "-" (String "-" (String c (s +:+ t)))).
    unfold classify. destruct (ascii_dec "-" "-"); [|done]. exact Hf.
Qed.

Lemma str_app_nil s : s +:+ "" = s.
Proof. induction s as [|c s IH]; simpl; [done|]. change (String c s +:+ "") with (String c (s +:+ "")). by rewrite IH. Qed.

(** Arguments that spell a setting make it. *)
Lemma Parse_setting {V} (formal : string → option (Flag V)) name v l rest f st :
  formal name = Some f → flag_word name = true → spells (IsBoolFlag f) name v l →
  Parse formal (l ++ rest)%list st =
    match FlagSet f v st with Some st' => Parse formal rest st' | None => inl 2%Z end.
Proof.
  intros Hf Hw Hs.
  assert (no_char "=" name = true) as Hn.
  { destruct name; [done|]. by apply andb_true_iff in Hw as [??]. }
  destruct Hs as [dash Hd|dash Hd Hb|dash Hd Hb ->]; simpl.
  - rewrite (classify_word dash name _ name (Some v)); [|done..|by apply cut_equals_word].
    rewrite Hf. by destruct (IsBoolFlag f).
  - rewrite <-(str_app_nil name) at 1.
    rewrite (classify_word dash name _ name None);
      [|done..|by rewrite str_app_nil; apply cut_equals_none].
    by rewrite Hf, Hb.
  - rewrite <-(str_app_nil name) at 1.
    rewrite (classify_word dash name _ name None);
      [|done..|by rewrite str_app_nil; apply cut_equals_none].
    by rewrite Hf, Hb.
Qed.

(** Parsing ends with status 0 for a request for help, and with status 2 for any
    other error. *)
Lemma Parse_status {V} (formal : string → option (Flag V)) args st z :
  Parse formal args st = inl z → z = 0%Z ∨ z = 2%Z.
Proof.
  remember (length args) as n eqn:Hn. revert args st Hn.
  induction n as [n IH] using lt_wf_ind. intros [|s args] st ->; [done|]. simpl.
  assert (∀ rest o, (length rest ≤ length args)%nat →
    match o with Some st' => Parse formal rest st' | None => inl 2%Z end = inl z →
    z = 0%Z ∨ z = 2%Z) as Hrest.
  { intros rest [st'|] Hl; [|intros [= <-]; by right].
    intros H. eapply (IH (length rest)); [simpl; lia|done|exact H]. }
  destruct (classify s) as [| |name value]; [done|intros [= <-]; by right|].
  destruct (formal name) as [f|]; [|case_decide; intros [= <-]; auto].
  destruct (IsBoolFlag f); [by apply Hrest|].
  destruct value as [v|]; [by apply Hrest|].
  destruct args as [|v args]; [intros [= <-]; by right|]. apply Hrest. simpl. lia.
Qed.
