(* ===== verification/Effects.v ===== *)
(** * Effectful programs: calls to services outside the process

    A program that talks to an API server is a finite tree of requests [op],
    each continuing with the response it gets.  [exec] lists the behaviours of
    a program against every environment, [pwp] is the program logic used to
    prove properties of all of them, and [run] executes a program against one
    environment. *)

From stdpp Require Import base tactics list.
From S2P Require Import Prelude.

Section prog.
Context {op : Type} {resp : op → Type}.

Inductive prog (A : Type) :=
  | Ret (a : A)
  | Vis (o : op) (k : resp o → prog A).
#[global] Arguments Ret {_} _.
#[global] Arguments Vis {_} _ _.

(** A request together with the response the environment gave. *)
Definition entry : Type := sigT resp.
Definition reply (o : op) (r : resp o) : entry := existT o r.

Fixpoint pbind {A B} (p : prog A) (k : A → prog B) : prog B :=
  match p with
  | Ret a => k a
  | Vis o k' => Vis o (λ r, pbind (k' r) k)
  end.

(** [exec p tr a]: with the exchanges [tr], [p] ends with [a]. *)
Fixpoint exec {A} (p : prog A) (tr : list entry) (a : A) : Prop :=
  match p, tr with
  | Ret a', [] => a = a'
  | Vis o k, e :: tr' => ∃ r, e = reply o r ∧ exec (k r) tr' a
  | _, _ => False
  end.

Lemma exec_bind_inv {A B} (p : prog A) (k : A → prog B) tr b :
  exec (pbind p k) tr b →
  ∃ tr1 a tr2, tr = tr1 ++ tr2 ∧ exec p tr1 a ∧ exec (k a) tr2 b.
Proof.
  revert tr. induction p as [a|o k' IH]; intros tr H; simpl in H.
  - by exists [], a, tr.
  - destruct tr as [|e tr]; [done|]. destruct H as (r & -> & H).
    apply IH in H as (tr1 & a & tr2 & -> & H1 & H2).
    exists (reply o r :: tr1), a, tr2. split_and!; [done| |done]. by exists r.
Qed.

Lemma exec_bind {A B} (p : prog A) (k : A → prog B) tr1 a tr2 b :
  exec p tr1 a → exec (k a) tr2 b → exec (pbind p k) (tr1 ++ tr2) b.
Proof.
  revert tr1. induction p as [a'|o k' IH]; intros [|e tr1] H1 H2; simpl in *; try done.
  - by subst.
  - destruct H1 as (r & -> & H1). eauto.
Qed.


(** ** A program logic

    A monitor [δ] folds the exchanges into a state [Σ]; the rely [R] says
    which responses the environment may give in a monitor state. *)
Section wp.
Context {Σ : Type} (δ : Σ → entry → Σ) (R : Σ → entry → Prop).

Fixpoint pwp {A} (p : prog A) (σ : Σ) (Q : Σ → A → Prop) : Prop :=
  match p with
  | Ret a => Q σ a
  | Vis o k => ∀ r, R σ (reply o r) → pwp (k r) (δ σ (reply o r)) Q
  end.

Fixpoint relies (σ : Σ) (tr : list entry) : Prop :=
  match tr with
  | [] => True
  | e :: tr' => R σ e ∧ relies (δ σ e) tr'
  end.

(** [pwp] is sound and complete for the behaviours the rely allows. *)
Lemma pwp_exec {A} (p : prog A) σ (Q : Σ → A → Prop) :
  pwp p σ Q ↔ ∀ tr a, exec p tr a → relies σ tr → Q (foldl δ σ tr) a.
Proof.
  revert σ. induction p as [a|o k IH]; intros σ; simpl.
  - split.
    + by intros H [|??] a' Ha _; simpl in *; [subst|].
    + intros H. by apply (H [] a).
  - split.
    + intros H [|e tr] a Ha Hr; simpl in *; [done|].
      destruct Ha as (r & -> & Ha), Hr as [Hr Hrs]. eapply IH; eauto.
    + intros H r Hr. apply IH. intros tr a Ha Hrs.
      apply (H (reply o r :: tr) a); simpl; eauto.
Qed.

Lemma pwp_bind {A B} (p : prog A) (k : A → prog B) σ Q :
  pwp (pbind p k) σ Q ↔ pwp p σ (λ σ' a, pwp (k a) σ' Q).
Proof.
  revert σ. induction p as [a|o k' IH]; intros σ; simpl; [done|].
  split; intros H r Hr; apply IH; auto.
Qed.

Lemma pwp_mono {A} (p : prog A) σ (P Q : Σ → A → Prop) :
  (∀ σ a, P σ a → Q σ a) → pwp p σ P → pwp p σ Q.
Proof.
  intros HPQ. revert σ. induction p as [a|o k IH]; intros σ; simpl; auto.
Qed.
End wp.

(** ** Running a program against one environment *)
Section run.
Context {W : Type} (h : ∀ o, W → resp o * W).

Fixpoint run {A} (p : prog A) (w : W) : A * list entry * W :=
  match p with
  | Ret a => (a, [], w)
  | Vis o k =>
      let '(r, w1) := h o w in
      let '(a, tr, w2) := run (k r) w1 in
      (a, reply o r :: tr, w2)
  end.

Lemma run_exec {A} (p : prog A) w a tr w' : run p w = (a, tr, w') → exec p tr a.
Proof.
  revert w a tr w'. induction p as [a'|o k IH]; intros w a tr w' H; simpl in H.
  - by simplify_eq.
  - destruct (h o w) as [r w1]. destruct (run (k r) w1) as [[a1 tr1] w2] eqn:E.
    simplify_eq/=. eauto.
Qed.
End run.
End prog.
#[global] Arguments prog {_} _ _.
#[global] Arguments entry {_} _.

(** ** The monad of Go methods that mutate a store [S] and call services *)

Definition M {op} (resp : op → Type) (E S A : Type) : Type := S → prog resp (outcome E A * S).

Section M.
Context {op : Type} {resp : op → Type} {E S : Type}.
Abbreviation M := (M resp E S).

#[export] Instance M_ret : MRet M := λ A a s, Ret (Ok a, s).
#[export] Instance M_bind : MBind M := λ A B k m s,
  pbind (m s) (λ '(o, s'),
    match o with
    | Ok a => k a s'
    | Err e => Ret (Err e, s')
    | Panic p => Ret (Panic p, s')
    end).

Definition call (o : op) : M (resp o) := λ s, Vis o (λ r, Ret (Ok r, s)).
Definition m_err {A} (e : E) : M A := λ s, Ret (Err e, s).
Definition m_panic {A} (p : panic) : M A := λ s, Ret (Panic p, s).
Definition m_get : M S := λ s, Ret (Ok s, s).
Definition m_modify (f : S → S) : M () := λ s, Ret (Ok (), f s).
Definition m_lift {A} (o : outcome E A) : M A := λ s, Ret (o, s).
Definition m_deref {A} (o : option A) : M A := m_lift (of_option NilDeref o).

(** [if err := m; err != nil { return h(err) }; k]. *)
Definition m_try {A B} (m : M A) (h : E → M B) (k : A → M B) : M B := λ s,
  pbind (m s) (λ '(o, s'),
    match o with
    | Ok a => k a s'
    | Err e => h e s'
    | Panic p => Ret (Panic p, s')
    end).

(** The error of a service call: [None] is [nil]. *)
Definition m_check (e : option E) : M () :=
  match e with None => mret () | Some e => m_err e end.

(** A computation on a part [T] of the store. *)
Definition m_zoom {T A} (get : S → T) (set : T → S → S) (m : St E T A) : M A := λ s,
  let '(o, t) := m (get s) in Ret (o, set t s).

Fixpoint m_iter {A} (f : A → M ()) (l : list A) : M () :=
  match l with
  | [] => mret ()
  | a :: l' => _ ← f a; m_iter f l'
  end.

Section wp.
Context {Σ : Type} (δ : Σ → entry resp → Σ) (R : Σ → entry resp → Prop).

Definition wp {A} (m : M A) (s : S) (σ : Σ) (Q : Σ → outcome E A → S → Prop) : Prop :=
  pwp δ R (m s) σ (λ σ' '(o, s'), Q σ' o s').

(** The continuation of a bind in the logic. *)
Definition on_ok {A B} (Q : Σ → outcome E B → S → Prop) (K : Σ → A → S → Prop)
    (σ : Σ) (o : outcome E A) (s : S) : Prop :=
  match o with
  | Ok a => K σ a s
  | Err e => Q σ (Err e) s
  | Panic p => Q σ (Panic p) s
  end.

Lemma wp_ret {A} (a : A) s σ Q : Q σ (Ok a) s → wp (mret a) s σ Q.
Proof. done. Qed.

Lemma wp_bind {A B} (m : M A) (k : A → M B) s σ Q :
  wp m s σ (on_ok Q (λ σ' a s', wp (k a) s' σ' Q)) → wp (m ≫= k) s σ Q.
Proof.
  unfold wp, mbind, M_bind. rewrite pwp_bind. apply pwp_mono.
  by intros σ' [[a|e|p] s'].
Qed.

Lemma wp_try {A B} (m : M A) (h : E → M B) (k : A → M B) s σ Q :
  wp m s σ (λ σ' o s',
    match o with
    | Ok a => wp (k a) s' σ' Q
    | Err e => wp (h e) s' σ' Q
    | Panic p => Q σ' (Panic p) s'
    end) → wp (m_try m h k) s σ Q.
Proof.
  unfold wp, m_try. rewrite pwp_bind. apply pwp_mono. by intros σ' [[a|e|p] s'].
Qed.

Lemma wp_call (o : op) s σ Q :
  (∀ r, R σ (reply o r) → Q (δ σ (reply o r)) (Ok r) s) → wp (call o) s σ Q.
Proof. done. Qed.

Lemma wp_zoom {T A} (get : S → T) set (m : St E T A) s σ Q :
  (∀ o t, m (get s) = (o, t) → Q σ o (set t s)) → wp (m_zoom get set m) s σ Q.
Proof. unfold wp, m_zoom. destruct (m (get s)); simpl. auto. Qed.

Lemma wp_mono {A} (m : M A) s σ (P Q : Σ → outcome E A → S → Prop) :
  (∀ σ o s, P σ o s → Q σ o s) → wp m s σ P → wp m s σ Q.
Proof. intros HPQ. apply pwp_mono. intros σ' [o s']. apply HPQ. Qed.

(** The loop rule: [I done σ s] holds when the elements [done] are done. *)
Lemma wp_iter {A} (f : A → M ()) (I : list A → Σ → S → Prop) (l : list A) s σ Q :
  I [] σ s →
  (∀ done a rest σ s, l = done ++ a :: rest → I done σ s →
    wp (f a) s σ (on_ok Q (λ σ' _ s', I (done ++ [a]) σ' s'))) →
  (∀ σ s, I l σ s → Q σ (Ok ()) s) →
  wp (m_iter f l) s σ Q.
Proof.
  intros HI Hf HQ.
  assert (∀ rest done, l = done ++ rest → ∀ σ s, I done σ s →
    wp (m_iter f rest) s σ Q) as H; [|by apply (H l [])].
  induction rest as [|a rest IH]; intros done Hl σ' s' HI'.
  - rewrite app_nil_r in Hl. subst. by apply wp_ret, HQ.
  - apply wp_bind. eapply wp_mono; [|eapply Hf; eauto].
    intros σ2 [[]|e|p] s2; simpl; [|done..].
    intros. apply (IH (done ++ [a])); [|done]. by rewrite <-(assoc_L (++)).
Qed.
End wp.
End M.

(** ** Taking a run apart *)

Section runs.
Context {op : Type} {resp : op → Type} {E S : Type}.
Abbreviation M := (M resp E S).

Lemma exec_try {A B} (m : M A) (h : E → M B) (k : A → M B) s tr b s' :
  exec (m_try m h k s) tr (b, s') →
  ∃ tr1 o s1 tr2, tr = tr1 ++ tr2 ∧ exec (m s) tr1 (o, s1) ∧
    match o with
    | Ok a => exec (k a s1) tr2 (b, s')
    | Err e => exec (h e s1) tr2 (b, s')
    | Panic p => tr2 = [] ∧ b = Panic p ∧ s' = s1
    end.
Proof.
  intros (tr1 & [o s1] & tr2 & -> & H1 & H2)%exec_bind_inv. exists tr1, o, s1, tr2.
  split_and!; [done..|]. destruct o; [done..|]. destruct tr2; [|done]. by injection H2 as -> ->.
Qed.

Lemma exec_seq {A B} (m : M A) (k : A → M B) s tr b s' :
  exec ((m ≫= k) s) tr (b, s') →
  ∃ tr1 o s1 tr2, tr = tr1 ++ tr2 ∧ exec (m s) tr1 (o, s1) ∧
    match o with
    | Ok a => exec (k a s1) tr2 (b, s')
    | Err e => tr2 = [] ∧ b = Err e ∧ s' = s1
    | Panic p => tr2 = [] ∧ b = Panic p ∧ s' = s1
    end.
Proof.
  intros (tr1 & [o s1] & tr2 & -> & H1 & H2)%exec_bind_inv. exists tr1, o, s1, tr2.
  split_and!; [done..|]. destruct o; [done|..]; (destruct tr2; [|done]); by injection H2 as -> ->.
Qed.

Lemma exec_pure {A B} (m : M A) (k : A → M B) s a s1 tr r :
  m s = Ret (Ok a, s1) → exec ((m ≫= k) s) tr r → exec (k a s1) tr r.
Proof. intros Hm. unfold mbind, M_bind. by rewrite Hm. Qed.

Lemma exec_call o s tr b s' :
  exec (call (E:=E) (S:=S) o s) tr (b, s') → ∃ r : resp o, tr = [reply o r] ∧ b = Ok r ∧ s' = s.
Proof.
  destruct tr as [|e tr]; [done|]. intros (r & -> & H). destruct tr; [|done].
  injection H as -> ->. by exists r.
Qed.

Lemma exec_zoom {T A} (get : S → T) set (m : St E T A) s tr o s' :
  exec (resp:=resp) (m_zoom get set m s) tr (o, s') →
  tr = [] ∧ o = (m (get s)).1 ∧ s' = set (m (get s)).2 s.
Proof. unfold m_zoom. destruct (m (get s)), tr; [|done]. by intros [= -> ->]. Qed.

(** [asks P m]: every exchange of every behaviour of [m] satisfies [P]. *)
Definition asks (P : entry resp → Prop) {A} (m : M A) : Prop :=
  ∀ s tr o s', exec (m s) tr (o, s') → Forall P tr.

Context (P : entry resp → Prop).

Lemma asks_mono (P' : entry resp → Prop) {A} (m : M A) :
  (∀ e, P' e → P e) → asks P' m → asks P m.
Proof. intros HP Hm s tr o s' He. eapply Forall_impl; [by eapply Hm|]. exact HP. Qed.

Lemma asks_pure {A} (m : M A) : (∀ s, ∃ a, m s = Ret a) → asks P m.
Proof. intros H s tr o s' He. destruct (H s) as [a Ha]. rewrite Ha in He. by destruct tr. Qed.

Lemma asks_call o : (∀ r, P (reply o r)) → asks P (call o).
Proof. intros H s tr a s' (r & -> & _)%exec_call. by constructor. Qed.

Lemma asks_zoom {T A} (get : S → T) set (m : St E T A) : asks P (m_zoom get set m).
Proof. intros s tr o s' (-> & _)%exec_zoom. constructor. Qed.

Lemma asks_bind {A B} (m : M A) (k : A → M B) :
  asks P m → (∀ a, asks P (k a)) → asks P (m ≫= k).
Proof.
  intros Hm Hk s tr o s' (tr1 & oa & s1 & tr2 & -> & H1 & H2)%exec_seq.
  apply Forall_app. split; [by eapply Hm|]. destruct oa; [by eapply Hk|by destruct H2 as [-> _]..].
Qed.

Lemma asks_try {A B} (m : M A) (h : E → M B) (k : A → M B) :
  asks P m → (∀ e, asks P (h e)) → (∀ a, asks P (k a)) → asks P (m_try m h k).
Proof.
  intros Hm Hh Hk s tr o s' (tr1 & oa & s1 & tr2 & -> & H1 & H2)%exec_try.
  apply Forall_app. split; [by eapply Hm|].
  destruct oa; [by eapply Hk|by eapply Hh|by destruct H2 as [-> _]].
Qed.

Lemma asks_iter {A} (f : A → M ()) l : (∀ a, asks P (f a)) → asks P (m_iter f l).
Proof.
  intros Hf. induction l as [|a l IH]; simpl; [|by apply asks_bind].
  apply asks_pure. intros s. by eexists.
Qed.
End runs.

(** One step of a proof that a program makes only certain requests. *)
Ltac asks_step :=
  lazymatch goal with
  | |- asks _ (mbind _ _) => apply asks_bind; [|intros ?]
  | |- asks _ (m_try _ _ _) => apply asks_try; [|intros ?|intros ?]
  | |- asks _ (m_zoom _ _ _) => apply asks_zoom
  | |- asks ?P (call ?o) => refine (asks_call P o _); intros ?
  | |- asks _ (if ?b then _ else _) => destruct b
  | |- asks _ (match ?x with _ => _ end) => destruct x
  | |- asks _ _ => apply asks_pure; intros ?; eexists; reflexivity
  end.

(** [m_try] for a callee with its own type of errors. *)
Definition m_catch {op} {resp : op → Type} {E E' S A B} (m : M resp E S A)
    (h : E → M resp E' S B) (k : A → M resp E' S B) : M resp E' S B := λ s,
  pbind (m s) (λ '(o, s'),
    match o with
    | Ok a => k a s'
    | Err e => h e s'
    | Panic p => Ret (Panic p, s')
    end).

(** [wp_step] applies the rule of the head of the program. *)
Ltac wp_step :=
  lazymatch goal with
  | |- wp _ _ (mbind _ _) _ _ _ => apply wp_bind
  | |- wp _ _ (m_try _ _ _) _ _ _ => apply wp_try
  | |- wp _ _ (mret _) _ _ _ => apply wp_ret
  | |- wp _ _ (call _) _ _ _ => apply wp_call; intros ? ?
  | |- wp _ _ (m_zoom _ _ _) _ _ _ => apply wp_zoom; intros ? ? ?
  end.

(** ** Symbolic execution that records the exchanges

    [traced m s tr0 Q]: every behaviour of [m], started after the exchanges
    [tr0], ends in [Q].  The rules run the program forward. *)
Section traced.
Context {op : Type} {resp : op → Type} {E S : Type}.
Abbreviation M := (M resp E S).

Definition traced {A} (m : M A) (s : S) (tr0 : list (entry resp))
    (Q : list (entry resp) → outcome E A → S → Prop) : Prop :=
  wp (λ tr e, tr ++ [e]) (λ _ _, True) m s tr0 Q.

Lemma foldl_snoc {X} (tr0 tr : list X) : foldl (λ l e, l ++ [e]) tr0 tr = tr0 ++ tr.
Proof.
  revert tr0. induction tr as [|e tr IH]; intros tr0; simpl; [by rewrite app_nil_r|].
  by rewrite IH, <-(assoc_L (++)).
Qed.

Lemma relies_True {Σ} (δ : Σ → entry resp → Σ) σ tr : relies δ (λ _ _, True) σ tr.
Proof. revert σ. induction tr; simpl; auto. Qed.

Lemma traced_iff {A} (m : M A) s tr0 Q :
  traced m s tr0 Q ↔ ∀ tr o s', exec (m s) tr (o, s') → Q (tr0 ++ tr) o s'.
Proof.
  unfold traced, wp. rewrite pwp_exec. split.
  - intros H tr o s' He. rewrite <-foldl_snoc. apply (H tr (o, s') He), relies_True.
  - intros H tr [o s'] He _. rewrite foldl_snoc. auto.
Qed.

(** The wanted property of all behaviours, from a symbolic execution. *)
Lemma traced_exec {A} (m : M A) s (Q : list (entry resp) → outcome E A → S → Prop) tr o s' :
  traced m s [] Q → exec (m s) tr (o, s') → Q tr o s'.
Proof. rewrite traced_iff. intros H He. by apply (H tr). Qed.

(** A specification of the behaviours of [m], used inside a larger program. *)
Lemma traced_use {A} (m : M A) s tr0 (P Q : list (entry resp) → outcome E A → S → Prop) :
  (∀ tr o s', exec (m s) tr (o, s') → P tr o s') →
  (∀ tr o s', P tr o s' → Q (tr0 ++ tr) o s') → traced m s tr0 Q.
Proof. intros HP HQ. apply traced_iff. auto. Qed.

Lemma traced_bind {A B} (m : M A) (k : A → M B) s tr0 Q :
  traced m s tr0 (on_ok Q (λ tr a s', traced (k a) s' tr Q)) → traced (m ≫= k) s tr0 Q.
Proof. apply wp_bind. Qed.

Lemma traced_try {A B} (m : M A) (h : E → M B) (k : A → M B) s tr0 Q :
  traced m s tr0 (λ tr o s',
    match o with
    | Ok a => traced (k a) s' tr Q
    | Err e => traced (h e) s' tr Q
    | Panic p => Q tr (Panic p) s'
    end) → traced (m_try m h k) s tr0 Q.
Proof. apply wp_try. Qed.

Lemma traced_call (o : op) s tr0 Q :
  (∀ r, Q (tr0 ++ [reply o r]) (Ok r) s) → traced (call o) s tr0 Q.
Proof. intros H r _. apply H. Qed.

End traced.

Lemma traced_catch {op} {resp : op → Type} {E E' S A B} (m : M resp E S A)
    (h : E → M resp E' S B) (k : A → M resp E' S B) s tr0
    (Q : list (entry resp) → outcome E' B → S → Prop) :
  traced m s tr0 (λ tr o s',
    match o with
    | Ok a => traced (k a) s' tr Q
    | Err e => traced (h e) s' tr Q
    | Panic p => Q tr (Panic p) s'
    end) → traced (m_catch m h k) s tr0 Q.
Proof.
  unfold traced, wp, m_catch. rewrite pwp_bind. apply pwp_mono. by intros σ' [[a|e|p] s'].
Qed.

(** A program that makes no request. *)
Lemma traced_pure {op} {resp : op → Type} {E S A} (m : M resp E S A) s o s' tr0
    (Q : list (entry resp) → outcome E A → S → Prop) :
  m s = Ret (o, s') → Q tr0 o s' → traced m s tr0 Q.
Proof. intros Hm HQ. unfold traced, wp. by rewrite Hm. Qed.

(** [traced_step] runs one step of the program at the head of the goal; a step
    that makes no request is found by evaluation. *)
Ltac traced_step :=
  lazymatch goal with
  | |- traced (m_try _ _ _) _ _ _ => apply traced_try
  | |- traced (mbind _ _) _ _ _ => apply traced_bind
  | |- traced (m_catch _ _ _) _ _ _ => apply traced_catch
  | |- traced (call ?o) ?s ?tr ?Q => refine (traced_call o s tr Q _); intros ?
  | |- traced (match ?x with _ => _ end) _ _ _ => destruct x eqn:?
  | |- on_ok _ _ _ _ _ => progress simpl
  | |- traced _ _ _ _ => eapply traced_pure; [reflexivity|]
  end.

(** [by_traced H] turns a goal about the behaviour [H] of a program into its
    symbolic execution. *)
Ltac by_traced H :=
  lazymatch type of H with
  | exec (?m ?s) ?tr (?o, ?s') =>
      tryif is_var o then
        pattern tr, o, s'; eapply traced_exec; [|exact H]; clear H
      else
        let o' := fresh "o" in let Ho := fresh "Ho" in
        remember o as o' eqn:Ho in H; revert Ho;
        pattern tr, o', s'; eapply traced_exec; [|exact H]; clear H
  end.
