(* ===== verification/Deps.v ===== *)
(** * The libraries and services the controller is written against

    The code of kyaml, kio, the Kubernetes client libraries, the Porch API and
    ndd-runtime is not part of the repository: their types and functions are
    the fields of the classes [ExtTypes] and [ExtOps], and what the controller
    relies on is stated by the law classes [ErrorLaws], [KYamlLaws] and
    [KioLaws].  Every definition of the development is parametric in them. *)

From stdpp Require Import base tactics list gmap strings.
From S2P Require Import Prelude.

(** ** Types *)

Class ExtTypes := {
  error : Type;                   (** a non-nil Go [error] *)
  RNode : Type;                   (** the content of a kyaml document *)
  YAddr : Type;                   (** a [*yaml.Node] inside a document *)
  NodeSeq : Type;                 (** the sequence a [PathMatcher] returns *)
  Condition : Type;
  ConditionKind : Type;
  ConditionedStatus : Type;
  HealthConditionedStatus : Type;
  DeletionPolicy : Type;
  DeploymentPolicy : Type;
  Time : Type;
  OwnerReference : Type;
  TypedReference : Type;
}.

(** [yaml.Kind]. *)
Inductive YKind := DocumentNode | SequenceNode | MappingNode | ScalarNode | AliasNode.
#[export] Instance YKind_eq_dec : EqDecision YKind.
Proof. solve_decision. Defined.

(** [schema.GroupVersionKind]. *)
Record GroupVersionKind := GVK { gvk_Group : string; gvk_Version : string; gvk_Kind : string }.

(** [client.ObjectKey], i.e. [types.NamespacedName]. *)
Record ObjectKey := Key { key_Namespace : string; key_Name : string }.
#[export] Instance ObjectKey_eq_dec : EqDecision ObjectKey.
Proof. solve_decision. Defined.

(** The reader and writer structs of kio, with the fields the code sets. *)
Record ByteReader := {
  br_Reader : string;
  br_SetAnnotations : gmap string string;
  br_DisableUnwrapping : bool }.
Record ByteWriter := { bw_ClearAnnotations : list string }.

(** [metav1.TypeMeta] and the part of [metav1.ObjectMeta] the code touches. *)
Record TypeMeta := { tm_Kind : string; tm_APIVersion : string }.

Section data.
Context {ET : ExtTypes}.

Record ObjectMeta := {
  om_Name : string;
  om_Namespace : string;
  om_Annotations : gmap string string;
  om_Finalizers : list string;
  om_DeletionTimestamp : option Time;
  om_OwnerReferences : list OwnerReference }.

(** [corev1.Namespace], with the fields the code sets. *)
Record CoreNamespace := { ns_TypeMeta : TypeMeta; ns_ObjectMeta : ObjectMeta }.

(** The Porch objects, [porchv1alpha1.PackageRevision] and
    [porchv1alpha1.PackageRevisionResources]. *)
Record Task := { task_Type : string; task_Init_Description : string }.

Record PackageRevisionSpec := {
  prs_PackageName : string;
  prs_Revision : string;
  prs_RepositoryName : string;
  prs_Lifecycle : string;
  prs_Tasks : list Task }.

Record PackageRevision := {
  pr_TypeMeta : TypeMeta;
  pr_ObjectMeta : ObjectMeta;
  pr_Spec : PackageRevisionSpec }.

Record PackageRevisionResources := {
  prr_ObjectMeta : ObjectMeta;
  prr_Resources : gmap string string }.

(** Go zero values. *)
Definition zero_TypeMeta : TypeMeta := {| tm_Kind := ""; tm_APIVersion := "" |}.
Definition zero_ObjectMeta : ObjectMeta := {|
  om_Name := ""; om_Namespace := ""; om_Annotations := ∅; om_Finalizers := [];
  om_DeletionTimestamp := None; om_OwnerReferences := [] |}.
Definition zero_PackageRevision : PackageRevision := {|
  pr_TypeMeta := zero_TypeMeta;
  pr_ObjectMeta := zero_ObjectMeta;
  pr_Spec := {| prs_PackageName := ""; prs_Revision := ""; prs_RepositoryName := "";
                prs_Lifecycle := ""; prs_Tasks := [] |} |}.

(** [pr.Spec.Lifecycle = l]. *)
Definition set_Lifecycle (l : string) (pr : PackageRevision) : PackageRevision := {|
  pr_TypeMeta := pr_TypeMeta pr;
  pr_ObjectMeta := pr_ObjectMeta pr;
  pr_Spec := {|
    prs_PackageName := prs_PackageName (pr_Spec pr);
    prs_Revision := prs_Revision (pr_Spec pr);
    prs_RepositoryName := prs_RepositoryName (pr_Spec pr);
    prs_Lifecycle := l;
    prs_Tasks := prs_Tasks (pr_Spec pr) |} |}.

(** [prr.Spec.Resources = m]. *)
Definition set_Resources (m : gmap string string) (prr : PackageRevisionResources) :
    PackageRevisionResources :=
  {| prr_ObjectMeta := prr_ObjectMeta prr; prr_Resources := m |}.

Definition pr_Name (pr : PackageRevision) : string := om_Name (pr_ObjectMeta pr).
Definition pr_Namespace (pr : PackageRevision) : string := om_Namespace (pr_ObjectMeta pr).
Definition pr_PackageName (pr : PackageRevision) : string := prs_PackageName (pr_Spec pr).
Definition pr_Revision (pr : PackageRevision) : string := prs_Revision (pr_Spec pr).
Definition pr_Lifecycle (pr : PackageRevision) : string := prs_Lifecycle (pr_Spec pr).
End data.

(** ** The store of kyaml documents

    A [*yaml.RNode] is an index into a growing store of documents. *)

Abbreviation loc := nat (only parsing).
Abbreviation heap := (list RNode) (only parsing).

(** ** Operations *)

Class ExtOps `{ExtTypes} := {
  (* errors, github.com/pkg/errors and the IgnoreNotFound helpers *)
  fmt_Errorf : string → error;
  fmt_Errorf_wrap : string → error → error;
  error_Error : error → string;
  errors_Wrap : option error → string → option error;
  resource_IgnoreNotFound : option error → option error;
  client_IgnoreNotFound : option error → option error;
  (* sigs.k8s.io/kustomize/kyaml/yaml *)
  yaml_Parse : string → error + RNode;
  rn_Copy : RNode → RNode;
  rn_String : RNode → error + string;
  rn_GetAnnotations : RNode → gmap string string;
  rn_SetAnnotations : gmap string string → RNode → RNode * option error;
  rn_GetKind : RNode → string;
  rn_GetName : RNode → string;
  rn_SetNamespace : string → RNode → RNode * option error;
  rn_self : YAddr;                                   (** the document's own YNode *)
  yn_Kind : RNode → YAddr → YKind;
  yn_Value : RNode → YAddr → string;
  yn_SetValue : YAddr → string → RNode → RNode;      (** [n.YNode().Value = v] *)
  rn_SetYNode : YAddr → RNode → RNode → RNode;       (** [n.SetYNode(content)] *)
  yaml_GetValue : RNode → string;
  utils_SmarterPathSplitter : string → string → list string;
  rn_PathMatcher : list string → RNode → RNode * (error + NodeSeq);
  seq_Elements : NodeSeq → error + list YAddr;
  rn_LookupCreate : YKind → list string → RNode → RNode * (error + YAddr);
  (* sigs.k8s.io/kustomize/kyaml/kio *)
  kio_MatchAll : list string;
  kioutil_PathAnnotation : string;
  kioutil_IndexAnnotation : string;
  kio_ReadPackage : list ByteReader → error + list RNode;
  kio_WriteNodes : ∀ {S : Type}, list loc → (list loc → St error S ()) → St error S ();
  kio_ByteWrite : ByteWriter → list RNode → error + string;
  (* Kubernetes *)
  schema_GroupKind_String : string → string → string;
  schema_GroupVersion_String : string → string → string;
  corev1_Identifier : string;
  porchv1alpha1_Identifier : string;
  YAMLPrinter_PrintObj : CoreNamespace → string;
  porchv1alpha1_AddToScheme : option error;
  TaskTypeInit : string;
  LifecycleDraft : string;
  LifecycleProposed : string;
  LifecyclePublished : string;
  (* ndd-runtime *)
  meta_TypedReferenceTo : ObjectMeta → GroupVersionKind → TypedReference;
  meta_AsController : TypedReference → OwnerReference;
  meta_WasDeleted : ObjectMeta → bool;
  nddv1_ReconcileError : error → Condition;
  nddv1_ReconcileSuccess : Condition;
  nddv1_Unknown : Condition;
  nddv1_Unavailable : Condition;
  nddv1_Available : Condition;
  status_SetConditions : list Condition → ConditionedStatus → ConditionedStatus;
  status_GetCondition : ConditionKind → ConditionedStatus → Condition;
}.

(** ** What the controller relies on *)

(** [errors.Wrap] returns nil exactly for nil; [IgnoreNotFound] returns its
    argument or nil. *)
Class ErrorLaws `{ExtOps} := {
  wrap_nil m : errors_Wrap None m = None;
  wrap_err e m : is_Some (errors_Wrap (Some e) m);
  resource_ignore_nil : resource_IgnoreNotFound None = None;
  client_ignore_nil : client_IgnoreNotFound None = None;
  client_ignore_err e :
    client_IgnoreNotFound (Some e) = None ∨ client_IgnoreNotFound (Some e) = Some e;
}.

(** A copy has the content of its original; [SetAnnotations m] makes the
    annotations [m]; clearing them twice is clearing them once. *)
Class KYamlLaws `{ExtOps} := {
  copy_content n : rn_Copy n = n;
  get_set_annotations m n :
    (rn_SetAnnotations m n).2 = None → rn_GetAnnotations (rn_SetAnnotations m n).1 = m;
  clear_clear n :
    (rn_SetAnnotations ∅ (rn_SetAnnotations ∅ n).1).1 = (rn_SetAnnotations ∅ n).1;
}.

(** Writing the value of a scalar node changes that value and no other, and no
    kind. *)
Class KFieldLaws `{ExtOps} := {
  set_value_same d a v : yn_Kind d a = ScalarNode → yn_Value (yn_SetValue a v d) a = v;
  set_value_other d a b v : a ≠ b → yn_Value (yn_SetValue a v d) b = yn_Value d b;
  set_value_kind d a b v : yn_Kind (yn_SetValue a v d) b = yn_Kind d b;
}.

(** The lifecycle constants of Porch are three different strings. *)
Class LifecycleLaws `{ExtOps} := {
  lifecycle_distinct : NoDup [LifecycleDraft; LifecycleProposed; LifecyclePublished];
}.

(** Two outcomes that differ at most in the error returned (kio wraps it). *)
Definition same_kind {E A} (o1 o2 : outcome E A) : Prop :=
  match o1, o2 with
  | Ok a1, Ok a2 => a1 = a2
  | Err _, Err _ => True
  | Panic p1, Panic p2 => p1 = p2
  | _, _ => False
  end.

Lemma same_kind_refl {E A} (o : outcome E A) : same_kind o o.
Proof. by destruct o. Qed.

(** kio: the globs of the KRM files; a pipeline without filters hands the
    nodes of its input, in order, to its output, which it may skip when there
    are none. *)
Class KioLaws `{ExtOps} := {
  match_all : kio_MatchAll = ["*.yaml"; "*.yml"];
  path_annotation : kioutil_PathAnnotation = "internal.config.kubernetes.io/path";
  write_nodes {S} (l : list loc) (w : list loc → St error S ()) s :
    (w [] s = (Ok (), s)) →
    same_kind (kio_WriteNodes l w s).1 (w l s).1 ∧ (kio_WriteNodes l w s).2 = (w l s).2;
}.

(** ** Store operations *)

Section store.
Context {ET : ExtTypes} {EO : ExtOps}.

Definition h_alloc (n : RNode) : St error heap loc := λ h, (Ok (length h), h ++ [n]).
Definition h_read (l : loc) : St error heap RNode := λ h, (of_option NilDeref (h !! l), h).
Definition h_write (l : loc) (n : RNode) : St error heap () := λ h,
  if decide (l < length h) then (Ok (), <[l:=n]> h) else (Panic NilDeref, h).

(** A method that mutates its receiver and returns an error. *)
Definition h_method (f : RNode → RNode * option error) (l : loc) : St error heap (option error) :=
  n ← h_read l;
  _ ← h_write l (f n).1;
  mret (f n).2.

(** The same, followed by [if err != nil { return err }]. *)
Definition h_method_err (f : RNode → RNode * option error) (l : loc) : St error heap () :=
  e ← h_method f l;
  match e with None => mret () | Some e => st_err e end.

Lemma h_read_ok l n (h : heap) : h !! l = Some n → h_read l h = (Ok n, h).
Proof. unfold h_read. by intros ->. Qed.

Lemma h_write_ok l n n' (h : heap) : h !! l = Some n → h_write l n' h = (Ok (), <[l:=n']> h).
Proof. intros Hl%lookup_lt_Some. unfold h_write. by rewrite decide_True. Qed.

Lemma h_method_ok f l n (h : heap) :
  h !! l = Some n → h_method f l h = (Ok (f n).2, <[l:=(f n).1]> h).
Proof.
  intros Hl. unfold h_method.
  rewrite (st_bind_ok _ _ _ _ _ (h_read_ok _ _ _ Hl)).
  by rewrite (st_bind_ok _ _ _ _ _ (h_write_ok _ _ _ _ Hl)).
Qed.

Lemma h_method_err_ok f l n (h : heap) :
  h !! l = Some n → (f n).2 = None → h_method_err f l h = (Ok (), <[l:=(f n).1]> h).
Proof.
  intros Hl Hf. unfold h_method_err.
  rewrite (st_bind_ok _ _ _ _ _ (h_method_ok f _ _ _ Hl)). by rewrite Hf.
Qed.
End store.
