(* ===== verification/Api.v ===== *)
(** * The Tenant API (api/v1alpha1)

    The Tenant resource and its parts as records, one field per Go field: a
    pointer is an [option], a slice a [list], a map a [gmap].  The accessors of
    [tenant_interfaces.go] are functions on them; a method that reads through a
    nil pointer has no model value, so those are in the outcome monad. *)

From stdpp Require Import base tactics list gmap strings.
From S2P Require Import Prelude.
From S2P Require Import GoStrings.
From S2P Require Import Deps.

Local Open Scope string_scope.

(** ** groupversion_info.go and the type metadata of tenant_types.go *)

Definition Group : string := "admin.yndd.io".
Definition Version : string := "v1alpha1".
Definition TenantKind : string := "Tenant".
Definition TenantGroupVersionKind : GroupVersionKind := GVK Group Version TenantKind.

(** ** tenant_types.go *)

Record PackageRevisionReference := {
  ref_Namespace : string;
  ref_RepositoryName : string;
  ref_PackageName : string;
  ref_Revision : string }.

Record TenantApplications := {
  ta_Installation : gmap string bool;
  ta_PackageRef : PackageRevisionReference }.

Record TenantCluster := {
  tc_ClusterRef : string;
  tc_RepositoryRef : gmap string string }.

Record TenantProperties := {
  tp_OwnerRef : string;
  tp_OrganizationRef : string;
  tp_Deployment : string;
  tp_Region : string;
  tp_AvailabilityZone : string;
  tp_RepositoryRef : string;
  tp_Applications : option TenantApplications;
  tp_Clusters : list (option TenantCluster) }.

(** [nddv1.Reference], [nddv1.ResourceSpec] and [nddv1.ResourceStatus]: the
    inlined structs of ndd-runtime, with the fields the accessors use. *)
Record Reference := { reference_Name : string }.

Section tenant.
Context {ET : ExtTypes} {EO : ExtOps}.

Record ResourceSpec := {
  rs_DeploymentPolicy : DeploymentPolicy;
  rs_DeletionPolicy : DeletionPolicy;
  rs_TargetReference : option Reference }.

Record ResourceStatus := {
  rst_ConditionedStatus : ConditionedStatus;
  rst_Health : HealthConditionedStatus;
  rst_RootPaths : list string }.

Record TenantSpec := {
  ts_ResourceSpec : ResourceSpec;
  ts_Properties : option TenantProperties }.

Record TenantStatus := {
  tst_ResourceStatus : ResourceStatus;
  tst_Namespace : string }.

Record Tenant := {
  t_ObjectMeta : ObjectMeta;
  t_Spec : TenantSpec;
  t_Status : TenantStatus }.

(** ** tenant_interfaces.go *)

Definition t_GetName (x : Tenant) : string := om_Name (t_ObjectMeta x).

Definition set_spec (x : Tenant) (s : ResourceSpec) : Tenant :=
  {| t_ObjectMeta := t_ObjectMeta x;
     t_Spec := {| ts_ResourceSpec := s; ts_Properties := ts_Properties (t_Spec x) |};
     t_Status := t_Status x |}.

Definition set_status (x : Tenant) (s : ResourceStatus) : Tenant :=
  {| t_ObjectMeta := t_ObjectMeta x;
     t_Spec := t_Spec x;
     t_Status := {| tst_ResourceStatus := s; tst_Namespace := tst_Namespace (t_Status x) |} |}.

Definition status_of (x : Tenant) : ResourceStatus := tst_ResourceStatus (t_Status x).
Definition rspec_of (x : Tenant) : ResourceSpec := ts_ResourceSpec (t_Spec x).

Definition GetCondition (x : Tenant) (ct : ConditionKind) : Condition :=
  status_GetCondition ct (rst_ConditionedStatus (status_of x)).

Definition SetConditions (x : Tenant) (c : list Condition) : Tenant :=
  set_status x {|
    rst_ConditionedStatus := status_SetConditions c (rst_ConditionedStatus (status_of x));
    rst_Health := rst_Health (status_of x);
    rst_RootPaths := rst_RootPaths (status_of x) |}.

Definition SetHealthConditions (x : Tenant) (c : HealthConditionedStatus) : Tenant :=
  set_status x {|
    rst_ConditionedStatus := rst_ConditionedStatus (status_of x);
    rst_Health := c;
    rst_RootPaths := rst_RootPaths (status_of x) |}.

Definition GetDeletionPolicy (x : Tenant) : DeletionPolicy := rs_DeletionPolicy (rspec_of x).
Definition SetDeletionPolicy (x : Tenant) (c : DeletionPolicy) : Tenant :=
  set_spec x {| rs_DeploymentPolicy := rs_DeploymentPolicy (rspec_of x);
                rs_DeletionPolicy := c;
                rs_TargetReference := rs_TargetReference (rspec_of x) |}.

Definition GetDeploymentPolicy (x : Tenant) : DeploymentPolicy :=
  rs_DeploymentPolicy (rspec_of x).
Definition SetDeploymentPolicy (x : Tenant) (c : DeploymentPolicy) : Tenant :=
  set_spec x {| rs_DeploymentPolicy := c;
                rs_DeletionPolicy := rs_DeletionPolicy (rspec_of x);
                rs_TargetReference := rs_TargetReference (rspec_of x) |}.

Definition GetTargetReference (x : Tenant) : option Reference :=
  rs_TargetReference (rspec_of x).
Definition SetTargetReference (x : Tenant) (p : option Reference) : Tenant :=
  set_spec x {| rs_DeploymentPolicy := rs_DeploymentPolicy (rspec_of x);
                rs_DeletionPolicy := rs_DeletionPolicy (rspec_of x);
                rs_TargetReference := p |}.

Definition GetRootPaths (x : Tenant) : list string := rst_RootPaths (status_of x).
Definition SetRootPaths (x : Tenant) (rootPaths : list string) : Tenant :=
  set_status x {|
    rst_ConditionedStatus := rst_ConditionedStatus (status_of x);
    rst_Health := rst_Health (status_of x);
    rst_RootPaths := rootPaths |}.

(** *** The type metadata as text (tenant_types.go) *)

Definition TenantGroupKind : string := schema_GroupKind_String Group TenantKind.
Definition TenantKindAPIVersion : string :=
  TenantKind +:+ "." +:+ schema_GroupVersion_String Group Version.
Definition TenantPkgRevLabelKey : string := ToLower TenantGroupKind +:+ "/" +:+ "PackageRevision".

Definition GetNamespacedName (x : Tenant) : string :=
  Join [om_Namespace (t_ObjectMeta x); om_Name (t_ObjectMeta x)] "/".
End tenant.

(** [x.IsFound(selector)]: the receiver matches every non-empty field of the
    selector the code compares. *)
Definition IsFound (x : PackageRevisionReference)
    (selector : option PackageRevisionReference) : bool :=
  match selector with
  | None => true
  | Some sel =>
      if (0 <? String.length (ref_RepositoryName sel))%nat &&
         negb (String.eqb (ref_RepositoryName x) (ref_RepositoryName sel)) then false
      else if (0 <? String.length (ref_PackageName sel))%nat &&
         negb (String.eqb (ref_PackageName x) (ref_PackageName sel)) then false
      else if (0 <? String.length (ref_Revision sel))%nat &&
         negb (String.eqb (ref_Revision x) (ref_Revision sel)) then false
      else true
  end.

(** ** Lemmas *)

(** A selector field constrains the corresponding field when it is not empty. *)
Definition field_matches (sel v : string) : Prop := sel = "" ∨ v = sel.

Lemma field_test sel v :
  (0 <? String.length sel)%nat && negb (String.eqb v sel) = false ↔ field_matches sel v.
Proof.
  unfold field_matches. rewrite andb_false_iff, negb_false_iff, String.eqb_eq.
  destruct sel; simpl; naive_solver.
Qed.

Lemma IsFound_iff x sel :
  IsFound x (Some sel) = true ↔
  field_matches (ref_RepositoryName sel) (ref_RepositoryName x) ∧
  field_matches (ref_PackageName sel) (ref_PackageName x) ∧
  field_matches (ref_Revision sel) (ref_Revision x).
Proof.
  rewrite <-!field_test. unfold IsFound.
  destruct (_ && _), (_ && _), (_ && _); naive_solver.
Qed.
