(* ===== verification/DeepCopy.v ===== *)
(** * The deep copies of the Tenant types (api/v1alpha1/zz_generated.deepcopy.go)

    The structs as they are in memory: a pointer or a map is a [ref], a slice an
    [sref].  The same records with [option] instead are the values they hold
    ([v...]), so that nil and empty stay different.  Every [DeepCopyInto] is
    followed statement by statement; those of metav1 and ndd-runtime are the
    parameters of [CopyDeps] under the contract [copies]. *)

From stdpp Require Import base tactics list gmap strings.
From S2P Require Import Prelude.
From S2P Require Import GoMem.
From S2P Require Import GoCopy.
From S2P Require Import Deps.
From S2P Require Import Api.

(** ** The structs *)

Section structs.
Context (P L : Type → Type).

Record gApplications := {
  ga_Installation : P (gmap string bool);
  ga_PackageRef : PackageRevisionReference }.

Record gCluster := {
  gc_ClusterRef : string;
  gc_RepositoryRef : P (gmap string string) }.

Record gProperties := {
  gp_OwnerRef : string;
  gp_OrganizationRef : string;
  gp_Deployment : string;
  gp_Region : string;
  gp_AvailabilityZone : string;
  gp_RepositoryRef : string;
  gp_Applications : P gApplications;
  gp_Clusters : L (P gCluster) }.

(** [XM], [XS], [XT] and [XL] are metav1.ObjectMeta, nddv1.ResourceSpec,
    nddv1.ResourceStatus and metav1.ListMeta. *)
Context (XM XS XT XL : Type).

Record gSpec := {
  gs_ResourceSpec : XS;
  gs_Properties : P gProperties }.

Record gStatus := {
  gst_ResourceStatus : XT;
  gst_Namespace : string }.

Record gTenant := {
  gt_TypeMeta : TypeMeta;
  gt_ObjectMeta : XM;
  gt_Spec : gSpec;
  gt_Status : gStatus }.

Record gTenantList := {
  gl_TypeMeta : TypeMeta;
  gl_ListMeta : XL;
  gl_Items : L gTenant }.
End structs.

Arguments ga_Installation {_} _.
Arguments ga_PackageRef {_} _.
Arguments gc_ClusterRef {_} _.
Arguments gc_RepositoryRef {_} _.
Arguments gp_OwnerRef {_ _} _.
Arguments gp_OrganizationRef {_ _} _.
Arguments gp_Deployment {_ _} _.
Arguments gp_Region {_ _} _.
Arguments gp_AvailabilityZone {_ _} _.
Arguments gp_RepositoryRef {_ _} _.
Arguments gp_Applications {_ _} _.
Arguments gp_Clusters {_ _} _.
Arguments gs_ResourceSpec {_ _ _} _.
Arguments gs_Properties {_ _ _} _.
Arguments gst_ResourceStatus {_} _.
Arguments gst_Namespace {_} _.
Arguments gt_TypeMeta {_ _ _ _ _} _.
Arguments gt_ObjectMeta {_ _ _ _ _} _.
Arguments gt_Spec {_ _ _ _ _} _.
Arguments gt_Status {_ _ _ _ _} _.
Arguments gl_TypeMeta {_ _ _ _ _ _} _.
Arguments gl_ListMeta {_ _ _ _ _ _} _.
Arguments gl_Items {_ _ _ _ _ _} _.

(** The fields a copy goes through. *)
Section fields.
Context {P L : Type → Type} {XM XS XT XL : Type}.

Tactic Notation "field_of" uconstr(get) uconstr(set) :=
  refine (Field get set _ _ _); [done|done|by intros []].

Definition f_Installation : field (gApplications P) (P (gmap string bool)).
Proof. field_of ga_Installation (λ x s, Build_gApplications P x (ga_PackageRef s)). Defined.
Definition f_PackageRef : field (gApplications P) PackageRevisionReference.
Proof. field_of ga_PackageRef (λ x s, Build_gApplications P (ga_Installation s) x). Defined.
Definition f_RepositoryRef : field (gCluster P) (P (gmap string string)).
Proof. field_of gc_RepositoryRef (λ x s, Build_gCluster P (gc_ClusterRef s) x). Defined.
Definition f_Applications : field (gProperties P L) (P (gApplications P)).
Proof. field_of gp_Applications (λ x s, Build_gProperties P L (gp_OwnerRef s)
    (gp_OrganizationRef s) (gp_Deployment s) (gp_Region s) (gp_AvailabilityZone s)
    (gp_RepositoryRef s) x (gp_Clusters s)). Defined.
Definition f_Clusters : field (gProperties P L) (L (P (gCluster P))).
Proof. field_of gp_Clusters (λ x s, Build_gProperties P L (gp_OwnerRef s)
    (gp_OrganizationRef s) (gp_Deployment s) (gp_Region s) (gp_AvailabilityZone s)
    (gp_RepositoryRef s) (gp_Applications s) x). Defined.
Definition f_ResourceSpec : field (gSpec P L XS) XS.
Proof. field_of gs_ResourceSpec (λ x s, Build_gSpec P L XS x (gs_Properties s)). Defined.
Definition f_Properties : field (gSpec P L XS) (P (gProperties P L)).
Proof. field_of gs_Properties (λ x s, Build_gSpec P L XS (gs_ResourceSpec s) x). Defined.
Definition f_ResourceStatus : field (gStatus XT) XT.
Proof. field_of gst_ResourceStatus (λ x s, Build_gStatus XT x (gst_Namespace s)). Defined.

Abbreviation T := (gTenant P L XM XS XT).
Abbreviation mkT := (Build_gTenant P L XM XS XT).
Definition f_TypeMeta : field T TypeMeta.
Proof. field_of gt_TypeMeta (λ x s, mkT x (gt_ObjectMeta s) (gt_Spec s) (gt_Status s)). Defined.
Definition f_ObjectMeta : field T XM.
Proof. field_of gt_ObjectMeta (λ x s, mkT (gt_TypeMeta s) x (gt_Spec s) (gt_Status s)). Defined.
Definition f_Spec : field T (gSpec P L XS).
Proof. field_of gt_Spec (λ x s, mkT (gt_TypeMeta s) (gt_ObjectMeta s) x (gt_Status s)). Defined.
Definition f_Status : field T (gStatus XT).
Proof. field_of gt_Status (λ x s, mkT (gt_TypeMeta s) (gt_ObjectMeta s) (gt_Spec s) x). Defined.

Abbreviation TL := (gTenantList P L XM XS XT XL).
Abbreviation mkTL := (Build_gTenantList P L XM XS XT XL).
Definition f_list_TypeMeta : field TL TypeMeta.
Proof. field_of gl_TypeMeta (λ x s, mkTL x (gl_ListMeta s) (gl_Items s)). Defined.
Definition f_ListMeta : field TL XL.
Proof. field_of gl_ListMeta (λ x s, mkTL (gl_TypeMeta s) x (gl_Items s)). Defined.
Definition f_Items : field TL (L T).
Proof. field_of gl_Items (λ x s, mkTL (gl_TypeMeta s) (gl_ListMeta s) x). Defined.
End fields.

(** ** Memory *)

(** The structs of the libraries as they are in memory, and what the cells they
    refer to can hold. *)
Class CopyTypes := {
  xcell : Type;
  mObjectMeta : Type;
  mResourceSpec : Type;
  mResourceStatus : Type;
  mListMeta : Type;
  ListMeta : Type }.

Section memory.
Context {ET : ExtTypes} {CT : CopyTypes}.

Abbreviation mApplications := (gApplications ref).
Abbreviation mCluster := (gCluster ref).
Abbreviation mProperties := (gProperties ref sref).
Abbreviation mSpec := (gSpec ref sref mResourceSpec).
Abbreviation mStatus := (gStatus mResourceStatus).
Abbreviation mTenant := (gTenant ref sref mObjectMeta mResourceSpec mResourceStatus).
Abbreviation mTenantList :=
  (gTenantList ref sref mObjectMeta mResourceSpec mResourceStatus mListMeta).

(** One allocation. *)
Inductive cell :=
  | CReference (x : PackageRevisionReference)
  | CApplications (x : mApplications)
  | CCluster (x : mCluster)
  | CProperties (x : mProperties)
  | CSpec (x : mSpec)
  | CStatus (x : mStatus)
  | CTenant (x : mTenant)
  | CTenantList (x : mTenantList)
  | CInstallation (x : gmap string bool)
  | CRepositories (x : gmap string string)
  | CClusters (x : list (ref mCluster))
  | CItems (x : list mTenant)
  | CExt (x : xcell).

Ltac cell_of inj prj :=
  refine {| of_val := inj; as_val := prj |}; [done|by intros [] ?; simpl; intros; simplify_eq].

#[export] Instance cell_Reference : IsCell cell PackageRevisionReference.
Proof. cell_of CReference (λ c, if c is CReference x then Some x else None). Defined.
#[export] Instance cell_Applications : IsCell cell mApplications.
Proof. cell_of CApplications (λ c, if c is CApplications x then Some x else None). Defined.
#[export] Instance cell_Cluster : IsCell cell mCluster.
Proof. cell_of CCluster (λ c, if c is CCluster x then Some x else None). Defined.
#[export] Instance cell_Properties : IsCell cell mProperties.
Proof. cell_of CProperties (λ c, if c is CProperties x then Some x else None). Defined.
#[export] Instance cell_Spec : IsCell cell mSpec.
Proof. cell_of CSpec (λ c, if c is CSpec x then Some x else None). Defined.
#[export] Instance cell_Status : IsCell cell mStatus.
Proof. cell_of CStatus (λ c, if c is CStatus x then Some x else None). Defined.
#[export] Instance cell_Tenant : IsCell cell mTenant.
Proof. cell_of CTenant (λ c, if c is CTenant x then Some x else None). Defined.
#[export] Instance cell_TenantList : IsCell cell mTenantList.
Proof. cell_of CTenantList (λ c, if c is CTenantList x then Some x else None). Defined.
#[export] Instance cell_Installation : IsCell cell (gmap string bool).
Proof. cell_of CInstallation (λ c, if c is CInstallation x then Some x else None). Defined.
#[export] Instance cell_Repositories : IsCell cell (gmap string string).
Proof. cell_of CRepositories (λ c, if c is CRepositories x then Some x else None). Defined.
#[export] Instance cell_Clusters : IsCell cell (list (ref mCluster)).
Proof. cell_of CClusters (λ c, if c is CClusters x then Some x else None). Defined.
#[export] Instance cell_Items : IsCell cell (list mTenant).
Proof. cell_of CItems (λ c, if c is CItems x then Some x else None). Defined.

(** The [DeepCopyInto] of the libraries, the values their structs hold, and
    that they keep the contract. *)
Class CopyDeps := {
  ops_ObjectMeta :: CopyOps cell mObjectMeta;
  ops_ResourceSpec :: CopyOps cell mResourceSpec;
  ops_ResourceStatus :: CopyOps cell mResourceStatus;
  ops_ListMeta :: CopyOps cell mListMeta;
  read_ObjectMeta :: Readable cell mObjectMeta ObjectMeta;
  read_ResourceSpec :: Readable cell mResourceSpec ResourceSpec;
  read_ResourceStatus :: Readable cell mResourceStatus ResourceStatus;
  read_ListMeta :: Readable cell mListMeta ListMeta }.

Class CopyDepLaws `{CopyDeps} : Prop := {
  law_ObjectMeta :: CopyLaw cell mObjectMeta ObjectMeta;
  law_ResourceSpec :: CopyLaw cell mResourceSpec ResourceSpec;
  law_ResourceStatus :: CopyLaw cell mResourceStatus ResourceStatus;
  law_ListMeta :: CopyLaw cell mListMeta ListMeta }.

(** ** The functions, in the order of the calls *)

Section zero.
Context `{CopyDeps}.
Local Open Scope string_scope.

Definition zero_Reference : PackageRevisionReference :=
  {| ref_Namespace := ""; ref_RepositoryName := ""; ref_PackageName := ""; ref_Revision := "" |}.
Definition zero_Applications : mApplications :=
  {| ga_Installation := None; ga_PackageRef := zero_Reference |}.
Definition zero_Cluster : mCluster := {| gc_ClusterRef := ""; gc_RepositoryRef := None |}.
Definition zero_Properties : mProperties := {|
  gp_OwnerRef := ""; gp_OrganizationRef := ""; gp_Deployment := ""; gp_Region := "";
  gp_AvailabilityZone := ""; gp_RepositoryRef := ""; gp_Applications := None;
  gp_Clusters := None |}.
Definition zero_Spec : mSpec := {| gs_ResourceSpec := cp_zero; gs_Properties := None |}.
Definition zero_Status : mStatus := {| gst_ResourceStatus := cp_zero; gst_Namespace := "" |}.
Definition zero_Tenant : mTenant := {|
  gt_TypeMeta := zero_TypeMeta; gt_ObjectMeta := cp_zero; gt_Spec := zero_Spec;
  gt_Status := zero_Status |}.
Definition zero_TenantList : mTenantList :=
  {| gl_TypeMeta := zero_TypeMeta; gl_ListMeta := cp_zero; gl_Items := None |}.
End zero.

Section functions.
Context `{CopyDeps}.
Abbreviation GoM := (GoM cell).
Abbreviation ptr := (ptr cell).
Implicit Types mo : nat → map_order.

Definition PackageRevisionReference_DeepCopyInto mo
    (in_ out : ptr PackageRevisionReference) : GoM () := assign in_ out.

Definition TenantApplications_DeepCopyInto mo (in_ out : ptr mApplications) : GoM () :=
  _ ← assign in_ out;
  _ ← (let in_ := fld in_ f_Installation in let out := fld out f_Installation in
       unless_nil in_ (copy_map mo in_ out));
  assign (fld in_ f_PackageRef) (fld out f_PackageRef).

Definition TenantCluster_DeepCopyInto mo (in_ out : ptr mCluster) : GoM () :=
  _ ← assign in_ out;
  let in_ := fld in_ f_RepositoryRef in let out := fld out f_RepositoryRef in
  unless_nil in_ (copy_map mo in_ out).

(** One element of the clusters. *)
Definition cluster_element mo (in_ out : ptr (ref mCluster)) : GoM () :=
  unless_nil in_ (copy_new zero_Cluster (TenantCluster_DeepCopyInto mo) in_ out).

Definition TenantProperties_DeepCopyInto mo (in_ out : ptr mProperties) : GoM () :=
  _ ← assign in_ out;
  _ ← (let in_ := fld in_ f_Applications in let out := fld out f_Applications in
       unless_nil in_
         (copy_new zero_Applications (TenantApplications_DeepCopyInto mo) in_ out));
  let in_ := fld in_ f_Clusters in let out := fld out f_Clusters in
  unless_nil in_ (copy_slice None (cluster_element mo) in_ out).

Definition TenantSpec_DeepCopyInto mo (in_ out : ptr mSpec) : GoM () :=
  _ ← assign in_ out;
  _ ← cp_into mo (fld in_ f_ResourceSpec) (fld out f_ResourceSpec);
  let in_ := fld in_ f_Properties in let out := fld out f_Properties in
  unless_nil in_ (copy_new zero_Properties (TenantProperties_DeepCopyInto mo) in_ out).

Definition TenantStatus_DeepCopyInto mo (in_ out : ptr mStatus) : GoM () :=
  _ ← assign in_ out;
  cp_into mo (fld in_ f_ResourceStatus) (fld out f_ResourceStatus).

Definition Tenant_DeepCopyInto mo (in_ out : ptr mTenant) : GoM () :=
  _ ← assign in_ out;
  _ ← assign (fld in_ f_TypeMeta) (fld out f_TypeMeta);
  _ ← cp_into mo (fld in_ f_ObjectMeta) (fld out f_ObjectMeta);
  _ ← TenantSpec_DeepCopyInto mo (fld in_ f_Spec) (fld out f_Spec);
  TenantStatus_DeepCopyInto mo (fld in_ f_Status) (fld out f_Status).

Definition TenantList_DeepCopyInto mo (in_ out : ptr mTenantList) : GoM () :=
  _ ← assign in_ out;
  _ ← assign (fld in_ f_list_TypeMeta) (fld out f_list_TypeMeta);
  _ ← cp_into mo (fld in_ f_ListMeta) (fld out f_ListMeta);
  let in_ := fld in_ f_Items in let out := fld out f_Items in
  unless_nil in_ (copy_slice zero_Tenant (Tenant_DeepCopyInto mo) in_ out).

#[export] Instance ops_Reference : CopyOps cell PackageRevisionReference :=
  {| cp_zero := zero_Reference; cp_into := PackageRevisionReference_DeepCopyInto |}.
#[export] Instance ops_Applications : CopyOps cell mApplications :=
  {| cp_zero := zero_Applications; cp_into := TenantApplications_DeepCopyInto |}.
#[export] Instance ops_Cluster : CopyOps cell mCluster :=
  {| cp_zero := zero_Cluster; cp_into := TenantCluster_DeepCopyInto |}.
#[export] Instance ops_Properties : CopyOps cell mProperties :=
  {| cp_zero := zero_Properties; cp_into := TenantProperties_DeepCopyInto |}.
#[export] Instance ops_Spec : CopyOps cell mSpec :=
  {| cp_zero := zero_Spec; cp_into := TenantSpec_DeepCopyInto |}.
#[export] Instance ops_Status : CopyOps cell mStatus :=
  {| cp_zero := zero_Status; cp_into := TenantStatus_DeepCopyInto |}.
#[export] Instance ops_Tenant : CopyOps cell mTenant :=
  {| cp_zero := zero_Tenant; cp_into := Tenant_DeepCopyInto |}.
#[export] Instance ops_TenantList : CopyOps cell mTenantList :=
  {| cp_zero := zero_TenantList; cp_into := TenantList_DeepCopyInto |}.

(** [DeepCopy] has the same body for every type. *)
Definition PackageRevisionReference_DeepCopy := DeepCopy (R:=PackageRevisionReference).
Definition TenantApplications_DeepCopy := DeepCopy (R:=mApplications).
Definition TenantCluster_DeepCopy := DeepCopy (R:=mCluster).
Definition TenantProperties_DeepCopy := DeepCopy (R:=mProperties).
Definition TenantSpec_DeepCopy := DeepCopy (R:=mSpec).
Definition TenantStatus_DeepCopy := DeepCopy (R:=mStatus).
Definition Tenant_DeepCopy := DeepCopy (R:=mTenant).
Definition TenantList_DeepCopy := DeepCopy (R:=mTenantList).

(** A [runtime.Object]: an interface value has the type of what it points to,
    and is nil only when it has no type. *)
Inductive runtime_Object :=
  | OTenant (p : ref mTenant)
  | OTenantList (p : ref mTenantList).

Definition Tenant_DeepCopyObject mo (in_ : ref mTenant) : GoM (option runtime_Object) :=
  c ← Tenant_DeepCopy mo in_;
  mret (match c with Some _ => Some (OTenant c) | None => None end).
Definition TenantList_DeepCopyObject mo (in_ : ref mTenantList) :
    GoM (option runtime_Object) :=
  c ← TenantList_DeepCopy mo in_;
  mret (match c with Some _ => Some (OTenantList c) | None => None end).

(** ** The values *)

Abbreviation vslice := (λ T, option (list T)).
Definition vApplications : Type := gApplications option.
Definition vCluster : Type := gCluster option.
Definition vProperties : Type := gProperties option vslice.
Definition vSpec : Type := gSpec option vslice ResourceSpec.
Definition vStatus : Type := gStatus ResourceStatus.
Definition vTenant : Type := gTenant option vslice ObjectMeta ResourceSpec ResourceStatus.
Definition vTenantList : Type :=
  gTenantList option vslice ObjectMeta ResourceSpec ResourceStatus ListMeta.

Definition snap_Reference (m : list cell) (x : PackageRevisionReference) :
    snapshot PackageRevisionReference := snap_ret x.
Definition snap_Applications (m : list cell) (x : mApplications) : snapshot vApplications :=
  let! a := snap m (ga_Installation x) in
  snap_ret {| ga_Installation := a; ga_PackageRef := ga_PackageRef x |}.
Definition snap_Cluster (m : list cell) (x : mCluster) : snapshot vCluster :=
  let! a := snap m (gc_RepositoryRef x) in
  snap_ret {| gc_ClusterRef := gc_ClusterRef x; gc_RepositoryRef := a |}.

Lemma snap_Applications_local x : local_read (λ m, snap_Applications m x).
Proof. solve_local. Qed.
Lemma snap_Cluster_local x : local_read (λ m, snap_Cluster m x).
Proof. solve_local. Qed.

#[export] Instance read_Reference :
  Readable cell PackageRevisionReference PackageRevisionReference :=
  {| snap := snap_Reference; snap_local x := local_ret x |}.
#[export] Instance read_Applications : Readable cell mApplications vApplications :=
  {| snap := snap_Applications; snap_local := snap_Applications_local |}.
#[export] Instance read_Cluster : Readable cell mCluster vCluster :=
  {| snap := snap_Cluster; snap_local := snap_Cluster_local |}.

Definition snap_Properties (m : list cell) (x : mProperties) : snapshot vProperties :=
  let! a := snap (V:=option vApplications) m (gp_Applications x) in
  let! b := snap (V:=option (list (option vCluster))) m (gp_Clusters x) in
  snap_ret {|
    gp_OwnerRef := gp_OwnerRef x; gp_OrganizationRef := gp_OrganizationRef x;
    gp_Deployment := gp_Deployment x; gp_Region := gp_Region x;
    gp_AvailabilityZone := gp_AvailabilityZone x; gp_RepositoryRef := gp_RepositoryRef x;
    gp_Applications := a; gp_Clusters := b |}.
Lemma snap_Properties_local x : local_read (λ m, snap_Properties m x).
Proof. solve_local. Qed.
#[export] Instance read_Properties : Readable cell mProperties vProperties :=
  {| snap := snap_Properties; snap_local := snap_Properties_local |}.

Definition snap_Spec (m : list cell) (x : mSpec) : snapshot vSpec :=
  let! a := snap m (gs_ResourceSpec x) in
  let! b := snap (V:=option vProperties) m (gs_Properties x) in
  snap_ret {| gs_ResourceSpec := a; gs_Properties := b |}.
Lemma snap_Spec_local x : local_read (λ m, snap_Spec m x).
Proof. solve_local. Qed.
#[export] Instance read_Spec : Readable cell mSpec vSpec :=
  {| snap := snap_Spec; snap_local := snap_Spec_local |}.

Definition snap_Status (m : list cell) (x : mStatus) : snapshot vStatus :=
  let! a := snap m (gst_ResourceStatus x) in
  snap_ret {| gst_ResourceStatus := a; gst_Namespace := gst_Namespace x |}.
Lemma snap_Status_local x : local_read (λ m, snap_Status m x).
Proof. solve_local. Qed.
#[export] Instance read_Status : Readable cell mStatus vStatus :=
  {| snap := snap_Status; snap_local := snap_Status_local |}.

Definition snap_Tenant (m : list cell) (x : mTenant) : snapshot vTenant :=
  let! a := snap m (gt_ObjectMeta x) in
  let! b := snap (V:=vSpec) m (gt_Spec x) in
  let! c := snap (V:=vStatus) m (gt_Status x) in
  snap_ret {|
    gt_TypeMeta := gt_TypeMeta x; gt_ObjectMeta := a; gt_Spec := b; gt_Status := c |}.
Lemma snap_Tenant_local x : local_read (λ m, snap_Tenant m x).
Proof. solve_local. Qed.
#[export] Instance read_Tenant : Readable cell mTenant vTenant :=
  {| snap := snap_Tenant; snap_local := snap_Tenant_local |}.

Definition snap_TenantList (m : list cell) (x : mTenantList) : snapshot vTenantList :=
  let! a := snap m (gl_ListMeta x) in
  let! b := snap (V:=option (list vTenant)) m (gl_Items x) in
  snap_ret {| gl_TypeMeta := gl_TypeMeta x; gl_ListMeta := a; gl_Items := b |}.
Lemma snap_TenantList_local x : local_read (λ m, snap_TenantList m x).
Proof. solve_local. Qed.
#[export] Instance read_TenantList : Readable cell mTenantList vTenantList :=
  {| snap := snap_TenantList; snap_local := snap_TenantList_local |}.

(** ** Every [DeepCopyInto] keeps the contract *)

Section laws.
Context `{!CopyDepLaws}.

(** [copy_start]: the struct is copied as it is.  [copy_field f H Hs]: the field
    [f], whose value [Hs] was read from the original, is copied by the law [H]. *)
Ltac copy_start Hi Ho Hio Hsn :=
  let Hls := fresh "Hls" in
  intros mo i o m r z v ls Hi Ho _ Hsn Hio Hls; simpl in Hsn; snap_inv Hsn;
  simpl cp_into; pose proof (get_at_lt _ _ _ Ho).
Ltac copy_assign :=
  lazymatch goal with
  | Hio : p_base ?o ≠ p_base ?i, Hi : get_at ?i _ = Some _, Ho : get_at ?o _ = Some _ |- _ =>
    rewrite (st_bind_ok _ _ _ _ _ (assign_struct _ _ _ _ _ Hi Ho))
  end.
Tactic Notation "copy_field" uconstr(f) uconstr(Hlaw) hyp(Hs)
    ident(q) ident(Hrun) ident(Hq) ident(Hb) :=
  lazymatch goal with
  | Hio : p_base ?o ≠ p_base ?i, Hi : get_at ?i ?m = Some _, Ho : get_at ?o ?m = Some _
    |- context [put ?o ?s' ?m ++ ?new] =>
    edestruct (copies_field _ o m _ _ Hi Ho Hio _ _ f s' new _ _ Hlaw Hs)
      as (q & ? & ? & Hrun & Hq & Hb);
    [set_solver|first [exact I|exact (λ H, H)]|]
  end.
Ltac copy_bind Hrun := rewrite (st_bind_ok _ _ _ _ _ Hrun).
Ltac copy_between Hb1 Hb2 :=
  rewrite ?app_nil_r; eapply between_app;
  [eapply between_weaken; [exact Hb1|rewrite ?length_app; simpl; lia|reflexivity]
  |eapply between_weaken; [exact Hb2|rewrite ?length_app; simpl; lia..]
  |rewrite !length_app; simpl; lia].
Tactic Notation "copy_done" uconstr(Hrun) := eexists _, _, _; split_and!; [refine Hrun| |].

#[export] Instance law_Reference :
  CopyLaw cell PackageRevisionReference PackageRevisionReference.
Proof.
  copy_start Hi Ho Hio Hsn. injection Hsn as <- <-.
  unfold PackageRevisionReference_DeepCopyInto.
  copy_done (assign_struct _ _ _ _ _ Hi Ho); [done|apply between_nil].
Qed.

#[export] Instance law_Applications : CopyLaw cell mApplications vApplications.
Proof.
  copy_start Hi Ho Hio Hsn. unfold snap_Applications in Hsn. snap_inv Hsn.
  unfold TenantApplications_DeepCopyInto. copy_assign.
  copy_field f_Installation (copies_map (V:=bool) mo) Hs q Hrun Hq Hb.
  copy_bind Hrun. copy_done (assign_field _ _ _ _ _ Hi Ho Hio f_PackageRef _ _).
  - eapply snap_bind_ok; [|done]. by eapply snap_same.
  - rewrite app_nil_r. eapply between_weaken; [exact Hb|..]; simpl; lia.
Qed.

#[export] Instance law_Cluster : CopyLaw cell mCluster vCluster.
Proof.
  copy_start Hi Ho Hio Hsn. unfold snap_Cluster in Hsn. snap_inv Hsn.
  unfold TenantCluster_DeepCopyInto. copy_assign.
  copy_field f_RepositoryRef (copies_map (V:=string) mo) Hs q Hrun Hq Hb.
  copy_done Hrun.
  - by eapply snap_bind_ok; [exact Hq|].
  - rewrite app_nil_r. eapply between_weaken; [exact Hb|..]; simpl; lia.
Qed.

Lemma copies_element mo :
  copies (R:=ref mCluster) (V:=option vCluster) nil_ok (cluster_element mo).
Proof. apply copies_new, law_Cluster. Qed.

#[export] Instance law_Properties : CopyLaw cell mProperties vProperties.
Proof.
  copy_start Hi Ho Hio Hsn. unfold snap_Properties in Hsn. snap_inv Hsn.
  unfold TenantProperties_DeepCopyInto. copy_assign.
  copy_field f_Applications
    (copies_new zero_Applications _ (law_Applications mo)) Hs q1 Hrun1 Hq1 Hb1.
  copy_bind Hrun1.
  copy_field f_Clusters
    (copies_slice _ None _ (copies_element mo) (λ _ _, eq_refl)) Hs0 q2 Hrun2 Hq2 Hb2.
  copy_done Hrun2.
  - eapply snap_bind_ok; [by eapply snap_keep|]. by eapply snap_bind_ok; [exact Hq2|].
  - copy_between Hb1 Hb2.
Qed.

#[export] Instance law_Spec : CopyLaw cell mSpec vSpec.
Proof.
  copy_start Hi Ho Hio Hsn. unfold snap_Spec in Hsn. snap_inv Hsn.
  unfold TenantSpec_DeepCopyInto. copy_assign.
  copy_field f_ResourceSpec (cp_law mo) Hs q1 Hrun1 Hq1 Hb1.
  copy_bind Hrun1.
  copy_field f_Properties
    (copies_new zero_Properties _ (law_Properties mo)) Hs0 q2 Hrun2 Hq2 Hb2.
  copy_done Hrun2.
  - eapply snap_bind_ok; [by eapply snap_keep|]. by eapply snap_bind_ok; [exact Hq2|].
  - copy_between Hb1 Hb2.
Qed.

#[export] Instance law_Status : CopyLaw cell mStatus vStatus.
Proof.
  copy_start Hi Ho Hio Hsn. unfold snap_Status in Hsn. snap_inv Hsn.
  unfold TenantStatus_DeepCopyInto. copy_assign.
  copy_field f_ResourceStatus (cp_law mo) Hs q Hrun Hq Hb.
  copy_done Hrun.
  - by eapply snap_bind_ok; [exact Hq|].
  - rewrite app_nil_r. eapply between_weaken; [exact Hb|..]; simpl; lia.
Qed.

#[export] Instance law_Tenant : CopyLaw cell mTenant vTenant.
Proof.
  copy_start Hi Ho Hio Hsn. unfold snap_Tenant in Hsn. snap_inv Hsn.
  unfold Tenant_DeepCopyInto. copy_assign.
  copy_bind (assign_field _ _ _ _ _ Hi Ho Hio f_TypeMeta r []).
  copy_field f_ObjectMeta (cp_law mo) Hs q1 Hrun1 Hq1 Hb1.
  copy_bind Hrun1.
  copy_field f_Spec (law_Spec mo) Hs0 q2 Hrun2 Hq2 Hb2.
  copy_bind Hrun2.
  copy_field f_Status (law_Status mo) Hs1 q3 Hrun3 Hq3 Hb3.
  copy_done Hrun3.
  - eapply snap_bind_ok; [|eapply snap_bind_ok; [|eapply snap_bind_ok; [exact Hq3|]]].
    + rewrite <-(assoc_L (++)). by eapply snap_keep.
    + by eapply snap_keep.
    + done.
  - eapply between_app.
    + eapply between_weaken; [exact Hb1|simpl; lia|reflexivity].
    + copy_between Hb2 Hb3.
    + rewrite !length_app. simpl. lia.
Qed.

#[export] Instance law_TenantList : CopyLaw cell mTenantList vTenantList.
Proof.
  copy_start Hi Ho Hio Hsn. unfold snap_TenantList in Hsn. snap_inv Hsn.
  unfold TenantList_DeepCopyInto. copy_assign.
  copy_bind (assign_field _ _ _ _ _ Hi Ho Hio f_list_TypeMeta r []).
  copy_field f_ListMeta (cp_law mo) Hs q1 Hrun1 Hq1 Hb1.
  copy_bind Hrun1.
  copy_field f_Items
    (copies_slice _ zero_Tenant _ (law_Tenant mo) (λ _, I)) Hs0 q2 Hrun2 Hq2 Hb2.
  copy_done Hrun2.
  - eapply snap_bind_ok; [by eapply snap_keep|]. by eapply snap_bind_ok; [exact Hq2|].
  - copy_between Hb1 Hb2.
Qed.
End laws.
End functions.
End memory.
