(* ===== verification/Toy.v ===== *)
(** * A concrete instance of the library interfaces

    [Deps] leaves the libraries abstract.  This file gives one instance, a
    line-oriented miniature of kyaml and kio with string errors, in which the
    definitions of the development run: the hypotheses of the theorems are
    satisfied there, and the witnesses evaluate on it.  Nothing else depends on
    its details. *)

From Stdlib Require Import Ascii.
From stdpp Require Import base tactics list gmap strings.
From S2P Require Import Prelude.
From S2P Require Import GoStrings.
From S2P Require Import Deps.

Local Open Scope string_scope.

(** An error is its message, with the mark of Kubernetes' NotFound status. *)
Record toy_error := ToyError { te_not_found : bool; te_msg : string }.

(** A document: the metadata and the scalar fields, by dotted path. *)
Record toy_doc := ToyDoc {
  td_kind : string;
  td_name : string;
  td_namespace : string;
  td_ann : list (string * string);
  td_fields : list (string * string) }.

#[export] Instance toy_error_eq_dec : EqDecision toy_error.
Proof. solve_decision. Defined.
#[export] Instance toy_doc_eq_dec : EqDecision toy_doc.
Proof. solve_decision. Defined.

#[export] Instance toy_types : ExtTypes := {|
  error := toy_error;
  RNode := toy_doc;
  YAddr := string;
  NodeSeq := list string;
  Condition := string;
  ConditionKind := string;
  ConditionedStatus := list string;
  HealthConditionedStatus := unit;
  DeletionPolicy := string;
  DeploymentPolicy := string;
  Time := nat;
  OwnerReference := string;
  TypedReference := string;
|}.

Definition dq : string := String "034" "".
Definition nl : string := String "010" "".

(** ** Printing and parsing documents *)

Definition td_print (d : toy_doc) : string :=
  "kind: " +:+ td_kind d +:+ nl +:+
  "  name: " +:+ td_name d +:+ nl +:+
  (if String.eqb (td_namespace d) "" then "" else "  namespace: " +:+ td_namespace d +:+ nl) +:+
  Join ((λ '(k, v), "    " +:+ k +:+ ": " +:+ dq +:+ v +:+ dq +:+ nl) <$> td_ann d) "" +:+
  Join ((λ '(k, v), k +:+ ": " +:+ v +:+ nl) <$> td_fields d) "".

Definition unquote (s : string) : string := ReplaceAll s dq "".

Definition td_line (d : toy_doc) (line : string) : toy_doc :=
  match Split line ": " with
  | [k; v] =>
      if HasPrefix k "    " then
        ToyDoc (td_kind d) (td_name d) (td_namespace d)
          (td_ann d ++ [(str_drop 4 k, unquote v)])%list (td_fields d)
      else if String.eqb k "kind" then
        ToyDoc v (td_name d) (td_namespace d) (td_ann d) (td_fields d)
      else if String.eqb k "  name" then
        ToyDoc (td_kind d) v (td_namespace d) (td_ann d) (td_fields d)
      else if String.eqb k "  namespace" then
        ToyDoc (td_kind d) (td_name d) v (td_ann d) (td_fields d)
      else ToyDoc (td_kind d) (td_name d) (td_namespace d) (td_ann d)
             (td_fields d ++ [(k, v)])%list
  | _ => d
  end.

Definition td_empty : toy_doc := ToyDoc "" "" "" [] [].

Definition td_parse (s : string) : toy_error + toy_doc :=
  if String.eqb s "" then inl (ToyError false "EOF")
  else inr (foldl td_line td_empty (Split s nl)).

Definition td_set_ann (m : gmap string string) (d : toy_doc) : toy_doc :=
  ToyDoc (td_kind d) (td_name d) (td_namespace d) (map_to_list m) (td_fields d).

Definition td_get_ann (d : toy_doc) : gmap string string := list_to_map (td_ann d).

Definition assoc (k : string) (l : list (string * string)) : option string :=
  snd <$> find (λ p, String.eqb p.1 k) l.

Definition assoc_set (k v : string) (l : list (string * string)) : list (string * string) :=
  (λ p, if String.eqb p.1 k then (k, v) else p) <$> l.

Definition td_set_fields (fs : list (string * string)) (d : toy_doc) : toy_doc :=
  ToyDoc (td_kind d) (td_name d) (td_namespace d) (td_ann d) fs.

(** The document's own node has the address [""]; a document whose only field
    has that path is a scalar. *)
Definition td_scalar (s : string) : toy_doc := ToyDoc "" "" "" [] [("", s)].

Definition td_value (d : toy_doc) (a : string) : string := default "" (assoc a (td_fields d)).

(** ** Packages *)

Definition path_key : string := "internal.config.kubernetes.io/path".
Definition index_key : string := "internal.config.kubernetes.io/index".
Definition doc_sep : string := "---" +:+ nl.

Definition toy_read (rs : list ByteReader) : toy_error + list toy_doc :=
  inr (mjoin ((λ r,
    omap (λ s, match td_parse s with
               | inl _ => None
               | inr d => Some (td_set_ann (br_SetAnnotations r ∪ td_get_ann d) d)
               end) (Split (br_Reader r) doc_sep)) <$> rs)).

(** A document of kind ["!"] cannot be written. *)
Definition toy_write (w : ByteWriter) (ns : list toy_doc) : toy_error + string :=
  if existsb (λ d, String.eqb (td_kind d) "!") ns then inl (ToyError false "cannot encode")
  else inr (Join ((λ d, td_print (td_set_ann
    (foldr delete (td_get_ann d) (bw_ClearAnnotations w)) d)) <$> ns) doc_sep).

#[export] Instance toy_ops : ExtOps := {|
  fmt_Errorf s := ToyError false s;
  fmt_Errorf_wrap s e := ToyError (te_not_found e) (s +:+ te_msg e);
  error_Error e := te_msg e;
  errors_Wrap o m := (λ e, ToyError (te_not_found e) (m +:+ ": " +:+ te_msg e)) <$> o;
  resource_IgnoreNotFound o := e ← o; if te_not_found e then None else Some e;
  client_IgnoreNotFound o := e ← o; if te_not_found e then None else Some e;
  yaml_Parse s := if Split s ": " is [_] then inr (td_scalar s) else td_parse s;
  rn_Copy d := d;
  rn_String d := inr (td_print d);
  rn_GetAnnotations := td_get_ann;
  rn_SetAnnotations m d := (td_set_ann m d, None);
  rn_GetKind := td_kind;
  rn_GetName := td_name;
  rn_SetNamespace ns d := (ToyDoc (td_kind d) (td_name d) ns (td_ann d) (td_fields d), None);
  rn_self := "";
  yn_Kind d a := if assoc a (td_fields d) is Some _ then ScalarNode else MappingNode;
  yn_Value := td_value;
  yn_SetValue a v d := td_set_fields (assoc_set a v (td_fields d)) d;
  rn_SetYNode a c d := td_set_fields ((a, td_value c "") :: td_fields d) d;
  yaml_GetValue d := td_value d "";
  utils_SmarterPathSplitter s sep := Split s sep;
  rn_PathMatcher p d :=
    (d, inr (if assoc (Join p ".") (td_fields d) is Some _ then [Join p "."] else []));
  seq_Elements l := inr l;
  rn_LookupCreate k p d :=
    let a := Join p "." in
    ((if assoc a (td_fields d) is Some _ then d else td_set_fields (td_fields d ++ [(a, "")]) d), inr a);
  kio_MatchAll := ["*.yaml"; "*.yml"];
  kioutil_PathAnnotation := path_key;
  kioutil_IndexAnnotation := index_key;
  kio_ReadPackage := toy_read;
  kio_WriteNodes S l w := w l;
  kio_ByteWrite := toy_write;
  schema_GroupKind_String g k := k +:+ "." +:+ g;
  schema_GroupVersion_String g v := g +:+ "/" +:+ v;
  corev1_Identifier := "v1";
  porchv1alpha1_Identifier := "porch.kpt.dev/v1alpha1";
  YAMLPrinter_PrintObj ns :=
    "apiVersion: " +:+ tm_APIVersion (ns_TypeMeta ns) +:+ nl +:+
    td_print (ToyDoc (tm_Kind (ns_TypeMeta ns)) (om_Name (ns_ObjectMeta ns)) ""
      (map_to_list (om_Annotations (ns_ObjectMeta ns))) []);
  porchv1alpha1_AddToScheme := None;
  TaskTypeInit := "init";
  LifecycleDraft := "Draft";
  LifecycleProposed := "Proposed";
  LifecyclePublished := "Published";
  meta_TypedReferenceTo m g := gvk_Kind g +:+ "/" +:+ om_Name m;
  meta_AsController r := r;
  meta_WasDeleted m := if om_DeletionTimestamp m is Some _ then true else false;
  nddv1_ReconcileError e := "error: " +:+ te_msg e;
  nddv1_ReconcileSuccess := "success";
  nddv1_Unknown := "unknown";
  nddv1_Unavailable := "unavailable";
  nddv1_Available := "available";
  status_SetConditions cs s := cs;
  status_GetCondition k s := default "" (head s);
|}.

#[export] Instance toy_error_laws : ErrorLaws.
Proof.
  split; simpl; try done.
  intros [nf m]; simpl. destruct nf; auto.
Qed.

#[export] Instance toy_lifecycle_laws : LifecycleLaws.
Proof. split. apply (bool_decide_unpack _). vm_compute. exact I. Qed.

#[export] Instance toy_kyaml_laws : KYamlLaws.
Proof.
  split; simpl; try done.
  intros m n _. unfold td_get_ann, td_set_ann; simpl. by rewrite list_to_map_to_list.
Qed.

Lemma assoc_set_other a b v l : a ≠ b → assoc b (assoc_set a v l) = assoc b l.
Proof.
  intros Hne. unfold assoc, assoc_set. induction l as [|[k w] l IH]; csimpl; [done|].
  destruct (String.eqb_spec k a) as [->|Hk]; simpl.
  - by destruct (String.eqb_spec a b).
  - by destruct (String.eqb_spec k b).
Qed.

Lemma assoc_set_same a v l : is_Some (assoc a l) → assoc a (assoc_set a v l) = Some v.
Proof.
  unfold assoc, assoc_set. induction l as [|[k w] l IH]; csimpl; [by intros []|].
  destruct (String.eqb_spec k a) as [->|Hk]; simpl.
  - by rewrite String.eqb_refl.
  - by destruct (String.eqb_spec k a).
Qed.

Lemma assoc_set_is_Some a b v l : is_Some (assoc b (assoc_set a v l)) ↔ is_Some (assoc b l).
Proof.
  destruct (decide (a = b)) as [<-|Hne]; [|by rewrite assoc_set_other].
  unfold assoc, assoc_set. induction l as [|[k w] l IH]; csimpl; [done|].
  destruct (String.eqb_spec k a) as [->|Hk]; simpl.
  - rewrite String.eqb_refl. split; eauto.
  - by destruct (String.eqb_spec k a).
Qed.

#[export] Instance toy_field_laws : KFieldLaws.
Proof.
  split; simpl.
  - intros d a v Hk. unfold td_value, td_set_fields. simpl.
    rewrite assoc_set_same; [done|]. destruct (assoc a (td_fields d)); [by eexists|done].
  - intros d a b v Hne. unfold td_value, td_set_fields. simpl. by rewrite assoc_set_other.
  - intros d a b v. unfold td_set_fields. simpl.
    pose proof (assoc_set_is_Some a b v (td_fields d)) as Hs.
    destruct (assoc b (assoc_set _ _ _)), (assoc b (td_fields d)); try done.
    + by destruct (proj1 Hs ltac:(by eexists)).
    + by destruct (proj2 Hs ltac:(by eexists)).
Qed.

#[export] Instance toy_kio_laws : KioLaws.
Proof.
  split; try done. intros S l w s _. simpl. split; [|done].
  apply same_kind_refl.
Qed.
