(* ===== verification/DeepCopySpec.v ===== *)
(** * What the deep copies of the Tenant types guarantee

    A copy holds the value of its original, in new memory that no other struct
    shares; nothing that existed changes, and from then on neither side sees
    the writes of the other.  All of it for every memory, for every order in
    which maps are visited and for shared or nil parts. *)

From stdpp Require Import base tactics list gmap strings.
From S2P Require Import Prelude.
From S2P Require Import GoMem.
From S2P Require Import GoCopy.
From S2P Require Import Deps.
From S2P Require Import Api.
From S2P Require Import DeepCopy.
From S2P Require Import Toy.

Local Open Scope nat_scope.

(** The cell [l] is a struct with the value [v]. *)
Definition holds {cell V R} `{Readable cell R V, IsCell cell R} (m : list cell) (l : nat) (v : V)
    : Prop :=
  ∃ r ls, get_at (at_ l) m = Some r ∧ snap m r = Some (v, ls).

(** The same, for a struct that occupies new cells only, each once. *)
Definition holds_new {cell V R} `{Readable cell R V, IsCell cell R} (m : list cell) (a l : nat)
    (v : V) : Prop :=
  ∃ r ls, get_at (at_ l) m = Some r ∧ snap m r = Some (v, ls) ∧ between a (length m) (l :: ls).

(** ** An instance of the libraries *)

Record toy_ObjectMeta := {
  tom_Name : string;
  tom_Annotations : ref (gmap string string) }.

#[export] Instance toy_copy_types : CopyTypes := {|
  xcell := Empty_set;
  mObjectMeta := toy_ObjectMeta;
  mResourceSpec := @ResourceSpec toy_types;
  mResourceStatus := @ResourceStatus toy_types;
  mListMeta := string;
  ListMeta := string |}.

Definition f_Annotations : field toy_ObjectMeta (ref (gmap string string)).
Proof.
  refine (Field tom_Annotations
    (λ x s, {| tom_Name := tom_Name s; tom_Annotations := x |}) _ _ _); [done|done|by intros []].
Defined.

Definition toy_meta_value (x : toy_ObjectMeta) (a : option (gmap string string)) :
    @ObjectMeta toy_types := {|
  om_Name := tom_Name x; om_Namespace := ""; om_Annotations := default ∅ a;
  om_Finalizers := []; om_DeletionTimestamp := None; om_OwnerReferences := [] |}.

Definition toy_snap_meta (m : list cell) (x : toy_ObjectMeta) :
    snapshot (@ObjectMeta toy_types) :=
  let! a := snap m (tom_Annotations x) in snap_ret (toy_meta_value x a).
Lemma toy_snap_meta_local x : local_read (λ m, toy_snap_meta m x).
Proof. solve_local. Qed.

Definition toy_copy_meta (mo : nat → map_order)
    (i o : ptr cell toy_ObjectMeta) : GoM cell () :=
  _ ← assign i o;
  unless_nil (fld i f_Annotations) (copy_map mo (fld i f_Annotations) (fld o f_Annotations)).

(** A struct without references. *)
Definition plain_ops {cell T} (zero : T) : CopyOps cell T :=
  {| cp_zero := zero; cp_into _ i o := assign i o |}.
Definition plain_read {cell T} : Readable cell T T :=
  {| snap _ x := snap_ret x; snap_local x := local_ret x |}.

Lemma plain_law {cell T} (zero : T) :
  CopyLaw (H:=plain_ops zero) (H0:=plain_read) cell T T.
Proof.
  intros mo i o m r r0 v ls Hi Ho _ Hs Hio _. injection Hs as <- <-.
  exists r, [], []. split_and!; [by eapply assign_struct|done|apply between_nil].
Qed.

Definition toy_spec : @ResourceSpec toy_types := {|
  rs_DeploymentPolicy := ""%string; rs_DeletionPolicy := ""%string;
  rs_TargetReference := None |}.
Definition toy_status : @ResourceStatus toy_types := {|
  rst_ConditionedStatus := []; rst_Health := (); rst_RootPaths := [] |}.

#[export] Instance toy_copy_deps : CopyDeps := {|
  ops_ObjectMeta :=
    {| cp_zero := {| tom_Name := ""; tom_Annotations := None |}; cp_into := toy_copy_meta |};
  ops_ResourceSpec := plain_ops toy_spec;
  ops_ResourceStatus := plain_ops toy_status;
  ops_ListMeta := plain_ops ""%string;
  read_ObjectMeta := {| snap := toy_snap_meta; snap_local := toy_snap_meta_local |};
  read_ResourceSpec := plain_read;
  read_ResourceStatus := plain_read;
  read_ListMeta := plain_read |}.

Lemma toy_meta_law : CopyLaw cell toy_ObjectMeta (@ObjectMeta toy_types).
Proof.
  intros mo i o m r z v ls Hi Ho _ Hsn Hio Hls. simpl in Hsn. unfold toy_snap_meta in Hsn.
  snap_inv Hsn. simpl. unfold toy_copy_meta.
  rewrite (st_bind_ok _ _ _ _ _ (assign_struct _ _ _ _ _ Hi Ho)).
  edestruct (copies_field i o m r z Hi Ho Hio _ _ f_Annotations r [] _ _
    (copies_map (V:=string) mo) Hs) as (q & new & ls' & Hrun & Hq & Hb); [set_solver|by intros ?|].
  eexists _, _, _. split_and!; [exact Hrun|by eapply snap_bind_ok; [exact Hq|]|].
  rewrite app_nil_r. eapply between_weaken; [exact Hb|..]; simpl; lia.
Qed.

#[export] Instance toy_copy_laws : CopyDepLaws.
Proof. constructor; [apply toy_meta_law|apply plain_law..]. Qed.

(** A list with one tenant: two clusters share a map, a third is nil, and the
    annotations are a map in memory too. *)
Definition toy_mtenant : gTenant ref sref toy_ObjectMeta (@ResourceSpec toy_types)
    (@ResourceStatus toy_types) := {|
  gt_TypeMeta := {| tm_Kind := "Tenant"; tm_APIVersion := "admin.yndd.io/v1alpha1" |};
  gt_ObjectMeta := {| tom_Name := "t1"; tom_Annotations := Some 8 |};
  gt_Spec := {| gs_ResourceSpec := toy_spec; gs_Properties := Some 2 |};
  gt_Status := {| gst_ResourceStatus := toy_status; gst_Namespace := "" |} |}.

Definition toy_mproperties : gProperties ref sref := {|
  gp_OwnerRef := "o"; gp_OrganizationRef := ""; gp_Deployment := ""; gp_Region := "";
  gp_AvailabilityZone := ""; gp_RepositoryRef := "r"; gp_Applications := Some 3;
  gp_Clusters := Some (Window 5 0 3) |}.

Definition toy_reference : PackageRevisionReference :=
  {| ref_Namespace := ""; ref_RepositoryName := "catalog"; ref_PackageName := "ns";
     ref_Revision := "v1" |}.

Definition toy_memory : list cell := [
  CTenantList {| gl_TypeMeta := zero_TypeMeta; gl_ListMeta := "7"%string;
                 gl_Items := Some (Window 1 0 1) |};
  CItems [toy_mtenant];
  CProperties toy_mproperties;
  CApplications {| ga_Installation := Some 4; ga_PackageRef := toy_reference |};
  CInstallation {["app" := true]};
  CClusters [Some 6; None; Some 9];
  CCluster {| gc_ClusterRef := "c1"; gc_RepositoryRef := Some 7 |};
  CRepositories {["admin" := "repo1"]};
  CRepositories {["owner" := "x"]};
  CCluster {| gc_ClusterRef := "c2"; gc_RepositoryRef := Some 7 |};
  CTenant toy_mtenant ]%string.

Definition toy_list_value : vTenantList :=
  Eval vm_compute in
    match get_at (at_ 0) toy_memory ≫= snap (V:=vTenantList) toy_memory with
    | Some (v, _) => v
    | None => {| gl_TypeMeta := zero_TypeMeta; gl_ListMeta := ""%string; gl_Items := None |}
    end.

Definition toy_list : gTenantList ref sref toy_ObjectMeta (@ResourceSpec toy_types)
    (@ResourceStatus toy_types) string :=
  {| gl_TypeMeta := zero_TypeMeta; gl_ListMeta := "7"; gl_Items := Some (Window 1 0 1) |}.

Definition toy_mo : nat → map_order := λ _, mo_id.
Definition toy_tenant_value : vTenant :=
  match gl_Items toy_list_value with Some (v :: _) => v | _ =>
    {| gt_TypeMeta := zero_TypeMeta; gt_ObjectMeta := zero_ObjectMeta;
       gt_Spec := {| gs_ResourceSpec := toy_spec; gs_Properties := None |};
       gt_Status := {| gst_ResourceStatus := toy_status; gst_Namespace := ""%string |} |} end.

Lemma toy_holds_list : holds toy_memory 0 toy_list_value.
Proof. exists toy_list, [1; 8; 2; 3; 4; 5; 6; 7; 9; 7]. split; vm_compute; reflexivity. Qed.

Lemma toy_holds_tenant : holds toy_memory 10 toy_tenant_value.
Proof. exists toy_mtenant, [8; 2; 3; 4; 5; 6; 7; 9; 7]. split; vm_compute; reflexivity. Qed.

(** ** The guarantees *)

Section spec.
Context {ET : ExtTypes} {CT : CopyTypes} `{!CopyDeps, !CopyDepLaws}.
Implicit Types m : list cell.

(** Every copy: one new struct at the end of the memory. *)
Lemma DeepCopy_holds {V R} `{CopyLaw cell R V, IsCell cell R} mo m l v :
  holds m l v →
  ∃ new, DeepCopy (R:=R) mo (Some l) m = (Ok (Some (length m)), m ++ new) ∧
    holds_new (m ++ new) (length m) (length m) v.
Proof.
  intros (r & ls & Hl & Hs).
  destruct (DeepCopy_ok mo m l r v ls Hl Hs) as (r' & new & ls' & Hrun & Hs' & Hb).
  exists (of_val r' :: new). split; [exact Hrun|]. exists r', ls'.
  split_and!; [by apply get_at_new|exact Hs'|].
  apply between_cons; [exact Hb|]. rewrite length_app. simpl. lia.
Qed.

Lemma holds_local {V R} `{Readable cell R V, IsCell cell R} m m' l v r ls :
  get_at (at_ l) m = Some r → snap m r = Some (v, ls) →
  (∀ k, k ∈ l :: ls → m' !! k = m !! k) → holds m' l v.
Proof.
  intros Hl Hs Hm. exists r, ls. split.
  - unfold get_at in *. simpl in *. rewrite Hm; [done|set_solver].
  - apply (snap_local _ _ _ _ Hs). intros k Hk. apply Hm. set_solver.
Qed.

Lemma holds_old {V R} `{Readable cell R V, IsCell cell R} m m' l v :
  holds m l v → (∀ k, k < length m → m' !! k = m !! k) → holds m' l v.
Proof.
  intros (r & ls & Hl & Hs) Hm. eapply holds_local; [done..|].
  intros k [->|Hk]%elem_of_cons; apply Hm; [by apply get_at_lt in Hl|].
  by apply (snap_local _ _ _ _ Hs).
Qed.

Lemma holds_new_keep {V R} `{Readable cell R V, IsCell cell R} m m' a l v :
  holds_new m a l v → (∀ k, a ≤ k → m' !! k = m !! k) → holds m' l v.
Proof.
  intros (r & ls & Hl & Hs & _ & Hb) Hm. eapply holds_local; [done..|].
  intros k Hk%Hb. apply Hm. lia.
Qed.

(** C13: Copying a list of tenants gives a typed object that holds the same value
    as the original, nil and empty parts told apart, in whatever order maps are
    visited.  The copy consists of new cells only, each used once, however much
    the original shares; no existing cell changes. *)
Theorem TenantList_DeepCopyObject_spec mo m l (v : vTenantList) :
  holds m l v →
  ∃ new, TenantList_DeepCopyObject mo (Some l) m =
    (Ok (Some (OTenantList (Some (length m)))), m ++ new) ∧
    holds_new (m ++ new) (length m) (length m) v.
Proof.
  intros Hv. destruct (DeepCopy_holds mo m l v Hv) as (new & Hrun & Hnew).
  exists new. split; [|exact Hnew].
  unfold TenantList_DeepCopyObject. by rewrite (st_bind_ok _ _ _ _ _ Hrun).
Qed.

(** C14: After a deep copy the two tenants are independent: the copy keeps its
    value whatever is written to memory that existed before, and the original
    keeps its value whatever is written to memory the copy allocated. *)
Theorem Tenant_DeepCopy_independent mo m l (v : vTenant) :
  holds m l v →
  ∃ l' m', Tenant_DeepCopy mo (Some l) m = (Ok (Some l'), m') ∧
    (∀ m2, (∀ k, length m ≤ k → m2 !! k = m' !! k) → holds m2 l' v) ∧
    (∀ m2, (∀ k, k < length m → m2 !! k = m' !! k) → holds m2 l v).
Proof.
  intros Hv. destruct (DeepCopy_holds mo m l v Hv) as (new & Hrun & Hnew).
  exists (length m), (m ++ new). split_and!; [exact Hrun| |].
  - intros m2 Hm. by eapply holds_new_keep.
  - intros m2 Hm. eapply holds_old; [done|]. intros k Hk. rewrite Hm by done.
    by apply lookup_app_l.
Qed.

(** [DeepCopyObject] of a nil pointer is the nil interface, not an interface
    that holds a nil pointer; and a readable tenant never gives nil. *)
Theorem DeepCopyObject_nil mo m :
  Tenant_DeepCopyObject mo None m = (Ok None, m) ∧
  TenantList_DeepCopyObject mo None m = (Ok None, m) ∧
  ∀ l (v : vTenant), holds m l v → ∃ l' m', Tenant_DeepCopyObject mo (Some l) m =
    (Ok (Some (OTenant (Some l'))), m').
Proof.
  split_and!; [done|done|]. intros l v Hv.
  destruct (DeepCopy_holds mo m l v Hv) as (new & Hrun & _).
  exists (length m), (m ++ new). unfold Tenant_DeepCopyObject.
  by rewrite (st_bind_ok _ _ _ _ _ Hrun).
Qed.

(** The contract needs [in] and [out] to be different: applications that are
    copied onto themselves lose their installation map. *)
Theorem TenantApplications_copy_onto_itself mo m l li pkg (x : gmap string bool) :
  get_at (at_ l) m = Some {| ga_Installation := Some li; ga_PackageRef := pkg |} →
  get_at (at_ li) m = Some x →
  ∃ m', TenantApplications_DeepCopyInto mo (at_ l) (at_ l) m = (Ok (), m') ∧
    holds m' l ({| ga_Installation := Some ∅; ga_PackageRef := pkg |} : vApplications).
Proof.
  intros Hl Hli. set (p := at_ l) in *. set (s := {| ga_Installation := _ |}) in Hl.
  set (s' := f_set f_Installation (Some (length m)) s).
  exists (put p s' m ++ [of_val (∅ : gmap string bool)]). split.
  - unfold TenantApplications_DeepCopyInto.
    assert (assign p p m = (Ok (), m)) as Hself.
    { unfold assign. rewrite (st_bind_ok _ _ _ _ _ (load_ok _ _ _ Hl)).
      by rewrite (store_ok _ _ _ _ Hl), (put_get _ _ _ Hl). }
    assert (get_at (fld p f_Installation) m = Some (Some li)) as Hf by by rewrite get_fld, Hl.
    rewrite (st_bind_ok _ _ _ _ _ Hself). cbv zeta.
    rewrite (st_bind_ok _ _ _ () (put p s' m ++ [of_val (∅ : gmap string bool)])).
    + unfold assign. set (m1 := put p s' m ++ _).
      assert (get_at (fld p f_PackageRef) m1 = Some pkg) as Hp.
      { rewrite get_fld. unfold m1.
        by rewrite (get_app _ s' _ _ (get_put _ _ _ _ Hl)). }
      rewrite (st_bind_ok _ _ _ _ _ (load_ok _ _ _ Hp)).
      by rewrite (store_ok _ _ _ _ Hp), (put_get _ _ _ Hp).
    + rewrite (unless_nil_run _ _ _ _ Hf). unfold copy_map.
      rewrite (alloc_store _ _ _ _ _ _ Hf).
      rewrite (put_fld p f_Installation s _ m Hl). fold s'. set (m1 := put p s' m ++ _).
      assert (get_at (fld p f_Installation) m1 = Some (Some (length m))) as Hf1.
      { rewrite get_fld. unfold m1.
        by rewrite (get_app _ s' _ _ (get_put _ _ _ _ Hl)). }
      rewrite (st_bind_ok _ _ _ _ _ (load_ok _ _ _ Hf1)).
      rewrite (st_bind_ok _ _ _ ∅ m1); [by rewrite map_range_empty|].
      apply load_ok, get_at_new. by rewrite length_put.
  - exists s', [length m]. split; [by apply get_app, (get_put _ _ _ _ Hl)|].
    eapply (snap_bind_ok _ _ (Some ∅) [_] _ []); [|done].
    eapply (snap_bind_ok _ _ ∅ [_] _ []); [|done].
    apply snap_cell_get. split; [|done]. apply get_at_new. by rewrite length_put.
Qed.
End spec.

(** ** The guarantees at work *)

Lemma TenantList_DeepCopyObject_spec_witness : ∃ new,
  TenantList_DeepCopyObject toy_mo (Some 0) toy_memory =
    (Ok (Some (OTenantList (Some 11))), toy_memory ++ new) ∧
  holds_new (toy_memory ++ new) 11 11 toy_list_value.
Proof. exact (TenantList_DeepCopyObject_spec toy_mo toy_memory 0 _ toy_holds_list). Defined.

Lemma Tenant_DeepCopy_independent_witness : ∃ l' m',
  Tenant_DeepCopy toy_mo (Some 10) toy_memory = (Ok (Some l'), m') ∧
  (∀ m2, (∀ k, 11 ≤ k → m2 !! k = m' !! k) → holds m2 l' toy_tenant_value) ∧
  (∀ m2, (∀ k, k < 11 → m2 !! k = m' !! k) → holds m2 10 toy_tenant_value).
Proof. exact (Tenant_DeepCopy_independent toy_mo toy_memory 10 _ toy_holds_tenant). Defined.

Lemma TenantApplications_copy_onto_itself_witness : ∃ m',
  TenantApplications_DeepCopyInto toy_mo (at_ 3) (at_ 3) toy_memory = (Ok (), m') ∧
  holds m' 3 ({| ga_Installation := Some ∅; ga_PackageRef := toy_reference |} : vApplications).
Proof.
  exact (TenantApplications_copy_onto_itself toy_mo toy_memory 3 4 toy_reference _
    eq_refl eq_refl).
Defined.

(** The order in which the maps are visited is not seen in the copy. *)
Example toy_copy_order :
  Tenant_DeepCopy toy_mo (Some 10) toy_memory =
  Tenant_DeepCopy (λ _, mo_rev) (Some 10) toy_memory.
Proof. vm_compute. reflexivity. Qed.
