(* ===== verification/AppResource.v ===== *)
(** * Application resources (pkg/appresource/resource.go)

    [resources] is a growing list of document pointers.  [IsEqual] compares it
    with a second list, deleting the matches from that list's backing array
    while ranging over it; the array and the slice over it are explicit here,
    since the loop reads what the deletions wrote. *)

From stdpp Require Import base tactics list gmap strings.
From S2P Require Import Prelude.
From S2P Require Import GoStrings.
From S2P Require Import Deps.
From S2P Require Import Toy.

(** A Go slice over a backing array: the first [slen] elements of [arr]. *)
Record slice := Slice { arr : list loc; slen : nat }.

Definition view (a : slice) : list loc := take (slen a) (arr a).

Section appresource.
Context {ET : ExtTypes} {EO : ExtOps}.
Abbreviation HSt := (St error heap).

(** ** Operations *)

Definition resources : Type := list loc.

Definition New : resources := [].
Definition Add (x : resources) (rn : loc) : resources := x ++ [rn].
Definition Get (x : resources) : list loc := x.

(** [r.Copy()] allocates a document with the same content. *)
Definition rn_copy (r : loc) : HSt loc := n ← h_read r; h_alloc (rn_Copy n).
Definition Copy (x : resources) : HSt resources := st_map rn_copy x.

Definition h_String (l : loc) : HSt string := n ← h_read l; st_lift (of_sum (rn_String n)).

Definition h_MustString (l : loc) : HSt string :=
  n ← h_read l;
  match rn_String n with inl _ => st_panic MustFailed | inr s => mret s end.

(** [arnl = append(arnl[:i], arnl[i+1:]...)], in place. *)
Definition slice_delete (i : nat) (a : slice) : HSt slice :=
  if decide (S i ≤ slen a) then
    mret (Slice (take i (arr a) ++ drop (S i) (view a) ++ drop (slen a - 1) (arr a))
                (slen a - 1))
  else st_panic SliceBounds.

(** The comparison of the loop body: both annotations are cleared, the
    errors of [SetAnnotations] ignored, and the texts compared. *)
Definition compare_nodes (nr ar : loc) : HSt bool :=
  _ ← h_method (rn_SetAnnotations ∅) nr;
  nrStr ← h_String nr;
  _ ← h_method (rn_SetAnnotations ∅) ar;
  arStr ← h_String ar;
  mret (String.eqb nrStr arStr).

(** [for i, ar := range arnl]: the indices are those of the slice when the
    loop starts, the elements are read from the backing array. *)
Fixpoint match_loop (nr : loc) (idx : list nat) (found : bool) (a : slice) :
    HSt (bool * slice) :=
  match idx with
  | [] => mret (found, a)
  | i :: idx' =>
      ar ← st_lift (of_option IndexRange (arr a !! i));
      eq ← compare_nodes nr ar;
      if (eq : bool) then a' ← slice_delete i a; match_loop nr idx' true a'
      else match_loop nr idx' found a
  end.

Fixpoint equal_loop (nrs : list loc) (a : slice) : HSt (bool * slice) :=
  match nrs with
  | [] => mret (true, a)
  | nr :: nrs' =>
      fa ← match_loop nr (seq 0 (slen a)) false a;
      let '(found, a') := fa in
      if (found : bool) then equal_loop nrs' a'
      else _ ← h_MustString nr; mret (false, a')
  end.

(** The result, with the array the caller's slice now sees. *)
Definition IsEqual (x : resources) (arnl : list loc) : HSt (bool * list loc) :=
  newResources ← Copy x;
  r ← equal_loop (Get newResources) (Slice arnl (length arnl));
  let '(ok, a) := r in
  mret (ok && Nat.eqb (slen a) 0, arr a).

(** ** The text a document is compared by *)

Definition bare (n : RNode) : RNode := (rn_SetAnnotations ∅ n).1.

(** The text of the document at [l], annotations cleared, is [s]. *)
Definition has_text (h : heap) (l : loc) (s : string) : Prop :=
  ∃ n, h !! l = Some n ∧ rn_String (bare n) = inr s.

(** [h'] is [h] with the annotations of some documents of [A] cleared. *)
Definition cleared (A : list loc) (h h' : heap) : Prop :=
  length h' = length h ∧
  ∀ l n, h !! l = Some n → h' !! l = Some n ∨ (l ∈ A ∧ h' !! l = Some (bare n)).

Context {KL : KYamlLaws}.

Lemma bare_bare n : bare (bare n) = bare n.
Proof. apply clear_clear. Qed.

Lemma cleared_refl A h : cleared A h h.
Proof. split; auto. Qed.

Lemma cleared_trans A h1 h2 h3 : cleared A h1 h2 → cleared A h2 h3 → cleared A h1 h3.
Proof.
  intros [L12 H12] [L23 H23]. split; [congruence|]. intros l n Hl.
  destruct (H12 l n Hl) as [H1|[HA H1]].
  - destruct (H23 l n H1) as [|[??]]; auto.
  - destruct (H23 l _ H1) as [|[??]]; rewrite ?bare_bare in *; auto.
Qed.

Lemma cleared_mono A B h h' : A ⊆ B → cleared A h h' → cleared B h h'.
Proof. intros HAB [HL Hc]. split; [done|]. intros l n Hl. destruct (Hc l n Hl) as [|[]]; auto. Qed.

Lemma cleared_text A h h' l s : cleared A h h' → has_text h l s → has_text h' l s.
Proof.
  intros [_ Hc] (n & Hl & Hs). destruct (Hc l n Hl) as [Hl'|[_ Hl']]; [by exists n|].
  exists (bare n). by rewrite bare_bare.
Qed.

Lemma clear_step A h l s : l ∈ A → has_text h l s →
  ∃ e h', h_method (rn_SetAnnotations ∅) l h = (Ok e, h') ∧ cleared A h h' ∧
    ∃ n, h' !! l = Some n ∧ rn_String n = inr s.
Proof.
  intros HA (n & Hl & Hs). eexists _, _. split; [by apply h_method_ok|]. fold (bare n).
  pose proof (lookup_lt_Some _ _ _ Hl). split.
  - split; [apply length_insert|]. intros l' n' Hl'. destruct (decide (l = l')) as [<-|Hne].
    + right. simplify_eq. by rewrite list_lookup_insert_eq.
    + left. by rewrite list_lookup_insert_ne.
  - exists (bare n). by rewrite list_lookup_insert_eq.
Qed.

Lemma h_String_ok h l n s : h !! l = Some n → rn_String n = inr s → h_String l h = (Ok s, h).
Proof.
  intros Hl Hs. unfold h_String. rewrite (st_bind_ok _ _ _ _ _ (h_read_ok _ _ _ Hl)).
  unfold st_lift. by rewrite Hs.
Qed.

Lemma compare_nodes_ok A h nr ar s1 s2 :
  nr ∈ A → ar ∈ A → has_text h nr s1 → has_text h ar s2 →
  ∃ h', compare_nodes nr ar h = (Ok (String.eqb s1 s2), h') ∧ cleared A h h'.
Proof.
  intros Hn Ha H1 H2.
  destruct (clear_step A h nr s1) as (e1 & h1 & R1 & C1 & n1 & L1 & S1); [done..|].
  destruct (clear_step A h1 ar s2) as (e2 & h2 & R2 & C2 & n2 & L2 & S2);
    [done|by eapply cleared_text|].
  exists h2. split; [|by eapply cleared_trans].
  unfold compare_nodes. rewrite (st_bind_ok _ _ _ _ _ R1).
  rewrite (st_bind_ok _ _ _ _ _ (h_String_ok _ _ _ _ L1 S1)).
  rewrite (st_bind_ok _ _ _ _ _ R2).
  by rewrite (st_bind_ok _ _ _ _ _ (h_String_ok _ _ _ _ L2 S2)).
Qed.

(** ** The loop over the actual documents *)

Lemma match_loop_app nr idx1 idx2 found a h :
  match_loop nr (idx1 ++ idx2) found a h =
  (fa ← match_loop nr idx1 found a; match_loop nr idx2 fa.1 fa.2) h.
Proof.
  revert found a h. induction idx1 as [|i idx1 IH]; intros found a h; [done|].
  simpl. unfold mbind, St_bind in *. destruct (st_lift _ h) as [[ar|e|p] h1]; try done.
  destruct (compare_nodes nr ar h1) as [[b|e|p] h2]; try done. destruct b; [|apply IH].
  destruct (slice_delete i a h2) as [[a'|e|p] h3]; try done.
Qed.

(** The elements at the indices [idx] have texts other than [s]. *)
Definition differ (h : heap) (s : string) (idx : list nat) (arr : list loc) : Prop :=
  ∀ i, i ∈ idx → ∃ ar t, arr !! i = Some ar ∧ has_text h ar t ∧ t ≠ s.

Lemma match_loop_differ A nr s idx found a h :
  nr ∈ A → arr a ⊆ A → has_text h nr s → differ h s idx (arr a) →
  ∃ h', match_loop nr idx found a h = (Ok (found, a), h') ∧ cleared A h h'.
Proof.
  intros Hn Ha. revert h. induction idx as [|i idx IH]; intros h Hs Hd; simpl.
  { exists h. split; [done|apply cleared_refl]. }
  destruct (Hd i) as (ar & t & Hi & Ht & Hne); [set_solver|].
  destruct (compare_nodes_ok A h nr ar s t) as (h1 & R1 & C1); [done| |done..|].
  { apply Ha. by eapply list_elem_of_lookup_2. }
  destruct (IH h1) as (h2 & R2 & C2).
  { by eapply cleared_text. }
  { intros j Hj. destruct (Hd j) as (ar' & t' & ? & ? & ?); [set_solver|].
    exists ar', t'. split_and!; [done| |done]. by eapply cleared_text. }
  exists h2. split; [|by eapply cleared_trans].
  rewrite Hi. rewrite (st_bind_ok _ _ h ar h) by done.
  rewrite (st_bind_ok _ _ _ _ _ R1).
  destruct (String.eqb_spec s t); [congruence|done].
Qed.

Lemma match_loop_hit A nr s i found a h ar :
  nr ∈ A → ar ∈ A → has_text h nr s → has_text h ar s → arr a !! i = Some ar → S i ≤ slen a →
  ∃ h', match_loop nr [i] found a h =
      (Ok (true, Slice (take i (arr a) ++ drop (S i) (view a) ++ drop (slen a - 1) (arr a))
                       (slen a - 1)), h') ∧ cleared A h h'.
Proof.
  intros Hn Ha H1 H2 Hi Hle.
  destruct (compare_nodes_ok A h nr ar s s) as (h1 & R1 & C1); [done..|].
  exists h1. split; [|done]. simpl. rewrite Hi.
  rewrite (st_bind_ok _ _ h ar h) by done.
  rewrite (st_bind_ok _ _ _ _ _ R1), String.eqb_refl.
  unfold slice_delete. by rewrite decide_True.
Qed.

(** What the array looks like after a deletion. *)
Definition deleted (i : nat) (a : slice) : slice :=
  Slice (take i (arr a) ++ drop (S i) (view a) ++ drop (slen a - 1) (arr a)) (slen a - 1).

Definition slice_wf (a : slice) : Prop := slen a ≤ length (arr a).

Lemma length_deleted i a : slice_wf a → i < slen a → length (arr (deleted i a)) = length (arr a).
Proof.
  unfold slice_wf, deleted, view; simpl. intros.
  rewrite !length_app, !length_drop, !length_take. lia.
Qed.

Lemma deleted_wf i a : slice_wf a → i < slen a → slice_wf (deleted i a).
Proof.
  intros Hw Hi. unfold slice_wf. rewrite length_deleted by done.
  unfold slice_wf in Hw. simpl. lia.
Qed.

Lemma deleted_view i a : slice_wf a → i < slen a → view (deleted i a) = delete i (view a).
Proof.
  unfold slice_wf, deleted, view; simpl. intros Hw Hi.
  rewrite delete_take_drop, take_take, Nat.min_l by lia.
  rewrite (assoc_L (++)), take_app_le.
  - apply take_ge. rewrite length_app, length_drop, !length_take. lia.
  - rewrite length_app, length_drop, !length_take. lia.
Qed.

Lemma deleted_lookup i j a :
  slice_wf a → i < j < slen a →
  ∃ k, i < k < slen a ∧ arr (deleted i a) !! j = arr a !! k.
Proof.
  unfold slice_wf, deleted, view; simpl. intros Hw Hij.
  rewrite lookup_app_r; rewrite length_take; [|lia]. rewrite Nat.min_l by lia.
  destruct (decide (S j < slen a)).
  - exists (S j). split; [lia|].
    rewrite lookup_app_l by (rewrite length_drop, length_take; lia).
    rewrite lookup_drop, lookup_take_lt by lia. f_equal. lia.
  - exists (slen a - 1). split; [lia|].
    rewrite lookup_app_r by (rewrite length_drop, length_take; lia).
    rewrite length_drop, length_take, lookup_drop. f_equal. lia.
Qed.

Lemma deleted_subset i a : arr (deleted i a) ⊆ arr a.
Proof.
  intros l. unfold deleted, view; simpl. rewrite !elem_of_app.
  intros [Hl%subseteq_take|[Hl%subseteq_drop%subseteq_take|Hl%subseteq_drop]]; done.
Qed.

Definition texts (h : heap) (ls : list loc) (ss : list string) : Prop := Forall2 (has_text h) ls ss.

Lemma texts_cleared A h h' ls ss : cleared A h h' → texts h ls ss → texts h' ls ss.
Proof. intros Hc Ht. eapply Forall2_impl; [exact Ht|]. intros l s. by apply (cleared_text A). Qed.

Lemma view_lookup a i : slice_wf a → i < slen a → view a !! i = arr a !! i.
Proof. intros. unfold view. apply lookup_take_lt. lia. Qed.

Lemma differ_view h s a acts (idx : list nat) :
  slice_wf a → texts h (view a) acts →
  (∀ i, i ∈ idx → i < slen a ∧ acts !! i ≠ Some s) → differ h s idx (arr a).
Proof.
  intros Hw Ht Hidx i [Hi Hne]%Hidx.
  destruct (lookup_lt_is_Some_2 (view a) i) as [ar Har].
  { unfold view, slice_wf in *. rewrite length_take. lia. }
  destruct (Forall2_lookup_l _ _ _ _ _ Ht Har) as (t & Hat & Htt).
  exists ar, t. split_and!; [|done|congruence]. by rewrite <-view_lookup.
Qed.

Lemma NoDup_lookup_other (l : list string) i j s :
  NoDup l → l !! i = Some s → i ≠ j → l !! j ≠ Some s.
Proof. intros Hn Hi Hij Hj. apply Hij. by eapply NoDup_lookup. Qed.

(** When the actual texts are pairwise different, one pass removes the match
    or leaves the slice as it is. *)
Lemma match_loop_miss A nr s a acts h :
  slice_wf a → nr ∈ A → arr a ⊆ A → has_text h nr s → texts h (view a) acts → s ∉ acts →
  ∃ h', match_loop nr (seq 0 (slen a)) false a h = (Ok (false, a), h') ∧ cleared A h h'.
Proof.
  intros Hw Hn Ha Hs Ht Hni. apply (match_loop_differ A nr s); [done..|].
  eapply differ_view; [done..|]. intros i Hi%elem_of_seq. split; [lia|].
  intros Hi'%list_elem_of_lookup_2. done.
Qed.

Lemma match_loop_found A nr s i a acts h :
  slice_wf a → nr ∈ A → arr a ⊆ A → has_text h nr s → texts h (view a) acts →
  NoDup acts → acts !! i = Some s →
  ∃ h', match_loop nr (seq 0 (slen a)) false a h = (Ok (true, deleted i a), h') ∧ cleared A h h'.
Proof.
  intros Hw Hn Ha Hs Ht Hnd Hi.
  destruct (Forall2_lookup_r _ _ _ _ _ Ht Hi) as (ar & Har & Hart).
  assert (i < slen a) as Hlt.
  { apply lookup_lt_Some in Har. unfold view in Har. rewrite length_take in Har. lia. }
  rewrite view_lookup in Har by done.
  assert (seq 0 (slen a) = seq 0 i ++ [i] ++ seq (S i) (slen a - S i)) as ->.
  { replace (slen a) with (i + (1 + (slen a - S i))) at 1 by lia. by rewrite seq_app. }
  destruct (match_loop_differ A nr s (seq 0 i) false a h) as (h1 & R1 & C1); [done..| |].
  { eapply differ_view; [done..|]. intros j Hj%elem_of_seq. split; [lia|].
    eapply NoDup_lookup_other; [done..|lia]. }
  destruct (match_loop_hit A nr s i false a h1 ar) as (h2 & R2 & C2); [done| | |  |done|lia|].
  { apply Ha. by eapply list_elem_of_lookup_2. }
  { by eapply cleared_text. }
  { by eapply cleared_text. }
  assert (cleared A h h2) as C12 by by eapply cleared_trans.
  destruct (match_loop_differ A nr s (seq (S i) (slen a - S i)) true (deleted i a) h2)
    as (h3 & R3 & C3); [done| |by eapply cleared_text| |].
  { etrans; [apply deleted_subset|done]. }
  { intros j Hj%elem_of_seq. destruct (deleted_lookup i j a) as (k & Hk & Hjk); [done|lia|].
    destruct (differ_view h s a acts [k]) with (i := k) as (ar' & t & ? & ? & ?); [done..| |set_solver|].
    { intros k' ->%list_elem_of_singleton. split; [lia|]. eapply NoDup_lookup_other; [done..|lia]. }
    exists ar', t. rewrite Hjk. split_and!; [done| |done]. by eapply cleared_text. }
  exists h3. split; [|by eapply cleared_trans].
  rewrite match_loop_app, (st_bind_ok _ _ _ _ _ R1).
  rewrite match_loop_app, (st_bind_ok _ _ _ _ _ R2). exact R3.
Qed.

(** ** The loop over the new documents *)

(** The document prints as it stands. *)
Definition prints (h : heap) (l : loc) : Prop := ∃ n s, h !! l = Some n ∧ rn_String n = inr s.

Lemma cleared_prints A h h' l s :
  cleared A h h' → has_text h l s → prints h l → prints h' l.
Proof.
  intros [_ Hc] (n & Hl & Hs) (n' & s' & Hl' & Hs'). simplify_eq.
  destruct (Hc l n Hl) as [?|[_ ?]]; eexists _, _; eauto.
Qed.

Lemma h_MustString_ok h l : prints h l → ∃ s, h_MustString l h = (Ok s, h).
Proof.
  intros (n & s & Hl & Hs). exists s. unfold h_MustString.
  rewrite (st_bind_ok _ _ _ _ _ (h_read_ok _ _ _ Hl)). by rewrite Hs.
Qed.

Lemma texts_length_view a h acts : slice_wf a → texts h (view a) acts → length acts = slen a.
Proof.
  intros Hw Ht%Forall2_length. unfold view, slice_wf in *. rewrite length_take in Ht. lia.
Qed.

Lemma all_prints_cleared A h h' ls ss :
  cleared A h h' → texts h ls ss → Forall (prints h) ls → Forall (prints h') ls.
Proof.
  intros Hc Hts Hp. apply Forall_forall. intros l Hl. rewrite Forall_forall in Hp.
  apply list_elem_of_lookup in Hl as (j & Hj).
  destruct (Forall2_lookup_l _ _ _ _ _ Hts Hj) as (t & _ & Htt).
  eapply cleared_prints; [done..|]. apply Hp. by eapply list_elem_of_lookup_2.
Qed.

Lemma equal_loop_ok A nrs news a acts h :
  slice_wf a → nrs ⊆ A → arr a ⊆ A → texts h nrs news → Forall (prints h) nrs →
  texts h (view a) acts → NoDup acts →
  ∃ b a' h', equal_loop nrs a h = (Ok (b, a'), h') ∧ cleared A h h' ∧
    (b && Nat.eqb (slen a') 0 = true ↔ news ≡ₚ acts).
Proof.
  intros Hw Hns Ha Hts. revert a acts h Hw Ha Hts.
  induction nrs as [|nr nrs IH] in news, Hns |- *; intros a acts h Hw Ha Hts Hp Ht Hnd.
  { exists true, a, h. split_and!; [done|apply cleared_refl|].
    apply Forall2_nil_inv_l in Hts as ->. pose proof (texts_length_view _ _ _ Hw Ht) as Hl.
    rewrite andb_true_l, Nat.eqb_eq, <-Hl. split; [by intros ->%nil_length_inv|].
    by intros Hperm%Permutation_length. }
  apply Forall2_cons_inv_l in Hts as (s & news' & Hs & Hts & ->).
  apply Forall_cons_1 in Hp as [Hpn Hp].
  assert (nr ∈ A) as Hn by set_solver. assert (nrs ⊆ A) as Hns' by set_solver.
  destruct (decide (s ∈ acts)) as [(i & Hi)%list_elem_of_lookup|Hni].
  - destruct (match_loop_found A nr s i a acts h) as (h1 & R1 & C1); [done..|].
    assert (i < slen a) as Hlt.
    { rewrite <-(texts_length_view a h acts) by done. by eapply lookup_lt_Some. }
    destruct (IH news' Hns' (deleted i a) (delete i acts) h1) as (b & a' & h2 & R2 & C2 & Hb).
    { by apply deleted_wf. } { etrans; [apply deleted_subset|done]. }
    { by eapply texts_cleared. }
    { by eapply all_prints_cleared. }
    { rewrite deleted_view by done. apply Forall2_delete. by eapply texts_cleared. }
    { eapply sublist_NoDup; [exact Hnd|apply sublist_delete]. }
    exists b, a', h2. split_and!; [|by eapply cleared_trans|].
    + simpl. by rewrite (st_bind_ok _ _ _ _ _ R1).
    + pose proof (delete_Permutation acts i s Hi) as Hperm. rewrite Hb. split; intros Hx.
      * etrans; [apply perm_skip, Hx|by symmetry].
      * eapply Permutation_cons_inv. etrans; [exact Hx|exact Hperm].
  - destruct (match_loop_miss A nr s a acts h) as (h1 & R1 & C1); [done..|].
    destruct (h_MustString_ok h1 nr) as (t & R2); [by eapply cleared_prints|].
    exists false, a, h1. split_and!; [|done|].
    + simpl. by rewrite (st_bind_ok _ _ _ _ _ R1), (st_bind_ok _ _ _ _ _ R2).
    + split; [done|]. intros Hperm. destruct Hni. rewrite <-Hperm. set_solver.
Qed.

(** ** Copies *)

Lemma has_text_app h ns l s : has_text h l s → has_text (h ++ ns) l s.
Proof. intros (n & Hl & Hs). exists n. split; [by apply lookup_app_l_Some|done]. Qed.

Lemma prints_app h ns l : prints h l → prints (h ++ ns) l.
Proof. intros (n & s & Hl & Hs). exists n, s. split; [by apply lookup_app_l_Some|done]. Qed.

Lemma Copy_ok x ns h :
  Forall2 (λ l n, h !! l = Some n) x ns →
  Copy x h = (Ok (seq (length h) (length x)), h ++ ns).
Proof.
  intros Hx. revert h Hx. induction x as [|l x IH] in ns |- *; intros h Hx.
  { apply Forall2_nil_inv_l in Hx as ->. by rewrite app_nil_r. }
  apply Forall2_cons_inv_l in Hx as (n & ns' & Hl & Hx & ->).
  unfold Copy. simpl. rewrite (st_bind_ok (rn_copy l) _ h (length h) (h ++ [n])).
  2:{ unfold rn_copy. rewrite (st_bind_ok _ _ _ _ _ (h_read_ok _ _ _ Hl)).
      by rewrite copy_content. }
  rewrite (st_bind_ok _ _ _ _ _ (IH ns' (h ++ [n]) ltac:(
    eapply Forall2_impl; [exact Hx|]; intros; by apply lookup_app_l_Some))).
  rewrite length_app, Nat.add_1_r, <-(assoc_L (++)). done.
Qed.

Lemma texts_contents h x news : texts h x news → ∃ ns, Forall2 (λ l n, h !! l = Some n) x ns.
Proof.
  induction 1 as [|l s x news (n & Hl & _) _ (ns & IH)]; [by exists []|].
  exists (n :: ns). by constructor.
Qed.

Lemma copies_lookup (h ns : heap) x :
  Forall2 (λ l n, h !! l = Some n) x ns →
  ∀ i l, x !! i = Some l → (h ++ ns) !! (length h + i) = h !! l.
Proof.
  intros Hx i l Hl. destruct (Forall2_lookup_l _ _ _ _ _ Hx Hl) as (n & Hn & Hhl).
  rewrite lookup_app_r by lia. rewrite Hhl, <-Hn. f_equal. lia.
Qed.

Lemma copies_texts h x ns news :
  Forall2 (λ l n, h !! l = Some n) x ns → texts h x news → Forall (prints h) x →
  texts (h ++ ns) (seq (length h) (length x)) news ∧
  Forall (prints (h ++ ns)) (seq (length h) (length x)).
Proof.
  intros Hx Ht Hp. split.
  - apply Forall2_same_length_lookup_2.
    { rewrite length_seq. by apply Forall2_length in Ht. }
    intros i l s (-> & Hi)%lookup_seq Hs.
    destruct (Forall2_lookup_r _ _ _ _ _ Ht Hs) as (l' & Hl' & n & Hn & Hns).
    exists n. split; [|done]. by rewrite (copies_lookup h ns x Hx i l').
  - apply Forall_forall. intros l (i & Hl)%list_elem_of_lookup.
    apply lookup_seq in Hl as (-> & Hi).
    destruct (lookup_lt_is_Some_2 x i Hi) as [l' Hl'].
    rewrite Forall_forall in Hp. destruct (Hp l') as (n & s & Hn & Hs).
    { by eapply list_elem_of_lookup_2. }
    exists n, s. split; [|done]. by rewrite (copies_lookup h ns x Hx i l').
Qed.

(** ** What a comparison can change

    Whatever the documents are, only those of [A] change. *)
Definition changes (A : list loc) (h h' : heap) : Prop :=
  ∀ l n, h !! l = Some n → l ∉ A → h' !! l = Some n.

#[export] Instance changes_preorder A : PreOrder (changes A).
Proof. split; [by intros h l n|]. intros h1 h2 h3 H1 H2 l n Hl Hn. auto. Qed.

Lemma changes_mono A B h h' : A ⊆ B → changes A h h' → changes B h h'.
Proof. intros HAB Hc l n Hl Hn. apply Hc; [done|]. set_solver. Qed.

Lemma changes_method A f l : l ∈ A → st_rel (changes A) (h_method f l).
Proof.
  intros HA h l' n Hl' Hn. destruct (h !! l) as [n0|] eqn:Hl.
  - rewrite (h_method_ok _ _ _ _ Hl). simpl. rewrite list_lookup_insert_ne by set_solver. done.
  - unfold h_method, mbind, St_bind, h_read. by rewrite Hl.
Qed.

Lemma changes_compare A nr ar : nr ∈ A → ar ∈ A → st_rel (changes A) (compare_nodes nr ar).
Proof.
  intros Hn Ha. unfold compare_nodes, h_String.
  repeat (apply (st_rel_bind (changes A));
    [first [by apply changes_method
           |intros h; unfold h_read, st_lift; simpl; done
           |apply (st_rel_bind (changes A)); [intros h; done|intros ? n ? _ h; done]]
    |intros ? ? ? _]).
  intros h. done.
Qed.

Lemma slice_delete_inv i a h a' h' : slice_delete i a h = (Ok a', h') → arr a' ⊆ arr a.
Proof.
  unfold slice_delete. case_decide; [|done]. intros [= <- _]. apply deleted_subset.
Qed.

Lemma match_loop_changes A nr idx found a :
  nr ∈ A → arr a ⊆ A → st_rel (changes A) (match_loop nr idx found a) ∧
  ∀ h f a' h', match_loop nr idx found a h = (Ok (f, a'), h') → arr a' ⊆ A.
Proof.
  intros Hn. revert found a. induction idx as [|i idx IH]; intros found a Ha.
  { split; [intros h; done|]. by intros h f a' h' [= _ <- _]. }
  simpl. assert (∀ (h : heap) ar h1, st_lift (E:=error) (of_option IndexRange (arr a !! i)) h = (Ok ar, h1) →
    ar ∈ A) as Har.
  { intros h ar h1. unfold st_lift. destruct (arr a !! i) as [x|] eqn:Hi; [|done].
    intros [= <- _]. apply Ha. by eapply list_elem_of_lookup_2. }
  split.
  - apply (st_rel_bind (changes A)); [intros h; done|]. intros h ar h1 Hh1.
    apply (st_rel_bind (changes A)); [by eapply changes_compare, Har|]. intros _ b _ _.
    destruct b; [|by apply IH]. apply (st_rel_bind (changes A)).
    + intros h2. unfold slice_delete. by case_decide.
    + intros h2 a' h3 Hd%slice_delete_inv. apply IH. by etrans.
  - intros h f a' h' (ar & h1 & H1 & H)%st_bind_ok_inv.
    apply st_bind_ok_inv in H as (b & h2 & H2 & H). destruct b; [|by eapply IH].
    apply st_bind_ok_inv in H as (a2 & h3 & Hd%slice_delete_inv & H).
    eapply IH; [|exact H]. by etrans.
Qed.

Lemma equal_loop_changes A nrs a :
  nrs ⊆ A → arr a ⊆ A → st_rel (changes A) (equal_loop nrs a).
Proof.
  revert a. induction nrs as [|nr nrs IH]; intros a Hns Ha; simpl; [intros h; done|].
  destruct (match_loop_changes A nr (seq 0 (slen a)) false a) as [Hm Hs]; [set_solver|done|].
  apply (st_rel_bind (changes A)); [done|]. intros h [f a'] h' H. destruct f.
  - apply IH; [set_solver|by eapply Hs].
  - apply (st_rel_bind (changes A)); [|intros ? ? ? _ h2; done].
    unfold h_MustString. apply (st_rel_bind (changes A)); [intros h2; done|].
    intros ? n ? _ h2. by destruct (rn_String n).
Qed.

Lemma Copy_grows x h ns h' : Copy x h = (Ok ns, h') →
  (∃ new, h' = h ++ new) ∧ Forall (λ l, length h ≤ l) ns.
Proof.
  unfold Copy. revert h ns h'. induction x as [|l x IH]; intros h ns h'; simpl.
  { intros [= <- <-]. split; [exists []; by rewrite app_nil_r|constructor]. }
  intros (l' & h1 & H1 & H)%st_bind_ok_inv. unfold rn_copy in H1.
  apply st_bind_ok_inv in H1 as (n & h2 & H2 & [= <- <-]).
  unfold h_read in H2. injection H2 as _ <-.
  apply st_bind_ok_inv in H as (ls & h3 & ([new ->] & Hls)%IH & [= <- <-]).
  split; [exists ([rn_Copy n] ++ new); by rewrite (assoc_L (++))|]. constructor; [done|].
  eapply Forall_impl; [exact Hls|]. intros k. rewrite length_app. simpl. lia.
Qed.

(** [IsEqual] changes no document but the actual ones. *)
Lemma IsEqual_changes x arnl h r h' : IsEqual x arnl h = (Ok r, h') → changes arnl h h'.
Proof.
  unfold IsEqual. intros (ns & h1 & H1 & H)%st_bind_ok_inv.
  apply st_bind_ok_inv in H as ([ok a] & h2 & H2 & [= _ <-]).
  destruct (Copy_grows _ _ _ _ H1) as [[new ->] Hns].
  pose proof (equal_loop_changes (ns ++ arnl) (Get ns) (Slice arnl (length arnl))) as Hc.
  apply (λ H H', st_rel_run (Hc H H')) in H2; [|unfold Get; set_solver|simpl; set_solver].
  intros l n Hl Hn. apply H2; [by apply lookup_app_l_Some|].
  intros [Hin|?]%elem_of_app; [|done]. rewrite Forall_forall in Hns.
  apply Hns in Hin. apply lookup_lt_Some in Hl. lia.
Qed.

(** ** Duplicates: the slice shrinks under the loop's feet *)

Lemma deleted_last i n a :
  slice_wf a → i < slen a → slen a ≤ S n → arr (deleted i a) !! n = arr a !! n.
Proof.
  unfold slice_wf, deleted, view; simpl. intros Hw Hi Hn.
  rewrite lookup_app_r; rewrite length_take; [|lia]. rewrite Nat.min_l by lia.
  rewrite lookup_app_r by (rewrite length_drop, length_take; lia).
  rewrite length_drop, length_take, lookup_drop. f_equal. lia.
Qed.

Definition has_some_text (h : heap) (l : loc) : Prop := ∃ s, has_text h l s.

Lemma cleared_some_text A h h' (ls : list loc) :
  cleared A h h' → Forall (has_some_text h) ls → Forall (has_some_text h') ls.
Proof.
  intros Hc Hf. eapply Forall_impl; [exact Hf|]. intros l (s & Hs). exists s.
  by eapply cleared_text.
Qed.

Lemma deleted_some_text h i a :
  Forall (has_some_text h) (arr a) → Forall (has_some_text h) (arr (deleted i a)).
Proof.
  rewrite !Forall_forall. intros Hf l Hl. apply Hf. by apply (deleted_subset i).
Qed.

(** One iteration on an element with a text. *)
Lemma match_loop_step A nr s i idx found a h ar t :
  nr ∈ A → ar ∈ A → has_text h nr s → arr a !! i = Some ar → has_text h ar t →
  ∃ h', cleared A h h' ∧
    match_loop nr (i :: idx) found a h =
      if String.eqb s t
      then if decide (S i ≤ slen a) then match_loop nr idx true (deleted i a) h'
           else (Panic SliceBounds, h')
      else match_loop nr idx found a h'.
Proof.
  intros Hn Ha Hs Hi Ht.
  destruct (compare_nodes_ok A h nr ar s t) as (h1 & R1 & C1); [done..|].
  exists h1. split; [done|]. simpl. rewrite Hi.
  rewrite (st_bind_ok _ _ h ar h) by done. rewrite (st_bind_ok _ _ _ _ _ R1).
  destruct (String.eqb s t); [|done]. unfold slice_delete. by destruct (decide _).
Qed.

(** Once something was deleted, meeting the text again at the last index of
    the original slice is out of range. *)
Lemma match_loop_panic_after A nr s n idx a h lst :
  nr ∈ A → arr a ⊆ A → has_text h nr s → Forall (has_some_text h) (arr a) →
  slice_wf a → slen a ≤ n → length (arr a) = S n → Forall (λ j, j ≤ n) idx → n ∈ idx →
  arr a !! n = Some lst → has_text h lst s → ∀ found,
  ∃ h', match_loop nr idx found a h = (Panic SliceBounds, h').
Proof.
  intros Hn. induction idx as [|i idx IH] in a, h |- *;
    intros Ha Hs Hf Hw Hle HL Hidx Hin Hlst Ht found; [set_solver|].
  apply Forall_cons_1 in Hidx as [Hi Hidx].
  destruct (lookup_lt_is_Some_2 (arr a) i) as [ar Har]; [lia|].
  assert (ar ∈ arr a) as Hara by by eapply list_elem_of_lookup_2.
  assert (ar ∈ A) as HarA by exact (Ha _ Hara).
  assert (has_some_text h ar) as [t Hart] by by rewrite Forall_forall in Hf; apply Hf.
  destruct (match_loop_step A nr s i idx found a h ar t) as (h1 & C1 & ->);
    [done..|].
  assert (t ≠ s → n ∈ idx) as Hne.
  { intros Hts. apply elem_of_cons in Hin as [->|]; [|done]. simplify_eq.
    destruct Hart as (n1 & ? & ?), Ht as (n2 & ? & ?). simplify_eq. congruence. }
  destruct (String.eqb_spec s t) as [<-|Hst].
  - destruct (decide (S i ≤ slen a)); [|eauto].
    assert (n ∈ idx) as Hin' by (apply elem_of_cons in Hin as [->|]; [lia|done]).
    apply IH; try done.
    + etrans; [apply deleted_subset|done].
    + by eapply cleared_text.
    + apply deleted_some_text. by eapply cleared_some_text.
    + by apply deleted_wf.
    + simpl; lia.
    + by rewrite length_deleted.
    + rewrite deleted_last; [done|done|lia..].
    + by eapply cleared_text.
  - apply IH; try done; [by eapply cleared_text|by eapply cleared_some_text|by auto|
      by eapply cleared_text].
Qed.

Lemma match_loop_panic_deleted A nr s n i a h lst :
  nr ∈ A → arr a ⊆ A → has_text h nr s → Forall (has_some_text h) (arr a) →
  slen a = S n → length (arr a) = S n → i < n → arr a !! n = Some lst → has_text h lst s →
  ∃ h', match_loop nr (seq (S i) (n - i)) true (deleted i a) h = (Panic SliceBounds, h').
Proof.
  intros Hn Ha Hs Hf Hlen HL Hi Hlst Ht.
  assert (slice_wf a) as Hw by (unfold slice_wf; lia).
  eapply (match_loop_panic_after A nr s n); [done| |done| | |simpl; lia| | | | |exact Ht].
  - etrans; [apply deleted_subset|done].
  - by apply deleted_some_text.
  - apply deleted_wf; [done|lia].
  - rewrite length_deleted; [done|done|lia].
  - apply Forall_forall. intros j Hj%elem_of_seq. lia.
  - apply elem_of_seq. lia.
  - rewrite deleted_last; [exact Hlst|done|lia..].
Qed.

Lemma match_loop_panic A nr s n k a h lst d :
  nr ∈ A → arr a ⊆ A → slen a = S n → length (arr a) = S n → k < n →
  arr a !! k = Some d → arr a !! n = Some lst →
  has_text h nr s → Forall (has_some_text h) (arr a) → has_text h d s → has_text h lst s →
  ∀ i, i ≤ k → ∃ h', match_loop nr (seq i (S n - i)) false a h = (Panic SliceBounds, h').
Proof.
  intros Hn Ha Hlen HL Hk Hd Hlst Hs Hf Htd Htl i Hik.
  remember (k - i) as m eqn:Hm. revert i h Hs Hf Htd Htl Hik Hm.
  induction m as [|m IH]; intros i h Hs Hf Htd Htl Hik Hm;
    replace (S n - i) with (S (n - i)) by lia; cbn [seq];
    (destruct (lookup_lt_is_Some_2 (arr a) i) as [ar Har]; [lia|]);
    assert (ar ∈ arr a) as Hara by (by eapply list_elem_of_lookup_2);
    assert (ar ∈ A) as HarA by exact (Ha _ Hara);
    assert (has_some_text h ar) as [t Hart] by (by rewrite Forall_forall in Hf; apply Hf);
    (destruct (match_loop_step A nr s i (seq (S i) (n - i)) false a h ar t)
      as (h1 & C1 & ->); [done..|]).
  - assert (i = k) as -> by lia. simplify_eq.
    assert (s = t) as <-.
    { destruct Hart as (n1 & ? & ?), Htd as (n2 & ? & ?). simplify_eq. congruence. }
    rewrite String.eqb_refl, decide_True by lia.
    eapply (match_loop_panic_deleted A nr s n k a h1 lst); try done;
      [by eapply cleared_text|by eapply cleared_some_text|by eapply cleared_text].
  - destruct (String.eqb_spec s t) as [<-|Hst].
    + rewrite decide_True by lia.
      eapply (match_loop_panic_deleted A nr s n i a h1 lst); try done;
        [by eapply cleared_text|by eapply cleared_some_text|lia|by eapply cleared_text].
    + replace (n - i) with (S n - S i) by lia.
      apply IH; [by eapply cleared_text|by eapply cleared_some_text| | |lia..];
        by eapply cleared_text.
Qed.

(** A text that occurs twice, apart from each other and not at the end: one
    pass deletes both documents, since the indices after the first deletion skip
    one document and read the end of the array twice. *)
Lemma lookup_once (l1 l2 : list string) s i :
  s ∉ l1 → s ∉ l2 → (l1 ++ s :: l2) !! i = Some s → i = length l1.
Proof.
  intros H1 H2 [Hi%list_elem_of_lookup_2|[Hle Hi]]%lookup_app_Some; [done|].
  apply lookup_cons_Some in Hi as [[? _]|[_ Hi%list_elem_of_lookup_2]]; [lia|done].
Qed.

Lemma match_loop_deletes A nr s n i len a acts h :
  slice_wf a → nr ∈ A → arr a ⊆ A → has_text h nr s → texts h (view a) acts →
  i + len < slen a → acts !! (i + len) = Some s → (∀ j, i ≤ j < i + len → acts !! j ≠ Some s) →
  ∀ found, ∃ h', cleared A h h' ∧
    match_loop nr (seq i (len + S n)) found a h =
      match_loop nr (seq (S (i + len)) n) true (deleted (i + len) a) h'.
Proof.
  intros Hw Hn Ha Hs Ht Hlt Hi Hother found.
  destruct (Forall2_lookup_r _ _ _ _ _ Ht Hi) as (ar & Har & Hart).
  rewrite view_lookup in Har by done. rewrite seq_app. cbn [seq].
  destruct (match_loop_differ A nr s (seq i len) found a h) as (h1 & R1 & C1); [done..| |].
  { eapply differ_view; [done..|]. intros j Hj%elem_of_seq. split; [lia|]. apply Hother. lia. }
  destruct (match_loop_step A nr s (i + len) (seq (S (i + len)) n) found a h1 ar s)
    as (h2 & C2 & R2); [done| |by eapply cleared_text|done|by eapply cleared_text|].
  { apply Ha. by eapply list_elem_of_lookup_2. }
  exists h2. split; [by eapply cleared_trans|].
  rewrite match_loop_app, (st_bind_ok _ _ _ _ _ R1). cbn [fst snd].
  rewrite R2, String.eqb_refl. by rewrite decide_True by lia.
Qed.

Section twice.
Context (s : string) (pre mid post : list string) (a : slice).
Context (Hw : slice_wf a) (Hmid : mid ≠ []) (Hpost : post ≠ []).
Context (H1 : s ∉ pre) (H2 : s ∉ mid) (H3 : s ∉ post).
#[local] Abbreviation k := (length pre).
#[local] Abbreviation d := (length pre + length mid).
#[local] Abbreviation a1 := (deleted k a).
#[local] Abbreviation a2 := (deleted d a1).
#[local] Abbreviation acts := (pre ++ s :: mid ++ s :: post).

Lemma twice_lengths h : texts h (view a) acts →
  slen a = d + 2 + length post ∧ length mid ≠ 0 ∧ length post ≠ 0.
Proof using All.
  intros HL%texts_length_view; [|done].
  repeat (rewrite length_app in HL || cbn [length] in HL).
  split_and!; [lia|by destruct mid|by destruct post].
Qed.

(** What is left after the first deletion, and after the second. *)
Lemma twice_views h : texts h (view a) acts →
  slice_wf a1 ∧ texts h (view a1) ((pre ++ mid) ++ s :: post) ∧
  slice_wf a2 ∧ texts h (view a2) (pre ++ mid ++ post).
Proof using All.
  intros Ht. destruct (twice_lengths _ Ht) as (HL & Hm & Hp).
  assert (slen a1 = slen a - 1) as Hl1 by done.
  assert (slice_wf a1) as Hw1 by (apply deleted_wf; [done|lia]).
  assert (texts h (view a1) ((pre ++ mid) ++ s :: post)) as Ht1.
  { rewrite deleted_view by (done || lia).
    replace ((pre ++ mid) ++ s :: post) with (delete k acts) by by rewrite delete_middle, <-(assoc_L (++)).
    by apply Forall2_delete. }
  split_and!; [done|done|apply deleted_wf; [done|lia]|].
  rewrite deleted_view by (done || lia).
  replace (pre ++ mid ++ post) with (delete d ((pre ++ mid) ++ s :: post)) by
    (rewrite <-length_app; by rewrite delete_middle, <-(assoc_L (++))).
  by apply Forall2_delete.
Qed.

(** The indices after the second deletion meet documents of [post] only. *)
Lemma twice_rest h : texts h (view a) acts →
  differ h s (seq (S d) (slen a - S d)) (arr a2).
Proof using All.
  intros Ht i Hi. destruct (twice_views _ Ht) as (Hw1 & Ht1 & Hw2 & Ht2).
  destruct (twice_lengths _ Ht) as (HL & Hm & Hp). apply elem_of_seq in Hi.
  destruct (decide (i < slen a - 2)) as [Hi2|Hi2].
  { apply (differ_view h s a2 (pre ++ mid ++ post) [i]); [done..| |set_solver].
    intros j ->%list_elem_of_singleton. split; [simpl; lia|].
    intros Hjs%list_elem_of_lookup_2. set_solver. }
  rewrite deleted_last by (done || simpl; lia).
  destruct (decide (i < slen a - 1)) as [Hi1|Hi1].
  - apply (differ_view h s a1 ((pre ++ mid) ++ s :: post) [i]); [done..| |set_solver].
    intros j ->%list_elem_of_singleton. split; [simpl; lia|].
    intros Hjs%lookup_once; [|set_solver|done]. rewrite length_app in Hjs. lia.
  - rewrite deleted_last by (done || lia).
    apply (differ_view h s a acts [i]); [done..| |set_solver].
    intros j ->%list_elem_of_singleton. split; [lia|].
    replace acts with ((pre ++ s :: mid) ++ s :: post) by (by rewrite <-(assoc_L (++))).
    rewrite lookup_app_r by (rewrite length_app; simpl; lia).
    rewrite length_app. cbn [length]. intros Hjs.
    apply lookup_cons_Some in Hjs as [[Hz _]|[_ Hjs%list_elem_of_lookup_2]]; [lia|done].
Qed.

Lemma match_loop_twice A nr h :
  nr ∈ A → arr a ⊆ A → has_text h nr s → texts h (view a) acts →
  ∃ h', match_loop nr (seq 0 (slen a)) false a h = (Ok (true, a2), h') ∧ cleared A h h'.
Proof using All.
  intros Hn Ha Hs Ht. destruct (twice_lengths _ Ht) as (HL & Hm & Hp).
  destruct (match_loop_deletes A nr s (slen a - S k) 0 k a _ h Hw Hn Ha Hs Ht) with (found := false)
    as (h1 & C1 & R1); [simpl; lia|by apply list_lookup_middle| |].
  { intros j Hj Hjs. rewrite lookup_app_l in Hjs by lia. by apply list_elem_of_lookup_2 in Hjs. }
  replace (k + S (slen a - S k)) with (slen a) in R1 by lia. rewrite R1. cbn [Nat.add].
  assert (texts h1 (view a) acts) as Hth1 by exact (texts_cleared _ _ _ _ _ C1 Ht).
  destruct (twice_views _ Hth1) as (Hw1 & Ht1 & _).
  assert (arr a1 ⊆ A) as Ha1 by (etrans; [apply deleted_subset|done]).
  destruct (match_loop_deletes A nr s (slen a - S d) (S k) (length mid - 1) a1
    ((pre ++ mid) ++ s :: post) h1 Hw1 Hn Ha1) with (found := true) as (h2 & C2 & R2);
    [by eapply cleared_text|done|simpl; lia| | |].
  { replace (S k + (length mid - 1)) with (length (pre ++ mid)) by (rewrite length_app; lia).
    by apply list_lookup_middle. }
  { intros j Hj Hjs%lookup_once; [|set_solver|done]. rewrite length_app in Hjs. lia. }
  replace (S k + (length mid - 1)) with d in R2 by lia.
  replace (length mid - 1 + S (slen a - S d)) with (slen a - S k) in R2 by lia. rewrite R2.
  assert (cleared A h h2) as C12 by by eapply cleared_trans.
  destruct (match_loop_differ A nr s (seq (S d) (slen a - S d)) true a2 h2) as (h3 & R3 & C3);
    [done|by etrans; [apply deleted_subset|]|by eapply cleared_text| |].
  { apply twice_rest. exact (texts_cleared _ _ _ _ _ C12 Ht). }
  exists h3. split; [done|by eapply cleared_trans].
Qed.
End twice.

(** ** [IsEqual] *)

Lemma IsEqual_copy x ns arnl h :
  Forall2 (λ l n, h !! l = Some n) x ns →
  IsEqual x arnl h =
  (r ← equal_loop (seq (length h) (length x)) (Slice arnl (length arnl));
   let '(ok, a) := r in mret (ok && Nat.eqb (slen a) 0, arr a)) (h ++ ns).
Proof. intros Hx. unfold IsEqual. by rewrite (st_bind_ok _ _ _ _ _ (Copy_ok x ns h Hx)). Qed.

Lemma texts_app h ns ls ss : texts h ls ss → texts (h ++ ns) ls ss.
Proof. intros Ht. eapply Forall2_impl; [exact Ht|]. intros ??. apply has_text_app. Qed.

Lemma IsEqual_ok (x arnl : list loc) (news acts : list string) (h : heap) :
  texts h x news → Forall (prints h) x → texts h arnl acts → NoDup acts →
  ∃ b back h', IsEqual x arnl h = (Ok (b, back), h') ∧
    (b = true ↔ news ≡ₚ acts) ∧
    ∀ l n, h !! l = Some n → h' !! l = Some n ∨ (l ∈ arnl ∧ h' !! l = Some (bare n)).
Proof.
  intros Hn Hp Ha Hnd. destruct (texts_contents _ _ _ Hn) as [ns Hx].
  destruct (copies_texts h x ns news Hx Hn Hp) as [Hcn Hcp].
  set (A := seq (length h) (length x) ++ arnl).
  destruct (equal_loop_ok A (seq (length h) (length x)) news (Slice arnl (length arnl))
    acts (h ++ ns)) as (b & a' & h' & R & C & Hb); try done.
  { unfold slice_wf. simpl. lia. }
  { intros l Hl. apply elem_of_app. by left. } { intros l Hl. apply elem_of_app. by right. }
  { unfold view; simpl. rewrite take_ge by done. by apply texts_app. }
  eexists _, _, h'. split_and!; [|exact Hb|].
  - by rewrite (IsEqual_copy x ns), (st_bind_ok _ _ _ _ _ R).
  - intros l n Hl. pose proof (lookup_lt_Some _ _ _ Hl) as Hlt.
    destruct C as [_ C]. destruct (C l n) as [?|[[Hin%elem_of_seq|?]%elem_of_app ?]];
      [by apply lookup_app_l_Some|by left|lia|by right].
Qed.

(** C16: [IsEqual] compares two packages as multisets of documents.  When every
    document prints and the actual documents have pairwise different texts
    (annotations aside), the call returns normally, the answer is true exactly
    when the new texts are a permutation of the actual ones, and the only
    documents it changes are actual ones, whose annotations it clears. *)
Theorem IsEqual_correct (x arnl : list loc) (news acts : list string) (h : heap) :
  texts h x news → Forall (prints h) x → texts h arnl acts → NoDup acts →
  ∃ b back h', IsEqual x arnl h = (Ok (b, back), h') ∧
    (b = true ↔ news ≡ₚ acts) ∧
    ∀ l n, h !! l = Some n → h' !! l = Some n ∨ (l ∈ arnl ∧ h' !! l = Some (bare n)).
Proof. apply IsEqual_ok. Qed.

(** C37: [IsEqual] panics with a slice bounds error when the text of the first
    new document occurs in the actual package both at its end and earlier. *)
Theorem IsEqual_duplicate_panics (nr : loc) (rest arnl : list loc) (s : string)
    (news acts : list string) (h : heap) :
  texts h (nr :: rest) (s :: news) → Forall (prints h) (nr :: rest) →
  texts h arnl (acts ++ [s]) → s ∈ acts →
  ∃ h', IsEqual (nr :: rest) arnl h = (Panic SliceBounds, h').
Proof.
  intros Hn Hp Ha (k & Hk)%list_elem_of_lookup.
  destruct (texts_contents _ _ _ Hn) as [ns Hx].
  destruct (copies_texts h _ ns _ Hx Hn Hp) as [Hcn _].
  rewrite (IsEqual_copy _ ns) by done. cbn [length seq] in Hcn |- *.
  apply Forall2_cons_1 in Hcn as [Hcn _].
  apply (texts_app _ ns) in Ha. pose proof (Forall2_length _ _ _ Ha) as HL.
  rewrite length_app, Nat.add_1_r in HL. pose proof (lookup_lt_Some _ _ _ Hk) as Hlt.
  destruct (Forall2_lookup_r _ _ _ k s Ha) as (d & Hd & Hdt); [by apply lookup_app_l_Some|].
  destruct (Forall2_lookup_r _ _ _ (length acts) s Ha) as (lst & Hl & Hlt');
    [by apply list_lookup_middle|].
  destruct (match_loop_panic (length h :: arnl) (length h) s (length acts) k
    (Slice arnl (length arnl)) (h ++ ns) lst d) with (i := 0) as [h' R]; try done;
    [set_solver|set_solver| |lia|].
  { apply Forall_forall. intros l (i & Hi)%list_elem_of_lookup.
    destruct (Forall2_lookup_l _ _ _ _ _ Ha Hi) as (t & _ & ?). by exists t. }
  exists h'. rewrite Nat.sub_0_r, <-HL in R. unfold mbind, St_bind at 1.
  simpl. unfold mbind, St_bind. by rewrite R.
Qed.

(** C38: A document that occurs twice in the actual package, not side by side and
    not at its end, is deleted twice by the pass over the first new document, so
    [IsEqual] answers true exactly for a new package that has it once: it accepts
    a package that lacks a document, and rejects an equal one. *)
Theorem IsEqual_duplicate_accepts (nr : loc) (rest arnl : list loc) (s : string)
    (news pre mid post : list string) (h : heap) :
  texts h (nr :: rest) (s :: news) → Forall (prints h) (nr :: rest) →
  texts h arnl (pre ++ s :: mid ++ s :: post) → mid ≠ [] → post ≠ [] →
  NoDup (s :: pre ++ mid ++ post) →
  ∃ b back h', IsEqual (nr :: rest) arnl h = (Ok (b, back), h') ∧
    (b = true ↔ news ≡ₚ pre ++ mid ++ post).
Proof.
  intros Hn Hp Ha Hmid Hpost [Hs Hnd]%NoDup_cons.
  rewrite !not_elem_of_app in Hs. destruct Hs as (H1 & H2 & H3).
  destruct (texts_contents _ _ _ Hn) as [ns Hx].
  destruct (copies_texts h _ ns _ Hx Hn Hp) as [Hcn Hcp].
  rewrite (IsEqual_copy _ ns) by done. cbn [length seq] in Hcn, Hcp |- *.
  apply Forall2_cons_1 in Hcn as [Hcs Hcn]. apply Forall_cons_1 in Hcp as [Hcp0 Hcp].
  apply (texts_app _ ns) in Ha. set (a := Slice arnl (length arnl)).
  assert (slice_wf a) as Hw by (unfold slice_wf; simpl; lia).
  assert (texts (h ++ ns) (view a) (pre ++ s :: mid ++ s :: post)) as Hta.
  { unfold view; simpl. by rewrite take_ge. }
  set (copies := seq (S (length h)) (length rest)) in *.
  set (A := length h :: copies ++ arnl).
  destruct (match_loop_twice s pre mid post a Hw Hmid Hpost H1 H2 H3 A (length h) (h ++ ns))
    as (h1 & R1 & C1); [set_solver|simpl; set_solver|done..|].
  destruct (twice_views s pre mid post a Hw Hmid Hpost H1 H2 H3 h1) as (_ & _ & Hw2 & Ht2);
    [exact (texts_cleared _ _ _ _ _ C1 Hta)|].
  destruct (equal_loop_ok A copies news (deleted (length pre + length mid) (deleted (length pre) a))
    (pre ++ mid ++ post) h1) as (b & a' & h2 & R2 & _ & Hb); [done|set_solver| | | |done|done|].
  { etrans; [apply deleted_subset|]. etrans; [apply deleted_subset|]. simpl. set_solver. }
  { exact (texts_cleared _ _ _ _ _ C1 Hcn). }
  { by eapply all_prints_cleared. }
  assert (equal_loop (length h :: copies) a (h ++ ns) = (Ok (b, a'), h2)) as R.
  { cbn [equal_loop]. by rewrite (st_bind_ok _ _ _ _ _ R1). }
  eexists _, _, h2. split; [|exact Hb]. by rewrite (st_bind_ok _ _ _ _ _ R).
Qed.
End appresource.

(** ** The theorems on concrete packages *)

Definition doc_a : toy_doc := ToyDoc "A" "a" "" [("p", "1")] [].
Definition doc_x : toy_doc := ToyDoc "X" "x" "" [] [].
Definition doc_b : toy_doc := ToyDoc "B" "b" "" [] [].

Ltac toy_texts := repeat constructor; eexists; split; reflexivity.
Ltac toy_prints := repeat constructor; eexists _, _; split; reflexivity.

Definition ex_heap : list (@RNode toy_types) :=
  [doc_a; doc_x; doc_b; doc_a; doc_x; doc_a; doc_b].

(** The texts of [ex_heap] are those of its documents without annotations. *)
Definition toy_text (d : toy_doc) : string := td_print (td_set_ann ∅ d).

Lemma IsEqual_correct_witness :
  ∃ b back h', IsEqual [0; 1] [4; 3] ex_heap = (Ok (b, back), h') ∧
    (b = true ↔ [toy_text doc_a; toy_text doc_x] ≡ₚ [toy_text doc_x; toy_text doc_a]) ∧
    ∀ l n, ex_heap !! l = Some n → h' !! l = Some n ∨ (l ∈ [4; 3] ∧ h' !! l = Some (bare n)).
Proof.
  apply (IsEqual_correct [0; 1] [4; 3] [toy_text doc_a; toy_text doc_x]
    [toy_text doc_x; toy_text doc_a] ex_heap).
  - toy_texts.
  - toy_prints.
  - toy_texts.
  - apply (bool_decide_unpack _). vm_compute. exact I.
Defined.

Lemma IsEqual_duplicate_panics_witness :
  ∃ h', IsEqual [0] [3; 4; 5] ex_heap = (Panic SliceBounds, h').
Proof.
  apply (IsEqual_duplicate_panics 0 [] [3; 4; 5] (toy_text doc_a) []
    [toy_text doc_a; toy_text doc_x] ex_heap).
  - toy_texts.
  - toy_prints.
  - toy_texts.
  - set_solver.
Defined.

Lemma IsEqual_duplicate_accepts_witness :
  ∃ b back h', IsEqual [0; 1; 2] [3; 4; 5; 6] ex_heap = (Ok (b, back), h') ∧
    (b = true ↔ [toy_text doc_x; toy_text doc_b] ≡ₚ [] ++ [toy_text doc_x] ++ [toy_text doc_b]).
Proof.
  apply (IsEqual_duplicate_accepts 0 [1; 2] [3; 4; 5; 6] (toy_text doc_a)
    [toy_text doc_x; toy_text doc_b] [] [toy_text doc_x] [toy_text doc_b] ex_heap).
  - toy_texts.
  - toy_prints.
  - toy_texts.
  - discriminate.
  - discriminate.
  - apply (bool_decide_unpack _). vm_compute. exact I.
Defined.

(** Three new documents are taken for the four actual ones. *)
Example IsEqual_duplicate_example :
  (IsEqual [0; 1; 2] [3; 4; 5; 6] ex_heap).1 = Ok (true, [6; 6; 6; 6]).
Proof. vm_compute. reflexivity. Qed.
