(* ===== verification/Revision.v ===== *)
(** * Revision numbers (pkg/pkgrev/util.go)

    Revisions are the strings ["v1"], ["v2"], ...; the controller compares them
    by number and names the next one.  The numbers are [uint64] obtained from a
    signed [int], with the conversions of the source. *)

From Stdlib Require Import Ascii.
From stdpp Require Import base tactics list strings numbers.
From S2P Require Import Prelude.
From S2P Require Import GoStrings.

Local Open Scope string_scope.
#[local] Arguments String.append !_ _ / : simpl nomatch.

Definition getRevisionNumber (revision : string) : Z :=
  if HasPrefix revision "v" then
    match Atoi (ReplaceAll revision "v" "") with
    | None => 0
    | Some rev => to_uint64 rev
    end
  else 0.

Definition getNewRevision (revision : string) : string :=
  let nbr := getRevisionNumber revision in
  "v" +:+ Itoa (to_int64 (to_int64 nbr + 1)).

(** ** Lemmas *)

Lemma getRevisionNumber_range r : (0 ≤ getRevisionNumber r < two64)%Z.
Proof.
  unfold getRevisionNumber. destruct (HasPrefix r "v"); [|done].
  destruct (Atoi _); [apply to_uint64_range|done].
Qed.

(** The number of ["v" ++ Itoa z] is [z], as an unsigned integer. *)
Lemma getRevisionNumber_Itoa z :
  (- two63 ≤ z < two63)%Z → getRevisionNumber ("v" +:+ Itoa z) = to_uint64 z.
Proof.
  intros Hz. unfold getRevisionNumber, HasPrefix. rewrite prefix_app.
  simpl String.append. rewrite replace_cons, replace_absent by apply Itoa_no_v.
  by rewrite Atoi_Itoa.
Qed.

Lemma getNewRevision_to_uint64 r :
  getRevisionNumber (getNewRevision r) = to_uint64 (getRevisionNumber r + 1).
Proof.
  unfold getNewRevision. rewrite getRevisionNumber_Itoa by apply to_int64_range.
  by rewrite to_uint64_int64, to_uint64_add_int64.
Qed.

#[export] Hint Resolve getRevisionNumber_range : go.

(** ** Properties *)

(** C35: The number of the next revision is the number of the current one plus
    one, modulo 2^64, whatever the current revision string is. *)
Theorem getNewRevision_successor (r : string) :
  getRevisionNumber (getNewRevision r) = ((getRevisionNumber r + 1) `mod` 2 ^ 64)%Z.
Proof. apply getNewRevision_to_uint64. Qed.

(** C36: Below 2^64 - 1 the next revision is strictly later than the current
    one, and it is the text ["v"] followed by the decimal successor as long as
    that fits a signed [int]. *)
Theorem getNewRevision_later (r : string) :
  (getRevisionNumber r < two64 - 1)%Z →
  (getRevisionNumber r < getRevisionNumber (getNewRevision r))%Z ∧
  ((getRevisionNumber r < two63 - 1)%Z →
   getNewRevision r = "v" +:+ Itoa (getRevisionNumber r + 1)).
Proof.
  intros Hr. pose proof (getRevisionNumber_range r) as Hb. split.
  - rewrite getNewRevision_to_uint64, to_uint64_small; lia.
  - intros Hs. unfold getNewRevision. unfold two63 in *.
    rewrite (to_int64_small (getRevisionNumber r)) by (unfold two63; lia).
    by rewrite to_int64_small by (unfold two63; lia).
Qed.

Lemma getNewRevision_later_witness :
  (getRevisionNumber "v41" < getRevisionNumber (getNewRevision "v41"))%Z ∧
  ((getRevisionNumber "v41" < two63 - 1)%Z →
   getNewRevision "v41" = "v" +:+ Itoa (getRevisionNumber "v41" + 1)).
Proof. apply (getNewRevision_later "v41"). vm_compute. reflexivity. Defined.

(** A revision has a number other than zero only when it starts with ["v"]
    and the rest, all letters ["v"] dropped, is a decimal number that fits a
    signed [int]; a negative number counts as a huge one. *)
Theorem getRevisionNumber_cases (r : string) :
  getRevisionNumber r = 0%Z ∨
  ∃ z, HasPrefix r "v" = true ∧ Atoi (ReplaceAll r "v" "") = Some z ∧
       (- two63 ≤ z < two63)%Z ∧
       getRevisionNumber r = (if z <? 0 then z + 2 ^ 64 else z)%Z.
Proof.
  unfold getRevisionNumber. destruct (HasPrefix r "v") eqn:Hp; [|by left].
  destruct (Atoi _) as [z|] eqn:Ha; [|by left]. right. exists z.
  pose proof (Atoi_range _ _ Ha) as Hz. split_and!; try done; [lia..|].
  unfold to_uint64, two63, two64 in *. destruct (Z.ltb_spec z 0).
  - rewrite <-(Z.mod_add z 1) by lia. rewrite Z.mod_small; lia.
  - rewrite Z.mod_small; lia.
Qed.

(** At the ends of the range the successor wraps: the largest signed number
    is followed by a negative one, and ["v-1"] by ["v0"]. *)
Theorem getNewRevision_wraps :
  getNewRevision "v9223372036854775807" = "v-9223372036854775808" ∧
  getRevisionNumber "v-1" = (2 ^ 64 - 1)%Z ∧
  getNewRevision "v-1" = "v0" ∧ getRevisionNumber "v0" = 0%Z ∧
  getNewRevision "main" = "v1".
Proof. vm_compute. split_and!; reflexivity. Qed.
