(* ===== verification/Builders.v ===== *)
(** * Documents the controller builds (pkg/kptfile/v1, pkg/namespace/v1)

    The Kptfile is rendered from a template with the escaper of
    [html/template]; the Namespace is an object printed as YAML.  Both texts are
    parsed by kyaml. *)

From Stdlib Require Import Ascii.
From stdpp Require Import base tactics list gmap strings.
From S2P Require Import Prelude.
From S2P Require Import GoStrings.
From S2P Require Import Deps.
From S2P Require Import Toy.

Local Open Scope string_scope.

Definition newline : string := String "010" "".
Definition quote (s : string) : string := String "034" (s +:+ String "034" "").

(** ** The text of the Kptfile template, and its execution *)

Definition kptfile_head : string :=
  "apiVersion: kpt.dev/v1" +:+ newline +:+
  "kind: Kptfile" +:+ newline +:+
  "metadata:" +:+ newline +:+
  "  name: ".

Definition kptfile_middle : string :=
  newline +:+
  "  annotations:" +:+ newline +:+
  "    internal.config.kubernetes.io/index: " +:+ quote "0" +:+ newline +:+
  "    internal.config.kubernetes.io/path: " +:+ quote "Kptfile" +:+ newline +:+
  "    config.kubernetes.io/local-config: " +:+ quote "true" +:+ newline +:+
  "info:" +:+ newline +:+
  "  description: ".

Definition kptfile_text (pkgName : string) : string :=
  kptfile_head +:+ html_escape pkgName +:+ kptfile_middle +:+ html_escape pkgName +:+ newline.

Definition GVKName (namespace name : string) : string :=
  Join ["core"; "v1"; "Namespace"; namespace; name] "/".

Section builders.
Context {ET : ExtTypes} {EO : ExtOps}.

Definition BuildKptFile (pkgName : string) : St error heap loc :=
  n ← st_lift (of_sum (yaml_Parse (kptfile_text pkgName)));
  h_alloc n.

Definition namespace_object (name : string) : CoreNamespace := {|
  ns_TypeMeta := {| tm_Kind := "Namespace"; tm_APIVersion := corev1_Identifier |};
  ns_ObjectMeta := {|
    om_Name := name;
    om_Namespace := "";
    om_Annotations := <["internal.config.kubernetes.io/index" := "0"]>
                      {["internal.config.kubernetes.io/path" := "namespace.yaml"]};
    om_Finalizers := [];
    om_DeletionTimestamp := None;
    om_OwnerReferences := [] |} |}.

Definition BuildNamespace (name : string) : St error heap loc :=
  n ← st_lift (of_sum (yaml_Parse (YAMLPrinter_PrintObj (namespace_object name))));
  h_alloc n.

Lemma BuildKptFile_ok pkgName n h :
  yaml_Parse (kptfile_text pkgName) = inr n →
  BuildKptFile pkgName h = (Ok (length h), h ++ [n])%list.
Proof. intros Hn. unfold BuildKptFile, mbind, St_bind, st_lift. by rewrite Hn. Qed.

Lemma BuildNamespace_ok name n h :
  yaml_Parse (YAMLPrinter_PrintObj (namespace_object name)) = inr n →
  BuildNamespace name h = (Ok (length h), h ++ [n])%list.
Proof. intros Hn. unfold BuildNamespace, mbind, St_bind, st_lift. by rewrite Hn. Qed.
End builders.

(** ** Escaping *)

(** The characters the template prints as they are. *)
Definition html_inert (c : ascii) : bool := String.eqb (html_chr c) (String c "").

(** The characters of a Kubernetes resource name and of the package names. *)
Definition name_chr (c : ascii) : bool :=
  let n := nat_of_ascii c in
  ((97 <=? n) && (n <=? 122) || (65 <=? n) && (n <=? 90) || (48 <=? n) && (n <=? 57) ||
   Ascii.eqb c "." || Ascii.eqb c "-" || Ascii.eqb c "_")%nat.

Lemma name_chr_inert c : name_chr c = true → html_inert c = true.
Proof. destruct c as [[] [] [] [] [] [] [] []]; vm_compute; congruence. Qed.

Lemma html_chr_length c : (1 ≤ String.length (html_chr c))%nat.
Proof. unfold html_chr. repeat case_match; simpl; lia. Qed.

Lemma html_chr_length_eq c : String.length (html_chr c) = 1 → html_inert c = true.
Proof. unfold html_inert, html_chr. repeat case_match; simpl; try done. by rewrite Ascii.eqb_refl. Qed.

Lemma html_escape_length s : (String.length s ≤ String.length (html_escape s))%nat.
Proof.
  induction s as [|c s IH]; simpl; [done|]. rewrite length_app_str.
  pose proof (html_chr_length c). lia.
Qed.

Lemma html_escape_inert s : str_all html_inert s = true → html_escape s = s.
Proof.
  induction s as [|c s IH]; simpl; [done|]. rewrite andb_true_iff.
  intros [Hc%String.eqb_eq Hs]. by rewrite Hc, IH.
Qed.

Lemma html_escape_id_inv s : html_escape s = s → str_all html_inert s = true.
Proof.
  induction s as [|c s IH]; simpl; [done|]. intros He.
  pose proof (f_equal String.length He) as HL. rewrite length_app_str in HL. simpl in HL.
  pose proof (html_chr_length c). pose proof (html_escape_length s).
  assert (html_inert c = true) as Hc by (apply html_chr_length_eq; lia).
  rewrite Hc, IH; [done|]. apply String.eqb_eq in Hc. rewrite Hc in He. by injection He.
Qed.

(** ** Properties *)

(** C40: The Kptfile of a package holds the package name verbatim, as its name
    and its description, exactly when no character of the name is one the
    HTML escaper rewrites; every name made of letters, digits, dots, dashes and
    underscores is such. *)
Theorem kptfile_text_verbatim (pkgName : string) :
  (kptfile_text pkgName =
     kptfile_head +:+ pkgName +:+ kptfile_middle +:+ pkgName +:+ newline ↔
   str_all html_inert pkgName = true) ∧
  (str_all name_chr pkgName = true → str_all html_inert pkgName = true).
Proof.
  split; [split|].
  - intros Heq. apply html_escape_id_inv. unfold kptfile_text in Heq.
    apply (inj (String.append kptfile_head)) in Heq.
    pose proof (f_equal String.length Heq) as HL. rewrite !length_app_str in HL.
    pose proof (html_escape_length pkgName).
    eapply app_inj_prefix; [exact Heq|lia].
  - intros Hi. unfold kptfile_text. by rewrite html_escape_inert.
  - apply str_all_impl, name_chr_inert.
Qed.

(** The built documents, read by the toy library. *)
Definition built (r : outcome toy_error nat * list toy_doc) : option toy_doc := last r.2.

Example BuildKptFile_toy : built (BuildKptFile "admin.yndd.io_Tenant_t1" []) =
  Some (ToyDoc "Kptfile" "admin.yndd.io_Tenant_t1" ""
    [("internal.config.kubernetes.io/index", "0");
     ("internal.config.kubernetes.io/path", "Kptfile");
     ("config.kubernetes.io/local-config", "true")]
    [("apiVersion", "kpt.dev/v1"); ("  description", "admin.yndd.io_Tenant_t1")]).
Proof. vm_compute. reflexivity. Qed.
