(* ===== verification/PkgUtil.v ===== *)
(** * Package contents (pkg/pkgutil/pkgutil.go)

    Reading the resources of a Porch package into documents, merging packages
    under a new Kptfile, and writing documents back into a resource map.  Every
    loop over a Go map takes the iteration order it runs in. *)

From Stdlib Require Import Ascii.
From stdpp Require Import sorting.
From stdpp Require Import base tactics list gmap strings.
From S2P Require Import Prelude.
From S2P Require Import GoStrings.
From S2P Require Import Deps.
From S2P Require Import Toy.
From S2P Require Import AppResource.
From S2P Require Import Builders.

Local Open Scope string_scope.

Section pkgutil.
Context {ET : ExtTypes} {EO : ExtOps}.

(** ** Files that hold KRM resources *)

Definition matchResourceContents : list string := (kio_MatchAll ++ ["Kptfile"])%list.

Definition includeFile (path : string) : bool :=
  existsb (λ m, match Match m (Base path) with Some matched => matched | None => false end)
    matchResourceContents.

(** ** Reading *)

(** The keys that are read, sorted. *)
Definition resource_keys (o : map_order) (resources : gmap string string) : list string :=
  merge_sort String.le (filter (λ k, includeFile k = true) (map_range o resources).*1).

Definition resource_reader (resources : gmap string string) (k : string) : ByteReader := {|
  br_Reader := default "" (resources !! k);
  br_SetAnnotations := {[kioutil_PathAnnotation := k]};
  br_DisableUnwrapping := true |}.

Definition ResourcesToPackageBuffer (o : map_order) (resources : gmap string string) :
    St error heap (list loc) :=
  let inputs := resource_reader resources <$> resource_keys o resources in
  nodes ← st_lift (of_sum (kio_ReadPackage inputs));
  st_map h_alloc nodes.

(** ** Merging *)

Definition path_annotation : string := "internal.config.kubernetes.io/path".

(** The body of the inner loop: the path annotation is put under the
    sub-package directory. *)
Definition prefix_annotations (subPkgName : string) (n : RNode) : gmap string string :=
  let x := rn_GetAnnotations n in
  <[path_annotation := FJoin [subPkgName; default "" (x !! path_annotation)]]> x.

Definition prefix_path (subPkgName : string) (r : loc) : St error heap loc :=
  _ ← h_method_err (λ n, rn_SetAnnotations (prefix_annotations subPkgName n) n) r;
  mret r.

Definition merge_sub (sub : string * list loc) : St error heap (list loc) :=
  st_map (prefix_path sub.1) (Get sub.2).

Definition MergePackages (o : map_order) (packageName : string)
    (res : gmap string (list loc)) : St error heap (list loc) :=
  k ← BuildKptFile packageName;
  rs ← st_map merge_sub (map_range o res);
  mret (foldl Add (Add New k) (mjoin rs)).

(** ** Writing *)

Definition getPath (n : RNode) : string :=
  match rn_GetAnnotations n !! kioutil_PathAnnotation with
  | Some path => path
  | None =>
      let name := rn_GetName n in
      (if String.eqb name "" then "unnamed" else name) +:+ ".yaml"
  end.

Definition kio_writer : ByteWriter :=
  {| bw_ClearAnnotations := [kioutil_PathAnnotation; kioutil_IndexAnnotation] |}.

(** The state of [resourceWriter]: the store of documents and its map. *)
Abbreviation WSt := (St error (heap * gmap string string)).

Definition w_read (l : loc) : WSt RNode := λ s, (of_option NilDeref (s.1 !! l), s).

(** [paths[path] = append(paths[path], node)]. *)
Definition group_node (paths : gmap string (list RNode)) (n : RNode) :
    gmap string (list RNode) :=
  <[getPath n := (default [] (paths !! getPath n) ++ [n])%list]> paths.

(** [w.resources[path] = buf.String()]. *)
Definition w_put (path text : string) : WSt () := λ s, (Ok (), (s.1, <[path := text]> s.2)).

Definition write_group (g : string * list RNode) : WSt () :=
  text ← st_lift (of_sum (kio_ByteWrite kio_writer g.2));
  w_put g.1 text.

Definition Write (o : map_order) (nodes : list loc) : WSt () :=
  ns ← st_map w_read nodes;
  let paths := foldl group_node ∅ ns in
  st_iter write_group (map_range o paths).

(** The resources that are not KRM files. *)
Definition copy_other (m : gmap string string) (kv : string * string) : gmap string string :=
  if includeFile kv.1 then m else <[kv.1 := kv.2]> m.

Definition CreateUpdatedResource (o1 o2 : map_order) (origResources : gmap string string)
    (nodes : list loc) : St error heap (gmap string string) := λ h,
  let newResources := foldl copy_other ∅ (map_range o1 origResources) in
  match kio_WriteNodes nodes (Write o2) (h, newResources) with
  | (Ok _, (h', m)) => (Ok m, h')
  | (Err e, (h', _)) => (Err e, h')
  | (Panic p, (h', _)) => (Panic p, h')
  end.

(** ** Lemmas: files and keys *)

Lemma includeFile_iff `{!KioLaws} path :
  includeFile path = true ↔
  (∃ stem, Base path = stem +:+ ".yaml" ∧ no_char slash stem = true) ∨
  (∃ stem, Base path = stem +:+ ".yml" ∧ no_char slash stem = true) ∨
  Base path = "Kptfile".
Proof.
  unfold includeFile, matchResourceContents. rewrite match_all. cbn [app existsb].
  rewrite !orb_true_iff.
  change (Match "*.yaml" (Base path)) with (Some (glob (String "*" ".yaml") (Base path))).
  change (Match "*.yml" (Base path)) with (Some (glob (String "*" ".yml") (Base path))).
  change (Match "Kptfile" (Base path)) with (Some (glob "Kptfile" (Base path))).
  cbv iota. rewrite !glob_star_suffix, glob_literal by done.
  split; [intros [?|[?|[?|?]]]|intros [?|[?|?]]]; try done; tauto.
Qed.

Lemma includeFile_Base p q : Base p = Base q → includeFile p = includeFile q.
Proof. unfold includeFile. by intros ->. Qed.

(** A file keeps its kind when it is moved below directories. *)
Lemma includeFile_under dirs elems :
  dirs ≠ [] → elems ≠ [] → Forall plain_elem dirs → Forall plain_elem elems →
  includeFile (FJoin [Join dirs "/"; Join elems "/"]) = includeFile (Join elems "/").
Proof.
  intros Hd He Hfd Hfe. rewrite FJoin_plain by done.
  apply includeFile_Base. destruct elems as [|e elems _] using rev_ind; [done|].
  apply Forall_app in Hfe as [_ Hfe]. apply Forall_cons_1 in Hfe as [Hfe _].
  by rewrite (assoc_L (++)%list), !Base_Join.
Qed.

Lemma elem_of_resource_keys o resources k :
  k ∈ resource_keys o resources ↔ includeFile k = true ∧ is_Some (resources !! k).
Proof.
  unfold resource_keys. rewrite merge_sort_Permutation, list_elem_of_filter.
  rewrite list_elem_of_fmap. split.
  - intros (Hi & [k' v] & -> & Hkv%elem_of_map_range). eauto.
  - intros (Hi & v & Hv). split; [done|]. exists (k, v). by rewrite elem_of_map_range.
Qed.

Lemma resource_keys_NoDup o resources : NoDup (resource_keys o resources).
Proof.
  unfold resource_keys. rewrite merge_sort_Permutation. apply NoDup_filter, map_range_NoDup.
Qed.

Lemma resource_keys_Sorted o resources : Sorted String.le (resource_keys o resources).
Proof. unfold resource_keys. apply Sorted_merge_sort. apply _. Qed.

Lemma resource_keys_order o1 o2 resources :
  resource_keys o1 resources = resource_keys o2 resources.
Proof.
  apply (Sorted_unique String.le); [apply resource_keys_Sorted..|].
  unfold resource_keys. rewrite !merge_sort_Permutation. by rewrite !map_range_perm.
Qed.

(** ** Lemmas: writing *)

Definition nodes_at (k : string) (ns : list RNode) : list RNode :=
  filter (λ n, getPath n = k) ns.

Lemma group_nodes ns paths k :
  foldl group_node paths ns !! k =
  match paths !! k, nodes_at k ns with
  | None, [] => None
  | o, l => Some (default [] o ++ l)%list
  end.
Proof.
  revert paths. induction ns as [|n ns IH]; intros paths; simpl.
  { destruct (paths !! k); simpl; [by rewrite app_nil_r|done]. }
  rewrite IH. unfold nodes_at. rewrite filter_cons. unfold group_node.
  destruct (decide (getPath n = k)) as [<-|Hne].
  - rewrite lookup_insert_eq. simpl. rewrite <-(assoc_L (++)%list).
    by destruct (paths !! getPath n).
  - by rewrite lookup_insert_ne.
Qed.

Lemma group_nodes_empty ns k :
  foldl group_node ∅ ns !! k = match nodes_at k ns with [] => None | l => Some l end.
Proof. rewrite group_nodes, lookup_empty. by destruct (nodes_at k ns). Qed.

Lemma w_read_all nodes ns (h : heap) (m : gmap string string) :
  Forall2 (λ l n, h !! l = Some n) nodes ns → st_map w_read nodes (h, m) = (Ok ns, (h, m)).
Proof.
  induction 1 as [|l n nodes ns Hl _ IH]; [done|]. simpl.
  rewrite (st_bind_ok _ _ (h, m) n (h, m)) by (unfold w_read; simpl; by rewrite Hl).
  by rewrite (st_bind_ok _ _ _ _ _ IH).
Qed.

(** The text written for a group of nodes. *)
Definition group_text (ns : list RNode) (text : string) : Prop :=
  kio_ByteWrite kio_writer ns = inr text.

Lemma write_group_ok g text (h : heap) (m : gmap string string) :
  group_text g.2 text → write_group g (h, m) = (Ok (), (h, <[g.1 := text]> m)).
Proof. intros Ht. unfold write_group, mbind, St_bind, st_lift. by rewrite Ht. Qed.

Lemma write_groups_ok (gs : list (string * list RNode)) (f : string → string)
    (h : heap) (m : gmap string string) :
  NoDup gs.*1 → (∀ k ns, (k, ns) ∈ gs → group_text ns (f k)) →
  ∃ m', st_iter write_group gs (h, m) = (Ok (), (h, m')) ∧
    ∀ k, m' !! k = if decide (k ∈ gs.*1) then Some (f k) else m !! k.
Proof.
  revert m. induction gs as [|[k ns] gs IH]; intros m Hnd Hf.
  { exists m. split; [done|]. intros k. destruct (decide _); [set_solver|done]. }
  apply NoDup_cons in Hnd as [Hk Hnd].
  destruct (IH (<[k := f k]> m)) as (m' & R & Hm'); [done|set_solver|].
  exists m'. split; simpl.
  - rewrite (st_bind_ok _ _ _ _ _ (write_group_ok (k, ns) (f k) h m ltac:(apply Hf; set_solver))).
    exact R.
  - intros k'. rewrite Hm'.
    assert (k' ∈ ((k, ns) :: gs).*1 ↔ k' = k ∨ k' ∈ gs.*1) as Hiff
      by (csimpl; apply elem_of_cons). simpl in Hiff.
    destruct (decide (k' = k)) as [->|Hne];
      [rewrite lookup_insert_eq|rewrite lookup_insert_ne by done];
      repeat case_decide; first [done|tauto].
Qed.

Lemma Write_ok o nodes ns (f : string → string) (h : heap) (m : gmap string string) :
  Forall2 (λ l n, h !! l = Some n) nodes ns →
  (∀ k, nodes_at k ns ≠ [] → group_text (nodes_at k ns) (f k)) →
  ∃ m', Write o nodes (h, m) = (Ok (), (h, m')) ∧
    ∀ k, m' !! k = if decide (nodes_at k ns = []) then m !! k else Some (f k).
Proof.
  intros Hn Hf. unfold Write.
  set (paths := foldl group_node ∅ ns).
  destruct (write_groups_ok (map_range o paths) f h m) as (m' & R & Hm').
  { apply map_range_NoDup. }
  { intros k l Hl%elem_of_map_range. unfold paths in Hl. rewrite group_nodes_empty in Hl.
    destruct (nodes_at k ns) eqn:E; simplify_eq. rewrite <-E. apply Hf. by rewrite E. }
  exists m'. split; [rewrite (st_bind_ok _ _ _ _ _ (w_read_all _ _ _ _ Hn)); exact R|].
  intros k. rewrite Hm'.
  assert (k ∈ (map_range o paths).*1 ↔ nodes_at k ns ≠ []) as Hk.
  { rewrite list_elem_of_fmap. split.
    - intros ([k' l] & -> & Hl%elem_of_map_range). unfold paths in Hl.
      rewrite group_nodes_empty in Hl. simpl. destruct (nodes_at k' ns); [done|discriminate].
    - intros Hne. exists (k, nodes_at k ns). rewrite elem_of_map_range. split; [done|].
      unfold paths. rewrite group_nodes_empty. by destruct (nodes_at k ns). }
  repeat case_decide; first [done|tauto].
Qed.

Lemma copy_other_lookup l m k :
  NoDup l.*1 → foldl copy_other m l !! k =
    match list_to_map (M:=gmap string string) l !! k with
    | Some v => if includeFile k then m !! k else Some v
    | None => m !! k
    end.
Proof.
  revert m. induction l as [|[k' v] l IH]; intros m Hnd; [done|]. simpl.
  apply NoDup_cons in Hnd as [Hk Hnd]. rewrite IH by done.
  unfold copy_other. simpl. destruct (decide (k = k')) as [->|Hne].
  - rewrite lookup_insert_eq. rewrite not_elem_of_list_to_map_1 by done.
    by destruct (includeFile k'); rewrite ?lookup_insert_eq.
  - rewrite lookup_insert_ne by done.
    by destruct (includeFile k'); rewrite ?lookup_insert_ne.
Qed.

Lemma copied_others o (m : gmap string string) k :
  foldl copy_other ∅ (map_range o m) !! k = if includeFile k then None else m !! k.
Proof.
  rewrite copy_other_lookup by apply map_range_NoDup. rewrite lookup_empty.
  rewrite (list_to_map_proper _ (map_to_list m)) by
    (apply map_range_NoDup || apply map_range_perm).
  rewrite list_to_map_to_list. by destruct (m !! k), (includeFile k).
Qed.

(** ** Lemmas: merging *)

(** The document a merge leaves at a node of the sub-package [s]. *)
Definition moved (s : string) (n : RNode) : RNode :=
  (rn_SetAnnotations (prefix_annotations s n) n).1.

(** The loops of [MergePackages] run on the pairs (sub-package, node). *)
Definition merge_pairs (l : list (string * list loc)) : list (string * loc) :=
  mjoin ((λ sub, pair sub.1 <$> sub.2) <$> l).

Definition move_all (h : heap) (ps : list (string * loc)) : heap :=
  foldl (λ h p, alter (moved p.1) p.2 h) h ps.

Lemma move_all_length h ps : length (move_all h ps) = length h.
Proof.
  unfold move_all. revert h. induction ps as [|p ps IH]; intros h; [done|]. simpl.
  by rewrite IH, length_alter.
Qed.

Lemma move_all_other h ps l : l ∉ ps.*2 → move_all h ps !! l = h !! l.
Proof.
  unfold move_all. revert h. induction ps as [|p ps IH]; intros h; [done|]. csimpl.
  intros [Hne Hl]%not_elem_of_cons. rewrite IH by done. by rewrite list_lookup_alter_ne.
Qed.

Lemma move_all_lookup h ps s l :
  NoDup ps.*2 → (s, l) ∈ ps → move_all h ps !! l = moved s <$> h !! l.
Proof.
  unfold move_all. revert h. induction ps as [|p ps IH]; intros h Hnd Hin.
  { by apply not_elem_of_nil in Hin. }
  csimpl in *. apply NoDup_cons in Hnd as [Hp Hnd].
  apply elem_of_cons in Hin as [<-|Hin].
  - simpl in *. change (foldl _ _ ps) with (move_all (alter (moved s) l h) ps).
    rewrite move_all_other by done. by rewrite list_lookup_alter_eq.
  - rewrite IH by done. rewrite list_lookup_alter_ne; [done|].
    intros Heq. apply Hp. rewrite Heq. apply list_elem_of_fmap. by exists (s, l).
Qed.

(** The documents at [ls] exist and accept any annotations. *)
Definition annotatable (h : heap) (ls : list loc) : Prop :=
  Forall (λ l, ∃ n, h !! l = Some n ∧ ∀ m, (rn_SetAnnotations m n).2 = None) ls.

(** The documents of the pairs exist and accept their new paths. *)
Definition movable (h : heap) (p : string * loc) : Prop :=
  ∃ n, h !! p.2 = Some n ∧ (rn_SetAnnotations (prefix_annotations p.1 n) n).2 = None.

Lemma annotatable_movable h ps : annotatable h ps.*2 → Forall (movable h) ps.
Proof.
  unfold annotatable. rewrite !Forall_forall. intros Ha [s l] Hp.
  destruct (Ha l) as (n & Hl & Hs); [|by exists n]. by apply (list_elem_of_fmap_2 snd _ (s, l)).
Qed.

Lemma movable_move h ps qs :
  (∀ l, l ∈ qs.*2 → l ∉ ps.*2) → Forall (movable (move_all h ps)) qs ↔ Forall (movable h) qs.
Proof.
  intros Hd. rewrite !Forall_forall. unfold movable.
  split; intros Ha [s l] Hl; (destruct (Ha _ Hl) as (n & Hn & Hs); exists n; split; [|done]);
    (rewrite move_all_other in * by (by apply Hd, (list_elem_of_fmap_2 snd _ (s, l)))); done.
Qed.

Lemma prefix_path_ok s l h :
  movable h (s, l) → prefix_path s l h = (Ok l, move_all h [(s, l)]).
Proof.
  intros (n & Hl & Hs). simpl in *. unfold prefix_path.
  rewrite (st_bind_ok _ _ _ _ _ (h_method_err_ok
    (λ n, rn_SetAnnotations (prefix_annotations s n) n) _ _ _ Hl Hs)).
  unfold mret, St_ret. f_equal. apply list_eq. intros i. unfold move_all. simpl.
  destruct (decide (i = l)) as [->|Hne].
  - rewrite list_lookup_alter_eq, list_lookup_insert_eq, Hl;
      [done|by eapply lookup_lt_Some].
  - by rewrite list_lookup_alter_ne, list_lookup_insert_ne by done.
Qed.

Lemma move_all_app h ps qs : move_all h (ps ++ qs) = move_all (move_all h ps) qs.
Proof. apply foldl_app. Qed.

Lemma pair_snd (s : string) (ls : list loc) : (pair s <$> ls).*2 = ls.
Proof. induction ls; csimpl; congruence. Qed.

Lemma prefix_path_inv s l h l' h' : prefix_path s l h = (Ok l', h') → movable h (s, l).
Proof.
  unfold prefix_path. intros (u & h1 & H & _)%st_bind_ok_inv.
  unfold h_method_err in H. apply st_bind_ok_inv in H as (e & h2 & H & He).
  destruct (h !! l) as [n|] eqn:Hn.
  - rewrite (h_method_ok _ _ _ _ Hn) in H. injection H as <- _. exists n. split; [done|].
    by destruct (_.2).
  - unfold h_method, mbind, St_bind, h_read in H. rewrite Hn in H. done.
Qed.

Lemma merge_sub_ok s ls h :
  NoDup ls → Forall (movable h) (pair s <$> ls) →
  st_map (prefix_path s) ls h = (Ok ls, move_all h (pair s <$> ls)).
Proof.
  revert h. induction ls as [|l ls IH]; intros h Hnd Ha; [done|].
  apply NoDup_cons in Hnd as [Hni Hnd]. apply Forall_cons_1 in Ha as [Hl Ha]. simpl.
  rewrite (st_bind_ok _ _ _ _ _ (prefix_path_ok s l h Hl)).
  rewrite (st_bind_ok _ _ _ _ _ (IH (move_all h [(s, l)]) Hnd
    ltac:(apply movable_move; [rewrite pair_snd; set_solver|done]))).
  unfold mret, St_ret. by rewrite <-move_all_app.
Qed.

(** A merge that succeeds could move every document. *)
Lemma merge_sub_inv s ls h r h' :
  NoDup ls → st_map (prefix_path s) ls h = (Ok r, h') → Forall (movable h) (pair s <$> ls).
Proof.
  revert h r h'. induction ls as [|l ls IH]; intros h r h' Hnd H; [constructor|].
  apply NoDup_cons in Hnd as [Hni Hnd]. simpl in H.
  apply st_bind_ok_inv in H as (l' & h1 & H1 & H).
  apply st_bind_ok_inv in H as (r' & h2 & H2 & _).
  pose proof (prefix_path_inv _ _ _ _ _ H1) as Hl. csimpl. constructor; [done|].
  rewrite (prefix_path_ok _ _ _ Hl) in H1. apply pair_equal_spec in H1 as [_ <-].
  apply IH in H2; [|done]. apply movable_move in H2; [done|]. rewrite pair_snd. set_solver.
Qed.

Lemma merge_pairs_snd l : (merge_pairs l).*2 = mjoin l.*2.
Proof.
  unfold merge_pairs. induction l as [|[s ls] l IH]; [done|]. csimpl.
  by rewrite fmap_app, pair_snd, IH.
Qed.

Lemma merge_subs_ok l h :
  NoDup (mjoin l.*2) → Forall (movable h) (merge_pairs l) →
  st_map merge_sub l h = (Ok l.*2, move_all h (merge_pairs l)).
Proof.
  revert h. induction l as [|[s ls] l IH]; intros h Hnd Ha; [done|].
  csimpl in Hnd. unfold merge_pairs in Ha. csimpl in Ha.
  apply NoDup_app in Hnd as (Hnd1 & Hd & Hnd2).
  apply Forall_app in Ha as [Ha1 Ha2]. simpl. unfold merge_sub at 1. simpl.
  rewrite (st_bind_ok _ _ _ _ _ (merge_sub_ok s ls h Hnd1 Ha1)).
  rewrite (st_bind_ok _ _ _ _ _ (IH (move_all h (pair s <$> ls)) Hnd2
    ltac:(apply movable_move; [rewrite pair_snd, merge_pairs_snd; set_solver|done]))).
  unfold mret, St_ret. by rewrite <-move_all_app.
Qed.

Lemma merge_subs_inv l h r h' :
  NoDup (mjoin l.*2) → st_map merge_sub l h = (Ok r, h') → Forall (movable h) (merge_pairs l).
Proof.
  revert h r h'. induction l as [|[s ls] l IH]; intros h r h' Hnd H; [constructor|].
  csimpl in Hnd. apply NoDup_app in Hnd as (Hnd1 & Hd & Hnd2). simpl in H.
  apply st_bind_ok_inv in H as (ls' & h1 & H1 & H).
  apply st_bind_ok_inv in H as (r' & h2 & H2 & _). unfold merge_sub, Get in H1. simpl in H1.
  pose proof (merge_sub_inv _ _ _ _ _ Hnd1 H1) as Ha.
  rewrite (merge_sub_ok _ _ _ Hnd1 Ha) in H1. apply pair_equal_spec in H1 as [_ <-].
  apply IH in H2; [|done]. unfold merge_pairs. csimpl. apply Forall_app. split; [done|].
  apply movable_move in H2; [done|]. rewrite pair_snd, merge_pairs_snd. set_solver.
Qed.

Lemma foldl_Add x l : foldl Add x l = (x ++ l)%list.
Proof.
  revert x. induction l as [|a l IH]; intros x; simpl; [by rewrite app_nil_r|].
  rewrite IH. unfold Add. by rewrite <-(assoc_L (++)%list).
Qed.

Lemma merge_pairs_elem l s r :
  (s, r) ∈ merge_pairs l ↔ ∃ ls, (s, ls) ∈ l ∧ r ∈ ls.
Proof.
  unfold merge_pairs. rewrite list_elem_of_join. setoid_rewrite list_elem_of_fmap. split.
  - intros (ps & Hin & [s' ls] & -> & Hl). apply list_elem_of_fmap in Hin as (r' & [= -> ->] & ?).
    eauto.
  - intros (ls & Hl & Hr). exists (pair s <$> ls). split; [|by exists (s, ls)].
    apply list_elem_of_fmap. eauto.
Qed.

(** All the nodes of the packages of a map. *)
Definition all_nodes (res : gmap string (list loc)) : list loc := mjoin (map_to_list res).*2.

Lemma elem_of_all_nodes res l :
  l ∈ all_nodes res ↔ ∃ s ls, res !! s = Some ls ∧ l ∈ ls.
Proof.
  unfold all_nodes. rewrite list_elem_of_join. setoid_rewrite list_elem_of_fmap. split.
  - intros (ls & Hl & [s ls'] & -> & Hin%elem_of_map_to_list). eauto.
  - intros (s & ls & Hs & Hl). exists ls. split; [done|]. exists (s, ls).
    by rewrite elem_of_map_to_list.
Qed.

Lemma range_nodes o (res : gmap string (list loc)) : mjoin (map_range o res).*2 ≡ₚ all_nodes res.
Proof. unfold all_nodes. by rewrite map_range_perm. Qed.

Lemma annotatable_app h hs ls : annotatable h ls → annotatable (h ++ hs)%list ls.
Proof.
  intros Ha. eapply Forall_impl; [exact Ha|]. intros l (n & Hl & Hs). exists n.
  split; [by apply lookup_app_l_Some|done].
Qed.

Lemma annotatable_perm h ls1 ls2 : ls1 ≡ₚ ls2 → annotatable h ls1 → annotatable h ls2.
Proof. unfold annotatable. by intros ->. Qed.

Lemma merge_pairs_range o (res : gmap string (list loc)) :
  merge_pairs (map_range o res) ≡ₚ merge_pairs (map_to_list res).
Proof. unfold merge_pairs. by rewrite map_range_perm. Qed.

Lemma range_movable o h res :
  Forall (movable h) (merge_pairs (map_to_list res)) →
  Forall (movable h) (merge_pairs (map_range o res)).
Proof. by rewrite merge_pairs_range. Qed.

Lemma movable_app h hs ps : Forall (movable h) ps → Forall (movable (h ++ hs)%list) ps.
Proof.
  intros Ha. eapply Forall_impl; [exact Ha|]. intros [s l] (n & Hl & Hs). exists n.
  split; [by apply lookup_app_l_Some|done].
Qed.

Lemma MergePackages_movable o packageName res h kn :
  yaml_Parse (kptfile_text packageName) = inr kn →
  NoDup (all_nodes res) → Forall (movable (h ++ [kn])%list) (merge_pairs (map_to_list res)) →
  MergePackages o packageName res h =
    (Ok (length h :: mjoin (map_range o res).*2),
     move_all (h ++ [kn])%list (merge_pairs (map_range o res))).
Proof.
  intros Hk Hnd Ha. unfold MergePackages.
  rewrite (st_bind_ok _ _ _ _ _ (BuildKptFile_ok _ _ _ Hk)).
  rewrite (st_bind_ok _ _ _ _ _ (merge_subs_ok (map_range o res) (h ++ [kn])%list
    ltac:(by rewrite range_nodes) ltac:(by apply range_movable))).
  unfold mret, St_ret. by rewrite foldl_Add.
Qed.

Lemma MergePackages_inv o packageName res h rs h' :
  NoDup (all_nodes res) → MergePackages o packageName res h = (Ok rs, h') →
  ∃ kn, yaml_Parse (kptfile_text packageName) = inr kn ∧
    Forall (movable (h ++ [kn])%list) (merge_pairs (map_to_list res)).
Proof.
  intros Hnd. unfold MergePackages. intros (k & h1 & H1 & H)%st_bind_ok_inv.
  apply st_bind_ok_inv in H as (r & h2 & H2 & _).
  destruct (yaml_Parse (kptfile_text packageName)) as [e|kn] eqn:Hk.
  { unfold BuildKptFile, mbind, St_bind, st_lift in H1. by rewrite Hk in H1. }
  exists kn. split; [done|]. rewrite (BuildKptFile_ok _ _ _ Hk) in H1. injection H1 as <- <-.
  apply merge_subs_inv in H2; [|by rewrite range_nodes]. by rewrite merge_pairs_range in H2.
Qed.

Lemma MergePackages_run o packageName res h kn :
  yaml_Parse (kptfile_text packageName) = inr kn →
  NoDup (all_nodes res) → annotatable h (all_nodes res) →
  MergePackages o packageName res h =
    (Ok (length h :: mjoin (map_range o res).*2),
     move_all (h ++ [kn])%list (merge_pairs (map_range o res))).
Proof.
  intros Hk Hnd Ha. apply MergePackages_movable; [done..|].
  apply movable_app, annotatable_movable. by rewrite merge_pairs_snd.
Qed.

(** The order of the packages changes only the order of the result. *)
Lemma move_all_perm h ps qs : NoDup ps.*2 → ps ≡ₚ qs → move_all h ps = move_all h qs.
Proof.
  intros Hnd Hp. assert (NoDup qs.*2) as Hnd2 by by rewrite <-Hp.
  apply list_eq. intros l. destruct (decide (l ∈ ps.*2)) as [Hl|Hl].
  - apply list_elem_of_fmap in Hl as ([s r] & -> & Hin). simpl.
    rewrite !(move_all_lookup _ _ s); try done. by rewrite <-Hp.
  - rewrite !move_all_other; [done| |done]. by rewrite <-Hp.
Qed.

Lemma MergePackages_perm o1 o2 packageName res h rs h' :
  NoDup (all_nodes res) → MergePackages o1 packageName res h = (Ok rs, h') →
  ∃ rs2, MergePackages o2 packageName res h = (Ok rs2, h') ∧ rs2 ≡ₚ rs.
Proof.
  intros Hnd H. destruct (MergePackages_inv _ _ _ _ _ _ Hnd H) as (kn & Hk & Hm).
  rewrite (MergePackages_movable o1 _ _ _ kn) in H by done. injection H as <- <-.
  eexists. rewrite (MergePackages_movable o2 _ _ _ kn) by done. split.
  - f_equal. apply move_all_perm; [by rewrite merge_pairs_snd, range_nodes|].
    by rewrite !merge_pairs_range.
  - by rewrite !range_nodes.
Qed.

(** The document of a file below a plain path that is read as KRM. *)
Definition in_krm_file (n : RNode) : Prop :=
  ∃ elems, elems ≠ [] ∧ Forall plain_elem elems ∧ includeFile (Join elems "/") = true ∧
    rn_GetAnnotations n !! path_annotation = Some (Join elems "/").

Lemma getPath_moved `{!KioLaws} s n n' :
  plain_elem s → in_krm_file n →
  rn_GetAnnotations n' =
    <[path_annotation := FJoin [s; default "" (rn_GetAnnotations n !! path_annotation)]]>
      (rn_GetAnnotations n) →
  includeFile (getPath n') = true.
Proof.
  intros Hs (elems & Hne & He & Hi & Hp) Hann. unfold getPath.
  rewrite Deps.path_annotation, Hann, Hp. fold path_annotation.
  rewrite lookup_insert_eq. etransitivity; [|exact Hi].
  apply (includeFile_under [s]); [done..| |done]. by constructor.
Qed.

(** What merging does to the documents. *)
Lemma MergePackages_ok `{!KYamlLaws} (o : map_order) (packageName : string)
    (res : gmap string (list loc)) (h : heap) (kn : RNode) :
  yaml_Parse (kptfile_text packageName) = inr kn →
  NoDup (all_nodes res) → annotatable h (all_nodes res) →
  ∃ rs h', MergePackages o packageName res h = (Ok (length h :: rs), h') ∧
    rs ≡ₚ all_nodes res ∧ h' !! length h = Some kn ∧
    (∀ s ls l n, res !! s = Some ls → l ∈ ls → h !! l = Some n →
      ∃ n', h' !! l = Some n' ∧
        rn_GetAnnotations n' =
          <[path_annotation :=
              FJoin [s; default "" (rn_GetAnnotations n !! path_annotation)]]>
            (rn_GetAnnotations n)) ∧
    (∀ l, l < length h → l ∉ all_nodes res → h' !! l = h !! l)%nat.
Proof.
  intros Hk Hnd Ha. eexists _, _. split; [by apply (MergePackages_run _ _ _ _ kn)|].
  assert (∀ l, l ∈ all_nodes res ↔ l ∈ (merge_pairs (map_range o res)).*2) as Hall.
  { intros l. by rewrite merge_pairs_snd, range_nodes. }
  assert (∀ l, l ∈ all_nodes res → is_Some (h !! l)) as Hval.
  { intros l Hl. destruct (proj1 (Forall_forall _ _) Ha l Hl) as (n & ? & _). eauto. }
  split_and!.
  - apply range_nodes.
  - rewrite move_all_other; [by apply list_lookup_middle|].
    intros [n Hn%lookup_lt_Some]%Hall%Hval. lia.
  - intros s ls l n Hs Hl Hn. exists (moved s n). split.
    + rewrite (move_all_lookup _ _ s).
      * by rewrite (lookup_app_l_Some _ _ _ _ Hn).
      * by rewrite merge_pairs_snd, range_nodes.
      * apply merge_pairs_elem. exists ls. by rewrite elem_of_map_range.
    + apply get_set_annotations.
      destruct (proj1 (Forall_forall _ _) Ha l) as (n' & Hn' & Hset).
      { apply list_elem_of_join. exists ls. split; [done|]. apply list_elem_of_fmap.
        exists (s, ls). by rewrite elem_of_map_to_list. }
      by simplify_eq.
  - intros l Hlt Hl. rewrite move_all_other by (by rewrite <-Hall).
    by rewrite lookup_app_l.
Qed.

(** C32: A path names a KRM file exactly when its last element ends in
    [.yaml] or [.yml] or is [Kptfile]; putting a package below a directory
    keeps that. *)
Theorem includeFile_spec `{!KioLaws} (path : string) (dirs elems : list string) :
  (includeFile path = true ↔
    (∃ stem, Base path = stem +:+ ".yaml" ∧ no_char slash stem = true) ∨
    (∃ stem, Base path = stem +:+ ".yml" ∧ no_char slash stem = true) ∨
    Base path = "Kptfile") ∧
  (dirs ≠ [] → elems ≠ [] → Forall plain_elem dirs → Forall plain_elem elems →
   includeFile (FJoin [Join dirs "/"; Join elems "/"]) = includeFile (Join elems "/")).
Proof.
  split; [apply includeFile_iff|apply includeFile_under].
Qed.

(** Reading a package does not depend on the order in which Go ranges
    over the resource map: the readers are those of the KRM keys, sorted, each
    with its key as the path annotation. *)
Theorem ResourcesToPackageBuffer_order (o1 o2 : map_order) (resources : gmap string string) :
  ResourcesToPackageBuffer o1 resources = ResourcesToPackageBuffer o2 resources ∧
  Sorted String.le (resource_keys o1 resources) ∧ NoDup (resource_keys o1 resources) ∧
  ∀ k, k ∈ resource_keys o1 resources ↔ includeFile k = true ∧ is_Some (resources !! k).
Proof.
  split_and!.
  - unfold ResourcesToPackageBuffer. by rewrite (resource_keys_order o1 o2).
  - apply resource_keys_Sorted.
  - apply resource_keys_NoDup.
  - intros k. apply elem_of_resource_keys.
Qed.

(** C22: Merging packages gives the new Kptfile followed by all their
    documents; every document keeps its annotations except the path, which is
    moved below the directory of its package, and no other document changes. *)
Theorem MergePackages_spec `{!KYamlLaws} (o : map_order) (packageName : string)
    (res : gmap string (list loc)) (h : heap) (kn : RNode) :
  yaml_Parse (kptfile_text packageName) = inr kn →
  NoDup (all_nodes res) → annotatable h (all_nodes res) →
  ∃ rs h', MergePackages o packageName res h = (Ok (length h :: rs), h') ∧
    rs ≡ₚ all_nodes res ∧ h' !! length h = Some kn ∧
    (∀ s ls l n, res !! s = Some ls → l ∈ ls → h !! l = Some n →
      ∃ n', h' !! l = Some n' ∧
        rn_GetAnnotations n' =
          <[path_annotation :=
              FJoin [s; default "" (rn_GetAnnotations n !! path_annotation)]]>
            (rn_GetAnnotations n)) ∧
    (∀ l, l < length h → l ∉ all_nodes res → h' !! l = h !! l)%nat.
Proof. apply MergePackages_ok. Qed.

(** The Kptfile lies in a KRM file of its own: its path is on the list of names
    [includeFile] matches. *)
Lemma Kptfile_path `{!KioLaws} kn :
  rn_GetAnnotations kn !! path_annotation = Some "Kptfile" → includeFile (getPath kn) = true.
Proof.
  intros Hann. unfold getPath. rewrite Deps.path_annotation. fold path_annotation.
  rewrite Hann. apply includeFile_iff. by right; right.
Qed.

(** C27: Every merged document belongs to a KRM file: when the packages have
    plain names, their documents lie at plain paths of KRM files, and the parser
    reads the path annotation of the Kptfile text, then all documents of the merged
    package, the Kptfile included, belong to files that are read again. *)
Theorem MergePackages_krm `{!KioLaws, !KYamlLaws} (o : map_order) (packageName : string)
    (res : gmap string (list loc)) (h : heap) (kn : RNode) :
  yaml_Parse (kptfile_text packageName) = inr kn →
  rn_GetAnnotations kn !! path_annotation = Some "Kptfile" →
  NoDup (all_nodes res) → annotatable h (all_nodes res) →
  (∀ s ls l n, res !! s = Some ls → l ∈ ls → h !! l = Some n →
     plain_elem s ∧ in_krm_file n) →
  ∃ rs h' ns, MergePackages o packageName res h = (Ok rs, h') ∧
    Forall2 (λ l n, h' !! l = Some n) rs ns ∧
    Forall (λ n, includeFile (getPath n) = true) ns.
Proof.
  intros Hk Hkn%Kptfile_path Hnd Ha Hin.
  destruct (MergePackages_ok o packageName res h kn Hk Hnd Ha)
    as (rs & h' & Hrun & Hp & Hkl & Hdocs & _).
  exists (length h :: rs), h'.
  assert (Forall (λ l, ∃ n, h' !! l = Some n ∧ includeFile (getPath n) = true) rs) as Hall.
  { rewrite Hp. apply Forall_forall. intros l Hl.
    destruct (proj1 (Forall_forall _ _) Ha l Hl) as (n & Hn & _).
    apply elem_of_all_nodes in Hl as (s & ls & Hs & Hl).
    destruct (Hdocs s ls l n Hs Hl Hn) as (n' & Hn' & Hann). exists n'. split; [done|].
    destruct (Hin s ls l n Hs Hl Hn). by apply (getPath_moved s n). }
  apply Forall_exists_Forall2_l in Hall as [ns Hns]. exists (kn :: ns). split_and!.
  - done.
  - constructor; [done|]. eapply Forall2_impl; [exact Hns|]. naive_solver.
  - constructor; [done|]. eapply Forall2_Forall_r; [exact Hns|].
    apply Forall_true. naive_solver.
Qed.

(** The order in which Go ranges over the packages changes only the order
    of the merged documents, not the documents. *)
Theorem MergePackages_order (o1 o2 : map_order) (packageName : string)
    (res : gmap string (list loc)) (h : heap) (kn : RNode) :
  yaml_Parse (kptfile_text packageName) = inr kn →
  NoDup (all_nodes res) → annotatable h (all_nodes res) →
  ∃ rs1 rs2 h', MergePackages o1 packageName res h = (Ok rs1, h') ∧
    MergePackages o2 packageName res h = (Ok rs2, h') ∧ rs1 ≡ₚ rs2.
Proof.
  intros Hk Hnd Ha. pose proof (MergePackages_run o1 packageName res h kn Hk Hnd Ha) as Hrun.
  destruct (MergePackages_perm o1 o2 _ _ _ _ _ Hnd Hrun) as (rs2 & Hrun2 & Hp).
  eexists _, rs2, _. split_and!; [exact Hrun|exact Hrun2|by symmetry].
Qed.

(** ** Writing back *)

Lemma Write_nil o s : Write o [] s = (Ok (), s).
Proof.
  unfold Write. rewrite (st_bind_ok (st_map w_read []) _ s [] s eq_refl).
  cbn [foldl]. by rewrite map_range_empty.
Qed.

Lemma CreateUpdatedResource_run `{!KioLaws} o1 o2 orig nodes h o hm :
  Write o2 nodes (h, foldl copy_other ∅ (map_range o1 orig)) = (o, hm) →
  same_kind (CreateUpdatedResource o1 o2 orig nodes h).1
    (match o with Ok _ => Ok hm.2 | Err e => Err e | Panic p => Panic p end) ∧
  (CreateUpdatedResource o1 o2 orig nodes h).2 = hm.1.
Proof.
  intros HW. unfold CreateUpdatedResource.
  destruct (write_nodes nodes (Write o2) (h, foldl copy_other ∅ (map_range o1 orig)))
    as [Hk Hs]; [apply Write_nil|]. rewrite HW in Hk, Hs. simpl in Hk, Hs.
  destruct (kio_WriteNodes _ _ _) as [[u|e|p] [h' m]]; simpl in *; subst;
    destruct o; simpl in *; try done; by subst.
Qed.

Lemma write_groups_err (gs : list (string * list RNode)) s k ns e :
  (k, ns) ∈ gs → kio_ByteWrite kio_writer ns = inl e →
  ∃ e' m', st_iter write_group gs s = (Err e', (s.1, m')).
Proof.
  revert s. induction gs as [|[k' ns'] gs IH]; intros [h m] Hin He; [set_solver|].
  simpl. destruct (kio_ByteWrite kio_writer ns') as [e'|text] eqn:E.
  - exists e', m. unfold write_group, mbind, St_bind, st_lift. simpl. by rewrite E.
  - rewrite (st_bind_ok _ _ _ _ _ (write_group_ok (k', ns') text h m E)).
    apply elem_of_cons in Hin as [[= -> ->]|Hin]; [congruence|]. by apply IH.
Qed.

(** What a file of the updated package holds. *)
Definition updated_file (orig : gmap string string) (ns : list RNode) (text : string → string)
    (k : string) : option string :=
  if decide (nodes_at k ns = []) then
    if includeFile k then None else orig !! k
  else Some (text k).

Lemma CreateUpdatedResource_ok `{!KioLaws} o1 o2 orig nodes ns (text : string → string) h :
  Forall2 (λ l n, h !! l = Some n) nodes ns →
  (∀ k, nodes_at k ns ≠ [] → group_text (nodes_at k ns) (text k)) →
  ∃ m, CreateUpdatedResource o1 o2 orig nodes h = (Ok m, h) ∧
    ∀ k, m !! k = updated_file orig ns text k.
Proof.
  intros Hn Ht.
  destruct (Write_ok o2 nodes ns text h (foldl copy_other ∅ (map_range o1 orig)))
    as (m & HW & Hm); [done..|].
  destruct (CreateUpdatedResource_run _ _ _ _ _ _ _ HW) as [Hk Hh]. exists m. split.
  - destruct (CreateUpdatedResource o1 o2 orig nodes h) as [[] ?]; simpl in *; by subst.
  - intros k. rewrite Hm, copied_others. done.
Qed.

Lemma CreateUpdatedResource_fails `{!KioLaws} o1 o2 orig nodes ns k e h :
  Forall2 (λ l n, h !! l = Some n) nodes ns →
  nodes_at k ns ≠ [] → kio_ByteWrite kio_writer (nodes_at k ns) = inl e →
  ∃ e', CreateUpdatedResource o1 o2 orig nodes h = (Err e', h).
Proof.
  intros Hn Hk He. set (m := foldl copy_other ∅ (map_range o1 orig)).
  destruct (write_groups_err (map_range o2 (foldl group_node ∅ ns)) (h, m) k (nodes_at k ns) e)
    as (e1 & m1 & HW); [|done|].
  { apply elem_of_map_range. rewrite group_nodes_empty. by destruct (nodes_at k ns). }
  assert (Write o2 nodes (h, m) = (Err e1, (h, m1))) as HW2.
  { unfold Write. rewrite (st_bind_ok _ _ _ _ _ (w_read_all _ _ _ _ Hn)). exact HW. }
  destruct (CreateUpdatedResource_run _ _ _ _ _ _ _ HW2) as [Hsk Hh].
  destruct (CreateUpdatedResource o1 o2 orig nodes h) as [[] ?]; simpl in *; subst; naive_solver.
Qed.

(** C17: The updated resources of a package are the files written for its
    documents, under their paths, and the files of the original package that
    are not KRM files; every other file is gone.  Neither iteration order
    matters. *)
Theorem CreateUpdatedResource_spec `{!KioLaws} (o1 o2 : map_order)
    (orig : gmap string string) (nodes : list loc) (ns : list RNode)
    (text : string → string) (h : heap) :
  Forall2 (λ l n, h !! l = Some n) nodes ns →
  (∀ k, nodes_at k ns ≠ [] → group_text (nodes_at k ns) (text k)) →
  ∃ m, CreateUpdatedResource o1 o2 orig nodes h = (Ok m, h) ∧
    ∀ k, m !! k =
      if decide (nodes_at k ns = []) then
        if includeFile k then None else orig !! k
      else Some (text k).
Proof. apply CreateUpdatedResource_ok. Qed.

(** When the documents of one path cannot be written, no resources are
    returned, only an error, and the store is as it was. *)
Theorem CreateUpdatedResource_error `{!KioLaws} (o1 o2 : map_order)
    (orig : gmap string string) (nodes : list loc) (ns : list RNode)
    (k : string) (e : error) (h : heap) :
  Forall2 (λ l n, h !! l = Some n) nodes ns →
  nodes_at k ns ≠ [] → kio_ByteWrite kio_writer (nodes_at k ns) = inl e →
  ∃ e', CreateUpdatedResource o1 o2 orig nodes h = (Err e', h).
Proof. apply CreateUpdatedResource_fails. Qed.
End pkgutil.

(** ** The theorems on a concrete package *)

Definition ex_dir : list string := ["topology"; "crd"].
Definition ex_file : list string := ["tenant.yaml"].

Lemma includeFile_spec_witness :
  (includeFile "topology/tenant.yaml" = true ↔
    (∃ stem, Base "topology/tenant.yaml" = stem +:+ ".yaml" ∧ no_char slash stem = true) ∨
    (∃ stem, Base "topology/tenant.yaml" = stem +:+ ".yml" ∧ no_char slash stem = true) ∨
    Base "topology/tenant.yaml" = "Kptfile") ∧
  includeFile (FJoin [Join ex_dir "/"; Join ex_file "/"]) = includeFile (Join ex_file "/").
Proof.
  destruct (includeFile_spec "topology/tenant.yaml" ex_dir ex_file) as [H1 H2].
  split; [exact H1|]. apply H2; [discriminate|discriminate|..];
    apply (bool_decide_unpack _); vm_compute; exact I.
Defined.

Definition doc_at (name path : string) : toy_doc := ToyDoc "ConfigMap" name "" [(path_key, path)] [].
Definition ex_store : list (@RNode toy_types) :=
  [doc_at "a" "a.yaml"; doc_at "b" "b.yaml"; doc_at "c" "a.yaml"].
Definition ex_res : gmap string (list nat) := {["app" := [0; 1]; "namespace" := [2]]}.
Definition ex_kptfile : toy_doc :=
  match td_parse (kptfile_text "pkg") with inr d => d | inl _ => td_empty end.

Lemma ex_annotatable : annotatable ex_store (all_nodes ex_res).
Proof. vm_compute. repeat constructor; eexists; split; try reflexivity. Qed.

Lemma MergePackages_spec_witness :
  ∃ rs h', MergePackages mo_rev "pkg" ex_res ex_store = (Ok (3 :: rs), h') ∧
    rs ≡ₚ all_nodes ex_res ∧ h' !! 3 = Some ex_kptfile ∧
    (∀ s ls l n, ex_res !! s = Some ls → l ∈ ls → ex_store !! l = Some n →
      ∃ n', h' !! l = Some n' ∧
        rn_GetAnnotations n' =
          <[path_annotation :=
              FJoin [s; default "" (rn_GetAnnotations n !! path_annotation)]]>
            (rn_GetAnnotations n)) ∧
    (∀ l, l < 3 → l ∉ all_nodes ex_res → h' !! l = ex_store !! l)%nat.
Proof.
  apply (MergePackages_spec mo_rev "pkg" ex_res ex_store ex_kptfile).
  - vm_compute. reflexivity.
  - apply (bool_decide_unpack _). vm_compute. exact I.
  - exact ex_annotatable.
Defined.

Lemma doc_at_krm name e : plain_elem e → includeFile e = true → in_krm_file (doc_at name e).
Proof.
  intros He Hi. exists [e]. split_and!; [done|by constructor|done|].
  apply lookup_insert_eq.
Qed.

Lemma ex_in_krm_file s ls l n :
  ex_res !! s = Some ls → l ∈ ls → ex_store !! l = Some n → plain_elem s ∧ in_krm_file n.
Proof.
  assert (Forall (@in_krm_file toy_types toy_ops) ex_store) as H.
  { repeat constructor; apply doc_at_krm;
      (reflexivity || (apply (bool_decide_unpack _); vm_compute; exact I)). }
  intros Hs Hl Hn. split; [|rewrite Forall_forall in H; by eapply H, list_elem_of_lookup_2].
  unfold ex_res in Hs. apply lookup_insert_Some in Hs as [[<- _]|[_ [<- _]%lookup_singleton_Some]];
    apply (bool_decide_unpack _); vm_compute; exact I.
Qed.

Lemma MergePackages_krm_witness :
  ∃ rs h' ns, MergePackages mo_rev "pkg" ex_res ex_store = (Ok rs, h') ∧
    Forall2 (λ l n, h' !! l = Some n) rs ns ∧
    Forall (λ n, includeFile (getPath n) = true) ns.
Proof.
  apply (MergePackages_krm mo_rev "pkg" ex_res ex_store ex_kptfile).
  - vm_compute. reflexivity.
  - vm_compute. reflexivity.
  - apply (bool_decide_unpack _). vm_compute. exact I.
  - exact ex_annotatable.
  - exact ex_in_krm_file.
Defined.

Lemma MergePackages_order_witness :
  ∃ rs1 rs2 h', MergePackages mo_id "pkg" ex_res ex_store = (Ok rs1, h') ∧
    MergePackages mo_rev "pkg" ex_res ex_store = (Ok rs2, h') ∧ rs1 ≡ₚ rs2.
Proof.
  apply (MergePackages_order mo_id mo_rev "pkg" ex_res ex_store ex_kptfile).
  - vm_compute. reflexivity.
  - apply (bool_decide_unpack _). vm_compute. exact I.
  - exact ex_annotatable.
Defined.

Definition ex_orig : gmap string string :=
  {["README.md" := "read me"; "old.yaml" := "gone"; "a.yaml" := "old"]}.

Definition ex_text (k : string) : string :=
  match toy_write kio_writer (nodes_at k ex_store) with inr t => t | inl _ => "" end.

Lemma CreateUpdatedResource_spec_witness :
  ∃ m, CreateUpdatedResource mo_id mo_rev ex_orig [0; 1; 2] ex_store = (Ok m, ex_store) ∧
    ∀ k, m !! k =
      if decide (nodes_at k ex_store = []) then
        if includeFile k then None else ex_orig !! k
      else Some (ex_text k).
Proof.
  apply (CreateUpdatedResource_spec mo_id mo_rev ex_orig [0; 1; 2] ex_store ex_text ex_store).
  - repeat constructor.
  - intros k _. unfold group_text, ex_text.
    assert (existsb (λ d, String.eqb (td_kind d) "!") (nodes_at k ex_store) = false) as Hk.
    { unfold nodes_at, ex_store. repeat (rewrite filter_cons; destruct (decide _)); reflexivity. }
    simpl. unfold toy_write. by rewrite Hk.
Defined.

Definition ex_bad_store : list (@RNode toy_types) :=
  (ex_store ++ [ToyDoc "!" "x" "" [] []])%list.

Lemma CreateUpdatedResource_error_witness :
  ∃ e', CreateUpdatedResource mo_id mo_id ex_orig [0; 3] ex_bad_store = (Err e', ex_bad_store).
Proof.
  apply (CreateUpdatedResource_error mo_id mo_id ex_orig [0; 3]
    ([doc_at "a" "a.yaml"; ToyDoc "!" "x" "" [] []] : list (@RNode toy_types)) "x.yaml"
    (ToyError false "cannot encode")).
  - repeat constructor.
  - vm_compute. discriminate.
  - vm_compute. reflexivity.
Defined.
