(* ===== verification/Services.v ===== *)
(** * The services the controller calls

    The requests of the controller to the Kubernetes API server of the tenants,
    to the Porch API server (through the controller-runtime client and through
    the REST client), to the finalizer and event helpers, and the choice of a map
    iteration order.  An object a call fills or refreshes is part of its
    response, since the client writes it whether the call fails or not. *)

From stdpp Require Import base tactics list gmap strings.
From S2P Require Import Prelude.
From S2P Require Import GoStrings.
From S2P Require Import Effects.
From S2P Require Import Deps.
From S2P Require Import Api.
From S2P Require Import Toy.

Section services.
Context {ET : ExtTypes} {EO : ExtOps}.

Inductive op :=
  | OTenantGet (k : ObjectKey)                  (** r.client.Get *)
  | OStatusUpdate (cr : Tenant)                 (** r.client.Status().Update *)
  | OAddFinalizer (cr : Tenant)
  | ORemoveFinalizer (cr : Tenant)
  | OEvent (cr : Tenant) (err : error)          (** record.Event(cr, Warning) *)
  | OPorchList                                  (** List of package revisions *)
  | OPorchCreate (pr : PackageRevision)
  | OPorchGetRevision (k : ObjectKey)
  | OPorchGetResources (k : ObjectKey)
  | OPorchUpdateRevision (pr : PackageRevision)
  | OPorchUpdateResources (prr : PackageRevisionResources)
  | OPorchDelete (pr : PackageRevision)
  | ORestGet (k : ObjectKey)                    (** GET packagerevisions/name *)
  | ORestPutApproval (pr : PackageRevision)     (** PUT packagerevisions/name/approval *)
  | OMapOrder.

Definition resp (o : op) : Type :=
  match o with
  | OTenantGet _ | OStatusUpdate _ | OAddFinalizer _ | ORemoveFinalizer _ =>
      Tenant * option error
  | OEvent _ _ => ()
  | OPorchList => list PackageRevision * option error
  | OPorchCreate _ | OPorchGetRevision _ | OPorchUpdateRevision _ | ORestGet _ =>
      PackageRevision * option error
  | OPorchGetResources _ | OPorchUpdateResources _ =>
      PackageRevisionResources * option error
  | OPorchDelete _ | ORestPutApproval _ => option error
  | OMapOrder => map_order
  end.

(** ** The store of a reconciliation

    [packageRevision] of pkgrev.go, with its two object pointers; [g_cr] is the
    tenant being reconciled. *)

Record packageRevision := {
  p_namespace : string;
  p_repoName : string;
  p_packageName : string;
  p_pr : option PackageRevision;
  p_prr : option PackageRevisionResources }.

Record gstate := { g_heap : heap; g_pkg : packageRevision; g_cr : Tenant }.

Definition set_heap (h : heap) (s : gstate) : gstate :=
  {| g_heap := h; g_pkg := g_pkg s; g_cr := g_cr s |}.
Definition set_pkg (p : packageRevision) (s : gstate) : gstate :=
  {| g_heap := g_heap s; g_pkg := p; g_cr := g_cr s |}.
Definition set_cr (cr : Tenant) (s : gstate) : gstate :=
  {| g_heap := g_heap s; g_pkg := g_pkg s; g_cr := cr |}.

Lemma set_heap_id s : set_heap (g_heap s) s = s.
Proof. by destruct s. Qed.

Definition with_pr (pr : PackageRevision) (p : packageRevision) : packageRevision :=
  {| p_namespace := p_namespace p; p_repoName := p_repoName p;
     p_packageName := p_packageName p; p_pr := Some pr; p_prr := p_prr p |}.
Definition with_prr (prr : PackageRevisionResources) (p : packageRevision) : packageRevision :=
  {| p_namespace := p_namespace p; p_repoName := p_repoName p;
     p_packageName := p_packageName p; p_pr := p_pr p; p_prr := Some prr |}.

Abbreviation GM := (M resp error gstate).

Definition on_heap {A} (m : St error heap A) : GM A := m_zoom g_heap set_heap m.
Definition get_pkg : GM packageRevision := s ← m_get; mret (g_pkg s).
Definition get_cr : GM Tenant := s ← m_get; mret (g_cr s).
Definition put_pr (pr : PackageRevision) : GM () := m_modify (λ s, set_pkg (with_pr pr (g_pkg s)) s).
Definition put_prr (prr : PackageRevisionResources) : GM () :=
  m_modify (λ s, set_pkg (with_prr prr (g_pkg s)) s).
Definition put_cr (cr : Tenant) : GM () := m_modify (set_cr cr).

(** [r.pr] and [r.prr], dereferenced. *)
Definition the_pr : GM PackageRevision := p ← get_pkg; m_deref (p_pr p).
Definition the_prr : GM PackageRevisionResources := p ← get_pkg; m_deref (p_prr p).

(** [if err != nil { if client.IgnoreNotFound(err) != nil { ... err } }]: the
    error that is acted on. *)
Definition list_error (err : option error) : option error :=
  match err with
  | None => None
  | Some e => match client_IgnoreNotFound (Some e) with Some _ => Some e | None => None end
  end.

(** ** Symbolic execution of the accessors *)

Lemma traced_get_pkg s tr (Q : list (entry resp) → outcome error packageRevision → gstate → Prop) :
  Q tr (Ok (g_pkg s)) s → traced get_pkg s tr Q.
Proof. done. Qed.

Lemma traced_get_cr s tr (Q : list (entry resp) → outcome error Tenant → gstate → Prop) :
  Q tr (Ok (g_cr s)) s → traced get_cr s tr Q.
Proof. done. Qed.

Lemma traced_the_pr s tr (Q : list (entry resp) → outcome error PackageRevision → gstate → Prop) :
  Q tr (of_option NilDeref (p_pr (g_pkg s))) s → traced the_pr s tr Q.
Proof. done. Qed.

Lemma traced_the_prr s tr
    (Q : list (entry resp) → outcome error PackageRevisionResources → gstate → Prop) :
  Q tr (of_option NilDeref (p_prr (g_pkg s))) s → traced the_prr s tr Q.
Proof. done. Qed.

Lemma traced_check e s tr (Q : list (entry resp) → outcome error () → gstate → Prop) :
  match e with None => Q tr (Ok ()) s | Some e => Q tr (Err e) s end → traced (m_check e) s tr Q.
Proof. by destruct e. Qed.

Lemma traced_on_heap {A} (m : St error heap A) s tr
    (Q : list (entry resp) → outcome error A → gstate → Prop) :
  Q tr (m (g_heap s)).1 (set_heap (m (g_heap s)).2 s) → traced (on_heap m) s tr Q.
Proof.
  unfold traced, on_heap. intros HQ. apply wp_zoom. intros o t Hm. by rewrite Hm in HQ.
Qed.
(** Two computations on the documents are one. *)
Lemma on_heap_bind {A B} (m : St error heap A) (k : A → St error heap B) s tr0
    (Q : list (entry resp) → outcome error B → gstate → Prop) :
  traced (on_heap (m ≫= k)) s tr0 Q → traced (on_heap m ≫= λ a, on_heap (k a)) s tr0 Q.
Proof.
  assert (on_heap (m ≫= k) s = (on_heap m ≫= λ a, on_heap (k a)) s) as E; [|by unfold traced, wp; rewrite E].
  unfold on_heap, m_zoom, mbind, M_bind, St_bind.
  destruct (m (g_heap s)) as [[a|e|f] h]; simpl; [|done..]. by destruct (k a h).
Qed.
End services.

(** [svc_step] extends [traced_step] to the accessors of the store. *)
Ltac svc_step :=
  lazymatch goal with
  | |- traced get_pkg _ _ _ => apply traced_get_pkg
  | |- traced get_cr _ _ _ => apply traced_get_cr
  | |- traced the_pr _ _ _ => apply traced_the_pr
  | |- traced the_prr _ _ _ => apply traced_the_prr
  | |- traced (m_check _) _ _ _ => apply traced_check
  | |- traced (on_heap _) _ _ _ => apply traced_on_heap
  | |- traced (m_iter _ _) _ _ _ => fail
  | |- traced (call ?o) ?s ?tr ?Q =>
      let r := fresh "r" in
      refine (traced_call o s tr Q _); intros r; simpl in r;
      lazymatch type of r with prod _ _ => destruct r | _ => idtac end
  | |- on_ok _ _ _ (of_option _ ?x) _ => destruct x eqn:?
  | |- match ?x with _ => _ end => destruct x eqn:?
  | _ => traced_step
  end; cbn [on_ok of_option fst snd].

Abbreviation GM := (M resp error gstate).
