(* ===== verification/ToyServer.v ===== *)
(** * A small API server

    An environment in which the programs of [Services] run: it holds tenants,
    package revisions and their resources, gives created revisions a fresh name
    and the Draft lifecycle, and can be told to refuse chosen requests.  The
    witnesses of the theorems about all behaviours run against it. *)

From stdpp Require Import base tactics list gmap strings.
From S2P Require Import Prelude.
From S2P Require Import GoStrings.
From S2P Require Import Effects.
From S2P Require Import Deps.
From S2P Require Import Api.
From S2P Require Import Toy.
From S2P Require Import Services.

Local Open Scope string_scope.

Abbreviation toy_resp := (@resp toy_types).

Record world := World {
  w_tenants : list (@Tenant toy_types);
  w_prs : list (@PackageRevision toy_types);
  w_resources : list (@PackageRevisionResources toy_types);
  w_fresh : Z;
  (** The errors of the coming requests; [None] for a request that works. *)
  w_faults : list (option toy_error) }.

Definition upd {A} (key : A → string) (a : A) (l : list A) : list A :=
  (λ b, if String.eqb (key b) (key a) then a else b) <$> l.
Definition del {A} (key : A → string) (k : string) (l : list A) : list A :=
  filter (λ b, key b ≠ k) l.
Definition lookup_key {A} (key : A → string) (k : string) (l : list A) : option A :=
  find (λ b, String.eqb (key b) k) l.

Definition prr_name (prr : @PackageRevisionResources toy_types) : string :=
  om_Name (prr_ObjectMeta prr).

Definition not_found : toy_error := ToyError true "not found".

Definition with_tenants ts w := World ts (w_prs w) (w_resources w) (w_fresh w) (w_faults w).
Definition with_prs ps w := World (w_tenants w) ps (w_resources w) (w_fresh w) (w_faults w).
Definition with_resources rs w := World (w_tenants w) (w_prs w) rs (w_fresh w) (w_faults w).

Definition toy_meta (name : string) : @ObjectMeta toy_types := {|
  om_Name := name; om_Namespace := "default"; om_Annotations := ∅; om_Finalizers := [];
  om_DeletionTimestamp := None; om_OwnerReferences := [] |}.

Definition toy_cr (m : @ObjectMeta toy_types) (p : option TenantProperties) :
    @Tenant toy_types := {|
  t_ObjectMeta := m;
  t_Spec := {|
    ts_ResourceSpec := @Build_ResourceSpec toy_types "active" "delete" None;
    ts_Properties := p |};
  t_Status := {|
    tst_ResourceStatus := @Build_ResourceStatus toy_types [] () [];
    tst_Namespace := "" |} |}.

Definition toy_prr (name : string) (m : gmap string string) :
    @PackageRevisionResources toy_types :=
  {| prr_ObjectMeta := toy_meta name; prr_Resources := m |}.

Definition toy_pr (name package revision lifecycle : string) : @PackageRevision toy_types := {|
  pr_TypeMeta := zero_TypeMeta;
  pr_ObjectMeta := toy_meta name;
  pr_Spec := {| prs_PackageName := package; prs_Revision := revision;
                prs_RepositoryName := "repo"; prs_Lifecycle := lifecycle; prs_Tasks := [] |} |}.

Definition set_meta (f : @ObjectMeta toy_types → @ObjectMeta toy_types) (t : @Tenant toy_types) :
    @Tenant toy_types :=
  {| t_ObjectMeta := f (t_ObjectMeta t); t_Spec := t_Spec t; t_Status := t_Status t |}.

Definition set_finalizers (l : list string) (m : @ObjectMeta toy_types) : @ObjectMeta toy_types :=
  {| om_Name := om_Name m; om_Namespace := om_Namespace m; om_Annotations := om_Annotations m;
     om_Finalizers := l; om_DeletionTimestamp := om_DeletionTimestamp m;
     om_OwnerReferences := om_OwnerReferences m |}.

Definition created (n : Z) (pr : @PackageRevision toy_types) : @PackageRevision toy_types := {|
  pr_TypeMeta := pr_TypeMeta pr;
  pr_ObjectMeta := toy_meta ("pr-" +:+ Itoa n);
  pr_Spec := pr_Spec (set_Lifecycle "Draft" pr) |}.

Definition reply_with {A} (o : option A) (d : A) : A * option toy_error :=
  match o with Some a => (a, None) | None => (d, Some not_found) end.

(** What the server does when it accepts a request. *)
Definition accept (o : @op toy_types) : world → toy_resp o * world :=
  match o return world → toy_resp o * world with
  | OTenantGet k => λ w,
      (reply_with (lookup_key t_GetName (key_Name k) (w_tenants w)) (toy_cr (toy_meta "") None), w)
  | OStatusUpdate cr => λ w, ((cr, None), with_tenants (upd t_GetName cr (w_tenants w)) w)
  | OAddFinalizer cr => λ w,
      let cr' := set_meta (set_finalizers ["admin.yndd.io/finalizer"]) cr in
      ((cr', None), with_tenants (upd t_GetName cr' (w_tenants w)) w)
  | ORemoveFinalizer cr => λ w,
      let cr' := set_meta (set_finalizers []) cr in
      ((cr', None), with_tenants (del t_GetName (t_GetName cr) (w_tenants w)) w)
  | OEvent _ _ => λ w, ((), w)
  | OPorchList => λ w, ((w_prs w, None), w)
  | OPorchCreate pr => λ w,
      let pr' := created (w_fresh w) pr in
      ((pr', None),
       World (w_tenants w) (w_prs w ++ [pr'])
         (w_resources w ++ [toy_prr (pr_Name pr') {["README.md" := "# package"]}])
         (w_fresh w + 1) (w_faults w))
  | OPorchGetRevision k | ORestGet k => λ w,
      (reply_with (lookup_key pr_Name (key_Name k) (w_prs w)) zero_PackageRevision, w)
  | OPorchGetResources k => λ w,
      (reply_with (lookup_key prr_name (key_Name k) (w_resources w)) (toy_prr "" ∅), w)
  | OPorchUpdateRevision pr => λ w, ((pr, None), with_prs (upd pr_Name pr (w_prs w)) w)
  | OPorchUpdateResources prr => λ w,
      ((prr, None), with_resources (upd prr_name prr (w_resources w)) w)
  | OPorchDelete pr => λ w, (None, with_prs (del pr_Name (pr_Name pr) (w_prs w)) w)
  | ORestPutApproval pr => λ w, (None, with_prs (upd pr_Name pr (w_prs w)) w)
  | OMapOrder => λ w, (mo_id, w)
  end.

(** What it answers when it refuses one. *)
Definition refuse (o : @op toy_types) (e : toy_error) : toy_resp o :=
  match o return toy_resp o with
  | OTenantGet _ => (toy_cr (toy_meta "") None, Some e)
  | OStatusUpdate cr | OAddFinalizer cr | ORemoveFinalizer cr => (cr, Some e)
  | OEvent _ _ => ()
  | OPorchList => ([], Some e)
  | OPorchCreate pr | OPorchUpdateRevision pr => (pr, Some e)
  | OPorchGetRevision _ | ORestGet _ => (zero_PackageRevision, Some e)
  | OPorchGetResources _ => (toy_prr "" ∅, Some e)
  | OPorchUpdateResources prr => (prr, Some e)
  | OPorchDelete _ | ORestPutApproval _ => Some e
  | OMapOrder => mo_id
  end.

Definition next_fault (w : world) : option toy_error * world :=
  match w_faults w with
  | [] => (None, w)
  | f :: fs => (f, World (w_tenants w) (w_prs w) (w_resources w) (w_fresh w) fs)
  end.

Definition server (o : @op toy_types) (w : world) : toy_resp o * world :=
  match next_fault w with
  | (None, w') => accept o w'
  | (Some e, w') => (refuse o e, w')
  end.

(** One run of a program of the development. *)
Definition serve {A} (m : M toy_resp (@error toy_types) (@gstate toy_types) A)
    (s : @gstate toy_types) (w : world) :
    outcome (@error toy_types) A * @gstate toy_types * list (entry toy_resp) * world :=
  run server (m s) w.

(** What a run shows: the outcome, the exchanges and the two states. *)
Definition outcome_of {A} (m : M toy_resp (@error toy_types) (@gstate toy_types) A) s w :=
  (serve m s w).1.1.1.
Definition state_of {A} (m : M toy_resp (@error toy_types) (@gstate toy_types) A) s w :=
  (serve m s w).1.1.2.
Definition exchanges_of {A} (m : M toy_resp (@error toy_types) (@gstate toy_types) A) s w :=
  (serve m s w).1.2.
Definition world_of {A} (m : M toy_resp (@error toy_types) (@gstate toy_types) A) s w :=
  (serve m s w).2.

Lemma serve_exec {A} (m : M toy_resp (@error toy_types) (@gstate toy_types) A) s w :
  exec (m s) (exchanges_of m s w) (outcome_of m s w, state_of m s w).
Proof.
  unfold exchanges_of, outcome_of, state_of, serve.
  destruct (run server (m s) w) as [[[o s'] tr] w'] eqn:E. by eapply run_exec.
Qed.

(** The same, with the outcome of the run evaluated. *)
Lemma serve_exec_to {A} (m : M toy_resp (@error toy_types) (@gstate toy_types) A) s w o :
  outcome_of m s w = o → exec (m s) (exchanges_of m s w) (o, state_of m s w).
Proof. intros <-. apply serve_exec. Qed.

Definition requests (tr : list (entry toy_resp)) : list (@op toy_types) := projT1 <$> tr.

Definition start (p : packageRevision) (cr : @Tenant toy_types) : @gstate toy_types :=
  {| g_heap := []; g_pkg := p; g_cr := cr |}.
