(* ===== verification/Porch.v ===== *)
(** * Porch lookups (pkg/porch/porch.go)

    The operations on the Porch API the reconciler uses to find the source
    package of a tenant.  The struct [porch] only holds the two clients; what
    they do are the requests of [Services]. *)

From stdpp Require Import base tactics list gmap strings.
From S2P Require Import Prelude.
From S2P Require Import GoStrings.
From S2P Require Import Effects.
From S2P Require Import Deps.
From S2P Require Import Api.
From S2P Require Import Toy.
From S2P Require Import Services.
From S2P Require Import ToyServer.

Local Open Scope string_scope.

(** ** The struct

    The object keeps the two clients of the process and hands them to
    [pkgrev]; the logger is left out. *)
Section clients.
Context {Client RESTClient : Type}.

(** [porch.Porch], the arguments of [New]. *)
Record Porch := { PorchClient : Client; PorchRESTClient : RESTClient }.

Record porch := { porchClient : Client; porchRESTClient : RESTClient }.

Definition New_porch (p : Porch) : porch := {|
  porchClient := PorchClient p;
  porchRESTClient := PorchRESTClient p |}.

Definition GetClient (r : porch) : Client := porchClient r.
Definition GetRestClient (r : porch) : RESTClient := porchRESTClient r.

End clients.

Section porch.
Context {ET : ExtTypes} {EO : ExtOps}.

(** The reference built from a listed package revision. *)
Definition reference_of (pr : PackageRevision) : PackageRevisionReference := {|
  ref_Namespace := "";
  ref_RepositoryName := prs_RepositoryName (pr_Spec pr);
  ref_PackageName := pr_PackageName pr;
  ref_Revision := pr_Revision pr |}.

Definition GetPackageRevision (pkgRef : PackageRevisionReference) : GM PackageRevision :=
  r ← call OPorchList;
  match list_error r.2 with
  | Some e => m_err (fmt_Errorf ("cannot list package revisions, error: " +:+ error_Error e))
  | None =>
      match list_find (λ pr, IsFound (reference_of pr) (Some pkgRef) = true) r.1 with
      | Some (_, pr) => mret pr
      | None => m_err (fmt_Errorf "package reference not found")
      end
  end.

Definition GetPackageRevisionResources (prName : string) : GM (option PackageRevisionResources) :=
  r ← call (OPorchGetResources (Key "default" prName));
  _ ← m_check r.2;
  mret (Some r.1).

(** What it means for a reference to name a revision: the repository, package and
    revision it gives are those of the revision; one it leaves empty may be any. *)
Definition refers_to (ref : PackageRevisionReference) (pr : PackageRevision) : Prop :=
  field_matches (ref_RepositoryName ref) (prs_RepositoryName (pr_Spec pr)) ∧
  field_matches (ref_PackageName ref) (pr_PackageName pr) ∧
  field_matches (ref_Revision ref) (pr_Revision pr).

Lemma refers_to_iff ref pr : IsFound (reference_of pr) (Some ref) = true ↔ refers_to ref pr.
Proof. apply IsFound_iff. Qed.

(** [pr] is the first of [items] that the reference names. *)
Definition first_referred (ref : PackageRevisionReference) (items : list PackageRevision)
    (pr : PackageRevision) : Prop :=
  ∃ before after, items = (before ++ pr :: after)%list ∧
    refers_to ref pr ∧ Forall (λ pr', ¬ refers_to ref pr') before.

Lemma find_first_referred ref items i pr :
  list_find (λ pr, IsFound (reference_of pr) (Some ref) = true) items = Some (i, pr) →
  first_referred ref items pr.
Proof.
  intros (Hi & Hp & Hb)%list_find_Some. exists (take i items), (drop (S i) items).
  split_and!; [by rewrite take_drop_middle|by apply refers_to_iff|].
  apply Forall_forall. intros pr' (j & Hj)%list_elem_of_lookup.
  apply lookup_take_Some in Hj as [Hj Hlt]. rewrite <-refers_to_iff. by apply (Hb j).
Qed.

(** ** Properties *)

(** C28: On every behaviour of the server, [GetPackageRevision] lists the
    package revisions once and returns the first one that has the repository, the
    package name and the revision the reference gives, where an empty field of the
    reference may be anything; it is an error when there is none, or the listing
    failed other than by NotFound.  The namespace, of the reference or of the
    revision, plays no role. *)
Theorem GetPackageRevision_spec (pkgRef : PackageRevisionReference) (s s' : gstate) tr o :
  exec (GetPackageRevision pkgRef s) tr (o, s') →
  s' = s ∧ ∃ items err, tr = [reply (resp:=resp) OPorchList (items, err)] ∧
  match o with
  | Ok pr => list_error err = None ∧ first_referred pkgRef items pr
  | Err _ => is_Some (list_error err) ∨ Forall (λ pr', ¬ refers_to pkgRef pr') items
  | Panic _ => False
  end.
Proof.
  intros H. by_traced H.
  unfold GetPackageRevision.
  repeat svc_step; (split; [done|]); eexists _, _; (split; [reflexivity|]).
  - left. cbn [fst snd] in *. simplify_eq. by eexists.
  - split; [done|]. by eapply find_first_referred.
  - right. match goal with Hf : list_find _ _ = None |- _ => apply list_find_None in Hf;
      eapply Forall_impl; [exact Hf|] end.
    intros pr' Hp. by rewrite <-refers_to_iff.
Qed.
End porch.

(** ** A lookup in the toy server *)

Definition ex_porch : world := World []
  [toy_pr "p1" "nginx" "v1" "Published"; toy_pr "p2" "nginx" "v2" "Published"] [] 1 [].
Definition ex_ref : PackageRevisionReference :=
  {| ref_Namespace := "other"; ref_RepositoryName := "repo"; ref_PackageName := "nginx";
     ref_Revision := "v2" |}.
Definition ex_start : @gstate toy_types :=
  start {| p_namespace := "default"; p_repoName := "repo"; p_packageName := "x";
           p_pr := None; p_prr := None |} (toy_cr (toy_meta "t") None).

Lemma GetPackageRevision_spec_witness :
  ex_start = ex_start ∧ ∃ items err,
  exchanges_of (GetPackageRevision ex_ref) ex_start ex_porch =
    [reply (resp:=toy_resp) OPorchList (items, err)] ∧
  list_error err = None ∧
  first_referred ex_ref items (toy_pr "p2" "nginx" "v2" "Published").
Proof. exact (GetPackageRevision_spec ex_ref _ _ _ _ (serve_exec _ ex_start ex_porch)). Defined.
