(* ===== verification/PkgRev.v ===== *)
(** * Package revisions (pkg/pkgrev: pkgrev.go, util.go, packagerevision.go)

    The object the reconciler drives: it selects or creates the package revision
    of a tenant in Porch, reads and writes its resources, moves it through its
    lifecycle and deletes it.  Its state is [g_pkg] of the store. *)

From stdpp Require Import base tactics list gmap strings.
From S2P Require Import Prelude.
From S2P Require Import GoStrings.
From S2P Require Import Effects.
From S2P Require Import Deps.
From S2P Require Import Api.
From S2P Require Import Toy.
From S2P Require Import Services.
From S2P Require Import ToyServer.
From S2P Require Import Revision.
From S2P Require Import AppResource.
From S2P Require Import PkgUtil.

Local Open Scope string_scope.

Section pkgrev.
Context {ET : ExtTypes} {EO : ExtOps}.

(** ** packagerevision.go *)

Definition buildPackageRevision (namespace repositoryRef packageName revision : string)
    (mr : Tenant) : PackageRevision := {|
  pr_TypeMeta := {| tm_Kind := "PackageRevision"; tm_APIVersion := porchv1alpha1_Identifier |};
  pr_ObjectMeta := {|
    om_Name := "";
    om_Namespace := namespace;
    om_Annotations := ∅;
    om_Finalizers := [];
    om_DeletionTimestamp := None;
    om_OwnerReferences :=
      [meta_AsController (meta_TypedReferenceTo (t_ObjectMeta mr) TenantGroupVersionKind)] |};
  pr_Spec := {|
    prs_PackageName := packageName;
    prs_Revision := revision;
    prs_RepositoryName := repositoryRef;
    prs_Lifecycle := "";
    prs_Tasks := [ {| task_Type := TaskTypeInit; task_Init_Description := packageName |} ] |} |}.

(** ** pkgrev.go *)

(** [pkgrev.New]. *)
Definition New_packageRevision (namespace repoName packageName : string) : packageRevision := {|
  p_namespace := namespace; p_repoName := repoName; p_packageName := packageName;
  p_pr := None; p_prr := None |}.

Definition pr_key (pr : PackageRevision) : ObjectKey := Key (pr_Namespace pr) (pr_Name pr).

Definition getPackageRevisionResources : GM () :=
  pr ← the_pr;
  r ← call (OPorchGetResources (pr_key pr));
  _ ← m_check r.2;
  put_prr r.1.

(** The tail that [Create] and [GetOrCreate] share: create the object in Porch,
    keep what the server returned, and load its resources. *)
Definition create_revision (pr : PackageRevision) : GM () :=
  r ← call (OPorchCreate pr);
  _ ← m_check r.2;
  _ ← put_pr r.1;
  getPackageRevisionResources.

Definition Create (mr : Tenant) : GM () :=
  p ← get_pkg;
  cur ← the_pr;
  create_revision (buildPackageRevision (p_namespace p) (p_repoName p) (p_packageName p)
                     (getNewRevision (pr_Revision cur)) mr).

(** The items of a list of package revisions that belong to the package. *)
Definition matching (packageName : string) (items : list PackageRevision) : list PackageRevision :=
  filter (λ pr, pr_PackageName pr = packageName) items.

Definition Delete : GM () :=
  p ← get_pkg;
  r ← call OPorchList;
  match list_error r.2 with
  | Some e => m_err e
  | None => m_iter (λ pr, e ← call (OPorchDelete pr); m_check e) (matching (p_packageName p) r.1)
  end.

(** The loop that keeps the revision with the largest number. *)
Definition select_step (acc : PackageRevision * Z) (pr : PackageRevision) : PackageRevision * Z :=
  let '(lastPr, lastrevision) := acc in
  if (lastrevision <? getRevisionNumber (pr_Revision pr))%Z
  then (pr, getRevisionNumber (pr_Revision pr))
  else (lastPr, lastrevision).

Definition select_latest (pl : list PackageRevision) : PackageRevision * Z :=
  foldl select_step (zero_PackageRevision, 0%Z) pl.

Definition GetOrCreate (mr : Tenant) : GM () :=
  p ← get_pkg;
  r ← call OPorchList;
  match list_error r.2 with
  | Some e => m_err e
  | None =>
      let lastPr := (select_latest (matching (p_packageName p) r.1)).1 in
      if String.eqb (pr_Name lastPr) "" then
        create_revision (buildPackageRevision (p_namespace p) (p_repoName p)
                           (p_packageName p) "v1" mr)
      else
        _ ← put_pr lastPr;
        getPackageRevisionResources
  end.

Definition GetResources : GM resources :=
  prr ← the_prr;
  o ← call OMapOrder;
  nodes ← on_heap (ResourcesToPackageBuffer o (prr_Resources prr));
  mret (foldl Add New nodes).

Definition GetLifecycle : GM string := pr ← the_pr; mret (pr_Lifecycle pr).

Definition Update (res : resources) : GM () :=
  prr ← the_prr;
  o1 ← call OMapOrder;
  o2 ← call OMapOrder;
  newResources ← on_heap (CreateUpdatedResource o1 o2 (prr_Resources prr) (Get res));
  _ ← put_prr (set_Resources newResources prr);
  r ← call (OPorchUpdateResources (set_Resources newResources prr));
  _ ← put_prr r.1;
  m_check r.2.

(** [r.Get()]. *)
Definition Get_pr : GM (option PackageRevision) := p ← get_pkg; mret (p_pr p).

(** ** util.go *)

Definition updatePackageRevisionApproval (key : ObjectKey) (new : string) : GM () :=
  _ ← m_check porchv1alpha1_AddToScheme;
  r ← call (ORestGet key);
  _ ← m_check r.2;
  let lifecycle := pr_Lifecycle r.1 in
  if String.eqb lifecycle LifecycleProposed then
    e ← call (ORestPutApproval (set_Lifecycle new r.1));
    m_check e
  else if String.eqb lifecycle new then mret ()
  else m_err (fmt_Errorf ("cannot change approval from " +:+ lifecycle +:+ " to " +:+ new)).

Definition Approve : GM () :=
  lifecycle ← GetLifecycle;
  if String.eqb lifecycle LifecycleDraft then
    pr ← the_pr;
    r ← call (OPorchGetRevision (pr_key pr));
    _ ← put_pr r.1;
    _ ← m_check r.2;
    let pr' := set_Lifecycle LifecycleProposed r.1 in
    _ ← put_pr pr';
    u ← call (OPorchUpdateRevision pr');
    _ ← put_pr u.1;
    _ ← m_check u.2;
    updatePackageRevisionApproval (pr_key u.1) LifecyclePublished
  else if String.eqb lifecycle LifecycleProposed then
    pr ← the_pr;
    updatePackageRevisionApproval (pr_key pr) LifecyclePublished
  else if String.eqb lifecycle LifecyclePublished then mret ()
  else m_err (fmt_Errorf ("unknown lifecycle status: " +:+ lifecycle)).

(** ** Selecting the latest revision *)

Abbreviation num pr := (getRevisionNumber (pr_Revision pr)).

(** [pr] is the first of the revisions with the largest number, above zero. *)
Definition first_latest (pl : list PackageRevision) (pr : PackageRevision) : Prop :=
  ∃ before after, pl = (before ++ pr :: after)%list ∧ (0 < num pr)%Z ∧
    Forall (λ pr', num pr' < num pr)%Z before ∧ Forall (λ pr', num pr' ≤ num pr)%Z after.

Lemma select_latest_cases pl :
  (select_latest pl = (zero_PackageRevision, 0%Z) ∧ Forall (λ pr, num pr = 0%Z) pl) ∨
  ∃ pr, select_latest pl = (pr, num pr) ∧ first_latest pl pr.
Proof.
  unfold select_latest. induction pl as [|pr pl IH] using rev_ind; [by left|].
  pose proof (getRevisionNumber_range (pr_Revision pr)) as Hr. rewrite foldl_app. simpl.
  destruct IH as [[-> H0]|(last & -> & before & after & -> & Hpos & Hb & Ha)];
    unfold select_step; case_match eqn:Hlt; rewrite ?Z.ltb_lt, ?Z.ltb_ge in Hlt.
  - right. exists pr. split; [done|]. exists pl, []. split_and!; [done|done| |done].
    eapply Forall_impl; [exact H0|]. simpl. intros ? ->. done.
  - left. split; [done|]. apply Forall_app; split; [done|]. apply Forall_singleton. lia.
  - right. exists pr. split; [done|]. exists (before ++ last :: after)%list, [].
    split_and!; [done|lia| |done]. apply Forall_app; split; [|constructor; [done|]];
      (eapply Forall_impl; [eassumption|]; simpl; intros; lia).
  - right. exists last. split; [done|]. exists before, (after ++ [pr])%list.
    rewrite <-(assoc_L (++)%list). split_and!; [done..|].
    apply Forall_app; split; [done|]. by apply Forall_singleton.
Qed.

Lemma first_latest_max pl pr pr' : first_latest pl pr → pr' ∈ pl → (num pr' ≤ num pr)%Z.
Proof.
  intros (before & after & -> & _ & Hb & Ha) Hin.
  rewrite Forall_forall in Hb, Ha. apply elem_of_app in Hin as [Hin|Hin].
  - specialize (Hb _ Hin). simpl in Hb. lia.
  - apply elem_of_cons in Hin as [->|Hin]; [done|]. by apply Ha.
Qed.

Lemma first_latest_elem pl pr : first_latest pl pr → pr ∈ pl.
Proof. intros (before & after & -> & _). set_solver. Qed.

Lemma first_latest_unique pl pr pr' : first_latest pl pr → first_latest pl pr' → pr = pr'.
Proof.
  intros (b & a & -> & _ & Hb & Ha) (b' & a' & Hpl & _ & Hb' & Ha').
  rewrite Forall_forall in Hb, Ha, Hb', Ha'.
  apply app_eq_inv in Hpl as [(k & -> & Hk)|(k & -> & Hk)];
    (destruct k as [|x k]; injection Hk; [done|intros -> <-]); exfalso.
  - assert (num pr' < num pr)%Z by (apply Hb; set_solver).
    assert (num pr ≤ num pr')%Z by (apply Ha'; set_solver). lia.
  - assert (num pr < num pr')%Z by (apply Hb'; set_solver).
    assert (num pr' ≤ num pr)%Z by (apply Ha; set_solver). lia.
Qed.

Lemma elem_of_matching name items pr :
  pr ∈ matching name items ↔ pr_PackageName pr = name ∧ pr ∈ items.
Proof. unfold matching. by rewrite list_elem_of_filter. Qed.

(** ** Exchanges *)

Abbreviation ex o r := (reply (resp:=resp) o r).

(** The exchanges that delete [prs] without an error. *)
Definition deletions (prs : list PackageRevision) : list (entry resp) :=
  (λ pr, ex (OPorchDelete pr) None) <$> prs.

Lemma delete_loop prs s tr0 (Q : list (entry resp) → outcome error () → gstate → Prop) :
  Q (tr0 ++ deletions prs)%list (Ok ()) s →
  (∀ before pr after e, prs = (before ++ pr :: after)%list →
    Q (tr0 ++ deletions before ++ [ex (OPorchDelete pr) (Some e)])%list (Err e) s) →
  traced (m_iter (λ pr, e ← call (OPorchDelete pr); m_check e) prs) s tr0 Q.
Proof.
  revert tr0. induction prs as [|pr prs IH]; intros tr0 HOk HErr; simpl.
  { eapply traced_pure; [done|]. by rewrite app_nil_r in HOk. }
  do 2 svc_step. svc_step. svc_step. case_match; subst; simpl.
  - by apply (HErr [] pr prs).
  - apply IH.
    + by rewrite <-(assoc_L (++)%list).
    + intros before pr' after e ->. rewrite <-(assoc_L (++)%list).
      by apply (HErr (pr :: before) pr' after).
Qed.

(** What a successful [GetOrCreate] did: it kept a listed revision, or created
    the first one. *)
Definition selected (s : gstate) items err pr prr (tr : list (entry resp)) : Prop :=
  tr = [ex OPorchList (items, err); ex (OPorchGetResources (pr_key pr)) (prr, None)] ∧
  first_latest (matching (p_packageName (g_pkg s)) items) pr ∧ pr_Name pr ≠ "".

Definition first_created (mr : Tenant) (s : gstate) items err pr prr (tr : list (entry resp)) :
    Prop :=
  tr = [ex OPorchList (items, err);
        ex (OPorchCreate (buildPackageRevision (p_namespace (g_pkg s)) (p_repoName (g_pkg s))
             (p_packageName (g_pkg s)) "v1" mr)) (pr, None);
        ex (OPorchGetResources (pr_key pr)) (prr, None)] ∧
  let pl := matching (p_packageName (g_pkg s)) items in
  (Forall (λ pr', num pr' = 0%Z) pl ∨ ∃ last, first_latest pl last ∧ pr_Name last = "").

Lemma GetOrCreate_ok mr s s' tr :
  exec (GetOrCreate mr s) tr (Ok (), s') →
  ∃ items err pr prr, list_error err = None ∧
    s' = set_pkg (with_prr prr (with_pr pr (g_pkg s))) s ∧
    (selected s items err pr prr tr ∨ first_created mr s items err pr prr tr).
Proof.
  intros H. by_traced H.
  unfold GetOrCreate, create_revision, getPackageRevisionResources.
  repeat svc_step; intros ?; simplify_eq/=; eexists _, _, _, _; (split; [done|]); (split; [done|]).
  - right. split; [done|].
    destruct (select_latest_cases (matching (p_packageName (g_pkg s)) l))
      as [[Hs H0]|(last & Hs & Hf)]; rewrite Hs in *; [by left|]. right. exists last.
    split; [done|]. by apply String.eqb_eq.
  - left. destruct (select_latest_cases (matching (p_packageName (g_pkg s)) l))
      as [[Hs H0]|(last & Hs & Hf)]; rewrite Hs in *; [done|].
    split_and!; [done..|]. by apply String.eqb_neq.
Qed.


(** Parts of an exchange. *)
Definition listing (e : entry resp) : option (list PackageRevision * option error) :=
  match e with existT OPorchList r => Some r | _ => None end.
Definition creation (e : entry resp) : option PackageRevision :=
  match e with existT (OPorchCreate pr) _ => Some pr | _ => None end.

Definition update_of (e : entry resp) : option PackageRevision :=
  match e with existT (OPorchUpdateRevision pr) _ => Some pr | _ => None end.
Definition approval_of (e : entry resp) : option PackageRevision :=
  match e with existT (ORestPutApproval pr) _ => Some pr | _ => None end.

Lemma lifecycle_ne `{!LifecycleLaws} :
  LifecycleDraft ≠ LifecycleProposed ∧ LifecycleDraft ≠ LifecyclePublished ∧
  LifecycleProposed ≠ LifecyclePublished.
Proof. pose proof lifecycle_distinct as Hd. rewrite !NoDup_cons in Hd. set_solver. Qed.

Lemma listing_selected mr s items err pr prr tr items' err' :
  selected s items err pr prr tr ∨ first_created mr s items err pr prr tr →
  ex OPorchList (items', err') ∈ tr → items' = items.
Proof.
  intros Htr Hin%(list_elem_of_fmap_2 listing). 
  destruct Htr as [[-> _]|[-> _]]; csimpl in Hin; set_solver.
Qed.

Lemma Create_ok mr cur s s' tr :
  exec (Create mr s) tr (Ok (), s') → p_pr (g_pkg s) = Some cur →
  ∃ pr prr, tr = [ex (OPorchCreate (buildPackageRevision (p_namespace (g_pkg s))
      (p_repoName (g_pkg s)) (p_packageName (g_pkg s)) (getNewRevision (pr_Revision cur)) mr))
      (pr, None); ex (OPorchGetResources (pr_key pr)) (prr, None)] ∧
    s' = set_pkg (with_prr prr (with_pr pr (g_pkg s))) s.
Proof.
  intros H Hcur. by_traced H. unfold Create, create_revision, getPackageRevisionResources.
  repeat svc_step; intros ?; simplify_eq/=; by eexists _, _.
Qed.

Lemma Create_requests mr s cur tr o s' pr r :
  p_pr (g_pkg s) = Some cur → exec (Create mr s) tr (o, s') → ex (OPorchCreate pr) r ∈ tr →
  pr = buildPackageRevision (p_namespace (g_pkg s)) (p_repoName (g_pkg s))
         (p_packageName (g_pkg s)) (getNewRevision (pr_Revision cur)) mr.
Proof.
  intros Hcur H. by_traced H. unfold Create, create_revision, getPackageRevisionResources.
  repeat svc_step; intros Hin%(list_elem_of_fmap_2 creation); csimpl in Hin; try set_solver.
Qed.

(** The exchanges [tr] that come before the approval of [pr], and the key [key]
    under which it is then read: a Proposed revision is read at once; a Draft is
    read again, written as Proposed, and then read as what the server returned. *)
Definition leads_to_approval (pr : PackageRevision) (tr : list (entry resp)) (key : ObjectKey) :
    Prop :=
  (pr_Lifecycle pr = LifecycleProposed ∧ tr = [] ∧ key = pr_key pr) ∨
  (pr_Lifecycle pr = LifecycleDraft ∧ ∃ pr1 pr2,
     tr = [ex (OPorchGetRevision (pr_key pr)) (pr1, None);
           ex (OPorchUpdateRevision (set_Lifecycle LifecycleProposed pr1)) (pr2, None)] ∧
     key = pr_key pr2).

(** The exchanges of an approval that worked. *)
Ltac approved :=
  once ((eexists [], _, _ + eexists [_; _], _, _); (split; [by (left + right); eauto|]);
        (left + right); split; [reflexivity|assumption]).

(** Finds an exchange in a list of exchanges. *)
Ltac find_exchange :=
  repeat first [ apply list_elem_of_here | apply list_elem_of_further ].

(** The cases of a membership in a list of options. *)
Ltac in_cases H :=
  repeat (apply elem_of_cons in H as [H|H]; [simplify_eq|]);
  try (by apply not_elem_of_nil in H).

Lemma Update_ok `{!KioLaws} (res : resources) prr (ns : list RNode)
    (text : string → string) (s s' : gstate) tr o :
  exec (Update res s) tr (o, s') → p_prr (g_pkg s) = Some prr →
  Forall2 (λ l n, g_heap s !! l = Some n) (Get res) ns →
  (∀ k, nodes_at k ns ≠ [] → group_text (nodes_at k ns) (text k)) →
  ∃ o1 o2 m u err,
    tr = [ex OMapOrder o1; ex OMapOrder o2;
          ex (OPorchUpdateResources (set_Resources m prr)) (u, err)] ∧
    (∀ k, m !! k = updated_file (prr_Resources prr) ns text k) ∧
    s' = set_pkg (with_prr u (g_pkg s)) s ∧
    o = match err with None => Ok () | Some e => Err e end.
Proof.
  intros Hex Hprr Hn Ht. by_traced Hex. unfold Update.
  do 3 svc_step; [|congruence]. simplify_eq. repeat (svc_step; [idtac]).
  destruct (CreateUpdatedResource_ok r r0 (prr_Resources prr) (Get res) ns text (g_heap s))
    as (m & -> & Hm); [done..|]. cbn [fst snd]. rewrite set_heap_id.
  repeat svc_step; by eexists _, _, m, _, _.
Qed.

Lemma GetResources_ok (s s' : gstate) tr actual :
  exec (GetResources s) tr (Ok actual, s') →
  ∃ prr o, p_prr (g_pkg s) = Some prr ∧
    ResourcesToPackageBuffer o (prr_Resources prr) (g_heap s) = (Ok actual, g_heap s') ∧
    g_pkg s' = g_pkg s.
Proof.
  intros H. by_traced H. unfold GetResources. repeat svc_step.
  - destruct (ResourcesToPackageBuffer r (prr_Resources p) (g_heap s)) as [[l|e|f] h'] eqn:E;
      simpl; [|done..].
    svc_step. intros [= <-]. exists p, r. rewrite foldl_Add. by split_and!.
  - done.
Qed.

(** ** Properties *)

(** C21: On every behaviour of the server [Delete] lists the package revisions
    once and then deletes exactly those of its package, in the order of the
    list, stopping at the first failure; it returns normally exactly when the
    listing and every deletion succeeded, and never changes the store. *)
Theorem Delete_spec (s s' : gstate) tr o :
  exec (Delete s) tr (o, s') →
  s' = s ∧ ∃ items err dels, tr = ex OPorchList (items, err) :: dels ∧
  let pl := matching (p_packageName (g_pkg s)) items in
  match o with
  | Ok _ => list_error err = None ∧ dels = deletions pl
  | Err e =>
      (list_error err = Some e ∧ dels = []) ∨
      (list_error err = None ∧ ∃ before pr after, pl = (before ++ pr :: after)%list ∧
       dels = (deletions before ++ [ex (OPorchDelete pr) (Some e)])%list)
  | Panic _ => False
  end.
Proof.
  intros H. by_traced H. unfold Delete. repeat svc_step.
  - split; [done|]. eexists _, _, []. split; [done|]. by left.
  - apply delete_loop.
    + split; [done|]. by eexists _, _, _.
    + intros before pr after e Hpl. split; [done|]. eexists _, _, _. split; [done|].
      right. split; [done|]. by exists before, pr, after.
Qed.

(** C18: [GetOrCreate] ends normally with the resources of one revision
    loaded.  Either that revision is the first of the listed revisions of the
    package with the largest number, and no revision was created; or none of
    them has a number (or the latest has no name), and the revision is what the
    server answered to the one creation request, of revision ["v1"]. *)
Theorem GetOrCreate_spec (mr : Tenant) (s s' : gstate) tr :
  exec (GetOrCreate mr s) tr (Ok (), s') →
  ∃ items err pr prr,
    list_error err = None ∧
    s' = set_pkg (with_prr prr (with_pr pr (g_pkg s))) s ∧
    let pl := matching (p_packageName (g_pkg s)) items in
    let list := ex OPorchList (items, err) in
    let load := ex (OPorchGetResources (pr_key pr)) (prr, None) in
    (tr = [list; load] ∧ first_latest pl pr ∧ pr_Name pr ≠ "") ∨
    (tr = [list; ex (OPorchCreate (buildPackageRevision (p_namespace (g_pkg s))
             (p_repoName (g_pkg s)) (p_packageName (g_pkg s)) "v1" mr)) (pr, None); load] ∧
     (Forall (λ pr', num pr' = 0%Z) pl ∨ ∃ last, first_latest pl last ∧ pr_Name last = "")).
Proof. apply GetOrCreate_ok. Qed.

(** C15: A revision created after [GetOrCreate] is new: when the listed
    revisions of the package have names and the current revision is not at the
    end of the number range, the creation request of [Create] names the package
    and a revision later than every listed revision of it. *)
Theorem Create_fresh (mr : Tenant) (s s1 s2 : gstate) tr1 tr2 o items err pr r cur :
  exec (GetOrCreate mr s) tr1 (Ok (), s1) →
  exec (Create mr s1) tr2 (o, s2) →
  ex OPorchList (items, err) ∈ tr1 →
  Forall (λ pr', pr_Name pr' ≠ "") items →
  p_pr (g_pkg s1) = Some cur → (num cur < two64 - 1)%Z →
  ex (OPorchCreate pr) r ∈ tr2 →
  pr_PackageName pr = p_packageName (g_pkg s) ∧
  ∀ pr', pr' ∈ items → pr_PackageName pr' = p_packageName (g_pkg s) → (num pr' < num pr)%Z.
Proof.
  intros H1 H2 Hl Hnames Hcur Hlt Hc.
  apply GetOrCreate_ok in H1 as (items' & err' & pr0 & prr & _ & -> & Htr).
  pose proof (listing_selected _ _ _ _ _ _ _ _ _ Htr Hl) as <-.
  rewrite (Create_requests _ _ _ _ _ _ _ _ Hcur H2 Hc). split; [done|].
  injection Hcur as <-. intros pr' Hin Hpkg.
  assert (num pr' ≤ num pr0)%Z as Hle.
  { assert (pr' ∈ matching (p_packageName (g_pkg s)) items) as Hm by by apply elem_of_matching.
    pose proof (getRevisionNumber_range (pr_Revision pr0)).
    destruct Htr as [(_ & Hf & _)|(_ & [H0|(last & Hf & Hn)])].
    - by eapply first_latest_max.
    - rewrite Forall_forall in H0. rewrite (H0 _ Hm). lia.
    - apply first_latest_elem, elem_of_matching in Hf as [_ Hf].
      rewrite Forall_forall in Hnames. by destruct (Hnames _ Hf). }
  change (pr_Revision (buildPackageRevision _ _ _ ?r _)) with r.
  rewrite getNewRevision_to_uint64, to_uint64_small;
    pose proof (getRevisionNumber_range (pr_Revision pr0)); lia.
Qed.

(** C19: [Approve] without a current revision panics; of a published one it
    does nothing; of an unknown lifecycle it is an error without a request.  If
    it ends normally on a Draft or Proposed revision then it has proposed the
    Draft, and read the revision - under the key of the current one, or of what
    the proposal returned - either as Published, or as Proposed and then approved
    it, accepted by the server; and these are all its exchanges. *)
Theorem Approve_spec `{!LifecycleLaws} (s s' : gstate) tr o :
  exec (Approve s) tr (o, s') →
  match p_pr (g_pkg s) with
  | None => o = Panic NilDeref ∧ tr = []
  | Some pr =>
      (pr_Lifecycle pr = LifecyclePublished → o = Ok () ∧ tr = [] ∧ s' = s) ∧
      (pr_Lifecycle pr ∉ [LifecycleDraft; LifecycleProposed; LifecyclePublished] →
       (∃ e, o = Err e) ∧ tr = [] ∧ s' = s) ∧
      (pr_Lifecycle pr ≠ LifecyclePublished → o = Ok () →
       ∃ tr0 key pr1, leads_to_approval pr tr0 key ∧
         ((tr = (tr0 ++ [ex (ORestGet key) (pr1, None)])%list ∧
           pr_Lifecycle pr1 = LifecyclePublished) ∨
          (tr = (tr0 ++ [ex (ORestGet key) (pr1, None);
                 ex (ORestPutApproval (set_Lifecycle LifecyclePublished pr1)) None])%list ∧
           pr_Lifecycle pr1 = LifecycleProposed)))
  end.
Proof.
  destruct lifecycle_ne as (HDP & HDL & HPL).
  intros Hex. by_traced Hex. unfold Approve, updatePackageRevisionApproval, GetLifecycle.
  repeat svc_step; simplify_eq/=; rewrite ?String.eqb_eq, ?String.eqb_neq in *; try done;
    (split_and!; intros; [try congruence| |]);
    try (rewrite !not_elem_of_cons in *; naive_solver); try done; try by eauto.
  all: by approved.
Qed.

(** C20: In every behaviour of [Approve], also a failing one, a revision is
    written as Proposed only when the current one is a Draft, and what is
    written is the revision just read; and an approval is sent only for a
    revision the server returned as Proposed, changed to Published. *)
Theorem Approve_safe (s s' : gstate) tr o pr :
  exec (Approve s) tr (o, s') → p_pr (g_pkg s) = Some pr →
  (∀ pr' r, ex (OPorchUpdateRevision pr') r ∈ tr →
     pr_Lifecycle pr = LifecycleDraft ∧
     ∃ pr1, ex (OPorchGetRevision (pr_key pr)) (pr1, None) ∈ tr ∧
            pr' = set_Lifecycle LifecycleProposed pr1) ∧
  (∀ pr' r, ex (ORestPutApproval pr') r ∈ tr →
     ∃ key pr1, ex (ORestGet key) (pr1, None) ∈ tr ∧
       pr_Lifecycle pr1 = LifecycleProposed ∧ pr' = set_Lifecycle LifecyclePublished pr1).
Proof.
  intros H Hpr. revert Hpr. by_traced H.
  unfold Approve, updatePackageRevisionApproval, GetLifecycle.
  repeat svc_step; intros Hpr; simplify_eq/=; rewrite ?String.eqb_eq, ?String.eqb_neq in *;
    (split; intros pr' r' Hin;
     [apply (list_elem_of_fmap_2 update_of) in Hin|apply (list_elem_of_fmap_2 approval_of) in Hin]);
    csimpl in Hin; in_cases Hin;
    try (split; [assumption|]).
  all: first [ eexists _, _; split; [find_exchange|done] | eexists; split; [find_exchange|done] ].
Qed.

(** When the documents can be written, [Update] sends one request, to
    replace the resources of the loaded object by the files of the documents and
    the files that are not KRM files, keeps the answer as the loaded object,
    whether or not it is an error, and changes no document. *)
Theorem Update_spec `{!KioLaws} (res : resources) prr (ns : list RNode)
    (text : string → string) (s s' : gstate) tr o :
  exec (Update res s) tr (o, s') → p_prr (g_pkg s) = Some prr →
  Forall2 (λ l n, g_heap s !! l = Some n) (Get res) ns →
  (∀ k, nodes_at k ns ≠ [] → group_text (nodes_at k ns) (text k)) →
  ∃ o1 o2 m u err,
    tr = [ex OMapOrder o1; ex OMapOrder o2;
          ex (OPorchUpdateResources (set_Resources m prr)) (u, err)] ∧
    (∀ k, m !! k = updated_file (prr_Resources prr) ns text k) ∧
    s' = set_pkg (with_prr u (g_pkg s)) s ∧
    o = match err with None => Ok () | Some e => Err e end.
Proof. apply Update_ok. Qed.

(** When the documents of some path cannot be written, [Update] fails
    without a request to the server and leaves the store as it was. *)
Theorem Update_error `{!KioLaws} (res : resources) prr (ns : list RNode) k e
    (s s' : gstate) tr o :
  exec (Update res s) tr (o, s') → p_prr (g_pkg s) = Some prr →
  Forall2 (λ l n, g_heap s !! l = Some n) (Get res) ns →
  nodes_at k ns ≠ [] → kio_ByteWrite kio_writer (nodes_at k ns) = inl e →
  (∃ e', o = Err e') ∧ s' = s ∧ ∃ o1 o2, tr = [ex OMapOrder o1; ex OMapOrder o2].
Proof.
  intros Hex Hprr Hn Hk He. by_traced Hex. unfold Update.
  do 3 svc_step; [|congruence]. simplify_eq. repeat (svc_step; [idtac]).
  destruct (CreateUpdatedResource_fails r r0 (prr_Resources prr) (Get res) ns k e (g_heap s))
    as (e' & ->); [done..|]. cbn [fst snd on_ok]. rewrite set_heap_id.
  split; [by eexists|]. split; [done|]. by eexists _, _.
Qed.
End pkgrev.

(** ** The operations against the toy server *)

Section examples.
Abbreviation ex o r := (reply (resp:=toy_resp) o r).
Abbreviation trace m s w := (exchanges_of m s w).

Definition ex_package : string := "admin.yndd.io_Tenant_t".
Definition ex_pkg (pr : option (@PackageRevision toy_types)) prr : packageRevision :=
  {| p_namespace := "default"; p_repoName := "repo"; p_packageName := ex_package;
     p_pr := pr; p_prr := prr |}.
Definition ex_tenant : @Tenant toy_types := toy_cr (toy_meta "t") None.

Definition ex_p1 := toy_pr "p1" ex_package "v1" "Published".
Definition ex_p2 := toy_pr "p2" "other" "v7" "Published".
Definition ex_p3 := toy_pr "p3" ex_package "v3" "Draft".
Definition ex_listed : list (@PackageRevision toy_types) := [ex_p1; ex_p2; ex_p3].
Definition ex_files : gmap string string := {["README.md" := "hello"]}.

Definition ex_cluster (faults : list (option toy_error)) : world :=
  World [] ex_listed [toy_prr "p1" ex_files; toy_prr "p3" ex_files] 9 faults.
Definition ex_s : @gstate toy_types := start (ex_pkg None None) ex_tenant.
Definition ex_fault : toy_error := ToyError false "refused".

(** The second deletion is refused. *)
Lemma Delete_spec_witness :
  state_of Delete ex_s (ex_cluster [None; None; Some ex_fault]) = ex_s ∧
  ∃ items err dels,
    trace Delete ex_s (ex_cluster [None; None; Some ex_fault]) =
      ex OPorchList (items, err) :: dels ∧
    let pl := matching ex_package items in
    ((list_error err = Some ex_fault ∧ dels = []) ∨
     (list_error err = None ∧ ∃ before pr after, pl = (before ++ pr :: after)%list ∧
      dels = (deletions before ++ [ex (OPorchDelete pr) (Some ex_fault)])%list)).
Proof. exact (Delete_spec _ _ _ _ (serve_exec Delete ex_s _)). Defined.

Lemma GetOrCreate_spec_witness :
  ∃ items err pr prr,
    list_error err = None ∧
    state_of (GetOrCreate ex_tenant) ex_s (ex_cluster []) =
      set_pkg (with_prr prr (with_pr pr (g_pkg ex_s))) ex_s ∧
    let pl := matching ex_package items in
    let list := ex OPorchList (items, err) in
    let load := ex (OPorchGetResources (pr_key pr)) (prr, None) in
    (trace (GetOrCreate ex_tenant) ex_s (ex_cluster []) = [list; load] ∧
     first_latest pl pr ∧ pr_Name pr ≠ "") ∨
    (trace (GetOrCreate ex_tenant) ex_s (ex_cluster []) =
       [list; ex (OPorchCreate (buildPackageRevision "default" "repo" ex_package "v1"
          ex_tenant)) (pr, None); load] ∧
     (Forall (λ pr', getRevisionNumber (pr_Revision pr') = 0%Z) pl ∨
      ∃ last, first_latest pl last ∧ pr_Name last = "")).
Proof. exact (GetOrCreate_spec _ _ _ _
  (serve_exec_to (GetOrCreate ex_tenant) ex_s (ex_cluster []) (Ok ()) eq_refl)). Defined.

Definition ex_s1 : @gstate toy_types := state_of (GetOrCreate ex_tenant) ex_s (ex_cluster []).
Definition ex_v4 : @PackageRevision toy_types :=
  buildPackageRevision "default" "repo" ex_package "v4" ex_tenant.

Lemma Create_fresh_witness :
  pr_PackageName ex_v4 = ex_package ∧
  ∀ pr', pr' ∈ ex_listed → pr_PackageName pr' = ex_package →
    (getRevisionNumber (pr_Revision pr') < getRevisionNumber (pr_Revision ex_v4))%Z.
Proof.
  apply (Create_fresh ex_tenant ex_s ex_s1 _ _ _ _ ex_listed None ex_v4 (created 9 ex_v4, None)
    ex_p3 (serve_exec_to (GetOrCreate ex_tenant) ex_s (ex_cluster []) (Ok ()) eq_refl)
    (serve_exec (Create ex_tenant) ex_s1 (ex_cluster []))).
  - apply list_elem_of_here.
  - repeat constructor; discriminate.
  - reflexivity.
  - reflexivity.
  - apply list_elem_of_here.
Defined.

Definition ex_draft : @gstate toy_types := start (ex_pkg (Some ex_p3) None) ex_tenant.

Lemma Approve_spec_witness :
  (pr_Lifecycle ex_p3 = LifecyclePublished →
     outcome_of Approve ex_draft (ex_cluster []) = Ok () ∧
     trace Approve ex_draft (ex_cluster []) = [] ∧
     state_of Approve ex_draft (ex_cluster []) = ex_draft) ∧
  (pr_Lifecycle ex_p3 ∉ [LifecycleDraft; LifecycleProposed; LifecyclePublished] →
     (∃ e, outcome_of Approve ex_draft (ex_cluster []) = Err e) ∧
     trace Approve ex_draft (ex_cluster []) = [] ∧
     state_of Approve ex_draft (ex_cluster []) = ex_draft) ∧
  (pr_Lifecycle ex_p3 ≠ LifecyclePublished →
     outcome_of Approve ex_draft (ex_cluster []) = Ok () →
     ∃ tr0 key pr1, leads_to_approval ex_p3 tr0 key ∧
       ((trace Approve ex_draft (ex_cluster []) = (tr0 ++ [ex (ORestGet key) (pr1, None)])%list ∧
         pr_Lifecycle pr1 = LifecyclePublished) ∨
        (trace Approve ex_draft (ex_cluster []) = (tr0 ++ [ex (ORestGet key) (pr1, None);
            ex (ORestPutApproval (set_Lifecycle LifecyclePublished pr1)) None])%list ∧
         pr_Lifecycle pr1 = LifecycleProposed))).
Proof. exact (Approve_spec _ _ _ _ (serve_exec Approve ex_draft (ex_cluster []))). Defined.

Example Approve_toy :
  outcome_of Approve ex_draft (ex_cluster []) = Ok () ∧
  (w_prs (world_of Approve ex_draft (ex_cluster [])) !! 2) = Some (set_Lifecycle "Published" ex_p3).
Proof. vm_compute. by split. Qed.

Lemma Approve_safe_witness :
  (∀ pr' r, ex (OPorchUpdateRevision pr') r ∈ trace Approve ex_draft (ex_cluster []) →
     pr_Lifecycle ex_p3 = LifecycleDraft ∧
     ∃ pr1, ex (OPorchGetRevision (pr_key ex_p3)) (pr1, None) ∈
              trace Approve ex_draft (ex_cluster []) ∧
            pr' = set_Lifecycle LifecycleProposed pr1) ∧
  (∀ pr' r, ex (ORestPutApproval pr') r ∈ trace Approve ex_draft (ex_cluster []) →
     ∃ key pr1, ex (ORestGet key) (pr1, None) ∈ trace Approve ex_draft (ex_cluster []) ∧
       pr_Lifecycle pr1 = LifecycleProposed ∧ pr' = set_Lifecycle LifecyclePublished pr1).
Proof.
  apply (Approve_safe _ _ _ _ ex_p3 (serve_exec Approve ex_draft (ex_cluster []))).
  reflexivity.
Defined.

(** Two documents for the paths a.yaml and b.yaml. *)
Definition ex_docs : list (@RNode toy_types) := [doc_at "a" "a.yaml"; doc_at "b" "b.yaml"].
Definition ex_loaded (docs : list (@RNode toy_types)) : @gstate toy_types :=
  {| g_heap := docs; g_pkg := ex_pkg (Some ex_p3) (Some (toy_prr "p3" ex_files));
     g_cr := ex_tenant |}.
Definition ex_update := Update [0; 1].
Definition ex_doc_text (k : string) : string :=
  match toy_write kio_writer (nodes_at k ex_docs) with inr t => t | inl _ => "" end.

Lemma Update_spec_witness :
  ∃ o1 o2 m u err,
    trace ex_update (ex_loaded ex_docs) (ex_cluster []) =
      [ex OMapOrder o1; ex OMapOrder o2;
       ex (OPorchUpdateResources (set_Resources m (toy_prr "p3" ex_files))) (u, err)] ∧
    (∀ k, m !! k = updated_file ex_files ex_docs ex_doc_text k) ∧
    state_of ex_update (ex_loaded ex_docs) (ex_cluster []) =
      set_pkg (with_prr u (g_pkg (ex_loaded ex_docs))) (ex_loaded ex_docs) ∧
    outcome_of ex_update (ex_loaded ex_docs) (ex_cluster []) =
      match err with None => Ok () | Some e => Err e end.
Proof.
  apply (Update_spec [0; 1] (toy_prr "p3" ex_files) ex_docs ex_doc_text _ _ _ _
    (serve_exec ex_update (ex_loaded ex_docs) (ex_cluster []))).
  - reflexivity.
  - repeat constructor.
  - intros k _. unfold group_text, ex_doc_text.
    assert (existsb (λ d, String.eqb (td_kind d) "!") (nodes_at k ex_docs) = false) as Hk.
    { unfold nodes_at, ex_docs. repeat (rewrite filter_cons; destruct (decide _)); reflexivity. }
    simpl. unfold toy_write. by rewrite Hk.
Defined.

Definition ex_unwritable : list (@RNode toy_types) := [doc_at "a" "a.yaml"; ToyDoc "!" "b" "" [] []].

Lemma Update_error_witness :
  (∃ e', outcome_of ex_update (ex_loaded ex_unwritable) (ex_cluster []) = Err e') ∧
  state_of ex_update (ex_loaded ex_unwritable) (ex_cluster []) = ex_loaded ex_unwritable ∧
  ∃ o1 o2, trace ex_update (ex_loaded ex_unwritable) (ex_cluster []) =
    [ex OMapOrder o1; ex OMapOrder o2].
Proof.
  apply (Update_error [0; 1] (toy_prr "p3" ex_files) ex_unwritable "b.yaml"
    (ToyError false "cannot encode") _ _ _ _
    (serve_exec ex_update (ex_loaded ex_unwritable) (ex_cluster []))).
  - reflexivity.
  - repeat constructor.
  - vm_compute. discriminate.
  - vm_compute. reflexivity.
Defined.
End examples.
