(* ===== verification/RoundTrip.v ===== *)
(** * Packages survive being written and read back

    What [CreateUpdatedResource] writes, [ResourcesToPackageBuffer] reads back
    as the same documents, and [IsEqual] then finds the package up to date: the
    controller does not write a package twice. *)

From stdpp Require Import base tactics list gmap strings.
From S2P Require Import Prelude.
From S2P Require Import GoStrings.
From S2P Require Import Effects.
From S2P Require Import Deps.
From S2P Require Import Api.
From S2P Require Import Toy.
From S2P Require Import AppResource.
From S2P Require Import PkgUtil.
From S2P Require Import Services.
From S2P Require Import ToyServer.
From S2P Require Import Revision.
From S2P Require Import PkgRev.

Local Open Scope string_scope.

(** A kio pipeline reads its inputs one after the other. *)
Class KioReadLaws `{ExtOps} := {
  read_inputs rs nss :
    Forall2 (λ r ns, kio_ReadPackage [r] = inr ns) rs nss →
    kio_ReadPackage rs = inr (mjoin nss) }.

#[export] Instance toy_kio_read_laws : KioReadLaws.
Proof.
  split. intros rs nss H. simpl. unfold toy_read. f_equal.
  induction H as [|r ns rs nss Hr _ IH]; [done|]. csimpl. rewrite IH. f_equal.
  simpl in Hr. unfold toy_read in Hr. csimpl in Hr. rewrite app_nil_r in Hr. by injection Hr.
Qed.

Section roundtrip.
Context {ET : ExtTypes} {EO : ExtOps}.
Abbreviation ex o r := (reply (resp:=resp) o r).

(** Two documents with the same text, annotations aside. *)
Definition same_text (n n' : RNode) : Prop :=
  ∃ s, rn_String (bare n) = inr s ∧ rn_String (bare n') = inr s.

(** The documents of the file [k] can be written, and reading the file gives
    them back, annotations aside. *)
Definition reads_back (k : string) (ns : list RNode) : Prop :=
  ∃ text ns', kio_ByteWrite kio_writer ns = inr text ∧
    kio_ReadPackage [resource_reader {[k := text]} k] = inr ns' ∧ Forall2 same_text ns ns'.

(** The text written for the documents with the path [k]. *)
Definition file_text (ns : list RNode) (k : string) : string :=
  match kio_ByteWrite kio_writer (nodes_at k ns) with inr t => t | inl _ => "" end.

(** The package of the documents [ns] at [nodes] is in order: every document is
    in a KRM file, every file can be read back. *)
Definition package_ok (h : heap) (nodes : list loc) (ns : list RNode) : Prop :=
  Forall2 (λ l n, h !! l = Some n) nodes ns ∧
  Forall (λ n, includeFile (getPath n) = true) ns ∧
  ∀ k, nodes_at k ns ≠ [] → reads_back k (nodes_at k ns).

(** ** Lemmas *)

(** The documents are those of their files. *)
Lemma nodes_by_file ks (ns : list RNode) :
  NoDup ks → Forall (λ n, getPath n ∈ ks) ns → mjoin ((λ k, nodes_at k ns) <$> ks) ≡ₚ ns.
Proof.
  intros Hnd. revert ns. induction ks as [|k ks IH]; intros ns Hns.
  { destruct Hns as [|n ns Hn _]; [done|]. by apply not_elem_of_nil in Hn. }
  apply NoDup_cons in Hnd as [Hk Hnd]. csimpl.
  set (rest := filter (λ n, getPath n ≠ k) ns).
  assert ((λ k, nodes_at k ns) <$> ks = (λ k, nodes_at k rest) <$> ks) as ->.
  { apply list_fmap_ext. intros i k' Hk'. unfold nodes_at, rest.
    rewrite list_filter_filter. apply list_filter_iff. intros n. split; [|naive_solver].
    intros Hn. split; [done|]. intros Hnk. apply Hk. rewrite <-Hnk, Hn.
    by apply (list_elem_of_lookup_2 _ i). }
  rewrite IH; [|done|].
  - unfold nodes_at, rest. apply filter_app_complement.
  - apply Forall_forall. intros n [Hne Hin]%list_elem_of_filter.
    rewrite Forall_forall in Hns. specialize (Hns n Hin). set_solver.
Qed.

Lemma st_map_alloc (ns : list RNode) (h : heap) :
  st_map h_alloc ns h = (Ok (seq (length h) (length ns)), (h ++ ns)%list).
Proof.
  revert h. induction ns as [|n ns IH]; intros h; simpl; [by rewrite app_nil_r|].
  rewrite (st_bind_ok _ _ h (length h) (h ++ [n])%list) by done.
  rewrite (st_bind_ok _ _ _ _ _ (IH _)), length_app, Nat.add_1_r, <-(assoc_L (++)%list).
  done.
Qed.

Lemma texts_documents h nodes ns ss :
  Forall2 (λ l n, h !! l = Some n) nodes ns → texts h nodes ss →
  Forall2 (λ n s, rn_String (bare n) = inr s) ns ss.
Proof.
  intros Hn Ht. induction Ht as [|l s nodes ss (n0 & Hl & Hs) _ IH] in ns, Hn |- *.
  - apply Forall2_nil_inv_l in Hn as ->. constructor.
  - apply Forall2_cons_inv_l in Hn as (n & ns1 & Hl' & Hn & ->). simplify_eq.
    constructor; [done|by apply IH].
Qed.

Lemma same_texts ns ns' ss :
  Forall2 same_text ns ns' → Forall2 (λ n s, rn_String (bare n) = inr s) ns ss →
  Forall2 (λ n s, rn_String (bare n) = inr s) ns' ss.
Proof.
  intros Hs. induction Hs as [|n n' ns ns' (t & Ht1 & Ht2) _ IH] in ss |- *; intros Hss.
  - apply Forall2_nil_inv_l in Hss as ->. constructor.
  - apply Forall2_cons_inv_l in Hss as (s & ss' & Hs & Hss & ->).
    constructor; [congruence|by apply IH].
Qed.

Lemma texts_new (h : heap) ns ss :
  Forall2 (λ n s, rn_String (bare n) = inr s) ns ss →
  texts (h ++ ns)%list (seq (length h) (length ns)) ss.
Proof.
  revert h. induction ns as [|n ns IH] in ss |- *; intros h Hs.
  - apply Forall2_nil_inv_l in Hs as ->. constructor.
  - apply Forall2_cons_inv_l in Hs as (s & ss' & Hs & Hss & ->). simpl. constructor.
    + exists n. split; [by apply list_lookup_middle|done].
    + specialize (IH ss' (h ++ [n])%list Hss).
      by rewrite length_app, Nat.add_1_r, <-(assoc_L (++)%list) in IH.
Qed.

Context `{!KioLaws, !KioReadLaws, !KYamlLaws}.

(** The keys that are read are those that were written. *)
Lemma written_keys o h nodes ns (orig m : gmap string string) :
  package_ok h nodes ns → (∀ k, m !! k = updated_file orig ns (file_text ns) k) →
  ∀ k, k ∈ resource_keys o m ↔ nodes_at k ns ≠ [].
Proof.
  intros (_ & Hkrm & _) Hm k. rewrite elem_of_resource_keys, Hm. unfold updated_file.
  destruct (decide (nodes_at k ns = [])) as [Hk|Hk].
  - split; [|done]. destruct (includeFile k); naive_solver.
  - split; [done|]. intros _. split; [|done].
    destruct (nodes_at k ns) as [|n l] eqn:E; [done|].
    assert (n ∈ nodes_at k ns) as [<- Hin]%list_elem_of_filter by (rewrite E; set_solver).
    by rewrite Forall_forall in Hkrm; apply Hkrm.
Qed.

Lemma read_written o h nodes ns (orig m : gmap string string) :
  package_ok h nodes ns → (∀ k, m !! k = updated_file orig ns (file_text ns) k) →
  ∃ ns1 ns2, kio_ReadPackage (resource_reader m <$> resource_keys o m) = inr ns2 ∧
    ns1 ≡ₚ ns ∧ Forall2 same_text ns1 ns2.
Proof.
  intros Hok Hm. pose proof (written_keys o h nodes ns orig m Hok Hm) as Hkeys.
  assert (Forall (λ k, ∃ ns', kio_ReadPackage [resource_reader m k] = inr ns' ∧
    Forall2 same_text (nodes_at k ns) ns') (resource_keys o m)) as Hall.
  { apply Forall_forall. intros k Hk%Hkeys. destruct Hok as (_ & _ & Hb).
    destruct (Hb k Hk) as (text & ns' & Hw & Hr & Hs). exists ns'. split; [|done].
    rewrite <-Hr. do 2 f_equal. unfold resource_reader. rewrite Hm, lookup_singleton_eq.
    unfold updated_file, file_text. by rewrite decide_False, Hw. }
  exists (mjoin ((λ k, nodes_at k ns) <$> resource_keys o m)).
  assert (∃ nss, Forall2 (λ k ns', kio_ReadPackage [resource_reader m k] = inr ns' ∧
    Forall2 same_text (nodes_at k ns) ns') (resource_keys o m) nss) as [nss Hnss].
  { clear -Hall. induction Hall as [|k ks (ns' & ?) _ [nss IH]]; [by exists []|].
    exists (ns' :: nss). by constructor. }
  exists (mjoin nss). split_and!.
  - apply read_inputs. apply Forall2_fmap_l. eapply Forall2_impl; [exact Hnss|]. naive_solver.
  - apply nodes_by_file; [apply resource_keys_NoDup|]. apply Forall_forall. intros n Hn.
    apply Hkeys. intros Hnil. apply (not_elem_of_nil n). rewrite <-Hnil.
    by apply list_elem_of_filter.
  - clear -Hnss. induction Hnss as [|k ns' ks nss [_ Hs] _ IH]; [constructor|]. csimpl.
    by apply Forall2_app.
Qed.

Lemma file_text_ok h nodes ns k :
  package_ok h nodes ns → nodes_at k ns ≠ [] → group_text (nodes_at k ns) (file_text ns k).
Proof.
  intros (_ & _ & Hb) Hk. destruct (Hb k Hk) as (text & ns' & Hw & _).
  unfold group_text, file_text. by rewrite Hw.
Qed.

(** What a package that was written and read back looks like. *)
Lemma written_back o3 (h h2 : heap) nodes ns ss (orig m : gmap string string) :
  package_ok h nodes ns → texts h nodes ss →
  (∀ k, m !! k = updated_file orig ns (file_text ns) k) →
  ∃ actual docs ss', ResourcesToPackageBuffer o3 m h2 = (Ok actual, (h2 ++ docs)%list) ∧
    texts (h2 ++ docs)%list actual ss' ∧ ss' ≡ₚ ss.
Proof.
  intros Hok Ht Hm.
  destruct (read_written o3 h nodes ns orig m Hok Hm) as (ns1 & ns2 & Hr & Hp & Hs).
  destruct Hok as (Hn & _). pose proof (texts_documents _ _ _ _ Hn Ht) as Hss.
  destruct (Permutation_Forall2 (symmetry Hp) Hss) as (ss1 & Hpss & Hs1).
  exists (seq (length h2) (length ns2)), ns2, ss1. split_and!; [| |done].
  - unfold ResourcesToPackageBuffer.
    rewrite (st_bind_ok _ _ h2 ns2 h2) by (unfold st_lift; by rewrite Hr).
    apply st_map_alloc.
  - apply texts_new. by eapply same_texts.
Qed.

(** ** Properties *)

(** C7: A package survives being written and read back: of documents that are
    all in KRM files, [CreateUpdatedResource] makes a resource map from which
    [ResourcesToPackageBuffer] reads documents with the same texts, annotations
    aside and in some order - whatever the old resources were and in whatever
    order the maps are visited. *)
Theorem write_read_roundtrip (o1 o2 o3 : map_order) (orig : gmap string string)
    (nodes : list loc) (ns : list RNode) (ss : list string) (h : heap) :
  package_ok h nodes ns → texts h nodes ss →
  ∃ m actual docs ss', CreateUpdatedResource o1 o2 orig nodes h = (Ok m, h) ∧
    ResourcesToPackageBuffer o3 m h = (Ok actual, (h ++ docs)%list) ∧
    texts (h ++ docs)%list actual ss' ∧ ss' ≡ₚ ss.
Proof.
  intros Hok Ht.
  destruct (CreateUpdatedResource_ok o1 o2 orig nodes ns (file_text ns) h) as (m & Hrun & Hm);
    [apply Hok|intros; by eapply file_text_ok|].
  destruct (written_back o3 h h nodes ns ss orig m Hok Ht Hm)
    as (actual & docs & ss' & ? & ? & ?).
  by exists m, actual, docs, ss'.
Qed.

(** After an update the package is up to date: when the server keeps the
    resources it is sent, loading them again and comparing them with the wanted
    documents answers true, so the package is not written a second time. *)
Theorem Update_then_equal (res : resources) prr (ns : list RNode) (ss : list string)
    (s s1 s2 s3 : gstate) tr1 tr2 tr3 actual eq :
  package_ok (g_heap s) (Get res) ns → texts (g_heap s) (Get res) ss →
  Forall (prints (g_heap s)) (Get res) → NoDup ss → p_prr (g_pkg s) = Some prr →
  exec (Update res s) tr1 (Ok (), s1) →
  (∀ sent r, ex (OPorchUpdateResources sent) (r, None) ∈ tr1 →
     prr_Resources r = prr_Resources sent) →
  exec (GetResources s1) tr2 (Ok actual, s2) →
  exec (on_heap (IsEqual res (Get actual)) s2) tr3 (eq, s3) →
  ∃ back, eq = Ok (true, back).
Proof.
  intros Hok Ht Hp Hnd Hprr Hu Hkeep Hg He.
  destruct (Update_ok res prr ns (file_text ns) s s1 tr1 (Ok ()) Hu Hprr)
    as (o1 & o2 & m & u & err & -> & Hm & -> & Herr);
    [apply Hok|intros; by eapply file_text_ok|].
  destruct err; [done|].
  assert (prr_Resources u = m) as Hum.
  { apply (Hkeep (set_Resources m prr)). set_solver. }
  destruct (GetResources_ok _ _ _ _ Hg) as (prr2 & o3 & Hprr2 & Hread & Hpkg).
  injection Hprr2 as <-. rewrite Hum in Hread. simpl in Hread.
  destruct (written_back o3 _ (g_heap s) _ _ ss _ m Hok Ht Hm)
    as (actual' & docs & ss' & Hread' & Ht' & Hss).
  rewrite Hread' in Hread. injection Hread as <- Hh.
  destruct (IsEqual_ok (Get res) actual' ss ss' (g_heap s2)) as (b & back & h' & Heq & Hb & _).
  - rewrite <-Hh. by apply texts_app.
  - rewrite <-Hh. eapply Forall_impl; [exact Hp|]. intros l. apply prints_app.
  - by rewrite <-Hh.
  - by rewrite Hss.
  - exists back. by_traced He. apply traced_on_heap. unfold Get in *. rewrite Heq. simpl.
    by rewrite (proj2 Hb (symmetry Hss)).
Qed.
End roundtrip.

(** ** The round trip of a concrete package *)

Section examples.
Abbreviation ex o r := (reply (resp:=toy_resp) o r).

Definition ex_doc_texts : list string := toy_text <$> ex_docs.

Lemma ex_package_ok : package_ok ex_docs [0; 1] ex_docs.
Proof.
  split_and!; [repeat constructor|repeat constructor|].
  intros k Hk. destruct (nodes_at k ex_docs) as [|n l] eqn:E; [done|].
  assert (n ∈ nodes_at k ex_docs) as [<- Hin]%list_elem_of_filter by (rewrite E; set_solver).
  rewrite <-E. unfold ex_docs in Hin. apply elem_of_cons in Hin as [->|Hin];
    [|apply list_elem_of_singleton in Hin as ->];
    (eexists _, _; split_and!; [vm_compute; reflexivity..|]);
    repeat constructor; eexists; split; vm_compute; reflexivity.
Qed.

Lemma write_read_roundtrip_witness :
  ∃ m actual docs ss', CreateUpdatedResource mo_id mo_rev ex_orig [0; 1] ex_docs = (Ok m, ex_docs) ∧
    ResourcesToPackageBuffer mo_rev m ex_docs = (Ok actual, (ex_docs ++ docs)%list) ∧
    texts (ex_docs ++ docs)%list actual ss' ∧ ss' ≡ₚ ex_doc_texts.
Proof.
  apply (write_read_roundtrip mo_id mo_rev mo_rev ex_orig [0; 1] ex_docs ex_doc_texts ex_docs).
  - exact ex_package_ok.
  - toy_texts.
Defined.

Definition ex_updated : @gstate toy_types := state_of ex_update (ex_loaded ex_docs) (ex_cluster []).
Definition ex_compare (actual : list nat) := on_heap (IsEqual [0; 1] (Get actual)).
Definition ex_read : @gstate toy_types := state_of GetResources ex_updated (ex_cluster []).

Lemma Update_then_equal_witness :
  ∃ back, outcome_of (ex_compare [2; 3]) ex_read (ex_cluster []) = Ok (true, back).
Proof.
  eapply (Update_then_equal [0; 1] (toy_prr "p3" ex_files) ex_docs ex_doc_texts
    (ex_loaded ex_docs) ex_updated ex_read _ _ _ _ [2; 3] _ ex_package_ok).
  - toy_texts.
  - toy_prints.
  - apply (bool_decide_unpack _). vm_compute. exact I.
  - reflexivity.
  - exact (serve_exec_to ex_update (ex_loaded ex_docs) (ex_cluster []) (Ok ()) eq_refl).
  - intros sent r Hin%(list_elem_of_fmap_2 (λ e : entry toy_resp,
      match e with existT (OPorchUpdateResources p) r => Some (p, r.1) | _ => None end)).
    vm_compute in Hin. apply elem_of_cons in Hin as [Hin|Hin]; [discriminate|].
    apply elem_of_cons in Hin as [Hin|Hin]; [discriminate|].
    apply list_elem_of_singleton in Hin. injection Hin as -> ->. reflexivity.
  - exact (serve_exec_to GetResources ex_updated (ex_cluster []) (Ok [2; 3]) eq_refl).
  - exact (serve_exec (ex_compare [2; 3]) ex_read (ex_cluster [])).
Defined.
End examples.
