(* ===== verification/TenantUtils.v ===== *)
(** * Copying a value into fields of a document (internal/controllers/tenant/utils.go)

    [CopyValueToTarget] puts the value of one document into every field of a
    target document that a selector names; [SetFieldValue] writes one field, or
    one element of a delimited list in it. *)

From Stdlib Require Import Ascii.
From stdpp Require Import base tactics list gmap strings.
From S2P Require Import Prelude.
From S2P Require Import GoStrings.
From S2P Require Import Deps.
From S2P Require Import Toy.
From S2P Require Import AppResource.

Local Open Scope string_scope.

(** The selector types of kustomize, with the fields the code reads. *)
Record FieldOptions := { fo_Delimiter : string; fo_Index : Z; fo_Create : bool }.
Record TargetSelector := { sel_FieldPaths : list string; sel_Options : option FieldOptions }.

Section utils.
Context {ET : ExtTypes} {EO : ExtOps}.

(** ** Operations *)

Definition ShouldCreateField (options : option FieldOptions) (fieldPath : list string) :
    outcome error bool :=
  match options with
  | None => Ok false
  | Some o =>
      if negb (fo_Create o) then Ok false
      else if existsb (λ f, String.eqb f "*") fieldPath then
        Err (fmt_Errorf "cannot support create option in a multi-value target")
      else Ok true
  end.

(** The element list with [v] in place: before, after, or at the index. *)
Definition put_element (index : Z) (v : string) (tv : list string) : list string :=
  if (index <? 0)%Z then v :: tv
  else if (Z.of_nat (length tv) <=? index)%Z then (tv ++ [v])%list
  else <[Z.to_nat index := v]> tv.

Definition SetFieldValue (options : option FieldOptions) (target : loc) (field : YAddr)
    (value : loc) : St error heap () :=
  value ← rn_copy value;
  _ ← match options with
      | Some o =>
          if String.eqb (fo_Delimiter o) "" then mret ()
          else
            t ← h_read target;
            if bool_decide (yn_Kind t field = ScalarNode) then
              v ← h_read value;
              let tv := Split (yn_Value t field) (fo_Delimiter o) in
              h_write value (yn_SetValue rn_self
                (Join (put_element (fo_Index o) (yaml_GetValue v) tv) (fo_Delimiter o)) v)
            else st_err (fmt_Errorf "delimiter option can only be used with scalar nodes")
      | None => mret ()
      end;
  t ← h_read target;
  v ← h_read value;
  if bool_decide (yn_Kind t field = ScalarNode) then
    h_write target (yn_SetValue field (yn_Value v rn_self) t)
  else h_write target (rn_SetYNode field v t).

(** The fields a path names: the created one, or those that match. *)
Definition create_field (target value : loc) (fieldPath : list string) : St error heap (list YAddr) :=
  v ← h_read value;
  t ← h_read target;
  let r := rn_LookupCreate (yn_Kind v rn_self) fieldPath t in
  _ ← h_write target r.1;
  match r.2 with
  | inl e => st_err (fmt_Errorf_wrap "error creating node: " e)
  | inr a => mret [a]
  end.

Definition match_fields (target : loc) (fieldPath : list string) : St error heap (list YAddr) :=
  t ← h_read target;
  let r := rn_PathMatcher fieldPath t in
  _ ← h_write target r.1;
  match r.2 with
  | inl e => st_err (fmt_Errorf_wrap "error finding field in target: " e)
  | inr foundFieldSequence =>
      match seq_Elements foundFieldSequence with
      | inl e => st_err (fmt_Errorf_wrap "error fetching elements in replacement target: " e)
      | inr targetFields => mret targetFields
      end
  end.

(** The body of the loop over the field paths. *)
Definition copy_to_path (target value : loc) (options : option FieldOptions) (fp : string) :
    St error heap () :=
  let fieldPath := utils_SmarterPathSplitter fp "." in
  create ← st_lift (ShouldCreateField options fieldPath);
  targetFields ← (if (create : bool) then create_field target value fieldPath
                  else match_fields target fieldPath);
  st_iter (λ t, SetFieldValue options target t value) targetFields.

Definition CopyValueToTarget (target value : loc) (selector : TargetSelector) :
    St error heap () :=
  st_iter (copy_to_path target value (sel_Options selector)) (sel_FieldPaths selector).

(** ** Lemmas *)

(** The text [SetFieldValue] leaves in a scalar field that held [old]. *)
Definition new_text (options : option FieldOptions) (v : RNode) (old : string) : string :=
  match options with
  | Some o =>
      if String.eqb (fo_Delimiter o) "" then yn_Value v rn_self
      else Join (put_element (fo_Index o) (yaml_GetValue v) (Split old (fo_Delimiter o)))
             (fo_Delimiter o)
  | None => yn_Value v rn_self
  end.

Lemma rn_copy_ok `{!KYamlLaws} l n (h : heap) :
  h !! l = Some n → rn_copy l h = (Ok (length h), h ++ [n])%list.
Proof.
  intros Hl. unfold rn_copy. rewrite (st_bind_ok _ _ _ _ _ (h_read_ok _ _ _ Hl)).
  unfold h_alloc. by rewrite copy_content.
Qed.

Lemma put_element_nonempty i v tv : put_element i v tv ≠ [].
Proof.
  unfold put_element. destruct (i <? 0)%Z eqn:H1; [done|].
  destruct (Z.leb_spec (Z.of_nat (length tv)) i) as [H2|H2]; [by destruct tv|].
  intros Hn%(f_equal length). rewrite length_insert in Hn. simpl in Hn.
  apply Z.ltb_ge in H1. lia.
Qed.

Lemma put_element_Forall (P : string → Prop) i v tv :
  P v → Forall P tv → Forall P (put_element i v tv).
Proof.
  intros Hv Ht. unfold put_element. repeat case_match.
  - by constructor.
  - apply Forall_app; auto.
  - by apply Forall_insert.
Qed.

Context `{!KYamlLaws} `{!KFieldLaws}.

(** A scalar field is written; a copy of the value stays in the store. *)
Lemma SetFieldValue_run options target a value t v (h : heap) :
  h !! target = Some t → h !! value = Some v →
  yn_Kind t a = ScalarNode → yn_Kind v rn_self = ScalarNode →
  ∃ v', SetFieldValue options target a value h =
    (Ok (), (<[target := yn_SetValue a (new_text options v (yn_Value t a)) t]> h ++ [v'])%list).
Proof.
  intros Ht Hv Hk Hkv. unfold SetFieldValue.
  rewrite (st_bind_ok _ _ _ _ _ (rn_copy_ok _ _ _ Hv)).
  pose proof (lookup_lt_Some _ _ _ Ht) as Hlt.
  assert (Ht' : ∀ x, (h ++ [x])%list !! target = Some t) by (intros; by apply lookup_app_l_Some).
  assert (Hnew : ∀ x : RNode, (h ++ [x])%list !! length h = Some x)
    by (intros; by apply list_lookup_middle).
  set (plain := match options with Some o => fo_Delimiter o | None => "" end).
  destruct (String.eqb_spec plain "") as [Hp|Hp].
  - exists v. assert (new_text options v (yn_Value t a) = yn_Value v rn_self) as ->.
    { unfold new_text. destruct options as [o|]; [|done]. subst plain. by rewrite Hp. }
    rewrite (st_bind_ok _ _ (h ++ [v])%list () (h ++ [v])%list)
      by (destruct options as [o|]; [subst plain; by rewrite Hp|done]).
    rewrite (st_bind_ok _ _ _ _ _ (h_read_ok _ _ _ (Ht' v))).
    rewrite (st_bind_ok _ _ _ _ _ (h_read_ok _ _ _ (Hnew v))).
    rewrite bool_decide_true by done.
    rewrite (h_write_ok _ _ _ _ (Ht' v)). by rewrite insert_app_l.
  - destruct options as [o|]; [|done]. subst plain. apply String.eqb_neq in Hp. simpl.
    rewrite Hp.
    set (v' := yn_SetValue rn_self (Join (put_element (fo_Index o) (yaml_GetValue v)
      (Split (yn_Value t a) (fo_Delimiter o))) (fo_Delimiter o)) v). exists v'.
    rewrite (st_bind_ok _ _ (h ++ [v])%list () (h ++ [v'])%list).
    + rewrite (st_bind_ok _ _ _ _ _ (h_read_ok _ _ _ (Ht' v'))).
      rewrite (st_bind_ok _ _ _ _ _ (h_read_ok _ _ _ (Hnew v'))).
      rewrite bool_decide_true by done. rewrite (h_write_ok _ _ _ _ (Ht' v')).
      rewrite insert_app_l by done. subst v'. by rewrite set_value_same.
    + rewrite (st_bind_ok _ _ _ _ _ (h_read_ok _ _ _ (Ht' v))).
      rewrite bool_decide_true by done.
      rewrite (st_bind_ok _ _ _ _ _ (h_read_ok _ _ _ (Hnew v))).
      rewrite (h_write_ok _ _ _ _ (Hnew v)).
      by rewrite insert_app_r_alt, Nat.sub_diag by done.
Qed.

(** The documents other than the one at [target] are as in [h]. *)
Definition frame (target : loc) (h h' : heap) : Prop :=
  ∀ l, l ≠ target → (l < length h)%nat → h' !! l = h !! l.

(** The fields of [as] hold [w] in [t'], which is otherwise like [t]. *)
Definition fields_set (as_ : list YAddr) (w : string) (t t' : RNode) : Prop :=
  (∀ a, a ∈ as_ → yn_Value t' a = w) ∧
  (∀ b, b ∉ as_ → yn_Value t' b = yn_Value t b) ∧
  (∀ b, yn_Kind t' b = yn_Kind t b).

(** [P] is kept by writes to the fields [as_]. *)
Definition kept_by (as_ : list YAddr) (P : RNode → Prop) : Prop :=
  ∀ a v e, a ∈ as_ → P e → P (yn_SetValue a v e).

Lemma set_fields_loop `{!EqDecision YAddr} target value as_ t v (P : RNode → Prop) (h : heap) :
  h !! target = Some t → h !! value = Some v → target ≠ value →
  yn_Kind v rn_self = ScalarNode → Forall (λ a, yn_Kind t a = ScalarNode) as_ →
  kept_by as_ P → P t →
  ∃ t' h', st_iter (λ a, SetFieldValue None target a value) as_ h = (Ok (), h') ∧
    h' !! target = Some t' ∧ frame target h h' ∧ (length h ≤ length h')%nat ∧
    fields_set as_ (yn_Value v rn_self) t t' ∧ P t'.
Proof.
  intros Ht Hv Hne Hkv. revert t h Ht Hv.
  induction as_ as [|a as_ IH]; intros t h Ht Hv Hk HP HPt.
  { exists t, h. split_and!; try done. split; [set_solver|done]. }
  apply Forall_cons_1 in Hk as [Hka Hk]. simpl.
  destruct (SetFieldValue_run None target a value t v h) as [v' R]; [done..|].
  pose proof (lookup_lt_Some _ _ _ Ht) as Htl. pose proof (lookup_lt_Some _ _ _ Hv) as Hvl.
  set (t1 := yn_SetValue a (yn_Value v rn_self) t) in R.
  destruct (IH t1 (<[target:=t1]> h ++ [v'])%list)
    as (t' & h' & R' & Ht' & Hf & HL & (Hs1 & Hs2 & Hs3) & HP').
  { rewrite lookup_app_l by (by rewrite length_insert). by apply list_lookup_insert_eq. }
  { rewrite lookup_app_l by (by rewrite length_insert). by rewrite list_lookup_insert_ne. }
  { eapply Forall_impl; [exact Hk|]. intros b Hb. simpl in *. unfold t1. by rewrite set_value_kind. }
  { intros b w e Hb. apply HP. set_solver. }
  { apply HP; [set_solver|done]. }
  rewrite length_app, length_insert in HL. simpl in HL.
  exists t', h'. split_and!; [|done| |lia| |done].
  - by rewrite (st_bind_ok _ _ _ _ _ R).
  - intros l Hl Hlt. rewrite Hf; [|done|rewrite length_app, length_insert; simpl; lia].
    rewrite lookup_app_l by (by rewrite length_insert). by rewrite list_lookup_insert_ne.
  - split_and!.
    + intros b [->|Hb]%elem_of_cons; [|by apply Hs1].
      destruct (list_elem_of_dec a as_) as [Ha|Ha]; [by apply Hs1|].
      rewrite Hs2 by done. by apply set_value_same.
    + intros b [Hba Hb]%not_elem_of_cons. rewrite Hs2 by done. by apply set_value_other.
    + intros b. rewrite Hs3. apply set_value_kind.
Qed.

Lemma copy_one_path `{!EqDecision YAddr} target value fp t t1 v fields as_ (P : RNode → Prop)
    (h : heap) :
  h !! target = Some t → h !! value = Some v → target ≠ value →
  yn_Kind v rn_self = ScalarNode →
  rn_PathMatcher (utils_SmarterPathSplitter fp ".") t = (t1, inr fields) →
  seq_Elements fields = inr as_ → Forall (λ a, yn_Kind t1 a = ScalarNode) as_ →
  kept_by as_ P → P t1 →
  ∃ t' h', CopyValueToTarget target value {| sel_FieldPaths := [fp]; sel_Options := None |} h =
      (Ok (), h') ∧ h' !! target = Some t' ∧ frame target h h' ∧ (length h ≤ length h')%nat ∧
    fields_set as_ (yn_Value v rn_self) t1 t' ∧ P t'.
Proof.
  intros Ht Hv Hne Hkv Hm Hs Hk HP HPt. pose proof (lookup_lt_Some _ _ _ Ht) as Hlt.
  destruct (set_fields_loop target value as_ t1 v P (<[target:=t1]> h))
    as (t' & h' & R & Ht' & Hf & HL & Hset); try done.
  { by apply list_lookup_insert_eq. }
  { by rewrite list_lookup_insert_ne. }
  exists t', h'. split_and!; [|done| |by rewrite length_insert in HL|apply Hset..].
  - assert (match_fields target (utils_SmarterPathSplitter fp ".") h =
      (Ok as_, <[target:=t1]> h)) as Rm.
    { unfold match_fields. rewrite (st_bind_ok _ _ _ _ _ (h_read_ok _ _ _ Ht)). rewrite Hm.
      rewrite (st_bind_ok _ _ _ _ _ (h_write_ok _ _ _ _ Ht)). simpl. by rewrite Hs. }
    assert (copy_to_path target value None fp h = (Ok (), h')) as Rp.
    { unfold copy_to_path. simpl. rewrite (st_bind_ok _ _ h false h) by done.
      by rewrite (st_bind_ok _ _ _ _ _ Rm). }
    unfold CopyValueToTarget. simpl. by rewrite (st_bind_ok _ _ _ _ _ Rp).
  - intros l Hl Hll. rewrite Hf; [|done|by rewrite length_insert].
    by rewrite list_lookup_insert_ne.
Qed.

(** ** Properties *)

(** A plain write to a scalar field gives that field the text of the
    value and leaves every other field, every kind and every other document as
    it is. *)
Theorem SetFieldValue_scalar (target value : loc) (a : YAddr) (t v : RNode) (h : heap) :
  h !! target = Some t → h !! value = Some v →
  yn_Kind t a = ScalarNode → yn_Kind v rn_self = ScalarNode →
  ∃ h' t', SetFieldValue None target a value h = (Ok (), h') ∧
    h' !! target = Some t' ∧ frame target h h' ∧
    yn_Value t' a = yn_Value v rn_self ∧
    (∀ b, b ≠ a → yn_Value t' b = yn_Value t b) ∧ (∀ b, yn_Kind t' b = yn_Kind t b).
Proof.
  intros Ht Hv Hk Hkv. destruct (SetFieldValue_run None target a value t v h) as [v' R]; [done..|].
  pose proof (lookup_lt_Some _ _ _ Ht) as Hlt. eexists _, _. split; [exact R|]. split_and!.
  - rewrite lookup_app_l by (by rewrite length_insert). by apply list_lookup_insert_eq.
  - intros l Hl Hll. rewrite lookup_app_l by (by rewrite length_insert).
    by rewrite list_lookup_insert_ne.
  - by apply set_value_same.
  - intros b Hb. by apply set_value_other.
  - intros b. apply set_value_kind.
Qed.

(** C31: With a one-character delimiter that the value does not hold, the
    elements of the field are the old ones with the value before them (a
    negative index), after them (an index past the end), or in place of the
    element at the index, the others unchanged. *)
Theorem SetFieldValue_element (o : FieldOptions) (d : ascii) (target value : loc) (a : YAddr)
    (t v : RNode) (h : heap) :
  h !! target = Some t → h !! value = Some v →
  yn_Kind t a = ScalarNode → yn_Kind v rn_self = ScalarNode →
  fo_Delimiter o = String d "" → no_char d (yaml_GetValue v) = true →
  ∃ h' t', SetFieldValue (Some o) target a value h = (Ok (), h') ∧ h' !! target = Some t' ∧
    let old := Split (yn_Value t a) (String d "") in
    let new := Split (yn_Value t' a) (String d "") in
    ((fo_Index o < 0)%Z → new = yaml_GetValue v :: old) ∧
    ((Z.of_nat (length old) ≤ fo_Index o)%Z → new = (old ++ [yaml_GetValue v])%list) ∧
    (∀ i, fo_Index o = Z.of_nat i → (i < length old)%nat →
       length new = length old ∧ new !! i = Some (yaml_GetValue v) ∧
       ∀ j, j ≠ i → new !! j = old !! j).
Proof.
  intros Ht Hv Hk Hkv Hd Hnc.
  destruct (SetFieldValue_run (Some o) target a value t v h) as [v' R]; [done..|].
  pose proof (lookup_lt_Some _ _ _ Ht) as Hlt. eexists _, _. split; [exact R|].
  split; [rewrite lookup_app_l by (by rewrite length_insert); by apply list_lookup_insert_eq|].
  rewrite set_value_same by done. unfold new_text. rewrite Hd. simpl.
  pose proof (Split_no_char d (yn_Value t a)) as Hold.
  rewrite Split_Join by (apply put_element_nonempty || by apply put_element_Forall).
  unfold put_element. split_and!.
  - intros Hi. by rewrite (proj2 (Z.ltb_lt _ _) Hi).
  - intros Hi. rewrite (proj2 (Z.ltb_ge _ _)) by lia. by rewrite (proj2 (Z.leb_le _ _)).
  - intros i -> Hi. rewrite (proj2 (Z.ltb_ge _ _)), (proj2 (Z.leb_gt _ _)), Nat2Z.id by lia.
    split_and!; [apply length_insert|by apply list_lookup_insert_eq|].
    intros j Hj. by apply list_lookup_insert_ne.
Qed.

(** A delimiter on a field that is not a scalar is an error, and no
    existing document changes. *)
Theorem SetFieldValue_error (o : FieldOptions) (target value : loc) (a : YAddr)
    (t v : RNode) (h : heap) :
  h !! target = Some t → h !! value = Some v →
  fo_Delimiter o ≠ "" → yn_Kind t a ≠ ScalarNode →
  ∃ e, SetFieldValue (Some o) target a value h = (Err e, h ++ [v])%list.
Proof.
  intros Ht Hv Hd Hk. eexists. unfold SetFieldValue.
  rewrite (st_bind_ok _ _ _ _ _ (rn_copy_ok _ _ _ Hv)).
  apply String.eqb_neq in Hd. rewrite Hd. unfold mbind at 1, St_bind at 1.
  assert (Ht' : (h ++ [v])%list !! target = Some t) by by apply lookup_app_l_Some.
  rewrite (st_bind_ok _ _ _ _ _ (h_read_ok _ _ _ Ht')). by rewrite bool_decide_false.
Qed.

(** A field is to be created exactly when the option asks for it; a path
    with a wildcard then is an error, and only then. *)
Theorem ShouldCreateField_spec (options : option FieldOptions) (fieldPath : list string) :
  match ShouldCreateField options fieldPath with
  | Ok create =>
      (create = true ↔ ∃ o, options = Some o ∧ fo_Create o = true) ∧
      (create = true → "*" ∉ fieldPath)
  | Err _ => "*" ∈ fieldPath ∧ ∃ o, options = Some o ∧ fo_Create o = true
  | Panic _ => False
  end.
Proof.
  assert (existsb (λ f, String.eqb f "*") fieldPath = true ↔ "*" ∈ fieldPath) as Hw.
  { rewrite existsb_exists. setoid_rewrite String.eqb_eq. setoid_rewrite <-list_elem_of_In.
    naive_solver. }
  unfold ShouldCreateField. destruct options as [o|]; [|naive_solver].
  destruct (fo_Create o) eqn:Hc; simpl; [|naive_solver].
  destruct (existsb _ _); naive_solver.
Qed.

(** C29: Copying a scalar without options sets exactly the fields that match
    the path, when they are scalars, and no other field or document. *)
Theorem CopyValueToTarget_spec `{!EqDecision YAddr} (target value : loc) (fp : string)
    (t t1 v : RNode) fields as_ (h : heap) :
  h !! target = Some t → h !! value = Some v → target ≠ value →
  yn_Kind v rn_self = ScalarNode →
  rn_PathMatcher (utils_SmarterPathSplitter fp ".") t = (t1, inr fields) →
  seq_Elements fields = inr as_ → Forall (λ a, yn_Kind t1 a = ScalarNode) as_ →
  ∃ t' h', CopyValueToTarget target value {| sel_FieldPaths := [fp]; sel_Options := None |} h =
      (Ok (), h') ∧ h' !! target = Some t' ∧ frame target h h' ∧
    fields_set as_ (yn_Value v rn_self) t1 t'.
Proof.
  intros Ht Hv Hne Hkv Hm Hs Hk.
  destruct (copy_one_path target value fp t t1 v fields as_ (λ _, True) h)
    as (t' & h' & R & Ht' & Hf & _ & Hset & _); try done. by exists t', h'.
Qed.
End utils.

(** ** The theorems on a concrete document *)

Definition ex_target : toy_doc :=
  ToyDoc "Deployment" "d" "" [] [("spec.path", "a/b/c"); ("spec.name", "x")].
Definition ex_heap : list (@RNode toy_types) := [ex_target; td_scalar "t1"].

Lemma SetFieldValue_scalar_witness :
  ∃ h' t', SetFieldValue (ET:=toy_types) None 0 "spec.name" 1 ex_heap = (Ok (), h') ∧
    h' !! 0 = Some t' ∧ frame 0 ex_heap h' ∧
    yn_Value (H:=toy_types) t' "spec.name" = "t1" ∧
    (∀ b, b ≠ "spec.name" → yn_Value (H:=toy_types) t' b = yn_Value (H:=toy_types) ex_target b) ∧
    (∀ b, yn_Kind (H:=toy_types) t' b = yn_Kind (H:=toy_types) ex_target b).
Proof.
  exact (SetFieldValue_scalar (EO:=toy_ops) 0 1 "spec.name" ex_target (td_scalar "t1") ex_heap
    eq_refl eq_refl eq_refl eq_refl).
Defined.

Definition ex_replace : FieldOptions :=
  {| fo_Delimiter := "/"; fo_Index := 1; fo_Create := false |}.

Lemma SetFieldValue_element_witness :
  ∃ h' t', SetFieldValue (ET:=toy_types) (Some ex_replace) 0 "spec.path" 1 ex_heap = (Ok (), h') ∧
    h' !! 0 = Some t' ∧
    let old := ["a"; "b"; "c"] in
    let new := Split (yn_Value (H:=toy_types) t' "spec.path") "/" in
    ((1 < 0)%Z → new = "t1" :: old) ∧
    ((3 ≤ 1)%Z → new = (old ++ ["t1"])%list) ∧
    (∀ i, 1%Z = Z.of_nat i → (i < 3)%nat →
       length new = 3 ∧ new !! i = Some "t1" ∧ ∀ j, j ≠ i → new !! j = old !! j).
Proof.
  exact (SetFieldValue_element (EO:=toy_ops) ex_replace "/" 0 1 "spec.path" ex_target
    (td_scalar "t1") ex_heap eq_refl eq_refl eq_refl eq_refl eq_refl eq_refl).
Defined.

Example SetFieldValue_toy :
  td_fields <$> (SetFieldValue (ET:=toy_types) (Some ex_replace) 0 "spec.path" 1 ex_heap).2 !! 0 =
    Some [("spec.path", "a/t1/c"); ("spec.name", "x")].
Proof. vm_compute. reflexivity. Qed.

Lemma SetFieldValue_error_witness :
  ∃ e, SetFieldValue (ET:=toy_types) (Some ex_replace) 0 "spec" 1 ex_heap =
    (Err e, ex_heap ++ [td_scalar "t1"])%list.
Proof.
  apply (SetFieldValue_error (EO:=toy_ops) ex_replace 0 1 "spec" ex_target (td_scalar "t1") ex_heap);
    first [reflexivity | discriminate].
Defined.

Lemma CopyValueToTarget_spec_witness :
  ∃ t' h', CopyValueToTarget (ET:=toy_types) 0 1
      {| sel_FieldPaths := ["spec.name"]; sel_Options := None |} ex_heap = (Ok (), h') ∧ h' !! 0 = Some t' ∧ frame 0 ex_heap h' ∧
    fields_set ["spec.name"] "t1" ex_target t'.
Proof.
  refine (CopyValueToTarget_spec (EO:=toy_ops) (EqDecision0 := String.string_dec) 0 1 "spec.name"
    ex_target ex_target (td_scalar "t1") ["spec.name"] ["spec.name"] ex_heap
    eq_refl eq_refl _ eq_refl eq_refl eq_refl _); [discriminate|repeat constructor].
Defined.
