(* ===== verification/Reconciler.v ===== *)
(** * The tenant reconciler (internal/controllers/tenant/reconciler.go)

    One reconciliation of a tenant: the tenant is read, its finalizer added,
    and either its package revisions are deleted, or the wanted package is
    built from the source package and a namespace, compared with what Porch
    has, written when it differs, and approved.  Every failure is reported as an
    event and in the status of the tenant. *)

From stdpp Require Import base tactics list gmap strings.
From S2P Require Import Prelude.
From S2P Require Import GoStrings.
From S2P Require Import Effects.
From S2P Require Import Deps.
From S2P Require Import Api.
From S2P Require Import Toy.
From S2P Require Import AppResource.
From S2P Require Import Builders.
From S2P Require Import PkgUtil.
From S2P Require Import Services.
From S2P Require Import ToyServer.
From S2P Require Import Porch.
From S2P Require Import PkgRev.
From S2P Require Import TenantUtils.

Local Open Scope string_scope.

(** [reconcile.Result]; durations are in nanoseconds. *)
Record Result := { Requeue : bool; RequeueAfter : Z }.
Definition zero_Result : Result := {| Requeue := false; RequeueAfter := 0 |}.

Definition finalizer : string := "admin.yndd.io/finalizer".
Definition errGetCr : string := "cannot get resource".
Definition errUpdateStatus : string := "cannot update status".

Section reconciler.
Context {ET : ExtTypes} {EO : ExtOps}.

(** ** Building the wanted package *)

Definition createNewPackage : GM resources :=
  cr ← get_cr;
  ns ← on_heap (BuildNamespace (t_GetName cr));
  k ← on_heap (BuildKptFile "namespace");
  mret (Add (Add New ns) k).

Definition copy_to (path : string) (rn data : loc) : St error heap () :=
  CopyValueToTarget rn data {| sel_FieldPaths := [path]; sel_Options := None |}.

(** The fields of a source document that name its namespace. *)
Definition copy_by_kind (rn data : loc) : St error heap () :=
  n ← h_read rn;
  _ ← (if String.eqb (rn_GetKind n) "RoleBinding" then
         copy_to "subjects.[kind=ServiceAccount].namespace" rn data
       else mret ());
  n ← h_read rn;
  _ ← (if String.eqb (rn_GetKind n) "Deployment" then
         copy_to "spec.template.metadata.namespace" rn data
       else mret ());
  n ← h_read rn;
  (if String.eqb (rn_GetKind n) "ConfigMap" && String.eqb (rn_GetName n) "kptfile.kpt.dev" then
     copy_to "data.name" rn data
   else mret ()).

(** The body of the loop that moves a source document to the tenant. *)
Definition mutate_node (crName : string) (rn : loc) : St error heap () :=
  _ ← h_method_err (rn_SetNamespace crName) rn;
  d ← st_lift (of_sum (yaml_Parse crName));
  data ← h_alloc d;
  copy_by_kind rn data.

(** The second loop: the debug line prints the document. *)
Definition log_and_add (x : resources) (rn : loc) : St error heap resources :=
  _ ← h_MustString rn;
  mret (Add x rn).

Fixpoint add_all (x : resources) (nodes : list loc) : St error heap resources :=
  match nodes with
  | [] => mret x
  | rn :: nodes' => x' ← log_and_add x rn; add_all x' nodes'
  end.

Definition createSourcePackage : GM resources :=
  cr ← get_cr;
  props ← m_deref (ts_Properties (t_Spec cr));
  apps ← m_deref (tp_Applications props);
  sourcePR ← GetPackageRevision (ta_PackageRef apps);
  res ← GetPackageRevisionResources (pr_Name sourcePR);
  match res with
  | None => m_err (fmt_Errorf "no resources found")
  | Some res =>
      o ← call OMapOrder;
      nodes ← on_heap (ResourcesToPackageBuffer o (prr_Resources res));
      _ ← on_heap (st_iter (mutate_node (t_GetName cr)) nodes);
      on_heap (add_all New nodes)
  end.

(** The map literal handed to [MergePackages]: the second key is written after
    the first. *)
Definition package_map (app : string) (source new : resources) : gmap string resources :=
  <["namespace" := new]> {[app := source]}.

(** ** Reporting *)

Definition update_status : GM (option error) :=
  cr ← get_cr;
  r ← call (OStatusUpdate cr);
  _ ← put_cr r.1;
  mret (errors_Wrap r.2 errUpdateStatus).

(** The branch every failure takes: an event, the conditions, the status, and a
    requeue. *)
Definition fail_with (cond : Condition) (err : error) : GM (Result * option error) :=
  cr ← get_cr;
  _ ← call (OEvent cr err);
  _ ← put_cr (SetConditions cr [nddv1_ReconcileError err; cond]);
  e ← update_status;
  mret ({| Requeue := true; RequeueAfter := 0 |}, e).

(** ** Finalizers *)

Definition add_finalizer : GM () :=
  cr ← get_cr;
  r ← call (OAddFinalizer cr);
  _ ← put_cr r.1;
  m_check r.2.

Definition remove_finalizer : GM () :=
  cr ← get_cr;
  r ← call (ORemoveFinalizer cr);
  _ ← put_cr r.1;
  m_check r.2.

(** ** Reconcile *)

Definition packageName_of (cr : Tenant) : string := Join [Group; TenantKind; t_GetName cr] "_".

(** The deletion branch. *)
Definition reconcile_delete : GM (Result * option error) :=
  m_try Delete (fail_with nddv1_Unavailable) (λ _,
  m_try remove_finalizer (fail_with nddv1_Unavailable) (λ _,
  mret (zero_Result, None))).

(** The package is brought up to date when it differs from the actual one. *)
Definition reconcile_write (newPkgResources : resources) (k : GM (Result * option error)) :
    GM (Result * option error) :=
  lifecycle ← GetLifecycle;
  let update := m_try (Update newPkgResources) (fail_with nddv1_Unknown) (λ _, k) in
  if negb (String.eqb lifecycle LifecycleDraft) then
    cr ← get_cr;
    m_try (Create cr) (fail_with nddv1_Unknown) (λ _, update)
  else update.

Definition reconcile_approve (pollInterval : Z) : GM (Result * option error) :=
  m_try Approve (fail_with nddv1_Unknown) (λ _,
  cr ← get_cr;
  _ ← put_cr (SetConditions cr [nddv1_ReconcileSuccess; nddv1_Available]);
  e ← update_status;
  mret ({| Requeue := false; RequeueAfter := pollInterval |}, e)).

(** The current revision is compared with the wanted package, brought up to date
    and approved. *)
Definition reconcile_compare (pollInterval : Z) (newPkgResources : resources) :
    GM (Result * option error) :=
  m_try GetResources (fail_with nddv1_Unknown) (λ actualPkgResources,
  m_try (on_heap (IsEqual newPkgResources (Get actualPkgResources)))
    (fail_with nddv1_Unknown) (λ isEqual,
  if negb isEqual.1 then reconcile_write newPkgResources (reconcile_approve pollInterval)
  else reconcile_approve pollInterval)).

(** The branch of a tenant that is not being deleted. *)
Definition reconcile_package (pollInterval : Z) (packageName : string) :
    GM (Result * option error) :=
  m_try createSourcePackage (fail_with nddv1_Unknown) (λ sourceSubPkgResources,
  m_try createNewPackage (fail_with nddv1_Unknown) (λ newSubPkgResources,
  cr ← get_cr;
  props ← m_deref (ts_Properties (t_Spec cr));
  apps ← m_deref (tp_Applications props);
  o ← call OMapOrder;
  m_try (on_heap (MergePackages o packageName
           (package_map (ref_PackageName (ta_PackageRef apps))
              sourceSubPkgResources newSubPkgResources)))
    (fail_with nddv1_Unknown) (λ newPkgResources,
  m_try (GetOrCreate cr) (fail_with nddv1_Unknown) (λ _,
  reconcile_compare pollInterval newPkgResources)))).

Definition Reconcile (pollInterval : Z) (req : ObjectKey) : GM (Result * option error) :=
  r ← call (OTenantGet req);
  match r.2 with
  | Some err =>
      mret (zero_Result, errors_Wrap (resource_IgnoreNotFound (Some err)) errGetCr)
  | None =>
      _ ← put_cr r.1;
      let packageName := packageName_of r.1 in
      props ← m_deref (ts_Properties (t_Spec r.1));
      _ ← m_modify (set_pkg (New_packageRevision "default" (tp_RepositoryRef props) packageName));
      m_try add_finalizer (fail_with nddv1_Unknown) (λ _,
      cr ← get_cr;
      if meta_WasDeleted (t_ObjectMeta cr) then reconcile_delete
      else reconcile_package pollInterval packageName)
  end.
(** ** Lemmas *)

Lemma createSourcePackage_nil s :
  (props ← ts_Properties (t_Spec (g_cr s)); tp_Applications props) = None →
  createSourcePackage s = Ret (Panic NilDeref, s).
Proof.
  intros Ha. unfold createSourcePackage, mbind, M_bind, m_deref, m_lift. simpl.
  destruct (ts_Properties _) as [props|]; [|done]. simpl in *. by rewrite Ha.
Qed.

Lemma reconcile_package_nil poll name s :
  (props ← ts_Properties (t_Spec (g_cr s)); tp_Applications props) = None →
  reconcile_package poll name s = Ret (Panic NilDeref, s).
Proof. intros Ha. unfold reconcile_package, m_try at 1. by rewrite createSourcePackage_nil. Qed.


(** The field of a source document that takes the name of the tenant. *)
Definition target_path (kind name : string) : option string :=
  if String.eqb kind "RoleBinding" then Some "subjects.[kind=ServiceAccount].namespace"
  else if String.eqb kind "Deployment" then Some "spec.template.metadata.namespace"
  else if String.eqb kind "ConfigMap" && String.eqb name "kptfile.kpt.dev" then Some "data.name"
  else None.

(** The path [fp] names the scalar fields [as_] of [n]; looking them up leaves
    [t1], and neither that nor writing them changes the kind and the name. *)
Definition names_fields (n : RNode) (fp : string) (t1 : RNode) (as_ : list YAddr) : Prop :=
  ∃ fields, rn_PathMatcher (utils_SmarterPathSplitter fp ".") n = (t1, inr fields) ∧
    seq_Elements fields = inr as_ ∧ Forall (λ a, yn_Kind t1 a = ScalarNode) as_ ∧
    let same e := rn_GetKind e = rn_GetKind n ∧ rn_GetName e = rn_GetName n in
    kept_by as_ same ∧ same t1.

Lemma mutate_node_start crName rn n n1 d (h : heap) :
  h !! rn = Some n → rn_SetNamespace crName n = (n1, None) → yaml_Parse crName = inr d →
  mutate_node crName rn h = copy_by_kind rn (length h) (<[rn:=n1]> h ++ [d])%list.
Proof.
  intros Hn Hs Hd. unfold mutate_node.
  rewrite (st_bind_ok _ _ _ _ _ (h_method_err_ok (rn_SetNamespace crName) _ _ _ Hn
    ltac:(by rewrite Hs))). rewrite Hs. cbn [fst].
  rewrite (st_bind_ok _ _ (<[rn:=n1]> h) d (<[rn:=n1]> h)) by (by rewrite Hd).
  rewrite (st_bind_ok _ _ (<[rn:=n1]> h) (length h) (<[rn:=n1]> h ++ [d])%list)
    by (unfold h_alloc; by rewrite length_insert).
  done.
Qed.

Context {EQ : EqDecision YAddr} {KL : KYamlLaws} {KF : KFieldLaws}.

Lemma copy_to_run rn data fp n t1 as_ d (h : heap) :
  h !! rn = Some n → h !! data = Some d → rn ≠ data → yn_Kind d rn_self = ScalarNode →
  names_fields n fp t1 as_ →
  ∃ t' h', copy_to fp rn data h = (Ok (), h') ∧ h' !! rn = Some t' ∧ frame rn h h' ∧
    (length h ≤ length h')%nat ∧ fields_set as_ (yn_Value d rn_self) t1 t' ∧
    rn_GetKind t' = rn_GetKind n ∧ rn_GetName t' = rn_GetName n.
Proof.
  intros Hn Hd Hne Hk (fields & Hm & Hs & Hsc & Hkept & Hsame).
  destruct (copy_one_path rn data fp n t1 d fields as_
    (λ e, rn_GetKind e = rn_GetKind n ∧ rn_GetName e = rn_GetName n) h)
    as (t' & h' & R & Ht' & Hf & HL & Hset & Hmeta); try done.
  exists t', h'. destruct Hmeta. by split_and!.
Qed.

Lemma copy_by_kind_none rn data n (h : heap) :
  h !! rn = Some n → target_path (rn_GetKind n) (rn_GetName n) = None →
  copy_by_kind rn data h = (Ok (), h).
Proof.
  intros Hn Ht. unfold target_path in Ht. unfold copy_by_kind.
  rewrite (st_bind_ok _ _ _ _ _ (h_read_ok _ _ _ Hn)).
  destruct (String.eqb (rn_GetKind n) "RoleBinding"); [done|].
  rewrite (st_bind_ok _ _ h () h) by done. rewrite (st_bind_ok _ _ _ _ _ (h_read_ok _ _ _ Hn)).
  destruct (String.eqb (rn_GetKind n) "Deployment"); [done|].
  rewrite (st_bind_ok _ _ h () h) by done. rewrite (st_bind_ok _ _ _ _ _ (h_read_ok _ _ _ Hn)).
  by destruct (_ && _).
Qed.

Lemma copy_by_kind_some rn data n t1 as_ d fp (h : heap) :
  h !! rn = Some n → h !! data = Some d → rn ≠ data → yn_Kind d rn_self = ScalarNode →
  target_path (rn_GetKind n) (rn_GetName n) = Some fp → names_fields n fp t1 as_ →
  ∃ t' h', copy_by_kind rn data h = (Ok (), h') ∧ h' !! rn = Some t' ∧ frame rn h h' ∧
    fields_set as_ (yn_Value d rn_self) t1 t'.
Proof.
  intros Hn Hd Hne Hk Ht Hf.
  destruct (copy_to_run rn data fp n t1 as_ d h) as (t' & h' & R & Ht' & Hfr & _ & Hset & Hkd & Hnm);
    [done..|].
  exists t', h'. split_and!; [|done..]. unfold target_path in Ht. unfold copy_by_kind.
  rewrite (st_bind_ok _ _ _ _ _ (h_read_ok _ _ _ Hn)).
  destruct (String.eqb_spec (rn_GetKind n) "RoleBinding") as [Hrb|_].
  { simplify_eq. rewrite (st_bind_ok _ _ _ _ _ R).
    rewrite (st_bind_ok _ _ _ _ _ (h_read_ok _ _ _ Ht')), Hkd, Hrb. simpl.
    rewrite (st_bind_ok _ _ h' () h') by done.
    by rewrite (st_bind_ok _ _ _ _ _ (h_read_ok _ _ _ Ht')), Hkd, Hrb. }
  rewrite (st_bind_ok _ _ h () h) by done. rewrite (st_bind_ok _ _ _ _ _ (h_read_ok _ _ _ Hn)).
  destruct (String.eqb_spec (rn_GetKind n) "Deployment") as [Hdp|_].
  { simplify_eq. rewrite (st_bind_ok _ _ _ _ _ R).
    by rewrite (st_bind_ok _ _ _ _ _ (h_read_ok _ _ _ Ht')), Hkd, Hdp. }
  rewrite (st_bind_ok _ _ h () h) by done. rewrite (st_bind_ok _ _ _ _ _ (h_read_ok _ _ _ Hn)).
  destruct (_ && _); [|done]. by simplify_eq.
Qed.

(** Moving a source document to a tenant sets its namespace to the name of
    the tenant; in a RoleBinding, a Deployment and the ConfigMap of the package
    it also sets the fields that name the namespace, and in any other document
    nothing else.  No other document changes. *)
Lemma mutate_node_spec (crName : string) (rn : loc) (n n1 d : RNode) (h : heap) :
  h !! rn = Some n → rn_SetNamespace crName n = (n1, None) →
  yaml_Parse crName = inr d → yn_Kind d rn_self = ScalarNode →
  match target_path (rn_GetKind n1) (rn_GetName n1) with
  | None => mutate_node crName rn h = (Ok (), (<[rn:=n1]> h ++ [d])%list)
  | Some fp => ∀ t1 as_, names_fields n1 fp t1 as_ →
      ∃ t' h', mutate_node crName rn h = (Ok (), h') ∧ h' !! rn = Some t' ∧
        frame rn h h' ∧ fields_set as_ (yn_Value d rn_self) t1 t'
  end.
Proof.
  intros Hn Hs Hd Hk. pose proof (lookup_lt_Some _ _ _ Hn) as Hlt.
  rewrite (mutate_node_start _ _ n n1 d) by done.
  assert ((<[rn:=n1]> h ++ [d])%list !! rn = Some n1) as Hn1.
  { rewrite lookup_app_l by (by rewrite length_insert). by apply list_lookup_insert_eq. }
  assert ((<[rn:=n1]> h ++ [d])%list !! length h = Some d) as Hdl.
  { apply list_lookup_middle. by rewrite length_insert. }
  destruct (target_path _ _) as [fp|] eqn:Ht; [|by apply (copy_by_kind_none _ _ n1)].
  intros t1 as_ Hf.
  destruct (copy_by_kind_some rn (length h) n1 t1 as_ d fp (<[rn:=n1]> h ++ [d])%list)
    as (t' & h' & R & Ht' & Hfr & Hset); try done; [lia|].
  exists t', h'. split_and!; [done..| |done]. intros l Hl Hll.
  rewrite Hfr; [|done|rewrite length_app, length_insert; simpl; lia].
  rewrite lookup_app_l by (by rewrite length_insert). by rewrite list_lookup_insert_ne.
Qed.

(** A document that can be moved to the tenant [crName]. *)
Definition relocatable (crName : string) (n : RNode) : Prop :=
  ∃ n1, rn_SetNamespace crName n = (n1, None) ∧
    ∀ fp, target_path (rn_GetKind n1) (rn_GetName n1) = Some fp → ∃ t1 as_, names_fields n1 fp t1 as_.

(** [n'] is the document [n] moved to the tenant [crName]: its namespace is set,
    and so are the fields that name it, to the scalar [d]. *)
Definition relocated (crName : string) (d n n' : RNode) : Prop :=
  ∃ n1, rn_SetNamespace crName n = (n1, None) ∧
    match target_path (rn_GetKind n1) (rn_GetName n1) with
    | None => n' = n1
    | Some fp => ∃ t1 as_, names_fields n1 fp t1 as_ ∧ fields_set as_ (yn_Value d rn_self) t1 n'
    end.

Lemma mutate_node_ok crName rn n d (h : heap) :
  h !! rn = Some n → relocatable crName n → yaml_Parse crName = inr d →
  yn_Kind d rn_self = ScalarNode →
  ∃ n' h', mutate_node crName rn h = (Ok (), h') ∧ h' !! rn = Some n' ∧ frame rn h h' ∧
    relocated crName d n n'.
Proof.
  intros Hn (n1 & Hs & Hf) Hd Hk. pose proof (mutate_node_spec crName rn n n1 d h Hn Hs Hd Hk) as H.
  unfold relocated. destruct (target_path _ _) as [fp|] eqn:Ht.
  - destruct (Hf fp eq_refl) as (t1 & as_ & Hnf).
    destruct (H t1 as_ Hnf) as (t' & h' & R & Ht' & Hfr & Hset).
    exists t', h'. split_and!; [done..|]. exists n1. rewrite Ht. eauto.
  - pose proof (lookup_lt_Some _ _ _ Hn) as Hlt.
    eexists n1, _. split_and!; [exact H| | |by exists n1; rewrite Ht].
    + rewrite lookup_app_l by (by rewrite length_insert). by apply list_lookup_insert_eq.
    + intros l Hl Hll. rewrite lookup_app_l by (by rewrite length_insert).
      by rewrite list_lookup_insert_ne.
Qed.

(** The loop over the source documents moves every one of them. *)
Lemma mutate_all_ok crName d nodes docs (h : heap) :
  yaml_Parse crName = inr d → yn_Kind d rn_self = ScalarNode →
  Forall2 (λ l n, h !! l = Some n) nodes docs → NoDup nodes → Forall (relocatable crName) docs →
  ∃ docs' h', st_iter (mutate_node crName) nodes h = (Ok (), h') ∧
    Forall2 (relocated crName d) docs docs' ∧ Forall2 (λ l n, h' !! l = Some n) nodes docs' ∧
    ∀ l n, l ∉ nodes → h !! l = Some n → h' !! l = Some n.
Proof.
  intros Hd Hk Hn. revert h docs Hn. induction nodes as [|rn nodes IH]; intros h docs Hn Hnd Hr.
  { apply Forall2_nil_inv_l in Hn as ->. exists [], h. by split_and!. }
  apply Forall2_cons_inv_l in Hn as (n & docs0 & Hrn & Hn & ->).
  apply NoDup_cons in Hnd as [Hni Hnd]. apply Forall_cons in Hr as [Hr0 Hr].
  destruct (mutate_node_ok crName rn n d h Hrn Hr0 Hd Hk) as (n' & h1 & R1 & Hn' & Hfr & Hrel).
  assert (∀ l m, l ≠ rn → h !! l = Some m → h1 !! l = Some m) as Hkeep.
  { intros l m Hl Hm. rewrite Hfr; [done..|by eapply lookup_lt_Some]. }
  destruct (IH h1 docs0) as (docs' & h2 & R2 & Hrels & Hlook & Hkeep2); [|done..|].
  { apply Forall2_same_length_lookup. split; [by eapply Forall2_length|].
    intros j l m Hl Hm. apply Hkeep; [|by apply (Forall2_lookup_lr _ _ _ _ _ _ Hn Hl Hm)].
    intros ->. by apply Hni, (list_elem_of_lookup_2 _ j). }
  exists (n' :: docs'), h2. split_and!.
  - simpl. by rewrite (st_bind_ok _ _ _ _ _ R1).
  - by constructor.
  - constructor; [by apply Hkeep2|done].
  - intros l m [Hl Hl2]%not_elem_of_cons Hm. apply Hkeep2; [done|]. by apply Hkeep.
Qed.
End reconciler.

(** The two packages that are merged keep all their documents unless the
    source package is named namespace, like the other one: then the source
    package is lost. *)
Theorem package_map_nodes (app : string) (source new : resources) :
  (app ≠ "namespace" → all_nodes (package_map app source new) ≡ₚ source ++ new) ∧
  all_nodes (package_map "namespace" source new) = new.
Proof.
  unfold all_nodes, package_map. split.
  - intros Hne. rewrite map_to_list_insert by (by rewrite lookup_singleton_ne).
    rewrite map_to_list_singleton. csimpl. rewrite app_nil_r. apply Permutation_app_comm.
  - rewrite insert_singleton_eq, map_to_list_singleton. csimpl. apply app_nil_r.
Qed.

(** ** Reconciliations against the toy server *)

Section toy.
Definition toy_props : TenantProperties := {|
  tp_OwnerRef := ""; tp_OrganizationRef := ""; tp_Deployment := ""; tp_Region := "";
  tp_AvailabilityZone := ""; tp_RepositoryRef := "repo";
  tp_Applications := Some {| ta_Installation := ∅;
    ta_PackageRef := {| ref_Namespace := ""; ref_RepositoryName := "repo";
                        ref_PackageName := "app"; ref_Revision := "v2" |} |};
  tp_Clusters := [] |}.
Definition toy_tenant : @Tenant toy_types := toy_cr (toy_meta "t1") (Some toy_props).

Definition toy_deployment : string :=
  "kind: Deployment" +:+ nl +:+ "  name: ctl" +:+ nl +:+
  "spec.template.metadata.namespace: x" +:+ nl.

Definition toy_cluster (faults : list (option toy_error)) : world :=
  World [toy_tenant] [toy_pr "src" "app" "v2" "Published"]
    [toy_prr "src" {["ctl.yaml" := toy_deployment; "README.md" := "hi"]}] 1 faults.

Definition toy_reconcile := Reconcile 60000000000 (Key "default" "t1").
Definition nobody : @gstate toy_types := start (New_packageRevision "" "" "") (toy_cr (toy_meta "") None).

Definition after (w : world) : world := world_of toy_reconcile nobody w.
End toy.

Lemma package_map_nodes_witness :
  ("app" ≠ "namespace" → all_nodes (package_map "app" [0; 1] [2]) ≡ₚ [0; 1] ++ [2]) ∧
  all_nodes (package_map "namespace" [0; 1] [2]) = [2].
Proof. exact (package_map_nodes "app" [0; 1] [2]). Defined.

Definition ex_deployment : toy_doc :=
  ToyDoc "Deployment" "ctl" "" [] [("spec.template.metadata.namespace", "x"); ("spec.replicas", "1")].
Definition ex_moved : toy_doc :=
  ToyDoc "Deployment" "ctl" "t1" [] (td_fields ex_deployment).

Lemma ex_moved_fields :
  names_fields (EO:=toy_ops) ex_moved "spec.template.metadata.namespace" ex_moved
    ["spec.template.metadata.namespace"].
Proof.
  eexists. split_and!; [reflexivity|reflexivity|by apply Forall_singleton|].
  split; [|by split]. by intros a v e _ [Hk Hn].
Qed.

Lemma mutate_node_spec_witness :
  ∃ t' h', mutate_node (ET:=toy_types) "t1" 0 [ex_deployment] = (Ok (), h') ∧
    h' !! 0 = Some t' ∧ frame 0 [ex_deployment] h' ∧
    fields_set ["spec.template.metadata.namespace"] "t1" ex_moved t'.
Proof.
  exact (mutate_node_spec (EO:=toy_ops) (EQ:=String.string_dec) "t1" 0 ex_deployment ex_moved
    (td_scalar "t1") [ex_deployment] eq_refl eq_refl eq_refl eq_refl _ _ ex_moved_fields).
Defined.
