(* ===== verification/Wanted.v ===== *)
(** * The wanted package as a function of what was read

    [wanted_package] is the document computation of a reconciliation without its
    requests: the name of the tenant, the name of the source package and the
    resources read from Porch determine the package, up to the order of its
    documents.  [reconcile_package_ok] shows that this is what [Reconcile]
    computes, [createSourcePackage_relocates] what becomes of the documents of
    the source package. *)

From stdpp Require Import base tactics list gmap strings.
From S2P Require Import Prelude.
From S2P Require Import GoStrings.
From S2P Require Import Effects.
From S2P Require Import Deps.
From S2P Require Import Api.
From S2P Require Import Toy.
From S2P Require Import AppResource.
From S2P Require Import Builders.
From S2P Require Import PkgUtil.
From S2P Require Import Services.
From S2P Require Import ToyServer.
From S2P Require Import Revision.
From S2P Require Import Porch.
From S2P Require Import PkgRev.
From S2P Require Import RoundTrip.
From S2P Require Import TenantUtils.
From S2P Require Import Reconciler.

Local Open Scope string_scope.

Section wanted.
Context {ET : ExtTypes} {EO : ExtOps}.
Abbreviation ex o r := (reply (resp:=resp) o r).
Abbreviation HSt := (St error heap).

(** ** The computation *)

Definition source_documents (crName : string) (o : map_order) (res : gmap string string) :
    HSt resources :=
  nodes ← ResourcesToPackageBuffer o res;
  _ ← st_iter (mutate_node crName) nodes;
  add_all New nodes.

Definition new_documents (crName : string) : HSt resources :=
  ns ← BuildNamespace crName;
  k ← BuildKptFile "namespace";
  mret (Add (Add New ns) k).

(** What a reconciliation works from. *)
Record inputs := Inputs {
  i_name : string;                      (** the tenant *)
  i_package : string;                   (** its package *)
  i_app : string;                       (** the source package it refers to *)
  i_resources : gmap string string }.   (** what the source package holds *)

Definition wanted_package (o1 o2 : map_order) (i : inputs) : HSt resources :=
  source ← source_documents (i_name i) o1 (i_resources i);
  new ← new_documents (i_name i);
  MergePackages o2 (i_package i) (package_map (i_app i) source new).

(** The contents of the packages a run loads, in order. *)
Definition loaded_resources (e : entry resp) : option (gmap string string) :=
  match e with existT (OPorchGetResources _) r => Some (prr_Resources r.1) | _ => None end.
Definition packages_read (tr : list (entry resp)) : list (gmap string string) :=
  omap loaded_resources tr.

(** ** Requests that do not write *)

(** An exchange that neither creates a revision nor writes its resources. *)
Definition quiet (e : entry resp) : Prop :=
  match projT1 e with OPorchCreate _ | OPorchUpdateResources _ => False | _ => True end.

(** One that also deletes nothing. *)
Definition calm (e : entry resp) : Prop :=
  match projT1 e with
  | OPorchCreate _ | OPorchUpdateResources _ | OPorchDelete _ | ORemoveFinalizer _ => False
  | _ => True
  end.

#[local] Hint Extern 1 (quiet _) => exact I : core.
#[local] Hint Extern 1 (calm _) => exact I : core.

Lemma calm_quiet e : calm e → quiet e.
Proof. unfold calm, quiet. by destruct (projT1 e). Qed.

Lemma all_calm_quiet tr : Forall calm tr → Forall quiet tr.
Proof. intros H. eapply Forall_impl; [exact H|]. exact calm_quiet. Qed.

Lemma calm_fail_with cond err : asks calm (fail_with cond err).
Proof. unfold fail_with, update_status. repeat asks_step; auto. Qed.

Lemma quiet_fail_with cond err : asks quiet (fail_with cond err).
Proof. eapply asks_mono; [exact calm_quiet|apply calm_fail_with]. Qed.

Lemma calm_Approve : asks calm Approve.
Proof.
  unfold Approve, updatePackageRevisionApproval, GetLifecycle, m_check.
  repeat asks_step; auto.
Qed.

Lemma calm_reconcile_approve poll : asks calm (reconcile_approve poll).
Proof.
  unfold reconcile_approve. apply asks_try; [apply calm_Approve|apply calm_fail_with|].
  intros _. unfold update_status. repeat asks_step; auto.
Qed.

(** ** Documents are only added *)

Definition grows (h h' : heap) : Prop := (length h ≤ length h')%nat.

#[export] Instance grows_preorder : PreOrder grows.
Proof. unfold grows. split; [intros h; done|]. intros h1 h2 h3. lia. Qed.

Lemma grows_read l : st_rel grows (h_read l).
Proof. intros h. done. Qed.
Lemma grows_write l n : st_rel grows (h_write l n).
Proof. intros h. unfold grows, h_write. case_decide; simpl; [by rewrite length_insert|done]. Qed.
Lemma grows_alloc n : st_rel grows (h_alloc n).
Proof. intros h. unfold grows. simpl. rewrite length_app. lia. Qed.

Ltac grows_step :=
  lazymatch goal with
  | |- st_rel grows (mbind _ _) => apply (st_rel_bind grows); [|intros ? ? ? _]
  | |- st_rel grows (h_read _) => apply grows_read
  | |- st_rel grows (h_write _ _) => apply grows_write
  | |- st_rel grows (h_alloc _) => apply grows_alloc
  | |- st_rel grows (st_iter _ _) => apply (st_rel_iter grows); intros ? _
  | |- st_rel grows (match ?x with _ => _ end) => destruct x
  | |- st_rel grows _ => by apply (st_rel_pure grows)
  end.

Lemma grows_CopyValueToTarget target value sel : st_rel grows (CopyValueToTarget target value sel).
Proof.
  unfold CopyValueToTarget, copy_to_path, create_field, match_fields, SetFieldValue, rn_copy.
  repeat grows_step.
Qed.

Lemma grows_mutate_node crName rn : st_rel grows (mutate_node crName rn).
Proof.
  unfold mutate_node, copy_by_kind, copy_to, h_method_err, h_method.
  repeat first [apply grows_CopyValueToTarget|grows_step].
Qed.

(** ** What the parts leave in the store *)

Lemma read_inv o m (h h' : heap) nodes :
  ResourcesToPackageBuffer o m h = (Ok nodes, h') →
  ∃ ns, kio_ReadPackage (resource_reader m <$> resource_keys o m) = inr ns ∧
    nodes = seq (length h) (length ns) ∧ h' = (h ++ ns)%list.
Proof.
  unfold ResourcesToPackageBuffer. intros (ns & h1 & H1 & H)%st_bind_ok_inv.
  unfold st_lift in H1. destruct (kio_ReadPackage _) as [e|ns']; [done|].
  injection H1 as -> <-. rewrite st_map_alloc in H. injection H as <- <-. eauto.
Qed.

Lemma add_all_inv x nodes (h h' : heap) r : add_all x nodes h = (Ok r, h') →
  r = (x ++ nodes)%list ∧ h' = h.
Proof.
  revert x h. induction nodes as [|rn nodes IH]; intros x h; simpl.
  { intros [= <- <-]. by rewrite app_nil_r. }
  intros (x' & h1 & H1 & H)%st_bind_ok_inv. unfold log_and_add in H1.
  apply st_bind_ok_inv in H1 as (s & h2 & H2 & [= <- <-]).
  assert (h2 = h) as ->.
  { unfold h_MustString, mbind, St_bind, h_read in H2. destruct (h !! rn) as [n|]; [|done].
    simpl in H2. destruct (rn_String n); [done|]. by injection H2. }
  apply IH in H as [-> ->]. split; [|done]. unfold Add. by rewrite <-(assoc_L (++)%list).
Qed.

Lemma source_documents_inv crName o res (h h' : heap) ls :
  source_documents crName o res h = (Ok ls, h') →
  ∃ k, ls = seq (length h) k ∧ (length h + k ≤ length h')%nat.
Proof.
  unfold source_documents. intros (nodes & h1 & H1 & H)%st_bind_ok_inv.
  apply st_bind_ok_inv in H as ([] & h2 & H2 & H).
  apply read_inv in H1 as (ns & _ & -> & ->). apply add_all_inv in H as [-> ->].
  exists (length ns). split; [done|].
  apply (st_rel_run (st_rel_iter grows _ _ (λ rn _, grows_mutate_node crName rn))) in H2.
  unfold grows in H2. by rewrite length_app in H2.
Qed.

Lemma build_inv (r : error + RNode) (h h' : heap) l :
  (n ← st_lift (of_sum r); h_alloc n) h = (Ok l, h') → ∃ n, l = length h ∧ h' = (h ++ [n])%list.
Proof.
  intros (n & h1 & H1 & H)%st_bind_ok_inv. unfold st_lift in H1.
  destruct r; [done|]. injection H1 as -> <-. injection H as <- <-. eauto.
Qed.

Lemma new_documents_inv crName (h h' : heap) ls :
  new_documents crName h = (Ok ls, h') →
  ls = [length h; S (length h)] ∧ (length h ≤ length h')%nat.
Proof.
  unfold new_documents. intros (l1 & h1 & H1 & H)%st_bind_ok_inv.
  apply st_bind_ok_inv in H as (l2 & h2 & H2 & [= <- <-]).
  apply build_inv in H1 as (n1 & -> & ->). apply build_inv in H2 as (n2 & -> & ->).
  rewrite !length_app. simpl. split; [|lia]. by rewrite Nat.add_1_r.
Qed.

Lemma package_map_NoDup app source new :
  NoDup (source ++ new)%list → NoDup (all_nodes (package_map app source new)).
Proof.
  intros Hnd. destruct (package_map_nodes app source new) as [Hne He].
  destruct (decide (app = "namespace")) as [->|Ha].
  - rewrite He. by apply NoDup_app in Hnd as (_ & _ & ?).
  - by rewrite (Hne Ha).
Qed.

(** ** Map iteration orders do not matter *)

Lemma source_documents_order crName o1 o2 res :
  source_documents crName o1 res = source_documents crName o2 res.
Proof.
  unfold source_documents, ResourcesToPackageBuffer. by rewrite (resource_keys_order o1 o2).
Qed.

Lemma wanted_package_perm o1 o2 o1' o2' i (h h' : heap) rs :
  wanted_package o1 o2 i h = (Ok rs, h') →
  ∃ rs', wanted_package o1' o2' i h = (Ok rs', h') ∧ rs' ≡ₚ rs.
Proof.
  unfold wanted_package. intros (source & h1 & H1 & H)%st_bind_ok_inv.
  apply st_bind_ok_inv in H as (new & h2 & H2 & H).
  rewrite (source_documents_order _ o1' o1), (st_bind_ok _ _ _ _ _ H1), (st_bind_ok _ _ _ _ _ H2).
  apply (MergePackages_perm o2 o2'); [|done]. apply package_map_NoDup.
  destruct (source_documents_inv _ _ _ _ _ _ H1) as (k & -> & Hk).
  destruct (new_documents_inv _ _ _ _ H2) as [-> _].
  apply NoDup_app. split_and!; [apply NoDup_seq| |].
  - intros l Hl%elem_of_seq. set_solver by lia.
  - apply NoDup_cons. split; [|apply NoDup_singleton]. set_solver by lia.
Qed.

(** ** What [Reconcile] computes *)

(** The source package a tenant refers to, and its name. *)
Definition spec_source (spec : TenantSpec) : option PackageRevisionReference :=
  props ← ts_Properties spec; apps ← tp_Applications props; Some (ta_PackageRef apps).
Definition source_of (cr : Tenant) : option PackageRevisionReference := spec_source (t_Spec cr).
Definition app_of (cr : Tenant) : option string := ref_PackageName <$> source_of cr.

(** The revision of it among those listed. *)
Definition source_revision (ref : PackageRevisionReference) (items : list PackageRevision) :
    option PackageRevision :=
  snd <$> list_find (λ pr, IsFound (reference_of pr) (Some ref) = true) items.

Lemma source_revision_first ref items pr :
  source_revision ref items = Some pr → first_referred ref items pr.
Proof.
  unfold source_revision. destruct (list_find _ items) as [[i pr']|] eqn:E; [|done].
  intros [= <-]. by eapply find_first_referred.
Qed.

Lemma createSourcePackage_ok (s s' : gstate) tr a :
  exec (createSourcePackage s) tr (Ok a, s') →
  ∃ ref items err pr src ord h', source_of (g_cr s) = Some ref ∧ list_error err = None ∧
    source_revision ref items = Some pr ∧
    tr = [ex OPorchList (items, err);
          ex (OPorchGetResources (Key "default" (pr_Name pr))) (src, None); ex OMapOrder ord] ∧
    source_documents (t_GetName (g_cr s)) ord (prr_Resources src) (g_heap s) = (Ok a, h') ∧
    s' = set_heap h' s.
Proof.
  intros H. by_traced H.
  unfold createSourcePackage, GetPackageRevision, GetPackageRevisionResources, source_of, spec_source.
  repeat svc_step; try done. subst. rename r into ord.
  destruct (ResourcesToPackageBuffer ord _ (g_heap s)) as [[nodes|e|f] h1] eqn:E1; [|done..].
  do 3 svc_step. simpl.
  destruct (st_iter (mutate_node (t_GetName (g_cr s))) nodes h1) as [[[]|e|f] h2] eqn:E2; simpl; [|by intros [=]..].
  cbn [on_ok fst snd]. svc_step. simpl. intros Ho.
  destruct (add_all New nodes h2) as [oa h3] eqn:E3. simpl in Ho. subst oa.
  eexists _, _, _, _, _, _, h3. split_and!; [by rewrite Heqo1|done| |reflexivity| |done].
  { unfold source_revision. by rewrite Heqo3. }
  unfold source_documents. by rewrite (st_bind_ok _ _ _ _ _ E1), (st_bind_ok _ _ _ _ _ E2).
Qed.

Lemma createNewPackage_runs (s s' : gstate) tr o :
  exec (createNewPackage s) tr (o, s') →
  let res := new_documents (t_GetName (g_cr s)) (g_heap s) in
  tr = [] ∧ o = res.1 ∧ s' = set_heap res.2 s.
Proof.
  intros H. by_traced H. unfold createNewPackage, new_documents. do 4 svc_step.
  destruct (BuildNamespace (t_GetName (g_cr s)) (g_heap s)) as [[l1|e|f] h1] eqn:E1;
    [|by rewrite (st_bind_err _ _ _ _ _ E1)|by rewrite (st_bind_panic _ _ _ _ _ E1)].
  rewrite (st_bind_ok _ _ _ _ _ E1). cbn [on_ok fst snd]. do 2 svc_step. cbn [g_heap set_heap].
  destruct (BuildKptFile "namespace" h1) as [[l2|e|f] h2] eqn:E2;
    [|by rewrite (st_bind_err _ _ _ _ _ E2)|by rewrite (st_bind_panic _ _ _ _ _ E2)].
  rewrite (st_bind_ok _ _ _ _ _ E2). cbn [on_ok fst snd]. by svc_step.
Qed.

(** The rest of the reconciliation, with the wanted package at [new]. *)
Definition reconcile_rest (poll : Z) (cr : Tenant) (new : resources) :
    GM (Result * option error) :=
  m_try (GetOrCreate cr) (fail_with nddv1_Unknown) (λ _, reconcile_compare poll new).

Lemma calm_createSourcePackage : asks calm createSourcePackage.
Proof.
  unfold createSourcePackage, GetPackageRevision, GetPackageRevisionResources, m_check, on_heap.
  repeat asks_step; auto.
Qed.

Lemma calm_createNewPackage : asks calm createNewPackage.
Proof. unfold createNewPackage, on_heap. repeat asks_step. Qed.

(** A run that stops early makes no write and does not schedule the next poll. *)
Definition stopped (tr : list (entry resp)) (o : outcome error (Result * option error)) : Prop :=
  Forall calm tr ∧ ∀ r, o = Ok r → Requeue r.1 = true ∨ RequeueAfter r.1 = 0%Z.

Lemma stopped_app tr1 tr2 o : Forall calm tr1 → stopped tr2 o → stopped (tr1 ++ tr2)%list o.
Proof. intros Hc [Hs Ho]. split; [|done]. by apply Forall_app. Qed.

Lemma fail_with_stopped cond err (s s' : gstate) tr o :
  exec (fail_with cond err s) tr (o, s') → stopped tr o.
Proof.
  intros H. split; [by eapply calm_fail_with|]. by_traced H. unfold fail_with, update_status.
  repeat svc_step. intros ? [= <-]. by left.
Qed.

(** A run of [m] with a failure branch that only reports: [m] ended normally, or
    the run stops. *)
Lemma exec_or_calm {A} (m : GM A) cond k (s s' : gstate) tr (o : outcome error (Result * option error)) :
  asks calm m → exec (m_try m (fail_with cond) k s) tr (o, s') →
  stopped tr o ∨ ∃ tr1 a s1 tr2, tr = (tr1 ++ tr2)%list ∧ exec (m s) tr1 (Ok a, s1) ∧
    Forall calm tr1 ∧ exec (k a s1) tr2 (o, s').
Proof.
  intros Hq (tr1 & oa & s1 & tr2 & -> & H1 & H)%exec_try. pose proof (Hq _ _ _ _ H1) as Hq1.
  destruct oa as [a|e|f].
  - right. by exists tr1, a, s1, tr2.
  - left. apply stopped_app; [done|]. by eapply fail_with_stopped.
  - left. destruct H as (-> & -> & _). rewrite app_nil_r. by split.
Qed.

Lemma reconcile_package_ok poll name (s s' : gstate) tr o :
  exec (reconcile_package poll name s) tr (o, s') →
  stopped tr o ∨
  ∃ ref items err pr src o1 o2 new h' tr2,
    source_of (g_cr s) = Some ref ∧ list_error err = None ∧
    source_revision ref items = Some pr ∧
    tr = ([ex OPorchList (items, err);
           ex (OPorchGetResources (Key "default" (pr_Name pr))) (src, None);
           ex OMapOrder o1; ex OMapOrder o2] ++ tr2)%list ∧
    wanted_package o1 o2 (Inputs (t_GetName (g_cr s)) name (ref_PackageName ref)
      (prr_Resources src)) (g_heap s) =
      (Ok new, h') ∧
    exec (reconcile_rest poll (g_cr s) new (set_heap h' s)) tr2 (o, s').
Proof.
  unfold reconcile_package.
  intros [|(tr1 & source & s1 & tr2 & -> & H1 & Hq1 & H)]%exec_or_calm;
    [by left| |apply calm_createSourcePackage].
  apply createSourcePackage_ok in H1
    as (ref & items & err & pr & src & o1 & h1 & Href & Herr & Hpr & -> & E1 & ->).
  apply exec_or_calm in H as [|(tr1 & new & s1 & tr3 & -> & H1 & Hq2 & H)];
    [left; by apply stopped_app| |apply calm_createNewPackage].
  apply createNewPackage_runs in H1 as (-> & E2 & ->). cbn [g_cr g_heap set_heap] in H, E2.
  destruct (new_documents (t_GetName (g_cr s)) h1) as [on h2] eqn:E2'. cbn [fst snd] in H, E2.
  subst on. rename E2' into E2.
  apply (exec_pure get_cr _ _ _ _ _ _ eq_refl) in H. unfold source_of, spec_source in Href. simpl in H, Href.
  destruct (ts_Properties (t_Spec (g_cr s))) as [props|] eqn:Hprops; [|done].
  apply (exec_pure (m_deref (Some props)) _ _ _ _ _ _ eq_refl) in H. simpl in H, Href.
  destruct (tp_Applications props) as [apps|] eqn:Happs; [|done]. injection Href as <-.
  apply (exec_pure (m_deref (Some apps)) _ _ _ _ _ _ eq_refl) in H.
  apply exec_seq in H as (tr1 & oa & s1 & tr2 & -> & H1 & H).
  destruct (exec_call OMapOrder _ _ _ _ H1) as (o2 & -> & -> & ->). clear H1.
  apply exec_or_calm in H as [|(tr1 & rs & s1 & tr3 & -> & H1 & _ & H)];
    [left; repeat apply stopped_app; auto| |apply asks_zoom].
  apply exec_zoom in H1 as (-> & H1 & ->). cbn [g_heap set_heap] in H1.
  destruct (MergePackages o2 name _ h2) as [om h3] eqn:E3. cbn [fst] in H1. subst om.
  right. exists (ta_PackageRef apps), items, err, pr, src, o1, o2, rs, h3, tr3.
  split_and!; [|done|done|done| |].
  - unfold source_of, spec_source. by rewrite Hprops; simpl; rewrite Happs.
  - unfold wanted_package. simpl.
    by rewrite (st_bind_ok _ _ _ _ _ E1), (st_bind_ok _ _ _ _ _ E2).
  - unfold reconcile_rest. simpl in H. cbn [g_heap set_heap fst snd] in *. rewrite E3 in H. exact H.
Qed.

(** The state in which the package of a tenant is handled. *)
Definition package_state (cr fin : Tenant) (props : TenantProperties) (s : gstate) : gstate :=
  set_cr fin (set_pkg (New_packageRevision "default" (tp_RepositoryRef props) (packageName_of cr))
                (set_cr cr s)).

Lemma quiet_reconcile_delete : asks quiet reconcile_delete.
Proof.
  unfold reconcile_delete, Delete, remove_finalizer, m_check.
  apply asks_try; [|intros; apply quiet_fail_with|].
  { repeat asks_step; auto. apply asks_iter. intros pr. repeat asks_step; auto. }
  intros _. apply asks_try; [|intros; apply quiet_fail_with|]; intros; repeat asks_step; auto.
Qed.

Lemma Reconcile_ok poll req (s s' : gstate) tr o :
  exec (Reconcile poll req s) tr (o, s') →
  stopped tr o ∨
  (∃ cr fin, ex (OAddFinalizer cr) (fin, None) ∈ tr ∧
     meta_WasDeleted (t_ObjectMeta fin) = true ∧ Forall quiet tr) ∨
  ∃ cr props fin tr2, ts_Properties (t_Spec cr) = Some props ∧
    tr = ([ex (OTenantGet req) (cr, None); ex (OAddFinalizer cr) (fin, None)] ++ tr2)%list ∧
    meta_WasDeleted (t_ObjectMeta fin) = false ∧
    exec (reconcile_package poll (packageName_of cr) (package_state cr fin props s)) tr2 (o, s').
Proof.
  unfold Reconcile. intros (tr1 & oa & s1 & tr2 & -> & H1 & H)%exec_seq.
  destruct (exec_call (OTenantGet req) _ _ _ _ H1) as ([cr err] & -> & -> & ->). clear H1.
  cbn [fst snd] in H. destruct err as [err|].
  { left. destruct tr2; [|done]. injection H as -> _. split; [repeat constructor|].
    intros r [= <-]. by right. }
  apply (exec_pure (put_cr cr) _ _ _ _ _ _ eq_refl) in H.
  destruct (ts_Properties (t_Spec cr)) as [props|] eqn:Hprops.
  2:{ left. destruct tr2; [|done]. injection H as -> _. by split; [repeat constructor|]. }
  apply (exec_pure (m_deref (Some props)) _ _ _ _ _ _ eq_refl) in H.
  apply (exec_pure (m_modify _) _ _ _ _ _ _ eq_refl) in H.
  apply exec_or_calm in H as [|(tr1 & [] & s1 & tr3 & -> & H1 & Hq & H)];
    [left; by apply (stopped_app [_]); [repeat constructor|]| |unfold add_finalizer, m_check; repeat asks_step; auto].
  assert (∃ fin, tr1 = [ex (OAddFinalizer cr) (fin, None)] ∧ s1 = package_state cr fin props s)
    as (fin & -> & ->).
  { clear H Hq. by_traced H1. unfold add_finalizer. repeat svc_step; try done.
    intros _. by eexists. }
  apply (exec_pure get_cr _ _ _ _ _ _ eq_refl) in H. cbn [g_cr package_state set_cr] in H.
  destruct (meta_WasDeleted (t_ObjectMeta fin)) eqn:Hd.
  - right. left. exists cr, fin. split_and!; [set_solver|done|].
    repeat (constructor; [done|]). by eapply quiet_reconcile_delete.
  - right. right. by exists cr, props, fin, tr3.
Qed.

(** ** Property *)

(** C30: The source package is moved to the tenant: a run of [createSourcePackage]
    that ends normally has listed the revisions once and loaded the resources of the
    first one that the package reference of the tenant names, and its result are
    the documents of the KRM files of these resources, in order, each with the
    namespace - and the fields that name it - set to the name of the tenant.  No
    document that was there before is changed. *)
Theorem createSourcePackage_relocates {EQ : EqDecision YAddr} {KL : KYamlLaws} {KF : KFieldLaws}
    (d : RNode) (s s' : gstate) tr a :
  exec (createSourcePackage s) tr (Ok a, s') →
  yaml_Parse (t_GetName (g_cr s)) = inr d → yn_Kind d rn_self = ScalarNode →
  (∀ k src err docs, ex (OPorchGetResources k) (src, err) ∈ tr →
    kio_ReadPackage (resource_reader (prr_Resources src) <$>
      resource_keys mo_id (prr_Resources src)) = inr docs →
    Forall (relocatable (t_GetName (g_cr s))) docs) →
  ∃ ref items err pr src ord docs docs',
    source_of (g_cr s) = Some ref ∧ list_error err = None ∧ first_referred ref items pr ∧
    tr = [ex OPorchList (items, err);
          ex (OPorchGetResources (Key "default" (pr_Name pr))) (src, None); ex OMapOrder ord] ∧
    kio_ReadPackage (resource_reader (prr_Resources src) <$>
      resource_keys mo_id (prr_Resources src)) = inr docs ∧
    Forall2 (relocated (t_GetName (g_cr s)) d) docs docs' ∧
    Forall2 (λ l n, g_heap s' !! l = Some n) a docs' ∧
    ∀ l n, g_heap s !! l = Some n → g_heap s' !! l = Some n.
Proof.
  intros H Hd Hk Hr.
  apply createSourcePackage_ok in H
    as (ref & items & err & pr & src & ord & h' & Href & Herr & Hpr & -> & H & ->).
  unfold source_documents in H. apply st_bind_ok_inv in H as (nodes & h1 & H1 & H).
  apply st_bind_ok_inv in H as ([] & h2 & H2 & H3).
  apply read_inv in H1 as (docs & Hdocs & -> & ->). apply add_all_inv in H3 as [-> ->].
  rewrite (resource_keys_order ord mo_id) in Hdocs.
  assert (Forall2 (λ l n, (g_heap s ++ docs)%list !! l = Some n)
    (seq (length (g_heap s)) (length docs)) docs) as Hn.
  { apply Forall2_same_length_lookup. split; [by rewrite length_seq|].
    intros j l n [-> _]%lookup_seq Hj. by rewrite lookup_app_r, Nat.add_comm, Nat.add_sub by lia. }
  destruct (mutate_all_ok _ d _ docs _ Hd Hk Hn (NoDup_seq _ _))
    as (docs' & h2' & R & Hrel & Hlook & Hkeep); [by apply (Hr (Key "default" (pr_Name pr)) src None docs); [set_solver|]|].
  rewrite R in H2. injection H2 as ->.
  exists ref, items, err, pr, src, ord, docs, docs'.
  split_and!; [done|done|by apply source_revision_first|done..|].
  intros l n Hl. apply Hkeep; [|by apply lookup_app_l_Some].
  apply lookup_lt_Some in Hl. rewrite elem_of_seq. lia.
Qed.
End wanted.

(** ** The source package of the toy tenant *)

Section examples.
Abbreviation ex o r := (reply (resp:=toy_resp) o r).

Definition ex_at_source : @gstate toy_types := start (New_packageRevision "" "" "") toy_tenant.
Definition ex_source_run := exchanges_of createSourcePackage ex_at_source (toy_cluster []).
Definition ex_source_files : gmap string string :=
  {["ctl.yaml" := toy_deployment; "README.md" := "hi"]}.

(** Any document that holds the field of its kind can be moved. *)
Lemma toy_relocatable (n : toy_doc) :
  (∀ fp, target_path (td_kind n) (td_name n) = Some fp → Join (Split fp ".") "." = fp ∧
    is_Some (assoc fp (td_fields n))) →
  relocatable (EO:=toy_ops) "t1" n.
Proof.
  intros H. eexists. split; [reflexivity|]. intros fp Hfp. destruct (H fp Hfp) as [Hj Hf].
  eexists _, [fp]. eexists. simpl. rewrite Hj. destruct (assoc fp (td_fields n)) eqn:E; [|by destruct Hf].
  split_and!; [reflexivity|reflexivity| |by intros a v e _ [? ?]|done|done].
  apply Forall_singleton. simpl. by rewrite E.
Qed.

Lemma createSourcePackage_relocates_witness :
  ∃ ref items err pr src ord docs docs',
    source_of toy_tenant = Some ref ∧ list_error err = None ∧ first_referred ref items pr ∧
    ex_source_run = [ex OPorchList (items, err);
      ex (OPorchGetResources (Key "default" (pr_Name pr))) (src, None); ex OMapOrder ord] ∧
    kio_ReadPackage (resource_reader (prr_Resources src) <$>
      resource_keys mo_id (prr_Resources src)) = inr docs ∧
    Forall2 (relocated "t1" (td_scalar "t1")) docs docs' ∧
    Forall2 (λ l n, g_heap (state_of createSourcePackage ex_at_source (toy_cluster [])) !! l = Some n)
      [0] docs' ∧
    ∀ l n, g_heap ex_at_source !! l = Some n →
      g_heap (state_of createSourcePackage ex_at_source (toy_cluster [])) !! l = Some n.
Proof.
  apply (createSourcePackage_relocates (EO:=toy_ops) (EQ:=String.string_dec) (td_scalar "t1")
    ex_at_source).
  - exact (serve_exec_to createSourcePackage ex_at_source (toy_cluster []) (Ok [0]) eq_refl).
  - reflexivity.
  - reflexivity.
  - intros k src err docs Hin Hdocs.
    assert (Forall (eq ex_source_files) (packages_read ex_source_run)) as Hs
      by (vm_compute; repeat constructor).
    rewrite Forall_forall in Hs. rewrite <-(Hs (prr_Resources src)) in Hdocs
      by (apply list_elem_of_omap; by eexists).
    vm_compute in Hdocs. injection Hdocs as <-. apply Forall_singleton, toy_relocatable.
    intros fp [= <-]. split; [reflexivity|by eexists].
Defined.
End examples.
