(* ===== verification/Cluster.v ===== *)
(** * The cluster between reconciliations

    A specification of the servers the controller talks to, as far as its
    package is concerned: a store of tenants, package revisions and their contents.
    [lawful] says which answers such a store gives - it may also refuse any
    request - and [applied] what a request changes.  [Settle] composes
    reconciliations with it. *)

From stdpp Require Import base tactics list gmap strings.
From S2P Require Import Prelude.
From S2P Require Import GoStrings.
From S2P Require Import Effects.
From S2P Require Import Deps.
From S2P Require Import Api.
From S2P Require Import Services.
From S2P Require Import Porch.
From S2P Require Import Revision.
From S2P Require Import PkgRev.
From S2P Require Import Reconciler.
From S2P Require Import Wanted.

Local Open Scope string_scope.

Section cluster.
Context {ET : ExtTypes} {EO : ExtOps}.
Abbreviation ex o r := (reply (resp:=resp) o r).

(** ** The store *)

Record cluster := Cluster {
  c_specs : gmap string TenantSpec;                  (** of the live tenants, by name *)
  c_prs : list PackageRevision;
  c_files : gmap string (gmap string string) }.      (** contents, by revision name *)

Definition resources_name (prr : PackageRevisionResources) : string := om_Name (prr_ObjectMeta prr).

(** What Porch puts into a revision that it creates. *)
Context (init_files : PackageRevision → gmap string string).

Definition touch (name l : string) (pr : PackageRevision) : PackageRevision :=
  if String.eqb (pr_Name pr) name then set_Lifecycle l pr else pr.

(** The lifecycle is the only part of a revision an update changes. *)
Definition with_lifecycle (pr : PackageRevision) (c : cluster) : cluster :=
  Cluster (c_specs c) (touch (pr_Name pr) (pr_Lifecycle pr) <$> c_prs c) (c_files c).

Definition add_revision (pr : PackageRevision) (c : cluster) : cluster :=
  Cluster (c_specs c) (c_prs c ++ [pr]) (<[pr_Name pr := init_files pr]> (c_files c)).

Definition put_files (prr : PackageRevisionResources) (c : cluster) : cluster :=
  Cluster (c_specs c) (c_prs c) (<[resources_name prr := prr_Resources prr]> (c_files c)).

Definition remove_revision (pr : PackageRevision) (c : cluster) : cluster :=
  Cluster (c_specs c) (filter (λ pr', pr_Name pr' ≠ pr_Name pr) (c_prs c)) (c_files c).

(** What an exchange changes; a refused request changes nothing. *)
Definition applied (c : cluster) (e : entry resp) : cluster :=
  match e with
  | existT (OPorchCreate _) (pr, None) => add_revision pr c
  | existT (OPorchUpdateRevision pr) (_, None) | existT (ORestPutApproval pr) None =>
      with_lifecycle pr c
  | existT (OPorchUpdateResources prr) (_, None) => put_files prr c
  | existT (OPorchDelete pr) None => remove_revision pr c
  | _ => c
  end.

(** The answers the store gives. *)
Definition answers (c : cluster) (e : entry resp) : Prop :=
  match e with
  | existT (OTenantGet k) (cr, None) =>
      c_specs c !! key_Name k = Some (t_Spec cr) ∧ t_GetName cr = key_Name k
  | existT (OAddFinalizer cr) (fin, None) =>
      c_specs c !! t_GetName cr = Some (t_Spec fin) ∧ t_GetName fin = t_GetName cr ∧
      meta_WasDeleted (t_ObjectMeta fin) = false
  | existT OPorchList (items, err) => list_error err = None → items = c_prs c
  | existT (OPorchCreate pr) (pr', None) =>
      pr_Name pr' ≠ "" ∧ (pr_Name pr' ∉ pr_Name <$> c_prs c) ∧
      pr_PackageName pr' = pr_PackageName pr ∧ pr_Revision pr' = pr_Revision pr
  | existT (OPorchGetResources k) (prr, None) =>
      resources_name prr = key_Name k ∧ c_files c !! key_Name k = Some (prr_Resources prr)
  | _ => True
  end.

Fixpoint lawful (c : cluster) (tr : list (entry resp)) : Prop :=
  match tr with
  | [] => True
  | e :: tr' => answers c e ∧ lawful (applied c e) tr'
  end.

(** Whether the store gives these answers can be computed. *)
#[export] Instance answers_dec `{!EqDecision TenantSpec, !EqDecision PackageRevision} c e :
  Decision (answers c e).
Proof. destruct e as [[] r]; simpl in r |- *; try apply _; destruct r as [? [?|]]; apply _. Defined.

Fixpoint is_lawful `{!EqDecision TenantSpec, !EqDecision PackageRevision}
    (c : cluster) (tr : list (entry resp)) : bool :=
  match tr with
  | [] => true
  | e :: tr' => if decide (answers c e) then is_lawful (applied c e) tr' else false
  end.

Lemma is_lawful_ok `{!EqDecision TenantSpec, !EqDecision PackageRevision} c tr :
  is_lawful c tr = true → lawful c tr.
Proof.
  revert c. induction tr as [|e tr IH]; intros c; simpl; [done|].
  case_decide; [|done]. intros Hl%IH. done.
Qed.

(** The cluster after the exchanges [tr]. *)
Definition after_trace (c : cluster) (tr : list (entry resp)) : cluster := foldl applied c tr.

Lemma lawful_app c tr1 tr2 :
  lawful c (tr1 ++ tr2)%list ↔ lawful c tr1 ∧ lawful (after_trace c tr1) tr2.
Proof.
  revert c. induction tr1 as [|e tr1 IH]; intros c; simpl; [tauto|]. rewrite IH. tauto.
Qed.

(** A property kept by every exchange of a trace is kept by the trace. *)
Lemma lawful_inv (I : cluster → Prop) (P : entry resp → Prop) c tr :
  (∀ c e, answers c e → P e → I c → I (applied c e)) →
  lawful c tr → Forall P tr → I c → I (after_trace c tr).
Proof.
  intros Hstep. revert c. induction tr as [|e tr IH]; intros c; [done|].
  intros [Ha Hl] [He Htr]%Forall_cons Hc. apply IH; auto.
Qed.

(** ** Revisions and their lifecycle *)

Lemma touch_Name name l pr : pr_Name (touch name l pr) = pr_Name pr.
Proof. unfold touch. by destruct (String.eqb _ _). Qed.
Lemma touch_PackageName name l pr : pr_PackageName (touch name l pr) = pr_PackageName pr.
Proof. unfold touch. by destruct (String.eqb _ _). Qed.
Lemma touch_Revision name l pr : pr_Revision (touch name l pr) = pr_Revision pr.
Proof. unfold touch. by destruct (String.eqb _ _). Qed.
Lemma touch_reference name l pr : reference_of (touch name l pr) = reference_of pr.
Proof. unfold touch. by destruct (String.eqb _ _). Qed.

Lemma touch_names name l (prs : list PackageRevision) : pr_Name <$> (touch name l <$> prs) = pr_Name <$> prs.
Proof. rewrite <-list_fmap_compose. apply list_fmap_ext. intros. apply touch_Name. Qed.

Lemma matching_touch package name l (prs : list PackageRevision) :
  matching package (touch name l <$> prs) = touch name l <$> matching package prs.
Proof.
  unfold matching. induction prs as [|pr prs IH]; csimpl; [done|].
  rewrite !filter_cons, touch_PackageName. case_decide; csimpl; by rewrite IH.
Qed.

Lemma first_latest_touch name l (pl : list PackageRevision) pr :
  first_latest pl pr → first_latest (touch name l <$> pl) (touch name l pr).
Proof.
  intros (before & after & -> & Hpos & Hb & Ha). exists (touch name l <$> before), (touch name l <$> after).
  rewrite fmap_app, fmap_cons, touch_Revision, !Forall_fmap. split_and!; [done..| |].
  - eapply Forall_impl; [exact Hb|]. intros pr'. simpl. by rewrite touch_Revision.
  - eapply Forall_impl; [exact Ha|]. intros pr'. simpl. by rewrite touch_Revision.
Qed.

Lemma source_revision_touch ref name l (prs : list PackageRevision) :
  source_revision ref (touch name l <$> prs) = touch name l <$> source_revision ref prs.
Proof.
  unfold source_revision. rewrite list_find_fmap.
  assert (list_find ((λ pr, IsFound (reference_of pr) (Some ref) = true) ∘ touch name l) prs =
    list_find (λ pr, IsFound (reference_of pr) (Some ref) = true) prs) as ->.
  { apply list_find_ext. intros pr. unfold compose. by rewrite touch_reference. }
  by destruct (list_find _ prs) as [[n pr]|].
Qed.

Lemma source_revision_app ref (prs prs' : list PackageRevision) src :
  source_revision ref prs = Some src → source_revision ref (prs ++ prs')%list = Some src.
Proof.
  unfold source_revision. destruct (list_find _ prs) as [[n pr]|] eqn:E; [|done].
  by rewrite (list_find_app_l _ _ _ _ _ E).
Qed.

Lemma source_revision_elem ref prs src : source_revision ref prs = Some src → src ∈ prs.
Proof.
  unfold source_revision. destruct (list_find _ prs) as [[n pr]|] eqn:E; [|done].
  intros [= <-]. apply list_find_Some in E as (Hi & _). by apply list_elem_of_lookup_2 in Hi.
Qed.
(** ** What a reconciliation relies on *)

Section based.
Context (ref : PackageRevisionReference) (i : inputs).

(** Revisions have names, and different ones. *)
Definition sound (c : cluster) : Prop :=
  NoDup (pr_Name <$> c_prs c) ∧ Forall (λ pr, pr_Name pr ≠ "") (c_prs c).

(** The tenant is live, refers to its source package with [ref], and its own
    package has its name. *)
Definition has_tenant (c : cluster) : Prop :=
  i_package i = Join [Group; TenantKind; i_name i] "_" ∧ i_app i = ref_PackageName ref ∧
  ∃ spec, c_specs c !! i_name i = Some spec ∧ spec_source spec = Some ref.

(** The source package is listed, with the wanted contents, and is another one
    than the package of the tenant. *)
Definition has_source (c : cluster) : Prop :=
  ∃ src, source_revision ref (c_prs c) = Some src ∧ pr_PackageName src ≠ i_package i ∧
    c_files c !! pr_Name src = Some (i_resources i).

Definition based (c : cluster) : Prop := sound c ∧ has_tenant c ∧ has_source c.

(** [pr] is the latest revision of the tenant's package. *)
Definition latest (c : cluster) (pr : PackageRevision) : Prop :=
  first_latest (matching (i_package i) (c_prs c)) pr.

(** The latest revision of the package has the contents [m]. *)
Definition holds (c : cluster) (m : gmap string string) : Prop :=
  ∃ pr, latest c pr ∧ c_files c !! pr_Name pr = Some m.

Lemma latest_elem c pr : latest c pr → pr ∈ c_prs c ∧ pr_PackageName pr = i_package i.
Proof. intros [??]%first_latest_elem%elem_of_matching. done. Qed.

Lemma latest_select c pr :
  latest c pr → (select_latest (matching (i_package i) (c_prs c))).1 = pr.
Proof.
  intros Hl. destruct (select_latest_cases (matching (i_package i) (c_prs c)))
    as [[_ H0]|(pr' & -> & Hl')]; simpl.
  - pose proof (first_latest_elem _ _ Hl) as Hin. destruct Hl as (? & ? & _ & Hpos & _).
    rewrite Forall_forall in H0. apply H0 in Hin. lia.
  - by eapply first_latest_unique.
Qed.

Lemma source_name_other c src pr :
  sound c → source_revision ref (c_prs c) = Some src → pr_PackageName src ≠ i_package i →
  pr ∈ c_prs c → pr_PackageName pr = i_package i → pr_Name pr ≠ pr_Name src.
Proof.
  intros [Hnd _] Hsrc%source_revision_elem Hne Hpr Hpkg Heq.
  apply list_elem_of_lookup in Hsrc as [j Hj], Hpr as [k Hk].
  assert (j = k) as <-.
  { eapply (NoDup_lookup _ _ _ (pr_Name src) Hnd); rewrite list_lookup_fmap.
    - by rewrite Hj.
    - by rewrite Hk, <-Heq. }
  by simplify_eq.
Qed.

(** *** Changes *)

Lemma based_lifecycle pr c : based c → based (with_lifecycle pr c).
Proof.
  intros ([Hnd Hne] & Ht & src & Hsrc & Hpkg & Hf). split_and!; [|exact Ht|].
  - unfold sound. simpl. rewrite touch_names, Forall_fmap. split; [done|].
    eapply Forall_impl; [exact Hne|]. intros pr'. simpl. by rewrite touch_Name.
  - eexists. simpl. rewrite source_revision_touch, Hsrc. split; [done|].
    by rewrite touch_PackageName, touch_Name.
Qed.

Lemma holds_lifecycle pr c m : holds c m → holds (with_lifecycle pr c) m.
Proof.
  intros (pr' & Hl & Hf). eexists. split.
  - unfold latest. simpl. rewrite matching_touch. by apply first_latest_touch.
  - simpl. by rewrite touch_Name.
Qed.

Lemma based_add pr c :
  based c → pr_Name pr ≠ "" → (pr_Name pr ∉ pr_Name <$> c_prs c) → based (add_revision pr c).
Proof.
  intros ([Hnd Hne] & Ht & src & Hsrc & Hpkg & Hf) Hn Hfresh. split_and!; [|exact Ht|].
  - unfold sound. simpl. rewrite fmap_app, Forall_app, Forall_singleton. split; [|done].
    apply NoDup_app. split_and!; [done| |apply NoDup_singleton].
    intros n Hin ->%list_elem_of_singleton. done.
  - exists src. simpl. split_and!; [by apply source_revision_app|done|].
    rewrite lookup_insert_ne; [done|]. intros Heq. apply Hfresh. rewrite Heq.
    apply list_elem_of_fmap. exists src. split; [done|]. by eapply source_revision_elem.
Qed.

Lemma based_put prr pr c :
  based c → pr ∈ c_prs c → pr_PackageName pr = i_package i → resources_name prr = pr_Name pr →
  based (put_files prr c).
Proof.
  intros (Hs & Ht & src & Hsrc & Hpkg & Hf) Hin Hpr Hn. split_and!; [exact Hs|exact Ht|].
  exists src. simpl. split_and!; [done|done|]. rewrite lookup_insert_ne; [done|].
  rewrite Hn. by eapply source_name_other.
Qed.

Lemma holds_put prr pr c :
  latest c pr → resources_name prr = pr_Name pr → holds (put_files prr c) (prr_Resources prr).
Proof. intros Hl Hn. exists pr. split; [exact Hl|]. simpl. by rewrite <-Hn, lookup_insert_eq. Qed.

(** Exchanges without a creation, a write or a deletion keep both. *)
Lemma calm_applied c e :
  calm e → applied c e = c ∨ ∃ pr, applied c e = with_lifecycle pr c.
Proof.
  destruct e as [o r]. unfold calm. simpl. destruct o; try done; intros _; simpl in r |- *;
    try (by left); try destruct r as [? [?|]]; try destruct r; try (by left); right; by eexists.
Qed.

Lemma calm_keeps (I : cluster → Prop) c tr :
  (∀ pr c, I c → I (with_lifecycle pr c)) → lawful c tr → Forall calm tr → I c →
  I (after_trace c tr).
Proof.
  intros HI. apply lawful_inv. intros c' e _ Hc Hi.
  destruct (calm_applied c' e Hc) as [->|[pr ->]]; auto.
Qed.
End based.
End cluster.
