(* ===== verification/Steady.v ===== *)
(** * A package that is up to date is left alone

    The composition of writing ([PkgUtil]), reading back ([RoundTrip]), comparing
    ([AppResource]) and the decision of the reconciler: once the resources of the
    current revision were made from the wanted documents, no later reconciliation
    creates or writes a revision. *)

From stdpp Require Import base tactics list gmap strings.
From S2P Require Import Prelude.
From S2P Require Import GoStrings.
From S2P Require Import Effects.
From S2P Require Import Deps.
From S2P Require Import Api.
From S2P Require Import Toy.
From S2P Require Import AppResource.
From S2P Require Import PkgUtil.
From S2P Require Import Services.
From S2P Require Import ToyServer.
From S2P Require Import Revision.
From S2P Require Import PkgRev.
From S2P Require Import RoundTrip.
From S2P Require Import Reconciler.
From S2P Require Import Wanted.

Local Open Scope string_scope.

Section steady.
Context {ET : ExtTypes} {EO : ExtOps}.
Abbreviation ex o r := (reply (resp:=resp) o r).

(** ** The comparison *)

Lemma GetResources_run (s s' : gstate) tr o prr :
  exec (GetResources s) tr (o, s') → p_prr (g_pkg s) = Some prr →
  ∃ ord, tr = [ex OMapOrder ord] ∧
    let res := ResourcesToPackageBuffer ord (prr_Resources prr) (g_heap s) in
    o = res.1 ∧ s' = set_heap res.2 s.
Proof.
  intros H Hprr. by_traced H. unfold GetResources. repeat svc_step; simplify_eq.
  destruct (ResourcesToPackageBuffer r _ (g_heap s)) as [[l|e|f] h'] eqn:E; simpl;
    [svc_step|..]; exists r; by rewrite E, ?foldl_Add.
Qed.

Context `{!KioLaws, !KioReadLaws, !KYamlLaws}.

(** Reading the resources [m] gives documents with the texts [ss], in new cells,
    whatever the order of the map and the documents that are there already. *)
Definition reads_as (m : gmap string string) (ss : list string) : Prop := ∀ ord h,
  ∃ docs ss', ResourcesToPackageBuffer ord m h =
    (Ok (seq (length h) (length docs)), (h ++ docs)%list) ∧
    texts (h ++ docs)%list (seq (length h) (length docs)) ss' ∧ ss' ≡ₚ ss.

(** Resources that can be read as documents with different texts. *)
Definition readable (m : gmap string string) : Prop := ∃ ns ss,
  kio_ReadPackage (resource_reader m <$> resource_keys mo_id m) = inr ns ∧
  Forall2 (λ n s, rn_String (bare n) = inr s) ns ss ∧ NoDup ss.

Lemma readable_reads_as m : readable m → ∃ ss, NoDup ss ∧ reads_as m ss.
Proof.
  intros (docs & ss & Hr & Hs & Hnd). exists ss. split; [done|]. intros ord h. exists docs, ss.
  split_and!; [|by apply texts_new|done].
  unfold ResourcesToPackageBuffer. rewrite (resource_keys_order ord mo_id).
  rewrite (st_bind_ok _ _ h docs h) by (unfold st_lift; by rewrite Hr).
  apply st_map_alloc.
Qed.

Lemma written_reads_as h nodes ns ss orig m :
  package_ok h nodes ns → texts h nodes ss →
  (∀ k, m !! k = updated_file orig ns (file_text ns) k) → reads_as m ss.
Proof.
  intros Hok Ht Hm ord h2.
  destruct (written_back ord h h2 nodes ns ss orig m Hok Ht Hm)
    as (actual & docs & ss' & Hread & Ht' & Hss).
  pose proof (read_inv _ _ _ _ _ Hread) as (docs' & _ & -> & ->%(inj (app h2))). eauto.
Qed.

(** The same, of resources that hold the wanted documents. *)
Lemma compare_steady (poll : Z) (new : list loc) (ss ss0 : list string)
    prr (s s' : gstate) tr o :
  reads_as (prr_Resources prr) ss0 →
  texts (g_heap s) new ss → ss ≡ₚ ss0 → NoDup ss → Forall (prints (g_heap s)) new →
  p_prr (g_pkg s) = Some prr →
  exec (reconcile_compare poll new s) tr (o, s') →
  Forall calm tr ∧ ∃ s1 ord tr1, tr = ex OMapOrder ord :: tr1 ∧
    exec (reconcile_approve poll s1) tr1 (o, s').
Proof.
  intros Hf Ht Hss Hnd Hp Hprr He.
  unfold reconcile_compare in He.
  apply exec_bind_inv in He as (tr1 & [oa s1] & tr2 & -> & Hget & He).
  destruct (GetResources_run _ _ _ _ _ Hget Hprr) as (ord & -> & -> & ->).
  destruct (Hf ord (g_heap s)) as (docs & ss' & Hread & Ht' & Hss').
  rewrite Hread in He. simpl in He.
  apply exec_bind_inv in He as (tr3 & [oe s2] & tr4 & -> & Heq & He).
  apply exec_zoom in Heq as (-> & -> & ->). simpl in He.
  destruct (IsEqual_ok new (seq (length (g_heap s)) (length docs)) ss ss' (g_heap s ++ docs)%list)
    as (b & back & h' & Heq & Hb & _).
  - by apply texts_app.
  - eapply Forall_impl; [exact Hp|]. intros l. apply prints_app.
  - done.
  - by rewrite Hss', <-Hss.
  - unfold Get in He. rewrite Heq in He.
    rewrite (proj2 Hb) in He by (by rewrite Hss', Hss). simpl in He. split.
    + constructor; [done|]. by eapply calm_reconcile_approve.
    + by eexists _, ord, tr4.
Qed.

(** A package that is up to date is not written again.  Let the resources of
    the current revision be those that [CreateUpdatedResource] once made from
    documents in KRM files, and let the documents wanted now have the same texts,
    in any order.  Then on every answer of the servers the rest of the
    reconciliation creates no revision and writes no resources: it approves the
    current revision. *)
Lemma reconcile_compare_steady (poll : Z) (new nodes0 : list loc) (ns : list RNode)
    (ss ss0 : list string) (h0 : heap) (o1 o2 : map_order) (orig : gmap string string)
    prr (s s' : gstate) tr o :
  package_ok h0 nodes0 ns → texts h0 nodes0 ss0 →
  CreateUpdatedResource o1 o2 orig nodes0 h0 = (Ok (prr_Resources prr), h0) →
  texts (g_heap s) new ss → ss ≡ₚ ss0 → NoDup ss → Forall (prints (g_heap s)) new →
  p_prr (g_pkg s) = Some prr →
  exec (reconcile_compare poll new s) tr (o, s') →
  Forall quiet tr ∧ ∃ s1 ord tr1, tr = ex OMapOrder ord :: tr1 ∧
    exec (reconcile_approve poll s1) tr1 (o, s').
Proof.
  intros Hok Ht0 Hm.
  destruct (CreateUpdatedResource_ok o1 o2 orig nodes0 ns (file_text ns) h0) as (m & Hrun & Hf);
    [apply Hok|intros; by eapply file_text_ok|].
  rewrite Hrun in Hm. injection Hm as ->.
  intros Ht Hss Hnd Hp Hprr He.
  destruct (compare_steady poll new ss ss0 prr s s' tr o) as [Hc ?]; try done.
  { by eapply written_reads_as. }
  split; [by apply all_calm_quiet|done].
Qed.
End steady.

(** ** A package that was written before *)

Section examples.
Abbreviation ex o r := (reply (resp:=toy_resp) o r).

(** The resources an earlier reconciliation made of the two documents, which now
    come in the other order. *)
Definition ex_made : gmap string string :=
  match CreateUpdatedResource mo_id mo_rev ex_orig [0; 1] ex_docs with
  | (Ok m, _) => m
  | _ => ∅
  end.
Definition ex_steady : @gstate toy_types :=
  {| g_heap := rev ex_docs; g_pkg := ex_pkg (Some ex_p3) (Some (toy_prr "p3" ex_made));
     g_cr := ex_tenant |}.
Definition ex_compare_again := reconcile_compare 60000000000 [0; 1].

Lemma reconcile_compare_steady_witness :
  Forall quiet (exchanges_of ex_compare_again ex_steady (ex_cluster [])) ∧
  ∃ s1 o tr1,
    exchanges_of ex_compare_again ex_steady (ex_cluster []) = ex OMapOrder o :: tr1 ∧
    exec (reconcile_approve 60000000000 s1) tr1
      (outcome_of ex_compare_again ex_steady (ex_cluster []),
       state_of ex_compare_again ex_steady (ex_cluster [])).
Proof.
  apply (reconcile_compare_steady 60000000000 [0; 1] [0; 1] ex_docs (rev ex_doc_texts) ex_doc_texts
    ex_docs mo_id mo_rev ex_orig (toy_prr "p3" ex_made) ex_steady).
  - exact ex_package_ok.
  - toy_texts.
  - vm_compute. reflexivity.
  - toy_texts.
  - apply Permutation_swap.
  - apply (bool_decide_unpack _). vm_compute. exact I.
  - toy_prints.
  - reflexivity.
  - exact (serve_exec ex_compare_again ex_steady (ex_cluster [])).
Defined.

(** The whole operator: after the first reconciliation of a tenant the second
    makes no write. *)
Example second_reconciliation_quiet :
  existsb (λ e, match projT1 e with OPorchCreate _ | OPorchUpdateResources _ => true | _ => false end)
    (exchanges_of toy_reconcile nobody (toy_cluster [])) = true ∧
  existsb (λ e, match projT1 e with OPorchCreate _ | OPorchUpdateResources _ => true | _ => false end)
    (exchanges_of toy_reconcile nobody (after (toy_cluster []))) = false.
Proof. split; vm_compute; reflexivity. Qed.
End examples.
