(* ===== verification/Stable.v ===== *)
(** * What a reconciliation writes, and that it writes it once

    Theorems about [Reconcile] as a whole: the resources it sends to Porch are
    the files of the wanted package, and a second reconciliation that reads the
    same inputs and finds these resources writes nothing. *)

From stdpp Require Import base tactics list gmap strings.
From S2P Require Import Prelude.
From S2P Require Import GoStrings.
From S2P Require Import Effects.
From S2P Require Import Deps.
From S2P Require Import Api.
From S2P Require Import Toy.
From S2P Require Import AppResource.
From S2P Require Import PkgUtil.
From S2P Require Import Services.
From S2P Require Import ToyServer.
From S2P Require Import Revision.
From S2P Require Import PkgRev.
From S2P Require Import RoundTrip.
From S2P Require Import Reconciler.
From S2P Require Import Wanted.
From S2P Require Import Steady.

Local Open Scope string_scope.

Section stable.
Context {ET : ExtTypes} {EO : ExtOps}.
Abbreviation ex o r := (reply (resp:=resp) o r).

(** ** What a run reads and writes *)

(** The inputs of the wanted package are those the run reads: the tenant, as
    found and with its finalizer, and first the contents of the source package. *)
Definition reads_inputs (tr : list (entry resp)) (i : inputs) : Prop :=
  (∀ k cr, ex (OTenantGet k) (cr, None) ∈ tr → packageName_of cr = i_package i) ∧
  (∀ c fin, ex (OAddFinalizer c) (fin, None) ∈ tr →
     t_GetName fin = i_name i ∧ app_of fin = Some (i_app i)) ∧
  (∀ m, packages_read tr !! 0 = Some m → m = i_resources i).

(** The wanted package of these inputs is in order, however maps are visited. *)
Definition good_inputs (i : inputs) : Prop := ∀ o1 o2 rs h,
  wanted_package o1 o2 i [] = (Ok rs, h) →
  ∃ ns ss, package_ok h rs ns ∧ texts h rs ss ∧ NoDup ss ∧ Forall (prints h) rs.

Definition updates (e : entry resp) : Prop :=
  match projT1 e with OPorchUpdateResources _ => True | _ => False end.
#[local] Hint Extern 1 (¬ updates _) => exact (λ H, H) : core.

Lemma quiet_updates tr e : Forall quiet tr → e ∈ tr → ¬ updates e.
Proof.
  rewrite Forall_forall. intros Hq He%Hq. unfold quiet, updates in *. destruct (projT1 e); tauto.
Qed.

(** Inputs with one good order: the documents of a file can be read back in any
    order. *)
Lemma good_inputs_of o1 o2 i rs h ns ss :
  wanted_package o1 o2 i [] = (Ok rs, h) →
  Forall2 (λ l n, h !! l = Some n) rs ns → Forall (λ n, includeFile (getPath n) = true) ns →
  (∀ k l, l ≠ [] → l ≡ₚ nodes_at k ns → reads_back k l) →
  texts h rs ss → NoDup ss → Forall (prints h) rs → good_inputs i.
Proof.
  intros Hw Hn Hk Hb Ht Hnd Hp o1' o2' rs' h' Hw'.
  destruct (wanted_package_perm o1 o2 o1' o2' i [] h rs Hw) as (rs1 & Hw1 & Hperm).
  rewrite Hw1 in Hw'. injection Hw' as -> <-.
  destruct (Permutation_Forall2 (symmetry Hperm) Hn) as (ns' & Hns & Hn').
  destruct (Permutation_Forall2 (symmetry Hperm) Ht) as (ss' & Hss & Ht').
  exists ns', ss'. split_and!; [split_and!; [done|by rewrite <-Hns|]|done|by rewrite <-Hss|by rewrite Hperm].
  intros k Hne. apply Hb; [done|]. unfold nodes_at. by rewrite Hns.
Qed.

(** Documents with a file of their own each. *)
Lemma nodes_at_alone ns n :
  NoDup (getPath <$> ns) → n ∈ ns → nodes_at (getPath n) ns = [n].
Proof.
  unfold nodes_at. induction ns as [|m ns IH]; csimpl; [by intros _ ?%not_elem_of_nil|].
  intros [Hm Hnd]%NoDup_cons [->|Hn]%elem_of_cons; rewrite filter_cons.
  - rewrite decide_True by done. f_equal. destruct (filter _ ns) as [|m' l] eqn:E; [done|].
    assert (m' ∈ filter (λ n, getPath n = getPath m) ns) as [Heq Hm']%list_elem_of_filter
      by (rewrite E; set_solver).
    destruct Hm. rewrite <-Heq. apply list_elem_of_fmap; eauto.
  - rewrite decide_False; [by apply IH|]. intros Heq. apply Hm. rewrite Heq.
    apply list_elem_of_fmap; eauto.
Qed.

Lemma reads_back_alone ns :
  NoDup (getPath <$> ns) → Forall (λ n, reads_back (getPath n) [n]) ns →
  ∀ k l, l ≠ [] → l ≡ₚ nodes_at k ns → reads_back k l.
Proof.
  intros Hnd Hb k [|x l] Hl Hp; [done|].
  assert (x ∈ nodes_at k ns) as [<- Hx]%list_elem_of_filter by (rewrite <-Hp; set_solver).
  rewrite (nodes_at_alone _ _ Hnd Hx) in Hp.
  apply Permutation_singleton_r in Hp. rewrite Hp.
  rewrite Forall_forall in Hb. by apply Hb.
Qed.

(** ** Lemmas: the revision *)

Lemma GetOrCreate_silent mr : asks (λ e, ¬ updates e) (GetOrCreate mr).
Proof.
  unfold GetOrCreate, create_revision, getPackageRevisionResources, m_check.
  repeat asks_step; auto.
Qed.

Lemma Create_silent mr : asks (λ e, ¬ updates e) (Create mr).
Proof.
  unfold Create, create_revision, getPackageRevisionResources, m_check. repeat asks_step; auto.
Qed.

(** A listing in which [GetOrCreate] finds a revision of the package. *)
Definition shows_revision (package : string) (items : list PackageRevision) : Prop :=
  Exists (λ pr, getRevisionNumber (pr_Revision pr) ≠ 0%Z) (matching package items) ∧
  Forall (λ pr, pr_Name pr ≠ "") (matching package items).

#[export] Instance shows_revision_dec package items : Decision (shows_revision package items).
Proof. apply _. Defined.

Lemma shows_selected package items :
  shows_revision package items →
  String.eqb (pr_Name (select_latest (matching package items)).1) "" = false.
Proof.
  intros [He Hn]. apply String.eqb_neq.
  destruct (select_latest_cases (matching package items))
    as [[_ H0]|(last & -> & before & after & Hpl & _)].
  - rewrite Exists_exists in He. destruct He as (pr & Hpr & He).
    rewrite Forall_forall in H0. by destruct He; apply H0.
  - rewrite Forall_forall in Hn. apply Hn. rewrite Hpl. set_solver.
Qed.

Ltac calm_trace := cbn [app]; repeat (apply Forall_cons; split; [exact I|]); by apply Forall_nil.

Lemma GetOrCreate_calm mr (s s' : gstate) tr o :
  exec (GetOrCreate mr s) tr (o, s') →
  (∀ items err, head tr = Some (ex OPorchList (items, err)) → list_error err = None →
     shows_revision (p_packageName (g_pkg s)) items) →
  Forall calm tr ∧ (o = Ok () → ∃ prr items err, list_error err = None ∧
    let pr := (select_latest (matching (p_packageName (g_pkg s)) items)).1 in
    tr = [ex OPorchList (items, err); ex (OPorchGetResources (pr_key pr)) (prr, None)] ∧
    s' = set_pkg (with_prr prr (with_pr pr (g_pkg s))) s).
Proof.
  intros H. by_traced H. unfold GetOrCreate. do 5 svc_step.
  { svc_step. intros _. split; [calm_trace|done]. }
  destruct (String.eqb _ "") eqn:Hname.
  - unfold create_revision, getPackageRevisionResources. repeat svc_step;
      intros Hs; rewrite (shows_selected (p_packageName (g_pkg s)) l) in Hname; try done;
      by apply (Hs l o0).
  - unfold getPackageRevisionResources. repeat svc_step;
      (intros _; split; [calm_trace|]); try done.
    simplify_eq/=. intros _. by eexists _, _, _.
Qed.

(** ** Lemmas: the write *)

Context {KI : KioLaws} {KR : KioReadLaws} {KL : KYamlLaws}.

(** [prr] are resources that the run [tr] loaded. *)
Definition loaded_in (tr : list (entry resp)) (prr : PackageRevisionResources) : Prop :=
  ∃ k, ex (OPorchGetResources k) (prr, None) ∈ tr.

(** What [tr] writes are resources that satisfy [P], with the files of the documents
    [ns] next to their own non-KRM files. *)
Definition writes_files (P : PackageRevisionResources → Prop) (ns : list RNode)
    (tr : list (entry resp)) : Prop := ∀ sent r,
  ex (OPorchUpdateResources sent) r ∈ tr →
  ∃ orig files, P orig ∧ sent = set_Resources files orig ∧
    ∀ k, files !! k = updated_file (prr_Resources orig) ns (file_text ns) k.

Section writes.
Context (P : PackageRevisionResources → Prop) (ns : list RNode).

Lemma silent_writes tr : Forall (λ e, ¬ updates e) tr → writes_files P ns tr.
Proof. rewrite Forall_forall. intros Hs sent r Hin. by destruct (Hs _ Hin). Qed.

Lemma calm_writes tr : Forall calm tr → writes_files P ns tr.
Proof. intros Hq%all_calm_quiet sent r Hin. by destruct (quiet_updates _ _ Hq Hin). Qed.

Lemma writes_app tr1 tr2 :
  writes_files P ns tr1 → writes_files P ns tr2 → writes_files P ns (tr1 ++ tr2)%list.
Proof. intros H1 H2 sent r [?|?]%elem_of_app; [by eapply H1|by eapply H2]. Qed.

Lemma update_writes poll new prr (s s' : gstate) tr o :
  exec (m_try (Update new) (fail_with nddv1_Unknown) (λ _, reconcile_approve poll) s) tr (o, s') →
  package_ok (g_heap s) new ns → p_prr (g_pkg s) = Some prr → P prr → writes_files P ns tr.
Proof.
  intros (tr1 & oa & s1 & tr2 & -> & H1 & H)%exec_try Hok Hprr HP.
  apply writes_app.
  - destruct (Update_ok new prr ns (file_text ns) _ _ _ _ H1 Hprr)
      as (o1 & o2 & m & u & err & -> & Hm & _);
      [apply Hok|intros; by eapply file_text_ok|].
    intros sent r Hin. exists prr, m. split; [done|].
    apply (list_elem_of_fmap_2 (λ e : entry resp,
      match e with existT (OPorchUpdateResources p) _ => Some p | _ => None end)) in Hin.
    csimpl in Hin. apply elem_of_cons in Hin as [?|Hin]; [done|].
    apply elem_of_cons in Hin as [?|Hin]; [done|].
    apply list_elem_of_singleton in Hin. injection Hin as ->. by split.
  - apply calm_writes. destruct oa; [by eapply calm_reconcile_approve|by eapply calm_fail_with|].
    by destruct H as [-> _].
Qed.
End writes.

Lemma package_ok_changes h h' A nodes ns :
  package_ok h nodes ns → changes A h h' → (∀ l, l ∈ nodes → l ∉ A) → package_ok h' nodes ns.
Proof.
  intros (Hn & Hk & Hb) Hc HA. split_and!; [|done..].
  apply Forall2_same_length_lookup. split; [by eapply Forall2_length|].
  intros i l n Hl Hi. apply Hc; [by eapply (Forall2_lookup_lr _ _ _ _ _ _ Hn)|].
  by apply HA, (list_elem_of_lookup_2 _ i).
Qed.

Lemma package_ok_app h hs nodes ns : package_ok h nodes ns → package_ok (h ++ hs)%list nodes ns.
Proof.
  intros (Hn & Hk & Hb). split_and!; [|done..]. eapply Forall2_impl; [exact Hn|].
  intros l n. apply lookup_app_l_Some.
Qed.

Lemma GetLifecycle_ret pr (s : gstate) :
  p_pr (g_pkg s) = Some pr → GetLifecycle s = Ret (Ok (pr_Lifecycle pr), s).
Proof.
  intros Hpr. unfold GetLifecycle, the_pr, get_pkg, m_deref, m_lift, m_get, mbind, M_bind. simpl.
  by rewrite Hpr.
Qed.

Lemma write_writes P poll new ns prr (s s' : gstate) tr o :
  exec (reconcile_write new (reconcile_approve poll) s) tr (o, s') →
  package_ok (g_heap s) new ns → p_prr (g_pkg s) = Some prr → is_Some (p_pr (g_pkg s)) →
  P prr → (∀ prr', loaded_in tr prr' → P prr') → writes_files P ns tr.
Proof.
  unfold reconcile_write. intros H Hok Hprr [pr Hpr] HP Hload.
  apply (exec_pure _ _ _ _ _ _ _ (GetLifecycle_ret _ _ Hpr)) in H. cbv beta in H.
  destruct (negb (String.eqb (pr_Lifecycle pr) LifecycleDraft)); [|by eapply update_writes].
  apply (exec_pure get_cr _ _ _ _ _ _ eq_refl) in H.
  apply exec_try in H as (tr1 & oa & s1 & tr2 & -> & H1 & H). apply writes_app.
  { apply silent_writes. by eapply Create_silent. }
  destruct oa as [[]|e|f]; [|by eapply calm_writes, calm_fail_with|destruct H as [-> _]; by apply calm_writes].
  apply (Create_ok _ pr) in H1 as (pr1 & prr1 & -> & ->); [|done].
  eapply (update_writes P ns poll new prr1); [exact H|done|done|].
  apply Hload. eexists. by apply elem_of_app; left; right; left.
Qed.

(** The rest of a run after the resources are loaded: it makes no write, or it
    goes on to write the package, with the documents as they were. *)
Lemma compare_shape poll new ns (s s' : gstate) tr o :
  exec (reconcile_compare poll new s) tr (o, s') → package_ok (g_heap s) new ns →
  is_Some (p_prr (g_pkg s)) →
  Forall calm tr ∨ ∃ ord tr2 s2, tr = ex OMapOrder ord :: tr2 ∧ package_ok (g_heap s2) new ns ∧
    g_pkg s2 = g_pkg s ∧ exec (reconcile_write new (reconcile_approve poll) s2) tr2 (o, s').
Proof.
  unfold reconcile_compare. intros (tr1 & oa & s1 & tr2 & -> & H1 & H)%exec_try Hok [prr Hprr].
  destruct (GetResources_run _ _ _ _ _ H1 Hprr) as (ord & -> & -> & ->).
  assert (∀ tr3, Forall calm tr3 → Forall calm ([ex OMapOrder ord] ++ tr3)%list) as Hcalm.
  { intros tr3 Hc. by apply Forall_cons. }
  destruct (ResourcesToPackageBuffer ord _ (g_heap s)) as [[actual|e|f] h1] eqn:E; cbn [fst snd] in H;
    [|left; by eapply Hcalm, calm_fail_with|left; destruct H as [-> _]; by apply Hcalm].
  apply read_inv in E as (docs & _ & -> & ->).
  apply exec_try in H as (tr1 & oa & s1 & tr3 & -> & H & H2).
  apply exec_zoom in H as (-> & -> & ->). cbn [g_heap set_heap] in H2.
  destruct (IsEqual new (Get (seq (length (g_heap s)) (length docs))) (g_heap s ++ docs)%list)
    as [[[b back]|e|f] h2] eqn:E; cbn [fst snd set_heap g_heap] in H2;
    [|left; by eapply Hcalm, calm_fail_with|left; destruct H2 as [-> _]; by apply Hcalm].
  apply IsEqual_changes in E.
  destruct b; cbn [negb fst snd] in H2; [left; by eapply Hcalm, calm_reconcile_approve|].
  right. exists ord, tr3, (set_heap h2 (set_heap (g_heap s ++ docs)%list s)). split_and!; [done| |done|exact H2].
  eapply package_ok_changes; [by apply package_ok_app|exact E|].
  intros l Hl Hin. apply elem_of_seq in Hin.
  destruct Hok as (Hn & _). apply list_elem_of_lookup in Hl as [i Hi].
  destruct (Forall2_lookup_l _ _ _ _ _ Hn Hi) as (n & _ & Hln).
  apply lookup_lt_Some in Hln. lia.
Qed.

Lemma loaded_in_app_l tr1 tr2 prr : loaded_in tr1 prr → loaded_in (tr1 ++ tr2)%list prr.
Proof. intros [k Hk]. exists k. apply elem_of_app. by left. Qed.
Lemma loaded_in_app_r tr1 tr2 prr : loaded_in tr2 prr → loaded_in (tr1 ++ tr2)%list prr.
Proof. intros [k Hk]. exists k. apply elem_of_app. by right. Qed.

Lemma compare_writes P poll new ns prr (s s' : gstate) tr o :
  exec (reconcile_compare poll new s) tr (o, s') → package_ok (g_heap s) new ns →
  p_prr (g_pkg s) = Some prr → is_Some (p_pr (g_pkg s)) →
  P prr → (∀ prr', loaded_in tr prr' → P prr') → writes_files P ns tr.
Proof.
  intros H Hok Hprr Hpr HP Hload.
  destruct (compare_shape _ _ _ _ _ _ _ H Hok) as [?|(ord & tr2 & s2 & -> & Hok2 & Hpkg & H2)];
    [by rewrite Hprr|by apply calm_writes|].
  apply (writes_app P ns [_]); [by apply calm_writes; calm_trace|].
  eapply write_writes; [exact H2|done|by rewrite Hpkg|by rewrite Hpkg|exact HP|].
  intros prr' Hl. by apply Hload, (loaded_in_app_r [_]).
Qed.

Lemma rest_writes poll cr new ns (s s' : gstate) tr o :
  exec (reconcile_rest poll cr new s) tr (o, s') → package_ok (g_heap s) new ns →
  writes_files (loaded_in tr) ns tr.
Proof.
  unfold reconcile_rest. intros (tr1 & oa & s1 & tr2 & -> & H1 & H)%exec_try Hok.
  apply writes_app; [by eapply silent_writes, GetOrCreate_silent|].
  destruct oa as [[]|e|f]; [|by eapply calm_writes, calm_fail_with|destruct H as [-> _]; by apply calm_writes].
  apply GetOrCreate_ok in H1 as (items & err & pr & prr & _ & -> & Htr).
  eapply (compare_writes _ poll new ns prr); [exact H|done|done|done| |by apply loaded_in_app_r].
  apply loaded_in_app_l. exists (pr_key pr). destruct Htr as [[-> _]|[-> _]]; set_solver.
Qed.

(** ** Lemmas: the whole run *)

Lemma run_wanted poll req i (s s' : gstate) tr o :
  exec (Reconcile poll req s) tr (o, s') → g_heap s = [] → reads_inputs tr i →
  Forall quiet tr ∨
  ∃ before o1 o2 new h cr s1 tr1, tr = (before ++ tr1)%list ∧ Forall quiet before ∧
    packages_read before = [i_resources i] ∧ wanted_package o1 o2 i [] = (Ok new, h) ∧
    g_heap s1 = h ∧ p_packageName (g_pkg s1) = i_package i ∧
    exec (reconcile_rest poll cr new s1) tr1 (o, s').
Proof.
  intros [[Hq _]|[(? & ? & _ & _ & Hq)|(cr & props & fin & tr1 & Hprops & -> & _ & H)]]%Reconcile_ok
    Hh (Hcr & Hfin & Hres); [left; by apply all_calm_quiet|by left|].
  apply reconcile_package_ok in H
    as [[Hq _]|(ref & items & err & pr & src & o1 & o2 & new & h & tr2 & Href & _ & _ & -> & Hw & H)].
  { left. apply all_calm_quiet. by repeat (apply Forall_cons; split; [exact I|]). }
  right. set (before := ([ex (OTenantGet req) (cr, None); ex (OAddFinalizer cr) (fin, None);
    ex OPorchList (items, err);
    ex (OPorchGetResources (Key "default" (pr_Name pr))) (src, None);
    ex OMapOrder o1; ex OMapOrder o2])%list).
  assert (i = Inputs (t_GetName fin) (packageName_of cr) (ref_PackageName ref)
    (prr_Resources src)) as Hi.
  { destruct i as [iname ipkg iapp ires]. simpl in *.
    rewrite (Hcr req cr) by set_solver. destruct (Hfin cr fin) as [-> Happ']; [set_solver|].
    unfold app_of in Happ'. unfold package_state in Href. simpl in Href. rewrite Href in Happ'.
    injection Happ' as <-.
    by rewrite (Hres (prr_Resources src) eq_refl). }
  exists before, o1, o2, new, h, fin, (set_heap h (package_state cr fin props s)), tr2.
  split_and!; [done|calm_trace|by rewrite Hi| |done|by rewrite Hi|exact H].
  rewrite Hi, <-Hh. exact Hw.
Qed.

(** The rest of a run that is shown a revision of the package, and loads for it
    the wanted documents. *)
Lemma rest_steady poll cr new new1 ss (s s' : gstate) tr o :
  exec (reconcile_rest poll cr new s) tr (o, s') →
  texts (g_heap s) new1 ss → NoDup ss → Forall (prints (g_heap s)) new1 → new ≡ₚ new1 →
  (∀ items err, head tr = Some (ex OPorchList (items, err)) → list_error err = None →
     shows_revision (p_packageName (g_pkg s)) items) →
  (∀ items err prr tr', list_error err = None →
     let pr := (select_latest (matching (p_packageName (g_pkg s)) items)).1 in
     tr = ex OPorchList (items, err) :: ex (OPorchGetResources (pr_key pr)) (prr, None) :: tr' →
     reads_as (prr_Resources prr) ss) →
  Forall calm tr.
Proof.
  unfold reconcile_rest. intros (w1 & oa & s1 & w2 & -> & H1 & H2)%exec_try.
  intros Hts Hnd Hp Hperm Hshow Hload.
  destruct (GetOrCreate_calm _ _ _ _ _ H1) as [Hc1 Hget].
  { intros items err Hl. apply Hshow. destruct w1; [done|]. exact Hl. }
  apply Forall_app. split; [done|].
  destruct oa as [[]|e|f]; [|by eapply calm_fail_with|by destruct H2 as [-> _]].
  destruct (Hget eq_refl) as (prr & items & err & Herr & -> & ->).
  destruct (Permutation_Forall2 (symmetry Hperm) Hts) as (ss2 & Hss & Hts2).
  eapply (compare_steady poll new ss2 ss prr); [| | | | | |exact H2].
  - by eapply (Hload items err).
  - done.
  - by symmetry.
  - by rewrite <-Hss.
  - cbn [g_heap set_pkg]. by rewrite Hperm.
  - done.
Qed.

(** ** Properties *)

(** C10: What a reconciliation sends to Porch is the wanted package: every write
    sends back resources that this run loaded, with exactly the files of the
    documents [wanted_package] computes from the tenant and the source package that
    were read, and, of the files these resources held when they were loaded, those
    that are not KRM files. *)
Theorem Reconcile_writes_wanted (poll : Z) (req : ObjectKey) (i : inputs) (s s' : gstate) tr o :
  exec (Reconcile poll req s) tr (o, s') → g_heap s = [] → reads_inputs tr i → good_inputs i →
  ∀ sent r, ex (OPorchUpdateResources sent) r ∈ tr →
  ∃ o1 o2 new h ns orig files, wanted_package o1 o2 i [] = (Ok new, h) ∧
    Forall2 (λ l n, h !! l = Some n) new ns ∧
    loaded_in tr orig ∧ sent = set_Resources files orig ∧
    ∀ k, files !! k = updated_file (prr_Resources orig) ns (file_text ns) k.
Proof.
  intros He Hh Hi Hg sent r Hin.
  destruct (run_wanted _ _ _ _ _ _ _ He Hh Hi)
    as [Hq|(before & o1 & o2 & new & h & cr & s1 & tr1 & -> & Hq & _ & Hw & Hs1 & _ & H)].
  { by destruct (quiet_updates _ _ Hq Hin). }
  destruct (Hg _ _ _ _ Hw) as (ns & ss & Hok & _).
  apply elem_of_app in Hin as [Hin|Hin]; [by destruct (quiet_updates _ _ Hq Hin)|].
  rewrite <-Hs1 in Hok.
  destruct (rest_writes poll cr new ns s1 s' tr1 o H Hok sent r Hin)
    as (orig & files & Hl & Hsent & Hfiles).
  rewrite Hs1 in Hok. exists o1, o2, new, h, ns, orig, files.
  split_and!; [done|apply Hok|by apply loaded_in_app_r|done..].
Qed.

(** C9: A package is written once.  Let a reconciliation have written resources,
    and let a later one - of any poll interval, against any servers - read the
    same tenant and source package, be shown a revision of the package, and load
    for it what was written.  Then the later one creates no revision and writes no
    resources, whatever order the maps are visited in. *)
Theorem Reconcile_stable (poll1 poll2 : Z) (req1 req2 : ObjectKey) (i : inputs)
    (s1 s1' s2 s2' : gstate) tr1 tr2 oc1 oc2 sent r :
  good_inputs i →
  exec (Reconcile poll1 req1 s1) tr1 (oc1, s1') → g_heap s1 = [] → reads_inputs tr1 i →
  ex (OPorchUpdateResources sent) r ∈ tr1 →
  exec (Reconcile poll2 req2 s2) tr2 (oc2, s2') → g_heap s2 = [] → reads_inputs tr2 i →
  (∀ items err, ex OPorchList (items, err) ∈ tr2 → shows_revision (i_package i) items) →
  (∀ m, packages_read tr2 !! 1 = Some m → m = prr_Resources sent) →
  Forall quiet tr2.
Proof.
  intros Hg He1 Hh1 Hi1 Hin He2 Hh2 Hi2 Hshow Hread.
  destruct (run_wanted _ _ _ _ _ _ _ He1 Hh1 Hi1)
    as [Hq|(b1 & o1 & o2 & new1 & h1 & cr1 & t1 & w1 & -> & Hq1 & _ & Hw1 & Ht1 & _ & H1)].
  { by destruct (quiet_updates _ _ Hq Hin). }
  apply elem_of_app in Hin as [Hin|Hin]; [by destruct (quiet_updates _ _ Hq1 Hin)|].
  destruct (Hg _ _ _ _ Hw1) as (ns & ss & Hok & Hts & Hnd & Hp).
  rewrite <-Ht1 in Hok.
  destruct (rest_writes poll1 cr1 new1 ns t1 s1' w1 oc1 H1 Hok sent r Hin)
    as (orig & files & _ & Hsent & Horig).
  assert (files = prr_Resources sent) as -> by by rewrite Hsent.
  rewrite Ht1 in Hok.
  destruct (run_wanted _ _ _ _ _ _ _ He2 Hh2 Hi2)
    as [Hq|(b2 & o1' & o2' & new2 & h2 & cr2 & t2 & w2 & -> & Hq2 & Hb2 & Hw2 & Ht2 & Hn2 & H2)];
    [done|].
  apply Forall_app. split; [done|].
  destruct (wanted_package_perm o1 o2 o1' o2' i [] h1 new1 Hw1) as (new & Hw & Hperm).
  rewrite Hw in Hw2. injection Hw2 as <- <-.
  rewrite <-Ht2 in Hok, Hts, Hp.
  apply all_calm_quiet. eapply rest_steady; [exact H2|exact Hts|exact Hnd|exact Hp|done|..].
  - rewrite Hn2. intros items err Hl _. apply (Hshow items err), elem_of_app. right.
    destruct w2; [done|]. injection Hl as ->. apply list_elem_of_here.
  - intros items err prr tr' _ pr Htr.
    rewrite <-(Hread (prr_Resources prr)) in Horig; [by eapply written_reads_as|].
    rewrite Htr. unfold packages_read in *. rewrite omap_app, Hb2. done.
Qed.
End stable.

(** ** The operator's own package, written once *)

Section examples.
Abbreviation ex o r := (reply (resp:=toy_resp) o r).

Definition ex_inputs : inputs :=
  Inputs "t1" "admin.yndd.io_Tenant_t1" "app"
    {["ctl.yaml" := toy_deployment; "README.md" := "hi"]}.

(** The two runs: the first on a fresh cluster, the second after it. *)
Definition ex_first := toy_cluster [].
Definition ex_second := after (toy_cluster []).
Definition ex_run (w : world) := exchanges_of toy_reconcile nobody w.
Definition ex_end (w : world) := (outcome_of toy_reconcile nobody w, state_of toy_reconcile nobody w).

Definition ex_wanted : outcome (@error toy_types) resources * list (@RNode toy_types) :=
  wanted_package (EO:=toy_ops) mo_id mo_id ex_inputs [].
Definition ex_nodes : list loc := match ex_wanted.1 with Ok rs => rs | _ => [] end.
Definition ex_wanted_docs : list (@RNode toy_types) := omap (λ l, ex_wanted.2 !! l) ex_nodes.

Lemma ex_good : good_inputs (EO:=toy_ops) ex_inputs.
Proof.
  eapply (good_inputs_of mo_id mo_id ex_inputs ex_nodes ex_wanted.2 ex_wanted_docs
    (toy_text <$> ex_wanted_docs)).
  - vm_compute. reflexivity.
  - apply (bool_decide_unpack _). vm_compute. exact I.
  - repeat constructor.
  - apply reads_back_alone; [apply (bool_decide_unpack _); vm_compute; exact I|].
    repeat constructor; (eexists _, _; split_and!; [vm_compute; reflexivity..|]);
      repeat constructor; eexists; split; vm_compute; reflexivity.
  - repeat constructor; eexists; split; vm_compute; reflexivity.
  - apply (bool_decide_unpack _). vm_compute. exact I.
  - repeat constructor; eexists _, _; split; vm_compute; reflexivity.
Qed.

(** What a trace shows of its tenants. *)
Definition seen_package (e : entry toy_resp) : option string :=
  match e with existT (OTenantGet _) r => Some (packageName_of r.1) | _ => None end.
Definition seen_tenant (e : entry toy_resp) : option (string * option string) :=
  match e with existT (OAddFinalizer _) r => Some (t_GetName r.1, app_of r.1) | _ => None end.

Lemma reads_inputs_seen tr i :
  Forall (eq (i_package i)) (omap seen_package tr) →
  Forall (eq (i_name i, Some (i_app i))) (omap seen_tenant tr) →
  packages_read tr !! 0 = Some (i_resources i) → reads_inputs (ET:=toy_types) tr i.
Proof.
  rewrite !Forall_forall. intros H1 H2 H3. split_and!.
  - intros k cr Hin. symmetry. apply H1, list_elem_of_omap. by eexists.
  - intros c fin Hin. assert ((i_name i, Some (i_app i)) = (t_GetName fin, app_of fin)) as [= -> ->]; [|done].
    apply H2, list_elem_of_omap. by eexists.
  - intros m Hm. by simplify_eq.
Qed.

Lemma ex_reads_first : reads_inputs (ET:=toy_types) (ex_run ex_first) ex_inputs.
Proof. apply reads_inputs_seen; vm_compute; repeat constructor. Qed.
Lemma ex_reads_second : reads_inputs (ET:=toy_types) (ex_run ex_second) ex_inputs.
Proof. apply reads_inputs_seen; vm_compute; repeat constructor. Qed.

(** What the first run sent. *)
Definition sent_by (e : entry toy_resp) : option (@PackageRevisionResources toy_types) :=
  match projT1 e with OPorchUpdateResources p => Some p | _ => None end.
Definition ex_sent : @PackageRevisionResources toy_types :=
  default (toy_prr "" ∅) (head (omap sent_by (ex_run ex_first))).

Lemma sent_in p (tr : list (entry toy_resp)) : p ∈ omap sent_by tr → ∃ r, ex (OPorchUpdateResources p) r ∈ tr.
Proof.
  intros ([o r] & Hin & Hs)%list_elem_of_omap. unfold sent_by in Hs. cbn [projT1] in Hs.
  destruct o; try discriminate Hs. injection Hs as ->. by exists r.
Qed.

Lemma ex_sent_in : ∃ r, ex (OPorchUpdateResources ex_sent) r ∈ ex_run ex_first.
Proof. apply sent_in. vm_compute. apply list_elem_of_here. Qed.

(** The lists of revisions a run is shown. *)
Definition shown_by (e : entry toy_resp) : option (list (@PackageRevision toy_types)) :=
  match e with existT OPorchList r => Some r.1 | _ => None end.

Lemma Reconcile_writes_wanted_witness :
  ∃ o1 o2 new h ns orig files, wanted_package o1 o2 ex_inputs [] = (Ok new, h) ∧
    Forall2 (λ l n, h !! l = Some n) new ns ∧
    loaded_in (ex_run ex_first) orig ∧ ex_sent = set_Resources files orig ∧
    ∀ k, files !! k = updated_file (prr_Resources orig) ns (file_text ns) k.
Proof.
  destruct ex_sent_in as [r Hin].
  exact (Reconcile_writes_wanted 60000000000 (Key "default" "t1") ex_inputs nobody _
    (ex_run ex_first) _ (serve_exec toy_reconcile nobody ex_first) eq_refl ex_reads_first ex_good
    ex_sent r Hin).
Defined.

Lemma ex_loaded_second : packages_read (ex_run ex_second) !! 1 = Some (prr_Resources ex_sent).
Proof. vm_compute. reflexivity. Qed.

Lemma ex_shown_second items err :
  ex OPorchList (items, err) ∈ ex_run ex_second → shows_revision (i_package ex_inputs) items.
Proof.
  intros Hl.
  assert (Forall (shows_revision (i_package ex_inputs)) (omap shown_by (ex_run ex_second))) as Hs
    by (apply (bool_decide_unpack _); vm_compute; exact I).
  rewrite Forall_forall in Hs. apply Hs, list_elem_of_omap. by eexists.
Qed.

Lemma Reconcile_stable_witness : Forall quiet (ex_run ex_second).
Proof.
  destruct ex_sent_in as [r Hin].
  apply (Reconcile_stable 60000000000 60000000000 (Key "default" "t1") (Key "default" "t1")
    ex_inputs nobody _ nobody _ (ex_run ex_first) (ex_run ex_second) _ _ ex_sent r ex_good
    (serve_exec toy_reconcile nobody ex_first) eq_refl ex_reads_first Hin
    (serve_exec toy_reconcile nobody ex_second) eq_refl ex_reads_second).
  - exact ex_shown_second.
  - rewrite ex_loaded_second. intros m Hm. symmetry. exact (inj Some _ _ Hm).
Defined.
End examples.
