(* ===== verification/Settle.v ===== *)
(** * A package settles

    Reconciliations of one tenant, one after the other, against the cluster of
    [Cluster]: after a run that wrote the package no later run writes again. *)

From stdpp Require Import base tactics list gmap strings.
From S2P Require Import Prelude.
From S2P Require Import GoStrings.
From S2P Require Import Effects.
From S2P Require Import Deps.
From S2P Require Import Api.
From S2P Require Import Toy.
From S2P Require Import AppResource.
From S2P Require Import PkgUtil.
From S2P Require Import Services.
From S2P Require Import ToyServer.
From S2P Require Import Revision.
From S2P Require Import PkgRev.
From S2P Require Import RoundTrip.
From S2P Require Import Reconciler.
From S2P Require Import Wanted.
From S2P Require Import Cluster.
From S2P Require Import Steady.
From S2P Require Import Stable.

Local Open Scope string_scope.

Section settle.
Context {ET : ExtTypes} {EO : ExtOps}.
Abbreviation ex o r := (reply (resp:=resp) o r).
Abbreviation num pr := (getRevisionNumber (pr_Revision pr)).

Context (init_files : PackageRevision → gmap string string).
Context (ref : PackageRevisionReference) (i : inputs).
Abbreviation lawful := (lawful init_files).
Abbreviation after_trace := (after_trace init_files).
Abbreviation based := (based ref i).
Abbreviation latest := (latest i).
Abbreviation holds := (holds i).

(** ** Histories *)

(** What other actors may do between two runs: anything that leaves the tenant,
    its source package and its own package as they are. *)
Definition undisturbed (c c' : cluster) : Prop :=
  based c' ∧ matching (i_package i) (c_prs c') = matching (i_package i) (c_prs c) ∧
  ∀ pr, pr ∈ matching (i_package i) (c_prs c) → c_files c' !! pr_Name pr = c_files c !! pr_Name pr.

(** Runs of the reconciler for the tenant, in any number, with their traces. *)
Inductive history (req : ObjectKey) : cluster → list (list (entry resp)) → Prop :=
  | history_nil c : history req c []
  | history_run c poll s s' o tr trs :
      exec (Reconcile poll req s) tr (o, s') → g_heap s = [] → lawful c tr →
      history req (after_trace c tr) trs → history req c (tr :: trs)
  | history_others c c' trs : undisturbed c c' → history req c' trs → history req c trs.

(** ** Lemmas: one run *)

Lemma lawful_elem c tr e : lawful c tr → e ∈ tr → ∃ c', answers c' e.
Proof.
  revert c. induction tr as [|e' tr IH]; intros c; [by intros _ ?%not_elem_of_nil|].
  intros [Ha Hl] [->|Hin]%elem_of_cons; [by exists c|by eapply IH].
Qed.

(** What a run in the cluster reads are the inputs of the wanted package. *)
Lemma run_shape poll req (s s' : gstate) tr o c :
  exec (Reconcile poll req s) tr (o, s') → g_heap s = [] → key_Name req = i_name i →
  based c → lawful c tr →
  stopped tr o ∨
  ∃ before o1 o2 new h cr s1 tr1, tr = (before ++ tr1)%list ∧ Forall calm before ∧
    after_trace c before = c ∧ wanted_package o1 o2 i [] = (Ok new, h) ∧
    g_heap s1 = h ∧ p_packageName (g_pkg s1) = i_package i ∧
    exec (reconcile_rest poll cr new s1) tr1 (o, s').
Proof.
  intros H Hh Hreq (_ & (Hpkg & Happ & spec & Hspec & Href) & src & Hsrc & _ & Hfiles) Hl.
  apply Reconcile_ok in H
    as [?|[(cr & fin & Hin & Hd & _)|(cr & props & fin & tr1 & Hprops & -> & _ & H)]]; [by left| |].
  { destruct (lawful_elem _ _ _ Hl Hin) as (c' & _ & _ & Hd'). simpl in Hd'. congruence. }
  apply reconcile_package_ok in H
    as [Hq|(ref' & items & err & pr & src' & o1 & o2 & new & h & tr2 & Href' & Herr & Hpr & -> & Hw & H)].
  { left. by apply (stopped_app [_; _]); [repeat constructor|]. }
  right. set (before := ([ex (OTenantGet req) (cr, None); ex (OAddFinalizer cr) (fin, None);
    ex OPorchList (items, err); ex (OPorchGetResources (Key "default" (pr_Name pr))) (src', None);
    ex OMapOrder o1; ex OMapOrder o2])%list).
  destruct Hl as ([Hcr Hname] & (Hfin & Hfname & _) & Hlist & (_ & Hload) & _).
  cbn [applied answers reply fst snd] in *.
  rewrite Hreq in Hcr, Hname. rewrite Hname in Hfin, Hfname.
  assert (ref' = ref) as ->.
  { unfold package_state, source_of in Href'. simpl in Href'. congruence. }
  rewrite (Hlist Herr), Hsrc in Hpr. injection Hpr as <-. simpl in Hload.
  exists before, o1, o2, new, h, fin, (set_heap h (package_state cr fin props s)), tr2.
  split_and!; [done|by repeat (apply Forall_cons; split; [exact I|])|done| |done| |exact H].
  - unfold package_state in Hw. simpl in Hw. rewrite Hh in Hw.
    assert (Inputs (t_GetName fin) (packageName_of cr) (ref_PackageName ref) (prr_Resources src') = i)
      as <-; [|done].
    assert (packageName_of cr = i_package i) as -> by (unfold packageName_of; by rewrite Hname).
    rewrite Hfname, <-Happ. clear -Hfiles Hload. destruct i. simpl in *. congruence.
  - simpl. unfold packageName_of. by rewrite Hname.
Qed.
(** ** Lemmas: the revision *)

(** The current object of the run is the latest revision, with its contents
    loaded. *)
Definition current (c : cluster) (s : gstate) : Prop :=
  ∃ pr prr, p_pr (g_pkg s) = Some pr ∧ p_prr (g_pkg s) = Some prr ∧ latest c pr ∧
    resources_name prr = pr_Name pr ∧ c_files c !! pr_Name pr = Some (prr_Resources prr) ∧
    p_packageName (g_pkg s) = i_package i.

Definition numbered (c : cluster) : Prop := ∀ pr, latest c pr → (num pr < two64 - 1)%Z.

(** A new revision with a number above the others is the latest. *)
Lemma latest_add c pr :
  pr_PackageName pr = i_package i → (0 < num pr)%Z →
  Forall (λ pr', num pr' < num pr)%Z (matching (i_package i) (c_prs c)) →
  latest (add_revision init_files pr c) pr.
Proof.
  intros Hpkg Hpos Hlt. unfold Cluster.latest, matching. simpl.
  rewrite filter_app, filter_cons, decide_True by done.
  by exists (matching (i_package i) (c_prs c)), [].
Qed.

Lemma GetOrCreate_current mr c (s s' : gstate) tr :
  exec (GetOrCreate mr s) tr (Ok (), s') → p_packageName (g_pkg s) = i_package i →
  lawful c tr → based c → numbered c →
  based (after_trace c tr) ∧ numbered (after_trace c tr) ∧ current (after_trace c tr) s' ∧
  g_heap s' = g_heap s.
Proof.
  intros H Hpkg Hl Hb Hnum.
  apply GetOrCreate_ok in H as (items & err & pr & prr & Herr & -> & Htr).
  unfold selected, first_created in Htr. rewrite Hpkg in Htr.
  destruct Htr as [(-> & Hf & _)|(-> & Hpl)].
  - destruct Hl as (Hlist & (Hname & Hload) & _). cbn [answers applied reply] in Hlist, Hname, Hload.
    rewrite (Hlist Herr) in Hf. split_and!; [done|done| |done].
    by exists pr, prr.
  - destruct Hl as (Hlist & (Hne & Hfresh & Hp & Hr) & (Hname & Hload) & _).
    cbn [answers applied reply] in *. rewrite (Hlist Herr) in Hpl.
    change (pr_PackageName (buildPackageRevision _ _ ?p _ _)) with p in Hp.
    change (pr_Revision (buildPackageRevision _ _ _ ?r _)) with r in Hr.
    assert (num pr = 1)%Z as Hn1 by (rewrite Hr; vm_compute; reflexivity).
    assert (latest (add_revision init_files pr c) pr) as Hlat.
    { apply latest_add; [done|lia|]. destruct Hpl as [H0|(last & Hlast & Hn)].
      - eapply Forall_impl; [exact H0|]. simpl. intros ? ->. lia.
      - apply latest_elem in Hlast as [Hin _]. destruct Hb as ([_ Hns] & _).
        rewrite Forall_forall in Hns. by destruct (Hns _ Hin). }
    split_and!; [by apply based_add| |by exists pr, prr|done].
    intros pr' Hl'. rewrite (first_latest_unique _ _ _ Hl' Hlat), Hn1. unfold two64. lia.
Qed.

Lemma Create_current mr c (s s' : gstate) tr :
  exec (Create mr s) tr (Ok (), s') → current c s → lawful c tr → based c → numbered c →
  based (after_trace c tr) ∧ current (after_trace c tr) s' ∧ g_heap s' = g_heap s.
Proof.
  intros H (cur & prr0 & Hcur & _ & Hlat & _ & _ & Hpkg) Hl Hb Hnum.
  apply (Create_ok _ _ _ _ _ H) in Hcur as (pr & prr & -> & ->).
  destruct Hl as ((Hne & Hfresh & Hp & Hr) & (Hname & Hload) & _). cbn [answers applied reply] in *.
  change (pr_PackageName (buildPackageRevision _ _ ?p _ _)) with p in Hp. rewrite Hpkg in Hp.
  change (pr_Revision (buildPackageRevision _ _ _ ?r _)) with r in Hr.
  specialize (Hnum _ Hlat). pose proof (getRevisionNumber_range (pr_Revision cur)) as Hrange.
  assert (num pr = num cur + 1)%Z as Hn by (rewrite Hr, getNewRevision_to_uint64; apply to_uint64_small; lia).
  split_and!; [by apply based_add| |done]. exists pr, prr. split_and!; [done|done| |done|done|done].
  apply latest_add; [done|lia|]. apply Forall_forall. intros pr' Hin.
  pose proof (first_latest_max _ _ _ Hlat Hin). simpl in *. lia.
Qed.

(** ** Lemmas: the write *)

Context {KI : KioLaws} {KR : KioReadLaws} {KL : KYamlLaws}.

(** The latest revision holds the files of the documents [ns]. *)
Definition holds_files (ns : list RNode) (c : cluster) : Prop :=
  ∃ orig m, holds c m ∧ ∀ k, m !! k = updated_file orig ns (file_text ns) k.

(** A run wrote when the servers accepted its resources. *)
Definition wrote (tr : list (entry resp)) : Prop :=
  ∃ sent u, ex (OPorchUpdateResources sent) (u, None) ∈ tr.

(** The same, as a test. *)
Definition accepted (e : entry resp) : bool :=
  match e with existT (OPorchUpdateResources _) (_, None) => true | _ => false end.

Lemma wrote_accepted tr : wrote tr ↔ existsb accepted tr = true.
Proof.
  rewrite existsb_exists. setoid_rewrite <-list_elem_of_In. split.
  - intros (sent & u & Hin). by eexists.
  - intros ([o r] & Hin & Ha). unfold accepted in Ha. destruct o; try discriminate Ha.
    simpl in r. destruct r as [u [e|]]; [discriminate Ha|]. by eexists _, u.
Qed.

Lemma calm_wrote tr : Forall calm tr → ¬ wrote tr.
Proof. intros Hc%all_calm_quiet (sent & u & Hin). by destruct (quiet_updates _ _ Hc Hin). Qed.

Lemma silent_wrote tr : Forall (λ e, ¬ updates e) tr → ¬ wrote tr.
Proof. rewrite Forall_forall. intros Hs (sent & u & Hin). by destruct (Hs _ Hin). Qed.

Lemma wrote_app tr1 tr2 : wrote (tr1 ++ tr2)%list → wrote tr1 ∨ wrote tr2.
Proof. intros (sent & u & [?|?]%elem_of_app); [left|right]; by exists sent, u. Qed.

Lemma update_holds poll new ns c (s s' : gstate) tr o :
  exec (m_try (Update new) (fail_with nddv1_Unknown) (λ _, reconcile_approve poll) s) tr (o, s') →
  wrote tr → package_ok (g_heap s) new ns → current c s → lawful c tr → based c →
  based (after_trace c tr) ∧ holds_files ns (after_trace c tr).
Proof.
  intros (tr1 & oa & s1 & tr2 & -> & H1 & H)%exec_try Hw Hok
    (pr & prr & _ & Hprr & Hlat & Hname & _ & _) Hl Hb.
  destruct (Update_ok new prr ns (file_text ns) _ _ _ _ H1 Hprr)
    as (o1 & o2 & m & u & err & -> & Hm & -> & ->); [apply Hok|intros; by eapply file_text_ok|].
  assert (Forall calm tr2) as Hc.
  { destruct err; [by eapply calm_fail_with|by eapply calm_reconcile_approve]. }
  destruct err as [e|].
  { by apply wrote_app in Hw as [Hw%wrote_accepted|Hw]; [|destruct (calm_wrote _ Hc)]. }
  apply lawful_app in Hl as [_ Hl]. unfold Cluster.after_trace. rewrite foldl_app.
  change (foldl _ c _) with (put_files (set_Resources m prr) c) at 1 2. 
  change (after_trace c _) with (put_files (set_Resources m prr) c) in Hl.
  apply latest_elem in Hlat as Hin. destruct Hin as [Hin Hpkg].
  split.
  - apply (calm_keeps init_files based _ _ (based_lifecycle ref i) Hl Hc).
    by apply (based_put ref i (set_Resources m prr) pr).
  - exists (prr_Resources prr), m. split; [|exact Hm].
    apply (calm_keeps init_files (λ c, holds c m)
      _ _ (λ pr c, holds_lifecycle i pr c m) Hl Hc).
    by apply (holds_put i (set_Resources m prr) pr).
Qed.

(** A part of a run that does not write is followed by the part that does. *)
Lemma wrote_rest {A} (m : GM A) cond k (s s' : gstate) tr (o : outcome error (Result * option error)) :
  asks (λ e, ¬ updates e) m → exec (m_try m (fail_with cond) k s) tr (o, s') → wrote tr →
  ∃ tr1 a s1 tr2, tr = (tr1 ++ tr2)%list ∧ exec (m s) tr1 (Ok a, s1) ∧
    exec (k a s1) tr2 (o, s') ∧ wrote tr2.
Proof.
  intros Hs (tr1 & oa & s1 & tr2 & -> & H1 & H)%exec_try [Hw|Hw]%wrote_app.
  { by destruct (silent_wrote tr1); [by eapply Hs|]. }
  destruct oa as [a|e|f].
  - by exists tr1, a, s1, tr2.
  - by destruct (calm_wrote tr2); [by eapply calm_fail_with|].
  - destruct H as [-> _]. by destruct (calm_wrote []); [constructor|].
Qed.

Lemma write_holds poll new ns c (s s' : gstate) tr o :
  exec (reconcile_write new (reconcile_approve poll) s) tr (o, s') → wrote tr →
  package_ok (g_heap s) new ns → current c s → lawful c tr → based c → numbered c →
  based (after_trace c tr) ∧ holds_files ns (after_trace c tr).
Proof.
  unfold reconcile_write. intros H Hw Hok Hcur Hl Hb Hnum.
  pose proof Hcur as (pr & prr & Hpr & _).
  apply (exec_pure _ _ _ _ _ _ _ (GetLifecycle_ret _ _ Hpr)) in H. cbv beta in H.
  destruct (negb (String.eqb (pr_Lifecycle pr) LifecycleDraft)); [|by eapply update_holds].
  apply (exec_pure get_cr _ _ _ _ _ _ eq_refl) in H.
  apply wrote_rest in H as (tr1 & [] & s1 & tr2 & -> & H1 & H & Hw2); [|apply Create_silent|done].
  apply lawful_app in Hl as [Hl1 Hl2].
  destruct (Create_current _ _ _ _ _ H1 Hcur Hl1 Hb Hnum) as (Hb1 & Hcur1 & Hh).
  unfold Cluster.after_trace. rewrite foldl_app. rewrite <-Hh in Hok. by eapply update_holds.
Qed.

Lemma compare_holds poll new ns c (s s' : gstate) tr o :
  exec (reconcile_compare poll new s) tr (o, s') → wrote tr → package_ok (g_heap s) new ns →
  current c s → lawful c tr → based c → numbered c →
  based (after_trace c tr) ∧ holds_files ns (after_trace c tr).
Proof.
  intros H Hw Hok Hcur Hl Hb Hnum.
  destruct (compare_shape poll new ns s s' tr o H Hok) as [Hc|(ord & tr2 & s2 & -> & Hok2 & Hp & H2)].
  { destruct Hcur as (pr & prr & _ & Hprr & _). by eexists. }
  { by destruct (calm_wrote _ Hc). }
  destruct Hl as [_ Hl]. simpl in Hl. apply (wrote_app [_]) in Hw as [Hw%wrote_accepted|Hw]; [done|].
  change (after_trace c (ex OMapOrder ord :: tr2)) with (after_trace c tr2).
  eapply write_holds; [exact H2|done|exact Hok2| |done..].
  unfold current. by rewrite Hp.
Qed.

Lemma rest_holds poll cr new ns c (s s' : gstate) tr o :
  exec (reconcile_rest poll cr new s) tr (o, s') → wrote tr → package_ok (g_heap s) new ns →
  p_packageName (g_pkg s) = i_package i → lawful c tr → based c → numbered c →
  based (after_trace c tr) ∧ holds_files ns (after_trace c tr).
Proof.
  unfold reconcile_rest. intros H Hw Hok Hpkg Hl Hb Hnum.
  apply wrote_rest in H as (tr1 & [] & s1 & tr2 & -> & H1 & H & Hw2);
    [|apply GetOrCreate_silent|done].
  apply lawful_app in Hl as [Hl1 Hl2].
  destruct (GetOrCreate_current _ _ _ _ _ H1 Hpkg Hl1 Hb Hnum) as (Hb1 & Hnum1 & Hcur1 & Hh).
  unfold Cluster.after_trace. rewrite foldl_app. rewrite <-Hh in Hok. by eapply compare_holds.
Qed.

(** ** Lemmas: a run that ends with success *)

Definition success (poll : Z) : outcome error (Result * option error) :=
  Ok ({| Requeue := false; RequeueAfter := poll |}, None).

Lemma stopped_success tr poll : poll ≠ 0%Z → ¬ stopped tr (success poll).
Proof. intros Hp [_ Ho]. by destruct (Ho _ eq_refl). Qed.

(** Behind a part that did not end normally there is no success. *)
Lemma success_rest {A} (m : GM A) cond k (s s' : gstate) tr poll :
  poll ≠ 0%Z → exec (m_try m (fail_with cond) k s) tr (success poll, s') →
  ∃ tr1 a s1 tr2, tr = (tr1 ++ tr2)%list ∧ exec (m s) tr1 (Ok a, s1) ∧
    exec (k a s1) tr2 (success poll, s').
Proof.
  intros Hp (tr1 & oa & s1 & tr2 & -> & H1 & H)%exec_try. destruct oa as [a|e|f].
  - by exists tr1, a, s1, tr2.
  - apply fail_with_stopped in H. by destruct (stopped_success tr2 poll).
  - by destruct H as (_ & ? & _).
Qed.

Lemma Update_wrote new (s s' : gstate) tr : exec (Update new s) tr (Ok (), s') → wrote tr.
Proof.
  intros H. rewrite wrote_accepted. by_traced H. unfold Update. repeat svc_step; try done.
  destruct (CreateUpdatedResource _ _ _ _ _) as [[m|e|f] h']; [|done..]. by repeat svc_step.
Qed.

Lemma wrote_l tr1 tr2 : wrote tr1 → wrote (tr1 ++ tr2)%list.
Proof. intros (sent & u & Hin). exists sent, u. set_solver. Qed.
Lemma wrote_r tr1 tr2 : wrote tr2 → wrote (tr1 ++ tr2)%list.
Proof. intros (sent & u & Hin). exists sent, u. set_solver. Qed.

Lemma write_success poll new (s s' : gstate) tr :
  poll ≠ 0%Z → exec (reconcile_write new (reconcile_approve poll) s) tr (success poll, s') →
  is_Some (p_pr (g_pkg s)) → wrote tr.
Proof.
  unfold reconcile_write. intros Hpoll H [pr Hpr].
  apply (exec_pure _ _ _ _ _ _ _ (GetLifecycle_ret _ _ Hpr)) in H. cbv beta in H.
  assert (∀ s tr, exec (m_try (Update new) (fail_with nddv1_Unknown)
    (λ _, reconcile_approve poll) s) tr (success poll, s') → wrote tr) as Hu.
  { intros s1 tr1 (tr2 & [] & s2 & tr3 & -> & H1 & _)%(success_rest _ _ _ _ _ _ _ Hpoll). by eapply wrote_l, Update_wrote. }
  destruct (negb (String.eqb (pr_Lifecycle pr) LifecycleDraft)); [|by eapply Hu].
  apply (exec_pure get_cr _ _ _ _ _ _ eq_refl) in H.
  apply (success_rest _ _ _ _ _ _ _ Hpoll) in H as (tr1 & [] & s1 & tr2 & -> & _ & H). by eapply wrote_r, Hu.
Qed.

Lemma compare_success poll new ss prr (s s' : gstate) tr :
  poll ≠ 0%Z → exec (reconcile_compare poll new s) tr (success poll, s') →
  texts (g_heap s) new ss → Forall (prints (g_heap s)) new →
  p_prr (g_pkg s) = Some prr → is_Some (p_pr (g_pkg s)) →
  wrote tr ∨ (Forall calm tr ∧ (readable (prr_Resources prr) → reads_as (prr_Resources prr) ss)).
Proof.
  unfold reconcile_compare. intros Hpoll H Hts Hp Hprr Hpr.
  apply (success_rest _ _ _ _ _ _ _ Hpoll) in H as (tr1 & actual & s1 & tr2 & -> & H1 & H).
  destruct (GetResources_run _ _ _ _ _ H1 Hprr) as (ord & -> & Hact & ->).
  apply (success_rest _ _ _ _ _ _ _ Hpoll) in H as (tr1 & [b back] & s2 & tr3 & -> & H2 & H).
  apply exec_zoom in H2 as (-> & He & ->). cbn [g_heap set_heap] in He.
  destruct b; cbn [negb fst] in H.
  2:{ left. apply (wrote_r [_]). by eapply write_success. }
  right. split; [apply Forall_cons; split; [done|]; by eapply calm_reconcile_approve|].
  intros (acts & Hnd & Hra)%readable_reads_as.
  destruct (Hra ord (g_heap s)) as (docs & acts' & Hread & Ht' & Hperm).
  rewrite Hread in Hact, He. cbn [fst snd] in Hact, He. injection Hact as ->.
  destruct (IsEqual_ok new (seq (length (g_heap s)) (length docs)) ss acts' (g_heap s ++ docs)%list)
    as (b' & back' & h' & E & Hb & _); [by apply texts_app| |done|by rewrite Hperm|].
  { eapply Forall_impl; [exact Hp|]. intros l. apply prints_app. }
  unfold Get in He. rewrite E in He. injection He as <- _.
  intros ord' h2. destruct (Hra ord' h2) as (docs2 & ss2 & ? & ? & Hp2).
  exists docs2, ss2. split_and!; [done..|]. by rewrite Hp2, <-Hperm, (proj1 Hb).
Qed.

(** The latest revision holds documents with the texts [ss]. *)
Definition holds_texts (ss : list string) (c : cluster) : Prop :=
  ∃ m, holds c m ∧ reads_as m ss.

Lemma rest_success poll cr new ss c (s s' : gstate) tr :
  poll ≠ 0%Z → exec (reconcile_rest poll cr new s) tr (success poll, s') →
  texts (g_heap s) new ss → Forall (prints (g_heap s)) new →
  p_packageName (g_pkg s) = i_package i → lawful c tr → based c → numbered c →
  (∀ m, holds (after_trace c tr) m → readable m) →
  wrote tr ∨ (based (after_trace c tr) ∧ holds_texts ss (after_trace c tr)).
Proof.
  unfold reconcile_rest. intros Hpoll H Hts Hp Hpkg Hl Hb Hnum Hr.
  apply (success_rest _ _ _ _ _ _ _ Hpoll) in H as (tr1 & [] & s1 & tr2 & -> & H1 & H).
  apply lawful_app in Hl as [Hl1 Hl2].
  destruct (GetOrCreate_current _ _ _ _ _ H1 Hpkg Hl1 Hb Hnum)
    as (Hb1 & _ & (pr & prr & Hpr & Hprr & Hlat & _ & Hf & _) & Hh).
  unfold Cluster.after_trace in Hr |- *. rewrite foldl_app in Hr |- *.
  rewrite <-Hh in Hts, Hp.
  destruct (compare_success poll new ss prr s1 s' tr2) as [Hw|[Hc Hra]]; try done.
  { left. by apply wrote_r. }
  assert (holds (after_trace (after_trace c tr1) tr2) (prr_Resources prr)) as Hm.
  { apply (calm_keeps init_files (λ c, holds c (prr_Resources prr)) _ _
      (λ pr c, holds_lifecycle i pr c _) Hl2 Hc). by exists pr. }
  right. split; [|by exists (prr_Resources prr); auto].
  by apply (calm_keeps init_files based _ _ (based_lifecycle ref i) Hl2 Hc).
Qed.

(** ** Lemmas: the runs that follow *)

(** A cluster with a latest revision shows it. *)
Lemma based_shows c pr :
  based c → latest c pr → shows_revision (i_package i) (c_prs c).
Proof.
  intros ([_ Hne] & _) Hl. split.
  - apply Exists_exists. exists pr. split; [by apply first_latest_elem|].
    destruct Hl as (_ & _ & _ & Hpos & _). lia.
  - apply Forall_forall. intros pr' [_ Hin]%elem_of_matching.
    rewrite Forall_forall in Hne. by apply Hne.
Qed.

Context (req : ObjectKey).

(** The texts of the wanted documents. *)
Definition wanted_texts (ss : list string) : Prop := ∃ o1 o2 new h,
  wanted_package o1 o2 i [] = (Ok new, h) ∧ texts h new ss ∧ NoDup ss ∧ Forall (prints h) new.

Lemma settled_run poll ss (s s' : gstate) tr o c :
  exec (Reconcile poll req s) tr (o, s') → g_heap s = [] → key_Name req = i_name i →
  wanted_texts ss → lawful c tr → based c → holds_texts ss c → Forall calm tr.
Proof.
  intros H Hh Hreq (o1 & o2 & new1 & h & Hw1 & Hts & Hnd & Hp) Hl Hb (m & (pr & Hlat & Hfiles) & Hm).
  destruct (run_shape _ _ _ _ _ _ _ H Hh Hreq Hb Hl)
    as [[]|(before & o1' & o2' & new & h' & cr & s1 & tr1 & -> & Hc & Hsame & Hw & Hh1 & Hpkg & H1)];
    [done|].
  destruct (wanted_package_perm o1 o2 o1' o2' i [] h new1 Hw1) as (new2 & Hw2 & Hperm).
  rewrite Hw in Hw2. injection Hw2 as <- ->. rewrite <-Hh1 in Hts, Hp.
  apply lawful_app in Hl as [_ Hl]. rewrite Hsame in Hl.
  apply Forall_app. split; [done|].
  eapply rest_steady; [exact H1|exact Hts|exact Hnd|exact Hp|done|..]; rewrite Hpkg.
  - intros items err Hhead Herr. destruct tr1 as [|e tr1]; [done|]. injection Hhead as ->.
    destruct Hl as [Hlist _]. rewrite (Hlist Herr). by apply (based_shows c pr).
  - intros items err prr tr' Herr pr' ->. destruct Hl as (Hlist & (_ & Hload) & _).
    cbn [answers applied reply] in Hlist, Hload. specialize (Hlist Herr). subst items.
    assert (pr' = pr) as -> by exact (latest_select i c pr Hlat). simpl in Hload.
    rewrite Hfiles in Hload. by injection Hload as <-.
Qed.

Lemma history_calm ss c trs :
  history req c trs → key_Name req = i_name i → wanted_texts ss → based c → holds_texts ss c →
  Forall (Forall calm) trs.
Proof.
  intros Hh Hreq Hwf. induction Hh as [|c poll s s' o tr trs H Hs Hl _ IH|c c' trs Hu _ IH];
    intros Hb Hf; [constructor| |].
  - assert (Forall calm tr) as Hc by by eapply settled_run.
    constructor; [done|]. apply IH.
    + by apply (calm_keeps init_files based _ _ (based_lifecycle ref i) Hl Hc).
    + destruct Hf as (m & Hm & ?). exists m. split; [|done].
      by apply (calm_keeps init_files (λ c, holds c m) _ _ (λ pr c, holds_lifecycle i pr c m) Hl Hc).
  - destruct Hu as (Hb' & Hmatch & Hfiles). apply IH; [done|].
    destruct Hf as (m & (pr & Hlat & Hm) & ?). exists m. split; [|done].
    exists pr. unfold Cluster.latest. rewrite Hmatch. split; [done|].
    rewrite Hfiles; [done|by apply first_latest_elem].
Qed.

(** A run that wrote, or that recorded success, leaves the package settled. *)
Lemma run_settles poll (s s' : gstate) tr o c :
  good_inputs i → key_Name req = i_name i → based c → numbered c →
  exec (Reconcile poll req s) tr (o, s') → g_heap s = [] → lawful c tr →
  wrote tr ∨ (poll ≠ 0%Z ∧ o = success poll ∧ ∀ m, holds (after_trace c tr) m → readable m) →
  ∃ ss, wanted_texts ss ∧ based (after_trace c tr) ∧ holds_texts ss (after_trace c tr).
Proof.
  intros Hg Hreq Hb Hnum H Hh Hl Hend.
  destruct (run_shape _ _ _ _ _ _ _ H Hh Hreq Hb Hl)
    as [Hs|(before & o1 & o2 & new & h & cr & s1 & tr1 & -> & Hc & Hsame & Hwp & Hh1 & Hpkg & H1)].
  { destruct Hend as [Hw|(Hpoll & -> & _)].
    - by destruct (calm_wrote tr); [apply Hs|].
    - by apply stopped_success in Hs. }
  apply lawful_app in Hl as [_ Hl]. rewrite Hsame in Hl.
  unfold Cluster.after_trace in *. rewrite foldl_app, Hsame in *.
  destruct (Hg _ _ _ _ Hwp) as (ns & ss & Hok & Hts & Hnd & Hp).
  exists ss. split; [by exists o1, o2, new, h|].
  rewrite <-Hh1 in Hok, Hts, Hp.
  assert (wrote tr1 ∨ based (foldl (applied init_files) c tr1) ∧
    holds_texts ss (foldl (applied init_files) c tr1)) as [Hw|]; [| |done].
  { destruct Hend as [Hw|(Hpoll & -> & Hr)].
    - left. apply wrote_app in Hw as [Hw|Hw]; [by destruct (calm_wrote _ Hc)|done].
    - by apply (rest_success poll cr new ss c s1 s'). }
  destruct (rest_holds poll cr new ns c s1 s' tr1 o) as [Hb1 (orig & m & Hm & Hf)]; [done..|].
  split; [done|]. exists m. split; [done|]. by eapply written_reads_as.
Qed.

(** ** Property *)

(** C8: A package settles.  In a cluster where the tenant is live and its source
    package is another, readable one, let a reconciliation have written resources -
    whether or not it was then approved - or have recorded success on a readable
    revision.  Then in every history that follows - runs of the reconciler with
    any poll interval and any request refused, and other actors that leave the tenant
    and the two packages alone - no run creates a revision, writes resources or
    deletes anything. *)
Theorem Reconcile_settles (poll : Z) (s s' : gstate) tr o c trs :
  good_inputs i → key_Name req = i_name i → based c → numbered c →
  exec (Reconcile poll req s) tr (o, s') → g_heap s = [] → lawful c tr →
  wrote tr ∨ (poll ≠ 0%Z ∧ o = Ok ({| Requeue := false; RequeueAfter := poll |}, None) ∧
    ∀ m, holds (after_trace c tr) m → readable m) →
  history req (after_trace c tr) trs →
  Forall (Forall calm) trs.
Proof.
  intros Hg Hreq Hb Hnum H Hh Hl Hend Hist.
  destruct (run_settles poll s s' tr o c) as (ss & Hw & Hb' & Ht); [done..|].
  by eapply history_calm.
Qed.
End settle.

(** ** The toy operator settles *)

Section examples.

Definition ex_init (_ : @PackageRevision toy_types) : gmap string string :=
  {["README.md" := "# package"]}.
Definition ex_cluster0 : @cluster toy_types :=
  Cluster {["t1" := t_Spec toy_tenant]} [toy_pr "src" "app" "v2" "Published"]
    {["src" := i_resources ex_inputs]}.
Definition ex_cluster1 := after_trace ex_init ex_cluster0 (ex_run ex_first).
Definition ex_cluster2 := after_trace ex_init ex_cluster1 (ex_run ex_second).

Definition ex_ref : PackageRevisionReference := {|
  ref_Namespace := ""; ref_RepositoryName := "repo"; ref_PackageName := "app";
  ref_Revision := "v2" |}.

(** Another actor publishes a package of its own before the third run. *)
Definition ex_other : @PackageRevision toy_types := toy_pr "other" "db" "v1" "Published".
Definition ex_cluster2' := add_revision ex_init ex_other ex_cluster2.
Definition ex_third : world :=
  let w := after ex_second in with_prs (w_prs w ++ [ex_other])%list w.

#[local] Instance toy_spec_eq_dec : EqDecision (@TenantSpec toy_types).
Proof.
  assert (EqDecision TenantApplications) by (assert (EqDecision PackageRevisionReference) by solve_decision; solve_decision).
  assert (EqDecision TenantCluster) by solve_decision.
  assert (EqDecision TenantProperties) by solve_decision.
  assert (EqDecision Reference) by solve_decision.
  assert (EqDecision (@ResourceSpec toy_types)) by (unfold EqDecision, Decision; simpl; solve_decision).
  solve_decision.
Defined.

#[local] Instance toy_revision_eq_dec : EqDecision (@PackageRevision toy_types).
Proof.
  assert (EqDecision TypeMeta) by solve_decision.
  assert (EqDecision (@ObjectMeta toy_types)) by solve_decision.
  assert (EqDecision Task) by solve_decision.
  assert (EqDecision PackageRevisionSpec) by solve_decision.
  solve_decision.
Defined.

Ltac by_computation := apply (bool_decide_unpack _); vm_compute; exact I.

Lemma ex_lawful_first : lawful ex_init ex_cluster0 (ex_run ex_first).
Proof. refine (is_lawful_ok _ _ _ _). vm_compute. reflexivity. Qed.
Lemma ex_lawful_second : lawful ex_init ex_cluster1 (ex_run ex_second).
Proof. refine (is_lawful_ok _ _ _ _). vm_compute. reflexivity. Qed.
Lemma ex_lawful_third : lawful ex_init ex_cluster2' (ex_run ex_third).
Proof. refine (is_lawful_ok _ _ _ _). vm_compute. reflexivity. Qed.

Lemma toy_based c src :
  bool_decide (NoDup (pr_Name <$> c_prs c)) = true →
  bool_decide (Forall (λ pr, pr_Name pr ≠ "") (c_prs c)) = true →
  c_specs c !! "t1" = Some (t_Spec toy_tenant) → source_revision ex_ref (c_prs c) = Some src →
  pr_PackageName src ≠ i_package ex_inputs →
  c_files c !! pr_Name src = Some (i_resources ex_inputs) → based (ET:=toy_types) ex_ref ex_inputs c.
Proof.
  intros H1%bool_decide_eq_true H2%bool_decide_eq_true Hs Hsrc Hp Hf.
  split; [by split|]. split; [|by exists src].
  split; [reflexivity|]. split; [reflexivity|]. by eexists.
Qed.

Ltac by_toy_based :=
  eapply toy_based; [vm_compute; reflexivity..| |vm_compute; reflexivity]; vm_compute; discriminate.

Lemma ex_based : based (ET:=toy_types) ex_ref ex_inputs ex_cluster0.
Proof. by_toy_based. Qed.

Lemma ex_undisturbed : undisturbed (ET:=toy_types) ex_ref ex_inputs ex_cluster2 ex_cluster2'.
Proof.
  split_and!; [by_toy_based|vm_compute; reflexivity|].
  intros pr Hin. unfold ex_cluster2', add_revision. cbn [c_files]. apply lookup_insert_ne.
  intros Heq. assert (Forall (λ pr, pr_Name pr ≠ "other")
    (matching (i_package ex_inputs) (c_prs ex_cluster2))) as Hall.
  { apply (bool_decide_unpack _). vm_compute. exact I. }
  rewrite Forall_forall in Hall. by apply (Hall pr Hin).
Qed.

Lemma Reconcile_settles_witness : Forall (Forall calm) [ex_run ex_second; ex_run ex_third].
Proof.
  eapply (Reconcile_settles (EO:=toy_ops) ex_init ex_ref ex_inputs (Key "default" "t1")
    60000000000 nobody _ (ex_run ex_first) _ ex_cluster0).
  - exact ex_good.
  - reflexivity.
  - exact ex_based.
  - intros pr Hl. by apply latest_elem in Hl as [[->|?%not_elem_of_nil]%elem_of_cons Hp].
  - exact (serve_exec toy_reconcile nobody ex_first).
  - reflexivity.
  - exact ex_lawful_first.
  - left. apply wrote_accepted. vm_compute. reflexivity.
  - eapply history_run; [exact (serve_exec toy_reconcile nobody ex_second)|reflexivity|
      exact ex_lawful_second|].
    eapply history_others; [exact ex_undisturbed|].
    eapply history_run; [exact (serve_exec toy_reconcile nobody ex_third)|reflexivity|
      exact ex_lawful_third|constructor].
Defined.
End examples.
