(* ===== verification/Protocol.v ===== *)
(** * The protocol of a reconciliation

    An abstract specification of the requests one reconciliation may make: a
    state machine over the exchanges with the servers, without documents or
    stores.  [Refinement] proves that every behaviour of [Reconcile] is a path of
    it; the safety theorems follow by induction on paths. *)

From stdpp Require Import base tactics list gmap strings.
From S2P Require Import Prelude.
From S2P Require Import GoStrings.
From S2P Require Import Effects.
From S2P Require Import Deps.
From S2P Require Import Api.
From S2P Require Import Revision.
From S2P Require Import Services.
From S2P Require Import Porch.
From S2P Require Import PkgRev.
From S2P Require Import Reconciler.

Local Open Scope string_scope.

Section protocol.
Context {ET : ExtTypes} {EO : ExtOps}.
Abbreviation ex o r := (reply (resp:=resp) o r).

(** What a reconciliation knows of its tenant: the package and repository named
    by the tenant it read, and the tenant with its finalizer. *)
Record session := Session { ss_package : string; ss_repo : string; ss_cr : Tenant }.

Definition session_of (props : TenantProperties) (cr : Tenant) : session :=
  Session (packageName_of cr) (tp_RepositoryRef props) cr.
Definition with_cr (x : session) (cr : Tenant) : session :=
  Session (ss_package x) (ss_repo x) cr.
Definition deleted (x : session) : bool := meta_WasDeleted (t_ObjectMeta (ss_cr x)).

(** A revision of the tenant's package. *)
Definition built (x : session) (revision : string) : PackageRevision :=
  buildPackageRevision "default" (ss_repo x) (ss_package x) revision (ss_cr x).

Inductive phase :=
  | Idle
  | Absent (err : error)            (** the tenant could not be read *)
  | Bare                            (** the tenant has no properties *)
  | Loaded (x : session)
  | Active (x : session)            (** the finalizer is set *)
  | Deleting (x : session) (todo : list PackageRevision)
  | Creating (x : session)          (** the package has no revision yet *)
  | Selected (x : session) (pr : PackageRevision)
      (** the revision at hand, its resources still to be loaded *)
  | Current (x : session) (pr : PackageRevision) (prr : PackageRevisionResources)
  | Made (x : session) (pr : PackageRevision)
      (** a new revision, its resources still to be loaded *)
  | Next (x : session) (pr : PackageRevision) (prr : PackageRevisionResources)
      (** a new revision, still to be written *)
  | Written (x : session) (pr : PackageRevision)
  | Fetched (x : session) (pr : PackageRevision)   (** read, to be proposed *)
  | Proposed (x : session) (pr : PackageRevision)  (** as the server returned it *)
  | Checked (x : session) (pr : PackageRevision)   (** read, to be approved *)
  | Approved (x : session)
  | Failed (x : session)            (** a request was refused *)
  | Reported (cr : Tenant) (err : error)
  | Removed (x : session)           (** final: the finalizer is gone *)
  | Errored (status : option error) (** final: the failure is in the status *)
  | Synced (x : session) (status : option error).  (** final: success *)

(** The tenant of a phase in which a failure can be reported. *)
Definition session_in (p : phase) : option session :=
  match p with
  | Loaded x | Active x | Deleting x _ | Creating x | Selected x _ | Current x _ _ | Made x _
  | Next x _ _ | Written x _ | Fetched x _ | Proposed x _ | Checked x _ | Approved x
  | Failed x => Some x
  | _ => None
  end.

(** The current revision is one that may be approved in this phase. *)
Definition approvable (p : phase) : option (session * PackageRevision) :=
  match p with Current x pr _ | Written x pr => Some (x, pr) | _ => None end.

(** The revision whose approval is asked for in this phase: one that was Proposed
    all along, or has just been proposed. *)
Definition to_check (p : phase) : option (session * PackageRevision) :=
  match p with
  | Proposed x pr => Some (x, pr)
  | Current x pr _ | Written x pr =>
      if String.eqb (pr_Lifecycle pr) LifecycleProposed then Some (x, pr) else None
  | _ => None
  end.

(** The package is known to be published in this phase. *)
Definition published (p : phase) : option session :=
  match p with
  | Approved x => Some x
  | Current x pr _ | Written x pr | Checked x pr =>
      if String.eqb (pr_Lifecycle pr) LifecyclePublished then Some x else None
  | _ => None
  end.

Definition refused (x : session) (err : option error) (p : phase) : phase :=
  match err with Some _ => Failed x | None => p end.

(** The phases in which documents are compared and written: maps are ranged over. *)
Definition ranging (p : phase) : bool :=
  match p with Current _ _ _ | Next _ _ _ => true | _ => false end.

(** A request that only reads, and whether it failed. *)
Definition reads (o : op) : bool :=
  match o with OPorchList | OPorchGetResources _ | OMapOrder => true | _ => false end.
Definition read_error (e : entry resp) : option error :=
  match e with
  | existT OPorchList r => list_error r.2
  | existT (OPorchGetResources _) r => r.2
  | _ => None
  end.

Inductive step : phase → entry resp → phase → Prop :=
  | step_absent k cr err : step Idle (ex (OTenantGet k) (cr, Some err)) (Absent err)
  | step_bare k cr :
      ts_Properties (t_Spec cr) = None → step Idle (ex (OTenantGet k) (cr, None)) Bare
  | step_load k cr props :
      ts_Properties (t_Spec cr) = Some props →
      step Idle (ex (OTenantGet k) (cr, None)) (Loaded (session_of props cr))
  | step_finalizer x cr err :
      step (Loaded x) (ex (OAddFinalizer (ss_cr x)) (cr, err))
        (refused (with_cr x cr) err (Active (with_cr x cr)))
  (* deletion *)
  | step_delete_list x items err :
      deleted x = true →
      step (Active x) (ex OPorchList (items, err))
        (refused x (list_error err) (Deleting x (matching (ss_package x) items)))
  | step_delete x pr todo err :
      step (Deleting x (pr :: todo)) (ex (OPorchDelete pr) err)
        (refused x err (Deleting x todo))
  | step_remove x cr err :
      step (Deleting x []) (ex (ORemoveFinalizer (ss_cr x)) (cr, err))
        (refused (with_cr x cr) err (Removed x))
  (* reading the source package *)
  | step_read x e :
      deleted x = false → reads (projT1 e) = true →
      step (Active x) e (refused x (read_error e) (Active x))
  (* comparing and writing documents *)
  | step_order p o : ranging p = true → step p (ex OMapOrder o) p
  (* selecting or creating the revision *)
  | step_select x items err pr :
      deleted x = false → list_error err = None →
      first_latest (matching (ss_package x) items) pr → pr_Name pr ≠ "" →
      step (Active x) (ex OPorchList (items, err)) (Selected x pr)
  | step_unnumbered x items err :
      deleted x = false → list_error err = None →
      let pl := matching (ss_package x) items in
      Forall (λ pr, getRevisionNumber (pr_Revision pr) = 0%Z) pl ∨
        (∃ last, first_latest pl last ∧ pr_Name last = "") →
      step (Active x) (ex OPorchList (items, err)) (Creating x)
  | step_create_first x pr err :
      step (Creating x) (ex (OPorchCreate (built x "v1")) (pr, err))
        (refused x err (Selected x pr))
  | step_load_selected x pr prr err :
      step (Selected x pr) (ex (OPorchGetResources (pr_key pr)) (prr, err))
        (refused x err (Current x pr prr))
  | step_create_next x pr prr pr' err :
      pr_Lifecycle pr ≠ LifecycleDraft →
      step (Current x pr prr)
        (ex (OPorchCreate (built x (getNewRevision (pr_Revision pr)))) (pr', err))
        (refused x err (Made x pr'))
  | step_load_made x pr prr err :
      step (Made x pr) (ex (OPorchGetResources (pr_key pr)) (prr, err))
        (refused x err (Next x pr prr))
  (* writing: new files in the resources that were loaded for the revision *)
  | step_write_draft x pr prr files r err :
      pr_Lifecycle pr = LifecycleDraft →
      step (Current x pr prr) (ex (OPorchUpdateResources (set_Resources files prr)) (r, err))
        (refused x err (Written x pr))
  | step_write_next x pr prr files r err :
      step (Next x pr prr) (ex (OPorchUpdateResources (set_Resources files prr)) (r, err))
        (refused x err (Written x pr))
  (* approving *)
  | step_fetch p x pr pr' err :
      approvable p = Some (x, pr) → pr_Lifecycle pr = LifecycleDraft →
      step p (ex (OPorchGetRevision (pr_key pr)) (pr', err)) (refused x err (Fetched x pr'))
  | step_propose x pr r err :
      step (Fetched x pr)
        (ex (OPorchUpdateRevision (set_Lifecycle LifecycleProposed pr)) (r, err))
        (refused x err (Proposed x r))
  | step_check p x pr pr' err :
      to_check p = Some (x, pr) →
      step p (ex (ORestGet (pr_key pr)) (pr', err)) (refused x err (Checked x pr'))
  | step_approve x pr err :
      pr_Lifecycle pr = LifecycleProposed →
      step (Checked x pr) (ex (ORestPutApproval (set_Lifecycle LifecyclePublished pr)) err)
        (refused x err (Approved x))
  (* reporting *)
  | step_event p x err :
      session_in p = Some x → step p (ex (OEvent (ss_cr x) err) ()) (Reported (ss_cr x) err)
  | step_report cr err cond r status :
      cond = nddv1_Unknown ∨ cond = nddv1_Unavailable →
      step (Reported cr err)
        (ex (OStatusUpdate (SetConditions cr [nddv1_ReconcileError err; cond])) (r, status))
        (Errored status)
  | step_success p x r status :
      published p = Some x →
      step p (ex (OStatusUpdate (SetConditions (ss_cr x)
                 [nddv1_ReconcileSuccess; nddv1_Available])) (r, status)) (Synced x status).

(** [path tr p]: the exchanges [tr] can lead from [Idle] to [p]. *)
Inductive path : list (entry resp) → phase → Prop :=
  | path_nil : path [] Idle
  | path_snoc tr p e p' : path tr p → step p e p' → path (tr ++ [e])%list p'.

(** The results of the final phases. *)
Definition final (pollInterval : Z) (p : phase) : option (Result * option error) :=
  match p with
  | Absent err => Some (zero_Result, errors_Wrap (resource_IgnoreNotFound (Some err)) errGetCr)
  | Removed _ => Some (zero_Result, None)
  | Errored status =>
      Some ({| Requeue := true; RequeueAfter := 0 |}, errors_Wrap status errUpdateStatus)
  | Synced _ status =>
      Some ({| Requeue := false; RequeueAfter := pollInterval |}, errors_Wrap status errUpdateStatus)
  | _ => None
  end.
End protocol.
