(* ===== verification/Refinement.v ===== *)
(** * Reconcile follows its protocol

    Every behaviour of [Reconcile], whatever the servers answer and whatever
    the documents hold, is a path of the protocol, and the phase it ends in gives
    its result.  The safety theorems of the reconciler follow by induction on
    paths. *)

From stdpp Require Import base tactics list gmap strings.
From S2P Require Import Prelude.
From S2P Require Import GoStrings.
From S2P Require Import Effects.
From S2P Require Import Deps.
From S2P Require Import Api.
From S2P Require Import Toy.
From S2P Require Import Revision.
From S2P Require Import AppResource.
From S2P Require Import PkgUtil.
From S2P Require Import Services.
From S2P Require Import ToyServer.
From S2P Require Import Porch.
From S2P Require Import PkgRev.
From S2P Require Import Reconciler.
From S2P Require Import Protocol.

Local Open Scope string_scope.

Section refinement.
Context {ET : ExtTypes} {EO : ExtOps}.
Abbreviation ex o r := (reply (resp:=resp) o r).

(** ** The logic of protocol phases *)

(** [follows m s p Q]: started in phase [p], every behaviour of [m] continues
    the path to a phase that satisfies [Q] with its outcome and store. *)
Definition follows {A} (m : GM A) (s : gstate) (p : phase)
    (Q : phase → outcome error A → gstate → Prop) : Prop :=
  ∀ tr0, path tr0 p → traced m s tr0 (λ tr o s', ∃ p', path tr p' ∧ Q p' o s').

Section rules.
Context {A : Type} (Q : phase → outcome error A → gstate → Prop).

Lemma follows_pure (m : GM A) s p o s' : m s = Ret (o, s') → Q p o s' → follows m s p Q.
Proof. intros Hm HQ tr0 Hp. eapply traced_pure; [done|]. by exists p. Qed.

Lemma follows_bind {B} (m : GM B) (k : B → GM A) s p :
  follows m s p (λ p' o s',
    match o with
    | Ok b => follows (k b) s' p' Q
    | Err e => Q p' (Err e) s'
    | Panic f => Q p' (Panic f) s'
    end) → follows (m ≫= k) s p Q.
Proof.
  intros H tr0 Hp. apply traced_bind. eapply wp_mono; [|exact (H tr0 Hp)].
  intros tr [b|e|f] s' (p' & Hp' & HQ); simpl; [by apply HQ|by exists p'..].
Qed.

Lemma follows_try {B} (m : GM B) (h : error → GM A) (k : B → GM A) s p :
  follows m s p (λ p' o s',
    match o with
    | Ok b => follows (k b) s' p' Q
    | Err e => follows (h e) s' p' Q
    | Panic f => Q p' (Panic f) s'
    end) → follows (m_try m h k) s p Q.
Proof.
  intros H tr0 Hp. apply wp_try. eapply wp_mono; [|exact (H tr0 Hp)].
  intros tr [b|e|f] s' (p' & Hp' & HQ); [by apply HQ..|by exists p'].
Qed.

Lemma follows_on_heap (m : St error heap A) s p :
  (∀ o h, m (g_heap s) = (o, h) → Q p o (set_heap h s)) → follows (on_heap m) s p Q.
Proof.
  intros H tr0 Hp. apply traced_on_heap. destruct (m (g_heap s)) as [o h].
  exists p. split; [done|]. by apply H.
Qed.

Lemma follows_mono (m : GM A) s p (P : phase → outcome error A → gstate → Prop) :
  follows m s p P → (∀ p' o s', P p' o s' → Q p' o s') → follows m s p Q.
Proof.
  intros H HPQ tr0 Hp. eapply wp_mono; [|exact (H tr0 Hp)]. naive_solver.
Qed.
End rules.

Lemma follows_call (o : op) s p (Q : phase → outcome error (resp o) → gstate → Prop) :
  (∀ r, ∃ p', step p (ex o r) p' ∧ Q p' (Ok r) s) → follows (call o) s p Q.
Proof.
  intros H tr0 Hp. apply traced_call. intros r. destruct (H r) as (p' & Hs & HQ).
  exists p'. split; [by eapply path_snoc|done].
Qed.

(** [proto] runs the steps that make no request. *)
Ltac proto :=
  lazymatch goal with
  | |- follows (mbind _ _) _ _ _ => apply follows_bind
  | |- follows (m_try _ _ _) _ _ _ => apply follows_try
  | |- follows (on_heap _) _ _ _ => apply follows_on_heap; intros [?|?|?] ? _
  | |- follows (match ?x with _ => _ end) _ _ _ => destruct x eqn:?
  | |- match of_option _ ?x with _ => _ end => destruct x eqn:?
  | |- follows (call ?o) ?s ?p ?Q => 
      let r := fresh "r" in
      refine (follows_call o s p Q _); intros r; simpl in r;
      lazymatch type of r with prod _ _ => destruct r | unit => destruct r | _ => idtac end
  | |- follows _ _ _ _ => eapply follows_pure; [reflexivity|]
  end; cbn [of_option fst snd].

(** ** Reporting a failure *)

Definition done (pollInterval : Z) (p : phase) (o : outcome error (Result * option error))
    (s : gstate) : Prop :=
  match o with
  | Ok r => final pollInterval p = Some r
  | Err _ => False
  | Panic _ => True
  end.

(** The failure of a step can be reported. *)
Definition reportable (p : phase) (s : gstate) : Prop :=
  ∃ x, session_in p = Some x ∧ g_cr s = ss_cr x.

Lemma follows_fail poll cond err s p :
  reportable p s → cond = nddv1_Unknown ∨ cond = nddv1_Unavailable →
  follows (fail_with cond err) s p (done poll).
Proof.
  intros (x & Hx & Hcr) Hcond. unfold fail_with, update_status.
  do 2 proto. do 2 proto. rewrite Hcr.
  eexists; split; [by eapply step_event|].
  repeat proto. eexists; split; [by eapply step_report|]. by repeat proto.

Qed.

(** The postcondition of a step of the reconciliation: a failure can be
    reported, a normal end satisfies [K]. *)
Definition ends {A} (K : phase → A → gstate → Prop) (p : phase) (o : outcome error A)
    (s : gstate) : Prop :=
  match o with
  | Ok a => K p a s
  | Err _ => reportable p s
  | Panic _ => True
  end.

Lemma follows_step {A} poll cond (m : GM A) k s p (K : phase → A → gstate → Prop) :
  cond = nddv1_Unknown ∨ cond = nddv1_Unavailable →
  follows m s p (ends K) →
  (∀ p' a s', K p' a s' → follows (k a) s' p' (done poll)) →
  follows (m_try m (fail_with cond) k) s p (done poll).
Proof.
  intros Hc Hm Hk. apply follows_try. eapply follows_mono; [exact Hm|].
  intros p' [a|e|f] s' H; simpl in H; [by apply Hk|by apply follows_fail|done].
Qed.

(** [via L] runs a step whose behaviour the lemma [L] gives. *)
Ltac via L :=
  eapply follows_mono; [by apply L|];
  intros ? [?|?|?] ? Hstep; simpl in Hstep; [|done..].

(** The store of a session: the tenant and the package it works on. *)
Definition agrees (x : session) (s : gstate) : Prop :=
  g_cr s = ss_cr x ∧ p_namespace (g_pkg s) = "default" ∧
  p_repoName (g_pkg s) = ss_repo x ∧ p_packageName (g_pkg s) = ss_package x.

Lemma agrees_reportable x s p : session_in p = Some x → agrees x s → reportable p s.
Proof. intros Hp [Hcr _]. by exists x. Qed.

(** ** The steps *)

Ltac session :=
  unfold ends, reportable, agrees in *; cbn [session_in refused]; destruct_and?; simplify_eq/=;
  eauto 10.

Lemma follows_add_finalizer x s :
  agrees x s →
  follows add_finalizer s (Loaded x) (ends (λ p _ s', ∃ cr,
    p = Active (with_cr x cr) ∧ agrees (with_cr x cr) s')).
Proof.
  intros Ha. pose proof Ha as (Hcr & _). unfold add_finalizer. repeat proto. rewrite Hcr.
  eexists; split; [apply step_finalizer|]. repeat proto.
  destruct o; repeat proto; session.
Qed.

Lemma follows_delete_loop x s todo :
  agrees x s →
  follows (m_iter (λ pr, e ← call (OPorchDelete pr); m_check e) todo) s (Deleting x todo)
    (ends (λ p _ s', p = Deleting x [] ∧ agrees x s')).
Proof.
  intros Ha. induction todo as [|pr todo IH]; simpl.
  - repeat proto. by split.
  - do 3 proto. eexists; split; [apply step_delete|]. destruct r; repeat proto; [session|].
    exact IH.
Qed.

Lemma follows_Delete x s :
  agrees x s → deleted x = true →
  follows Delete s (Active x) (ends (λ p _ s', p = Deleting x [] ∧ agrees x s')).
Proof.
  intros Ha Hd. pose proof Ha as (_ & _ & _ & Hp). unfold Delete. do 4 proto.
  eexists; split; [by apply step_delete_list|]. cbn [fst snd]. destruct (list_error o); repeat proto.
  - session.
  - rewrite Hp. by apply follows_delete_loop.
Qed.

Lemma follows_remove_finalizer x s :
  agrees x s →
  follows remove_finalizer s (Deleting x [])
    (ends (λ p _ _, p = Removed x)).
Proof.
  intros Ha. pose proof Ha as (Hcr & _). unfold remove_finalizer. repeat proto. rewrite Hcr.
  eexists; split; [apply step_remove|]. repeat proto. destruct o; repeat proto; session.
Qed.

(** A step that only works on documents. *)
Lemma follows_heap {A} (m : St error heap A) s p (K : phase → A → gstate → Prop) :
  reportable p s → (∀ a h, K p a (set_heap h s)) → follows (on_heap m) s p (ends K).
Proof. intros Hr HK. apply follows_on_heap. intros [a|e|f] h _; simpl; [apply HK|exact Hr|done]. Qed.

Lemma follows_GetPackageRevision x s ref :
  agrees x s → deleted x = false →
  follows (GetPackageRevision ref) s (Active x) (ends (λ p _ s', p = Active x ∧ agrees x s')).
Proof.
  intros Ha Hd. unfold GetPackageRevision. repeat proto.
  eexists; split; [by eapply step_read|]. simpl. repeat proto; cbn [refused]; session.
Qed.

Lemma follows_GetPackageRevisionResources x s name :
  agrees x s → deleted x = false →
  follows (GetPackageRevisionResources name) s (Active x)
    (ends (λ p _ s', p = Active x ∧ agrees x s')).
Proof.
  intros Ha Hd. unfold GetPackageRevisionResources. repeat proto.
  eexists; split; [by eapply step_read|]. simpl. repeat proto. destruct o; repeat proto; session.
Qed.

Lemma agrees_heap x h s : agrees x s → agrees x (set_heap h s).
Proof. done. Qed.

Lemma follows_createSourcePackage x s :
  agrees x s → deleted x = false →
  follows createSourcePackage s (Active x) (ends (λ p _ s', p = Active x ∧ agrees x s')).
Proof.
  intros Ha Hd. unfold createSourcePackage. repeat proto; try done.
  via follows_GetPackageRevision. destruct Hstep as (-> & Ha1). proto.
  via follows_GetPackageRevisionResources. destruct Hstep as (-> & Ha2). repeat proto; [|session].
  eexists; split; [by eapply step_read|]. repeat proto; session.
Qed.

Lemma follows_createNewPackage x s :
  agrees x s →
  follows createNewPackage s (Active x) (ends (λ p _ s', p = Active x ∧ agrees x s')).
Proof. intros Ha. unfold createNewPackage. repeat proto; session. Qed.

(** The store of a session with a current revision, and with its resources. *)
Definition at_revision (x : session) (pr : PackageRevision) (s : gstate) : Prop :=
  agrees x s ∧ p_pr (g_pkg s) = Some pr.
Definition holds (x : session) (pr : PackageRevision) (prr : PackageRevisionResources)
    (s : gstate) : Prop :=
  at_revision x pr s ∧ p_prr (g_pkg s) = Some prr.

Lemma follows_load x pr s p (q : PackageRevisionResources → phase) :
  (∀ prr err, step p (ex (OPorchGetResources (pr_key pr)) (prr, err)) (refused x err (q prr))) →
  at_revision x pr s →
  follows getPackageRevisionResources s p
    (ends (λ p' _ s', ∃ prr, p' = q prr ∧ holds x pr prr s')).
Proof.
  intros Hq [Ha Hpr]. unfold getPackageRevisionResources. repeat proto; [|done]. simplify_eq.
  eexists; split; [apply Hq|]. destruct o; repeat proto; cbn [refused]; [session|].
  eexists; split; [done|]. by repeat split; try apply Ha.
Qed.

Lemma follows_GetOrCreate x s :
  agrees x s → deleted x = false →
  follows (GetOrCreate (ss_cr x)) s (Active x)
    (ends (λ p _ s', ∃ pr prr, p = Current x pr prr ∧ holds x pr prr s')).
Proof.
  intros Ha Hd. pose proof Ha as (Hcr & Hns & Hrepo & Hpkg).
  assert (∀ pr s0, at_revision x pr s0 →
    follows getPackageRevisionResources s0 (Selected x pr)
      (ends (λ p _ s', ∃ pr prr, p = Current x pr prr ∧ holds x pr prr s'))) as Hload.
  { intros pr s0 H0. eapply follows_mono;
      [apply (follows_load x pr s0 _ (Current x pr)); [intros; apply step_load_selected|done]|].
    intros p' [u|e|f] s' H; simpl in *; naive_solver. }
  unfold GetOrCreate, create_revision. repeat proto.
  destruct (list_error o) as [e|] eqn:He.
  { eexists; split; [by eapply step_read|]. repeat proto. simpl. rewrite He. session. }
  cbn [fst snd]. rewrite Hns, Hrepo, Hpkg. set (pl := matching (ss_package x) l).
  destruct (String.eqb_spec (pr_Name (select_latest pl).1) "") as [Hn|Hn].
  - exists (Creating x). split.
    { apply step_unnumbered; [done..|]. fold pl.
      destruct (select_latest_cases pl) as [[Hs H0]|(last & Hs & Hf)]; [by left|].
      right. exists last. by rewrite Hs in Hn. }
    repeat proto. eexists; split; [apply step_create_first|].
    destruct o0; repeat proto; [session|]. simpl. by apply Hload.
  - destruct (select_latest_cases pl) as [[Hs H0]|(last & Hs & Hf)]; rewrite Hs in *; [done|].
    exists (Selected x last). split; [by apply step_select|]. repeat proto. by apply Hload.
Qed.

Lemma follows_GetResources x pr prr s :
  holds x pr prr s →
  follows GetResources s (Current x pr prr)
    (ends (λ p _ s', p = Current x pr prr ∧ holds x pr prr s')).
Proof.
  intros Hh. pose proof Hh as [[Ha Hpr] Hprr]. unfold GetResources. repeat proto; [|done].
  eexists; split; [by apply step_order|]. repeat proto; unfold holds, at_revision in *; session.
Qed.

Lemma follows_Create x pr prr s :
  at_revision x pr s → pr_Lifecycle pr ≠ LifecycleDraft →
  follows (Create (ss_cr x)) s (Current x pr prr)
    (ends (λ p _ s', ∃ pr' prr', p = Next x pr' prr' ∧ holds x pr' prr' s')).
Proof.
  intros [Ha Hpr] Hl. pose proof Ha as (Hcr & Hns & Hrepo & Hpkg).
  unfold Create, create_revision. repeat proto; [|done].
  rewrite Hns, Hrepo, Hpkg. simplify_eq.
  eexists; split; [by apply step_create_next|].
  destruct o; repeat proto; [session|]. simpl.
  eapply follows_mono;
    [apply (follows_load x p0 _ _ (Next x p0)); [intros; apply step_load_made|by split]|].
  intros p' [u|e|f] s' H; simpl in *; naive_solver.
Qed.

(** The phases in which [Update] may write. *)
Definition writable (p : phase) (x : session) (pr : PackageRevision)
    (prr : PackageRevisionResources) : Prop :=
  p = Next x pr prr ∨ (p = Current x pr prr ∧ pr_Lifecycle pr = LifecycleDraft).

Lemma follows_Update x pr prr s p res :
  holds x pr prr s → writable p x pr prr →
  follows (Update res) s p (ends (λ p' _ s', p' = Written x pr ∧ at_revision x pr s')).
Proof.
  intros [[Ha Hpr] Hprr] Hw. unfold Update.
  assert (ranging p = true ∧ session_in p = Some x) as [Hr Hs]
    by (destruct Hw as [->|[-> _]]; done).
  repeat proto; [|done]. eexists; split; [by apply step_order|].
  repeat proto. eexists; split; [by apply step_order|]. repeat proto; [|session..]. simplify_eq.
  exists (refused x o (Written x pr)). split.
  { destruct Hw as [->|[-> Hl]]; [apply step_write_next|by apply step_write_draft]. }
  repeat proto. destruct o; repeat proto; unfold at_revision in *; session.
Qed.

(** ** Approving *)

Lemma follows_approval x pr s p :
  agrees x s → to_check p = Some (x, pr) →
  follows (updatePackageRevisionApproval (pr_key pr) LifecyclePublished) s p
    (ends (λ p' _ s', published p' = Some x ∧ agrees x s')).
Proof.
  intros Ha Hp. unfold updatePackageRevisionApproval.
  assert (session_in p = Some x) as Hs.
  { destruct p; simpl in Hp; try case_match; by simplify_eq. }
  destruct porchv1alpha1_AddToScheme; repeat proto; [session|].
  eexists; split; [by apply step_check|]. destruct o; repeat proto; [session|..].
  - eexists; split; [apply step_approve; by apply String.eqb_eq|].
    destruct r; repeat proto; session.
  - simpl. rewrite Heqb0. by split.
  - session.
Qed.

Lemma follows_Approve x pr s p :
  at_revision x pr s → approvable p = Some (x, pr) →
  follows Approve s p (ends (λ p' _ s', published p' = Some x ∧ agrees x s')).
Proof.
  intros [Ha Hpr] Hp. unfold Approve, GetLifecycle.
  assert (session_in p = Some x) as Hs by (destruct p; simplify_eq/=; done).
  assert (pr_Lifecycle pr = LifecyclePublished → published p = Some x) as Hpub.
  { intros Hl%String.eqb_eq. destruct p; simplify_eq/=; by rewrite Hl. }
  assert (pr_Lifecycle pr = LifecycleProposed → to_check p = Some (x, pr)) as Hch.
  { intros Hl%String.eqb_eq. destruct p; simplify_eq/=; by rewrite Hl. }
  repeat proto. all: try done; simplify_eq.
  all: rewrite ?String.eqb_eq, ?String.eqb_neq in *.
  - eexists; split; [by eapply step_fetch|].
    destruct o; repeat proto; [session|]. eexists; split; [apply step_propose|].
    destruct o; repeat proto; [session|]. by apply follows_approval.
  - apply follows_approval; [done|]. by apply Hch.
  - by split; [apply Hpub|].
  - session.
Qed.

(** ** The whole reconciliation *)

#[local] Hint Extern 1 (nddv1_Unknown = _ ∨ _) => by left : core.
#[local] Hint Extern 1 (nddv1_Unavailable = _ ∨ _) => by right : core.

Lemma follows_reconcile_delete poll x s :
  agrees x s → deleted x = true → follows reconcile_delete s (Active x) (done poll).
Proof.
  intros Ha Hd. eapply follows_step; [auto|by apply follows_Delete|].
  intros p [] s1 [-> Ha1]. eapply follows_step; [auto|by apply follows_remove_finalizer|].
  intros p [] s2 ->. by repeat proto.
Qed.

Lemma follows_reconcile_approve poll x pr s p :
  at_revision x pr s → approvable p = Some (x, pr) → follows (reconcile_approve poll) s p (done poll).
Proof.
  intros Hh Hp. eapply follows_step; [auto|by eapply follows_Approve|].
  intros p1 [] s1 [Hpub (Hcr & _)]. unfold update_status. repeat proto. rewrite Hcr.
  eexists; split; [by apply step_success|]. by repeat proto.
Qed.

Lemma follows_reconcile_update poll x pr prr s p res :
  holds x pr prr s → writable p x pr prr →
  follows (m_try (Update res) (fail_with nddv1_Unknown) (λ _, reconcile_approve poll)) s p
    (done poll).
Proof.
  intros Hh Hw. eapply follows_step; [auto|by eapply follows_Update|].
  intros p1 [] s1 [-> Hh1]. by eapply follows_reconcile_approve.
Qed.

Lemma follows_reconcile_write poll x pr prr s res :
  holds x pr prr s →
  follows (reconcile_write res (reconcile_approve poll)) s (Current x pr prr) (done poll).
Proof.
  intros Hh. pose proof Hh as [Hat _]. pose proof Hat as [[Hcr _] Hpr].
  unfold reconcile_write, GetLifecycle. do 4 proto; [|done]. simplify_eq. do 2 proto.
  - do 2 proto. rewrite Hcr. eapply follows_step; [auto|apply (follows_Create x pr prr s); [done|]|].
    { by apply String.eqb_neq, negb_true_iff. }
    intros p1 [] s1 (pr' & prr' & -> & Hh1).
    apply (follows_reconcile_update _ x pr' prr'); [done|by left].
  - apply (follows_reconcile_update _ x pr prr); [done|]. right. split; [done|].
    by apply String.eqb_eq, negb_false_iff.
Qed.

Lemma follows_reconcile_compare poll x pr prr s res :
  holds x pr prr s →
  follows (reconcile_compare poll res) s (Current x pr prr) (done poll).
Proof.
  intros Hh. eapply follows_step; [auto|by apply follows_GetResources|].
  intros p1 actual s1 (-> & Hh1).
  eapply follows_step; [auto| |].
  { apply (follows_heap _ _ _ (λ p _ s', p = Current x pr prr ∧ holds x pr prr s'));
      unfold holds, at_revision in *; session. }
  intros p2 [eq arr] s2 (-> & Hh2). cbn [fst]. destruct eq; simpl.
  - apply (follows_reconcile_approve _ x pr); [apply Hh2|done].
  - by eapply follows_reconcile_write.
Qed.

Lemma follows_reconcile_package poll x s :
  agrees x s → deleted x = false →
  follows (reconcile_package poll (ss_package x)) s (Active x) (done poll).
Proof.
  intros Ha Hd. unfold reconcile_package.
  eapply follows_step; [auto|by apply follows_createSourcePackage|].
  intros p1 src s1 [-> Ha1]. eapply follows_step; [auto|by apply follows_createNewPackage|].
  intros p2 new s2 [-> Ha2]. repeat (proto; try done).
  eexists; split; [by eapply step_read|].
  cbn [read_error refused].
  eapply follows_step; [auto| |].
  { apply (follows_heap _ _ _ (λ p _ s', p = Active x ∧ agrees x s')); session. }
  intros p3 res s3 [-> Ha3]. destruct Ha2 as [-> _].
  eapply follows_step; [auto|by apply follows_GetOrCreate|].
  intros p4 [] s4 (pr & prr & -> & Hh4). by apply (follows_reconcile_compare _ x pr prr).
Qed.

Lemma follows_Reconcile poll req s : follows (Reconcile poll req) s Idle (done poll).
Proof.
  unfold Reconcile. do 2 proto. destruct o as [e|].
  { eexists; split; [apply step_absent|]. by repeat proto. }
  destruct (ts_Properties (t_Spec t)) as [props|] eqn:Hp.
  - eexists; split; [by apply (step_load _ _ props)|]. 
    do 6 proto.
    set (x := session_of props t).
    eapply follows_step; [auto|by apply (follows_add_finalizer x)|].
    intros p1 [] s1 (cr & -> & Ha1). do 2 proto. pose proof Ha1 as [-> _].
    change (meta_WasDeleted _) with (deleted (with_cr x cr)).
    destruct (deleted (with_cr x cr)) eqn:Hd.
    + by apply follows_reconcile_delete.
    + by apply (follows_reconcile_package poll (with_cr x cr)).
  - eexists; split; [by apply step_bare|]. by repeat proto.
Qed.

Lemma Reconcile_path poll req s tr o s' :
  exec (Reconcile poll req s) tr (o, s') → ∃ p, path tr p ∧ done poll p o s'.
Proof.
  intros H. by_traced H. apply follows_Reconcile. apply path_nil.
Qed.
End refinement.
