(* ===== verification/Safety.v ===== *)
(** * Safety of the reconciler

    What holds of every reconciliation, whatever the servers answer: which
    requests it may make and what must have happened before, how it reports
    failures and when it reports success.  The proofs are inductions on the paths
    of the protocol. *)

From stdpp Require Import base tactics list gmap strings.
From S2P Require Import Prelude.
From S2P Require Import GoStrings.
From S2P Require Import Effects.
From S2P Require Import Deps.
From S2P Require Import Api.
From S2P Require Import Toy.
From S2P Require Import Revision.
From S2P Require Import AppResource.
From S2P Require Import PkgUtil.
From S2P Require Import Services.
From S2P Require Import ToyServer.
From S2P Require Import Porch.
From S2P Require Import PkgRev.
From S2P Require Import Reconciler.
From S2P Require Import Protocol.
From S2P Require Import Refinement.

Local Open Scope string_scope.

Section safety.
Context {ET : ExtTypes} {EO : ExtOps}.
Abbreviation ex o r := (reply (resp:=resp) o r).

(** ** What a trace tells *)

(** The tenant was read with these properties, and gives the package. *)
Definition loaded (tr : list (entry resp)) (x : session) : Prop :=
  ∃ k cr props, ex (OTenantGet k) (cr, None) ∈ tr ∧
    ts_Properties (t_Spec cr) = Some props ∧
    ss_package x = packageName_of cr ∧ ss_repo x = tp_RepositoryRef props.

(** The finalizer was set, and the tenant came back as in the session. *)
Definition finalized (tr : list (entry resp)) (x : session) : Prop :=
  ∃ cr, ex (OAddFinalizer cr) (ss_cr x, None) ∈ tr.

Definition listed (tr : list (entry resp)) (items : list PackageRevision) : Prop :=
  ∃ err, list_error err = None ∧ ex OPorchList (items, err) ∈ tr.

(** The revisions created for the session, in order. *)
Definition made (e : entry resp) : option PackageRevision :=
  match e with existT (OPorchCreate _) (pr, None) => Some pr | _ => None end.
Definition creations (tr : list (entry resp)) : list PackageRevision := omap made tr.

Definition was_created (tr : list (entry resp)) (x : session) (pr : PackageRevision) : Prop :=
  ∃ rev, ex (OPorchCreate (built x rev)) (pr, None) ∈ tr.

(** The latest revision of the package among those listed. *)
Definition was_latest (tr : list (entry resp)) (x : session) (pr : PackageRevision) : Prop :=
  ∃ items, listed tr items ∧ first_latest (matching (ss_package x) items) pr.

(** The revision the reconciliation works on: the last one it created, or the
    latest listed one when it created none. *)
Definition at_hand (tr : list (entry resp)) (x : session) (pr : PackageRevision) : Prop :=
  (last (creations tr) = Some pr ∧ was_created tr x pr) ∨
  (creations tr = [] ∧ was_latest tr x pr).

(** [prr] are resources loaded for the revision [pr]. *)
Definition loaded_for (tr : list (entry resp)) (pr : PackageRevision)
    (prr : PackageRevisionResources) : Prop :=
  ex (OPorchGetResources (pr_key pr)) (prr, None) ∈ tr.

(** The draft [pr] was read, and proposed, and came back as [pr2]. *)
Definition proposed (tr : list (entry resp)) (pr pr2 : PackageRevision) : Prop :=
  ∃ pr1, ex (OPorchGetRevision (pr_key pr)) (pr1, None) ∈ tr ∧
    ex (OPorchUpdateRevision (set_Lifecycle LifecycleProposed pr1)) (pr2, None) ∈ tr.

(** [pr'] was read, to be approved, under the key of the revision at hand, or of
    what the proposal of it returned. *)
Definition checked (tr : list (entry resp)) (pr pr' : PackageRevision) : Prop :=
  ∃ pr2, ((pr_Lifecycle pr = LifecycleProposed ∧ pr2 = pr) ∨
          (pr_Lifecycle pr = LifecycleDraft ∧ proposed tr pr pr2)) ∧
    ex (ORestGet (pr_key pr2)) (pr', None) ∈ tr.

(** The branch a tenant is in. *)
Definition in_branch (tr : list (entry resp)) (x : session) (b : bool) : Prop :=
  loaded tr x ∧ finalized tr x ∧ deleted x = b.

(** All listed revisions of the package are deleted. *)
Definition all_deleted (tr : list (entry resp)) (x : session) : Prop :=
  ∃ items, listed tr items ∧
    ∀ pr, pr ∈ items → pr_PackageName pr = ss_package x → ex (OPorchDelete pr) None ∈ tr.

(** Why a request that changes something was made. *)
Definition justified (tr : list (entry resp)) (e : entry resp) : Prop :=
  match projT1 e with
  | OPorchCreate pr => ∃ x rev, in_branch tr x false ∧ pr = built x rev
  | OPorchUpdateResources prr => ∃ x pr prr0 files, in_branch tr x false ∧
      prr = set_Resources files prr0 ∧ loaded_for tr pr prr0 ∧
      (was_created tr x pr ∨ (was_latest tr x pr ∧ pr_Lifecycle pr = LifecycleDraft))
  | OPorchUpdateRevision pr => ∃ x k pr', in_branch tr x false ∧
      ex (OPorchGetRevision k) (pr', None) ∈ tr ∧ pr = set_Lifecycle LifecycleProposed pr'
  | ORestPutApproval pr => ∃ x k pr', in_branch tr x false ∧
      ex (ORestGet k) (pr', None) ∈ tr ∧ pr_Lifecycle pr' = LifecycleProposed ∧
      pr = set_Lifecycle LifecyclePublished pr'
  | OPorchDelete pr => ∃ x items, in_branch tr x true ∧ listed tr items ∧
      pr ∈ items ∧ pr_PackageName pr = ss_package x
  | ORemoveFinalizer cr => ∃ x, in_branch tr x true ∧ cr = ss_cr x ∧ all_deleted tr x
  | _ => True
  end.

(** ** Traces only grow *)

Lemma justified_mono tr e e' : justified tr e → justified (tr ++ [e'])%list e.
Proof.
  unfold justified, in_branch, loaded, finalized, was_latest, all_deleted, listed, was_created,
    loaded_for.
  destruct (projT1 e); try done; setoid_rewrite elem_of_app; naive_solver.
Qed.

(** What is known in a phase. *)
Definition knowledge (tr : list (entry resp)) (p : phase) : Prop :=
  match p with
  | Idle => tr = []
  | Absent _ | Bare | Reported _ _ | Errored _ | Failed _ => True
  | Loaded x => loaded tr x ∧ creations tr = []
  | Active x => loaded tr x ∧ finalized tr x ∧ creations tr = []
  | Deleting x todo => in_branch tr x true ∧ ∃ items before, listed tr items ∧
      matching (ss_package x) items = (before ++ todo)%list ∧
      ∀ pr, pr ∈ before → ex (OPorchDelete pr) None ∈ tr
  | Creating x => in_branch tr x false
  | Selected x pr | Written x pr => in_branch tr x false ∧ at_hand tr x pr
  | Made x pr => in_branch tr x false ∧ at_hand tr x pr ∧ was_created tr x pr
  | Current x pr prr => in_branch tr x false ∧ at_hand tr x pr ∧ loaded_for tr pr prr
  | Next x pr prr => in_branch tr x false ∧ at_hand tr x pr ∧ was_created tr x pr ∧
      loaded_for tr pr prr
  | Fetched x pr' => in_branch tr x false ∧ ∃ pr, at_hand tr x pr ∧
      pr_Lifecycle pr = LifecycleDraft ∧ ex (OPorchGetRevision (pr_key pr)) (pr', None) ∈ tr
  | Proposed x pr2 => in_branch tr x false ∧ ∃ pr, at_hand tr x pr ∧
      pr_Lifecycle pr = LifecycleDraft ∧ proposed tr pr pr2
  | Checked x pr' => in_branch tr x false ∧ ∃ pr, at_hand tr x pr ∧ checked tr pr pr'
  | Approved x => in_branch tr x false ∧ ∃ pr pr', at_hand tr x pr ∧ checked tr pr pr' ∧
      pr_Lifecycle pr' = LifecycleProposed ∧
      ex (ORestPutApproval (set_Lifecycle LifecyclePublished pr')) None ∈ tr
  | Removed x => in_branch tr x true ∧ all_deleted tr x ∧
      ∃ cr, ex (ORemoveFinalizer (ss_cr x)) (cr, None) ∈ tr
  | Synced x status => in_branch tr x false
  end.

(** Exchanges that create no revision keep what is known. *)
Lemma creations_snoc tr e : creations (tr ++ [e])%list = (creations tr ++ option_list (made e))%list.
Proof. unfold creations. rewrite omap_app. simpl. by destruct (made e). Qed.

Lemma creations_other tr e : made e = None → creations (tr ++ [e])%list = creations tr.
Proof. intros He. by rewrite creations_snoc, He, app_nil_r. Qed.

Lemma at_hand_mono tr x pr e : made e = None → at_hand tr x pr → at_hand (tr ++ [e])%list x pr.
Proof.
  intros He. unfold at_hand, was_created, was_latest, listed. rewrite (creations_other _ _ He).
  setoid_rewrite elem_of_app. naive_solver.
Qed.

Lemma checked_mono tr pr pr' e : checked tr pr pr' → checked (tr ++ [e])%list pr pr'.
Proof. unfold checked, proposed. setoid_rewrite elem_of_app. naive_solver. Qed.

Lemma in_branch_mono tr x b e : in_branch tr x b → in_branch (tr ++ [e])%list x b.
Proof.
  unfold in_branch, loaded, finalized. setoid_rewrite elem_of_app. naive_solver.
Qed.

Lemma knowledge_mono tr p e : p ≠ Idle → made e = None →
  knowledge tr p → knowledge (tr ++ [e])%list p.
Proof.
  intros Hp He. pose proof (λ x pr, at_hand_mono tr x pr e He) as Hh.
  pose proof (λ pr pr', checked_mono tr pr pr' e) as Hc.
  pose proof (λ x b, in_branch_mono tr x b e) as Hb.
  unfold knowledge. destruct p; try done; rewrite ?(creations_other _ _ He);
    unfold loaded_for, loaded, finalized, proposed, all_deleted, listed, was_created in *;
    try setoid_rewrite elem_of_app; naive_solver.
Qed.

Lemma last_elem (tr : list (entry resp)) e : e ∈ (tr ++ [e])%list.
Proof. set_solver. Qed.

(** What is known in the phase a request may be refused in. *)
Lemma knowledge_refused tr x err p :
  (err = None → knowledge tr p) → knowledge tr (refused x err p).
Proof. destruct err; simpl; [done|auto]. Qed.

Lemma list_latest tr x items err pr :
  creations tr = [] → list_error err = None → first_latest (matching (ss_package x) items) pr →
  at_hand (tr ++ [ex OPorchList (items, err)])%list x pr.
Proof.
  intros Hc He Hf. right. rewrite creations_other by done. split; [done|].
  exists items. split; [|done]. exists err. split; [done|apply last_elem].
Qed.

Lemma create_at_hand tr x rev pr :
  let tr' := (tr ++ [ex (OPorchCreate (built x rev)) (pr, None)])%list in
  at_hand tr' x pr ∧ was_created tr' x pr.
Proof.
  assert (was_created (tr ++ [ex (OPorchCreate (built x rev)) (pr, None)])%list x pr) as Hw
    by (exists rev; apply last_elem).
  split; [|done]. left. split; [|done]. rewrite creations_snoc. simpl. by rewrite last_snoc.
Qed.

Lemma at_hand_writable tr x pr :
  at_hand tr x pr → pr_Lifecycle pr = LifecycleDraft →
  was_created tr x pr ∨ (was_latest tr x pr ∧ pr_Lifecycle pr = LifecycleDraft).
Proof. intros [[_ ?]|[_ ?]]; auto. Qed.

Lemma deleting_all tr x items before :
  listed tr items → matching (ss_package x) items = before →
  (∀ pr, pr ∈ before → ex (OPorchDelete pr) None ∈ tr) → all_deleted tr x.
Proof.
  intros Hl <- Hb. exists items. split; [done|]. intros pr Hin Hp. apply Hb.
  by apply elem_of_matching.
Qed.

Lemma deleting_next tr x pr before todo items :
  listed tr items → matching (ss_package x) items = (before ++ pr :: todo)%list →
  (∀ pr', pr' ∈ before → ex (OPorchDelete pr') None ∈ tr) →
  ∃ items before', listed (tr ++ [ex (OPorchDelete pr) None])%list items ∧
    matching (ss_package x) items = (before' ++ todo)%list ∧
    ∀ pr', pr' ∈ before' → ex (OPorchDelete pr') None ∈ (tr ++ [ex (OPorchDelete pr) None])%list.
Proof.
  intros (err & He & Hl) Hm Hb. exists items, (before ++ [pr])%list. split_and!.
  - exists err. split; [done|]. apply elem_of_app. by left.
  - by rewrite <-(assoc_L (++)%list).
  - intros pr' [Hin| ->%list_elem_of_singleton]%elem_of_app; [|apply last_elem].
    apply elem_of_app. left. by apply Hb.
Qed.

(** The requests that change the package of a tenant. *)
Definition package_write (o : op) : bool :=
  match o with
  | OPorchCreate _ | OPorchUpdateRevision _ | OPorchUpdateResources _ | ORestPutApproval _ => true
  | _ => false
  end.

(** A step is justified by what is known before it. *)
Lemma step_justified tr p e p' : knowledge tr p → step p e p' → justified tr e.
Proof.
  intros Hk Hs. destruct Hs; simpl in *; try done; unfold justified; simpl.
  - destruct Hk as (Hb & items & before & Hl & Hm & _). exists x, items. split_and!; [done..| |].
    + eapply (elem_of_matching (ss_package x)). rewrite Hm. set_solver.
    + eapply (elem_of_matching _ items). rewrite Hm. set_solver.
  - destruct Hk as (Hb & items & before & Hl & Hm & Hd). exists x. split_and!; [done..|].
    rewrite app_nil_r in Hm. by eapply deleting_all.
  - by destruct e as [[] r].
  - by eexists _, _.
  - destruct Hk. by eexists _, _.
  - destruct Hk as (Hb & Hh & Hl). exists x, pr, prr, files. split_and!; [done..|].
    by apply at_hand_writable.
  - destruct Hk as (Hb & Hh & Hc & Hl). exists x, pr, prr, files. split_and!; [done..|by left].
  - destruct Hk as (Hb & pr0 & _ & _ & Hg). by exists x, (pr_key pr0), pr.
  - destruct Hk as [Hb (pr0 & _ & pr2 & _ & Hg)]. by exists x, (pr_key pr2), pr.
Qed.

(** What a step adds to the knowledge: the steps that create a revision, and the
    others. *)
Lemma step_creates tr p e p' pr :
  knowledge tr p → step p e p' → made e = Some pr → knowledge (tr ++ [e])%list p'.
Proof.
  intros Hk Hs Hm. destruct Hs; simplify_eq/=; try done;
    try (by destruct e as [[] ?]).
  - destruct err; simplify_eq/=. split; [by apply in_branch_mono|by apply create_at_hand].
  - destruct err; simplify_eq/=. destruct Hk as [Hb _].
    split; [by apply in_branch_mono|by apply create_at_hand].
Qed.

Lemma checkable_knowledge tr p x pr :
  knowledge tr p → to_check p = Some (x, pr) → in_branch tr x false ∧
  ∃ pr0, at_hand tr x pr0 ∧
    ((pr_Lifecycle pr0 = LifecycleProposed ∧ pr = pr0) ∨
     (pr_Lifecycle pr0 = LifecycleDraft ∧ proposed tr pr0 pr)).
Proof.
  intros Hk Hc. destruct p; simpl in *; try case_match; rewrite ?String.eqb_eq in *; simplify_eq;
    destruct Hk as [Hb Hk]; (split; [done|]); naive_solver.
Qed.

Lemma approvable_knowledge tr p x pr :
  knowledge tr p → approvable p = Some (x, pr) → in_branch tr x false ∧ at_hand tr x pr.
Proof. intros Hk Hc. destruct p; simplify_eq/=; naive_solver. Qed.

Lemma step_other tr p e p' :
  p ≠ Idle → knowledge tr p → step p e p' → made e = None → knowledge (tr ++ [e])%list p'.
Proof.
  intros Hne Hk Hs Hm. pose proof (knowledge_mono _ _ _ Hne Hm Hk) as Hk'.
  destruct Hs; simpl in Hk, Hk' |- *; try done;
    try (apply knowledge_refused; intros He; simpl); subst.
  - split; [apply Hk'|]. split; [eexists; apply last_elem|apply Hk'].
  - destruct Hk' as (? & ? & _). split; [by split_and!|].
    exists items, []. split_and!; [|done|set_solver]. exists err. split; [done|apply last_elem].
  - destruct Hk' as [Hb _], Hk as (_ & items & before & Hl & Hml & Hd). split; [done|].
    by eapply deleting_next.
  - destruct Hk' as (Hb & items & before & Hl & Hml & Hd). rewrite app_nil_r in Hml.
    split_and!; [done|by eapply deleting_all|]. eexists. apply last_elem.
  - done.
  - destruct Hk' as (? & ? & _), Hk as (_ & _ & Hc). split; [by split_and!|]. by eapply list_latest.
  - destruct Hk' as (? & ? & _). by split_and!.
  - done.
  - split_and!; [apply Hk'..|]. apply last_elem.
  - done.
  - split_and!; [apply Hk'..|]. apply last_elem.
  - split; apply Hk'.
  - split; apply Hk'.
  - destruct (approvable_knowledge _ _ _ _ Hk' H) as [Hb Hh]. split; [done|].
    exists pr. split_and!; [done..|]. apply last_elem.
  - destruct Hk' as [Hb (pr0 & Hh & Hl & Hg)]. split; [done|]. exists pr0. split_and!; [done..|].
    exists pr. split; [done|apply last_elem].
  - destruct (checkable_knowledge _ _ _ _ Hk' H) as [Hb (pr0 & Hh & Hp)]. split; [done|].
    exists pr0. split; [done|]. exists pr. split; [done|apply last_elem].
  - destruct Hk' as [Hb (pr0 & Hh & Hc)]. split; [done|]. exists pr0, pr. split_and!; [done..|].
    apply last_elem.
  - destruct p; simplify_eq/=; repeat case_match; simplify_eq; apply Hk'.
Qed.

Lemma step_knowledge tr p e p' :
  knowledge tr p → step p e p' → knowledge (tr ++ [e])%list p'.
Proof.
  intros Hk Hs. destruct (made e) as [pr|] eqn:Hm; [by eapply step_creates|].
  destruct p; try (refine (step_other _ _ _ _ _ Hk Hs Hm); discriminate).
  inversion Hs; simplify_eq/=; try done.
  split; [|done]. eexists _, _, _. split_and!; [apply list_elem_of_here|done..].
Qed.

Lemma path_knowledge tr p : path tr p → knowledge tr p.
Proof. induction 1; [done|]. by eapply step_knowledge. Qed.

Lemma path_justified tr p e : path tr p → e ∈ tr → justified tr e.
Proof.
  induction 1 as [|tr p e' p' Hp IH Hs]; [set_solver|].
  intros [Hin| ->%list_elem_of_singleton]%elem_of_app; apply justified_mono; [auto|].
  eapply step_justified; [|done]. by apply path_knowledge.
Qed.

(** ** The ends of a path *)

Lemma step_to_final p e p' :
  step p e p' →
  match p' with
  | Reported cr err => e = ex (OEvent cr err) ()
  | Errored status => ∃ cr err cond r, p = Reported cr err ∧
      (cond = nddv1_Unknown ∨ cond = nddv1_Unavailable) ∧
      e = ex (OStatusUpdate (SetConditions cr [nddv1_ReconcileError err; cond])) (r, status)
  | Synced x status => ∃ r, published p = Some x ∧
      e = ex (OStatusUpdate (SetConditions (ss_cr x) [nddv1_ReconcileSuccess; nddv1_Available]))
            (r, status)
  | _ => True
  end.
Proof.
  destruct 1; simpl; try done; try (by destruct err; simpl; auto).
  - by destruct (list_error err).
  - unfold refused. by destruct (read_error e).
  - by destruct p.
  - by eexists _, _, _, _.
  - by eexists.
Qed.

Lemma path_last tr p :
  path tr p → p = Idle ∨ ∃ tr' p' e, tr = (tr' ++ [e])%list ∧ path tr' p' ∧ step p' e p.
Proof. destruct 1; [by left|right]. by eexists _, _, _. Qed.

Lemma errored_path tr status :
  path tr (Errored status) →
  ∃ tr0 cr err cond r, (cond = nddv1_Unknown ∨ cond = nddv1_Unavailable) ∧
    tr = (tr0 ++ [ex (OEvent cr err) ();
      ex (OStatusUpdate (SetConditions cr [nddv1_ReconcileError err; cond])) (r, status)])%list.
Proof.
  intros [?|(tr1 & p1 & e1 & -> & Hp1 & Hs1)]%path_last; [done|].
  apply step_to_final in Hs1 as (cr & err & cond & r & -> & Hc & ->).
  apply path_last in Hp1 as [?|(tr2 & p2 & e2 & -> & Hp2 & Hs2)]; [done|].
  apply step_to_final in Hs2 as ->. exists tr2, cr, err, cond, r. split; [done|].
  by rewrite <-(assoc_L (++)%list).
Qed.

(** The evidence that the package is published: the revision at hand is, or it
    was Proposed - by someone else or by this reconciliation - and was then read
    as Published, or read as Proposed and approved. *)
Definition published_evidence (tr : list (entry resp)) (x : session) : Prop :=
  ∃ pr, at_hand tr x pr ∧
    (pr_Lifecycle pr = LifecyclePublished ∨
     ∃ pr', checked tr pr pr' ∧
       (pr_Lifecycle pr' = LifecyclePublished ∨
        (pr_Lifecycle pr' = LifecycleProposed ∧
         ex (ORestPutApproval (set_Lifecycle LifecyclePublished pr')) None ∈ tr))).

Lemma knowledge_published tr p x :
  knowledge tr p → published p = Some x → in_branch tr x false ∧ published_evidence tr x.
Proof.
  unfold published_evidence. intros Hk Hp.
  destruct p; simpl in *; repeat case_match; rewrite ?String.eqb_eq in *; simplify_eq;
    destruct Hk as [Hb Hk]; (split; [done|]); naive_solver.
Qed.

Lemma synced_path tr x status :
  path tr (Synced x status) →
  ∃ tr0 r, tr = (tr0 ++ [ex (OStatusUpdate (SetConditions (ss_cr x)
                     [nddv1_ReconcileSuccess; nddv1_Available])) (r, status)])%list ∧
    in_branch tr0 x false ∧ published_evidence tr0 x.
Proof.
  intros [?|(tr1 & p1 & e1 & -> & Hp1 & Hs1)]%path_last; [done|].
  apply step_to_final in Hs1 as (r & Hpub & ->). exists tr1, r. split; [done|].
  eapply knowledge_published; [by apply path_knowledge|done].
Qed.

(** ** Properties

    Throughout, [tr] are the exchanges of one reconciliation. *)

Context (poll : Z) (req : ObjectKey) (s s' : gstate).
Abbreviation behaves tr o := (exec (Reconcile poll req s) tr (o, s')).

(** C1: Every behaviour of [Reconcile] follows the protocol: its exchanges are
    a path of the state machine, it never ends with a bare error, and its result
    is the one of the final phase it reached. *)
Theorem Reconcile_refines tr o :
  behaves tr o →
  ∃ p, path tr p ∧
    match o with
    | Ok result => final poll p = Some result
    | Err _ => False
    | Panic _ => True
    end.
Proof. apply Reconcile_path. Qed.

(** C23: A package revision is created, changed or approved only in the
    reconciliation of a tenant that was read with properties, whose finalizer
    was set before, and that is not being deleted. *)
Theorem Reconcile_write_safe tr o e :
  behaves tr o → e ∈ tr → package_write (projT1 e) = true →
  ∃ x, loaded tr x ∧ finalized tr x ∧ deleted x = false.
Proof.
  intros (p & Hp & _)%Reconcile_path He Hw. pose proof (path_justified _ _ _ Hp He) as Hj.
  unfold justified in Hj. destruct (projT1 e); simplify_eq/=; naive_solver.
Qed.

(** C25: A revision that is created belongs to the tenant: it has the package
    name made of its group, kind and name, its repository, the namespace
    default, and the tenant as owner, and asks for no lifecycle. *)
Theorem Reconcile_create_scope tr o pr r :
  behaves tr o → ex (OPorchCreate pr) r ∈ tr →
  ∃ x, loaded tr x ∧ finalized tr x ∧
    pr_PackageName pr = ss_package x ∧ prs_RepositoryName (pr_Spec pr) = ss_repo x ∧
    pr_Namespace pr = "default" ∧ pr_Lifecycle pr = "" ∧
    om_OwnerReferences (pr_ObjectMeta pr) =
      [meta_AsController (meta_TypedReferenceTo (t_ObjectMeta (ss_cr x)) TenantGroupVersionKind)].
Proof.
  intros (p & Hp & _)%Reconcile_path He.
  destruct (path_justified _ _ _ Hp He) as (x & rev & (Hl & Hf & _) & ->). by exists x.
Qed.

(** C24: Only listed revisions of the tenant's own package are deleted, and
    only when the tenant, with its finalizer, is being deleted. *)
Theorem Reconcile_delete_scope tr o pr r :
  behaves tr o → ex (OPorchDelete pr) r ∈ tr →
  ∃ x items, loaded tr x ∧ finalized tr x ∧ deleted x = true ∧
    listed tr items ∧ pr ∈ items ∧ pr_PackageName pr = ss_package x.
Proof.
  intros (p & Hp & _)%Reconcile_path He.
  destruct (path_justified _ _ _ Hp He) as (x & items & (Hl & Hf & Hd) & Hrest).
  by exists x, items.
Qed.

(** C2: The finalizer of a tenant is removed only when the tenant is being
    deleted and every listed revision of its package has been deleted
    successfully. *)
Theorem Reconcile_finalizer_safe tr o cr r :
  behaves tr o → ex (ORemoveFinalizer cr) r ∈ tr →
  ∃ x, cr = ss_cr x ∧ loaded tr x ∧ finalized tr x ∧ deleted x = true ∧ all_deleted tr x.
Proof.
  intros (p & Hp & _)%Reconcile_path He.
  destruct (path_justified _ _ _ Hp He) as (x & (Hl & Hf & Hd) & -> & Ha). by exists x.
Qed.

(** C3: The resources of a package are written only for a revision that was
    created for the tenant in this reconciliation, or is the latest listed revision
    of its package and a Draft; and what is written are the resources that were
    loaded for that revision, with other files. *)
Theorem Reconcile_edits_drafts tr o prr r :
  behaves tr o → ex (OPorchUpdateResources prr) r ∈ tr →
  ∃ x pr prr0 files, loaded tr x ∧ finalized tr x ∧ deleted x = false ∧
    prr = set_Resources files prr0 ∧ ex (OPorchGetResources (pr_key pr)) (prr0, None) ∈ tr ∧
    (was_created tr x pr ∨ (was_latest tr x pr ∧ pr_Lifecycle pr = LifecycleDraft)).
Proof.
  intros (p & Hp & _)%Reconcile_path He.
  destruct (path_justified _ _ _ Hp He) as (x & pr & prr0 & files & (Hl & Hf & Hd) & Hrest).
  by exists x, pr, prr0, files.
Qed.

(** C5: When a reconciliation asks to be repeated at once, its last two
    exchanges are a warning event about an error and the status update that
    records that error, and the error it returns is the failure of that update. *)
Theorem Reconcile_failure tr after err :
  behaves tr (Ok ({| Requeue := true; RequeueAfter := after |}, err)) →
  after = 0%Z ∧ ∃ tr0 cr e cond r status,
    tr = (tr0 ++ [ex (OEvent cr e) ();
      ex (OStatusUpdate (SetConditions cr [nddv1_ReconcileError e; cond])) (r, status)])%list ∧
    (cond = nddv1_Unknown ∨ cond = nddv1_Unavailable) ∧
    err = errors_Wrap status "cannot update status".
Proof.
  intros (p & Hp & Hf)%Reconcile_path. destruct p; simplify_eq/=. split; [done|].
  apply errored_path in Hp as (tr0 & cr & e & cond & r & Hc & ->).
  by exists tr0, cr, e, cond, r, status.
Qed.

(** C4: When a reconciliation asks to be repeated after the poll interval, its
    last exchange is the status update that records success; before it the servers
    had shown the revision at hand - the last one it created, or the latest listed
    one when it created none - to be published: it was Published, or it was
    Proposed, if need be by this reconciliation, and then read under its key as
    Published or read as Proposed and approved.  The error it returns is the
    failure of the update: with none, success is recorded. *)
Theorem Reconcile_success `{!ErrorLaws} tr err :
  behaves tr (Ok ({| Requeue := false; RequeueAfter := poll |}, err)) → poll ≠ 0%Z →
  ∃ tr0 x r status,
    tr = (tr0 ++ [ex (OStatusUpdate (SetConditions (ss_cr x)
             [nddv1_ReconcileSuccess; nddv1_Available])) (r, status)])%list ∧
    err = errors_Wrap status "cannot update status" ∧ (err = None → status = None) ∧
    in_branch tr0 x false ∧ published_evidence tr0 x.
Proof.
  intros (p & Hp & Hf)%Reconcile_path Hne.
  destruct p; simpl in Hf; unfold zero_Result in Hf; try congruence. injection Hf as <-.
  apply synced_path in Hp as (tr0 & r & -> & Hb & He). exists tr0, x, r, status.
  split_and!; try done. destruct status as [e|]; [|done].
  by destruct (wrap_err e errUpdateStatus) as [e' ->].
Qed.

Definition got (e : entry resp) : option (Tenant * option error) :=
  match e with existT (OTenantGet _) r => Some r | _ => None end.
Definition finalizer_reply (e : entry resp) : option (Tenant * option error) :=
  match e with existT (OAddFinalizer _) r => Some r | _ => None end.

(** When the tenant cannot be read nothing else is requested and nothing
    is repeated at once: a tenant that is gone is not an error, any other
    failure is. *)
Theorem Reconcile_absent `{!ErrorLaws} tr o cr err :
  behaves (ex (OTenantGet req) (cr, Some err) :: tr) o →
  tr = [] ∧ s' = s ∧
  match resource_IgnoreNotFound (Some err) with
  | None => o = Ok (zero_Result, None)
  | Some _ => ∃ e, o = Ok (zero_Result, Some e)
  end.
Proof.
  unfold Reconcile, mbind, M_bind, call. simpl. intros (r & Hr%(f_equal got) & Hx).
  injection Hr as <-. simpl in Hx. destruct tr; [|done]. injection Hx as -> ->.
  split_and!; [done..|]. destruct (resource_IgnoreNotFound _) as [e|]; [|by rewrite wrap_nil].
  destruct (wrap_err e errGetCr) as [e' ->]. by exists e'.
Qed.

(** C39: The optional parts of a tenant are used without a check: a tenant
    without properties makes the reconciliation panic right after it is read,
    one without applications right after its finalizer is set, unless it is
    being deleted. *)
Theorem Reconcile_nil_pointers tr o cr :
  behaves (ex (OTenantGet req) (cr, None) :: tr) o →
  (ts_Properties (t_Spec cr) = None → o = Panic NilDeref ∧ tr = []) ∧
  (∀ props cr' tr', ts_Properties (t_Spec cr) = Some props →
     tr = ex (OAddFinalizer cr) (cr', None) :: tr' →
     meta_WasDeleted (t_ObjectMeta cr') = false →
     (props' ← ts_Properties (t_Spec cr'); tp_Applications props') = None →
     o = Panic NilDeref ∧ tr' = []).
Proof.
  unfold Reconcile, mbind at 1, M_bind at 1, call at 1. simpl.
  intros (r & Hr%(f_equal got) & Hx). injection Hr as <-. simpl in Hx. split.
  - intros Hp. revert Hx. unfold mbind, M_bind, m_deref, m_lift. simpl. rewrite Hp. simpl.
    destruct tr; [|done]. by intros [= -> ->].
  - intros props cr' tr' Hp -> Hd Ha. revert Hx.
    unfold mbind, M_bind, m_deref, m_lift. simpl. rewrite Hp. simpl.
    intros (r & Hr%(f_equal finalizer_reply) & Hx). injection Hr as <-. revert Hx. simpl.
    rewrite Hd. simpl.
    rewrite reconcile_package_nil by done. destruct tr'; [|done]. by intros [= -> ->].
Qed.
End safety.

(** ** The theorems on runs against the toy server *)

Section examples.
Abbreviation ex o r := (reply (resp:=toy_resp) o r).

Definition poll : Z := 60000000000.
Definition req : ObjectKey := Key "default" "t1".
Definition rec := Reconcile (ET:=toy_types) poll req.
Definition trace (w : world) := exchanges_of rec nobody w.
Definition result (w : world) := outcome_of rec nobody w.

(** The exchange at an index of a run. *)
Lemma at_index w i e : trace w !! i = Some e → e ∈ trace w.
Proof. apply list_elem_of_lookup_2. Qed.

(** The first reconciliation of a tenant. *)
Definition fresh : world := toy_cluster [].
Definition finalized_tenant : @Tenant toy_types :=
  set_meta (set_finalizers [finalizer]) toy_tenant.
Definition ex_first : @PackageRevision toy_types :=
  buildPackageRevision "default" "repo" "admin.yndd.io_Tenant_t1" "v1" finalized_tenant.
Definition ex_resources : @PackageRevisionResources toy_types :=
  match trace fresh !! 12 with
  | Some (existT (OPorchUpdateResources prr) _) => prr
  | _ => toy_prr "" ∅
  end.

(** A tenant that is being deleted, with two revisions of its package. *)
Definition ex_gone : @Tenant toy_types := set_meta (λ m, {|
  om_Name := om_Name m; om_Namespace := om_Namespace m; om_Annotations := om_Annotations m;
  om_Finalizers := om_Finalizers m; om_DeletionTimestamp := Some 5;
  om_OwnerReferences := om_OwnerReferences m |}) finalized_tenant.
Definition ex_v1 := toy_pr "pr-1" "admin.yndd.io_Tenant_t1" "v1" "Published".
Definition ex_v2 := toy_pr "pr-2" "admin.yndd.io_Tenant_t1" "v2" "Draft".
Definition leaving : world :=
  World [ex_gone] [toy_pr "src" "app" "v2" "Published"; ex_v1; ex_v2] [] 3 [].

(** The second listing of the package revisions is refused. *)
Definition refused_list : world :=
  toy_cluster [None; None; None; None; None; None; Some (ToyError false "unavailable")].

Lemma fresh_result : result fresh = Ok ({| Requeue := false; RequeueAfter := poll |}, None).
Proof. vm_compute. reflexivity. Qed.

Lemma refused_result :
  result refused_list = Ok ({| Requeue := true; RequeueAfter := 0 |}, None).
Proof. vm_compute. reflexivity. Qed.

Lemma Reconcile_refines_witness :
  ∃ p, path (trace fresh) p ∧ final poll p = Some ({| Requeue := false; RequeueAfter := poll |}, None).
Proof. exact (Reconcile_refines _ _ _ _ _ _ (serve_exec_to rec nobody fresh _ fresh_result)). Defined.

Lemma Reconcile_write_safe_witness :
  ∃ x, loaded (trace fresh) x ∧ finalized (trace fresh) x ∧ deleted x = false.
Proof.
  apply (Reconcile_write_safe _ _ _ _ _ _ (ex (OPorchCreate ex_first) (created 1 ex_first, None))
    (serve_exec rec nobody fresh)); [|reflexivity].
  apply (at_index fresh 7). vm_compute. reflexivity.
Defined.

Lemma Reconcile_create_scope_witness :
  ∃ x, loaded (trace fresh) x ∧ finalized (trace fresh) x ∧
    "admin.yndd.io_Tenant_t1" = ss_package x ∧ "repo" = ss_repo x ∧
    "default" = "default" ∧ "" = "" ∧
    ["Tenant/t1"] = [meta_AsController
      (meta_TypedReferenceTo (t_ObjectMeta (ss_cr x)) TenantGroupVersionKind)].
Proof.
  apply (Reconcile_create_scope _ _ _ _ _ _ ex_first (created 1 ex_first, None)
    (serve_exec rec nobody fresh)).
  apply (at_index fresh 7). vm_compute. reflexivity.
Defined.

Lemma Reconcile_delete_scope_witness :
  ∃ x items, loaded (trace leaving) x ∧ finalized (trace leaving) x ∧ deleted x = true ∧
    listed (trace leaving) items ∧ ex_v1 ∈ items ∧ "admin.yndd.io_Tenant_t1" = ss_package x.
Proof.
  apply (Reconcile_delete_scope _ _ _ _ _ _ ex_v1 None (serve_exec rec nobody leaving)).
  apply (at_index leaving 3). vm_compute. reflexivity.
Defined.

Lemma Reconcile_finalizer_safe_witness :
  ∃ x, ex_gone = ss_cr x ∧ loaded (trace leaving) x ∧ finalized (trace leaving) x ∧
    deleted x = true ∧ all_deleted (trace leaving) x.
Proof.
  apply (Reconcile_finalizer_safe _ _ _ _ _ _ ex_gone
    (set_meta (set_finalizers []) ex_gone, None) (serve_exec rec nobody leaving)).
  apply (at_index leaving 5). vm_compute. reflexivity.
Defined.

Lemma Reconcile_edits_drafts_witness :
  ∃ x pr prr0 files, loaded (trace fresh) x ∧ finalized (trace fresh) x ∧ deleted x = false ∧
    ex_resources = set_Resources files prr0 ∧
    ex (OPorchGetResources (pr_key pr)) (prr0, None) ∈ trace fresh ∧
    (was_created (trace fresh) x pr ∨
     (was_latest (trace fresh) x pr ∧ pr_Lifecycle pr = LifecycleDraft)).
Proof.
  apply (Reconcile_edits_drafts _ _ _ _ _ _ ex_resources (ex_resources, None)
    (serve_exec rec nobody fresh)).
  apply (at_index fresh 12). vm_compute. reflexivity.
Defined.

Lemma Reconcile_failure_witness :
  0%Z = 0%Z ∧ ∃ tr0 cr e cond r status,
    trace refused_list = (tr0 ++ [ex (OEvent cr e) ();
      ex (OStatusUpdate (SetConditions cr [nddv1_ReconcileError e; cond])) (r, status)])%list ∧
    (cond = nddv1_Unknown ∨ cond = nddv1_Unavailable) ∧
    None = errors_Wrap status "cannot update status".
Proof.
  exact (Reconcile_failure _ _ _ _ _ _ _ (serve_exec_to rec nobody refused_list _ refused_result)).
Defined.

Lemma Reconcile_success_witness :
  ∃ tr0 x r status,
    trace fresh = (tr0 ++ [ex (OStatusUpdate (SetConditions (ss_cr x)
             [nddv1_ReconcileSuccess; nddv1_Available])) (r, status)])%list ∧
    None = errors_Wrap status "cannot update status" ∧
    (@None (@error toy_types) = None → status = None) ∧
    in_branch tr0 x false ∧ published_evidence tr0 x.
Proof.
  refine (Reconcile_success _ _ _ _ _ _ (serve_exec_to rec nobody fresh _ fresh_result) _).
  discriminate.
Defined.

Definition empty : world := World [] [] [] 1 [].

Lemma Reconcile_absent_witness :
  ([] : list (entry toy_resp)) = [] ∧ nobody = nobody ∧
  match resource_IgnoreNotFound (Some not_found) with
  | None => result empty = Ok (zero_Result, None)
  | Some _ => ∃ e, result empty = Ok (zero_Result, Some e)
  end.
Proof.
  exact (Reconcile_absent poll req nobody nobody [] (result empty)
    (toy_cr (toy_meta "") None) not_found (serve_exec rec nobody empty)).
Defined.

Definition ex_bare : @Tenant toy_types := toy_cr (toy_meta "t1") None.
Definition bare_world : world := World [ex_bare] [] [] 1 [].

Definition ex_unfilled_props : TenantProperties := {|
  tp_OwnerRef := ""; tp_OrganizationRef := ""; tp_Deployment := ""; tp_Region := "";
  tp_AvailabilityZone := ""; tp_RepositoryRef := "repo"; tp_Applications := None;
  tp_Clusters := [] |}.
Definition ex_unfilled : @Tenant toy_types := toy_cr (toy_meta "t1") (Some ex_unfilled_props).
Definition unfilled_world : world := World [ex_unfilled] [] [] 1 [].

(** One tenant without properties, one without applications. *)
Lemma Reconcile_nil_pointers_witness :
  (result bare_world = Panic NilDeref ∧ tail (trace bare_world) = []) ∧
  (result unfilled_world = Panic NilDeref ∧ tail (tail (trace unfilled_world)) = []).
Proof.
  split.
  - apply (proj1 (Reconcile_nil_pointers poll req nobody _ [] _ ex_bare
      (serve_exec rec nobody bare_world))). reflexivity.
  - apply (proj2 (Reconcile_nil_pointers poll req nobody _ (tail (trace unfilled_world)) _
      ex_unfilled (serve_exec rec nobody unfilled_world)) ex_unfilled_props
      (set_meta (set_finalizers [finalizer]) ex_unfilled)); reflexivity.
Defined.

(** One reconciliation creates, fills and publishes the package; the next one
    finds nothing to do. *)
Example Reconcile_converges :
  result fresh = Ok ({| Requeue := false; RequeueAfter := poll |}, None) ∧
  result (after fresh) = result fresh ∧
  w_prs (after (after fresh)) = w_prs (after fresh) ∧
  w_resources (after (after fresh)) = w_resources (after fresh) ∧
  existsb (λ e, package_write (projT1 e)) (trace (after fresh)) = false ∧
  (pr_Lifecycle <$> w_prs (after fresh)) = ["Published"; "Published"].
Proof. vm_compute. by split_and!. Qed.
End examples.
