(* ===== verification/Progress.v ===== *)
(** * Progress: what happens when no request is refused

    Safety holds for every answer of the servers; here the servers cooperate.
    A tenant that is being deleted is then really deleted, and a revision is
    really approved. *)

From stdpp Require Import base tactics list gmap strings.
From S2P Require Import Prelude.
From S2P Require Import GoStrings.
From S2P Require Import Effects.
From S2P Require Import Deps.
From S2P Require Import Api.
From S2P Require Import Toy.
From S2P Require Import Services.
From S2P Require Import ToyServer.
From S2P Require Import PkgRev.
From S2P Require Import Reconciler.
From S2P Require Import Revision.
From S2P Require Import Protocol.
From S2P Require Import Refinement.
From S2P Require Import Safety.

Local Open Scope string_scope.

Section progress.
Context {ET : ExtTypes} {EO : ExtOps}.
Abbreviation ex o r := (reply (resp:=resp) o r).

(** ** Behaviours that rely on the answers *)

Definition snoc_trace (tr : list (entry resp)) (e : entry resp) := (tr ++ [e])%list.

(** [relying R m s tr0 Q]: every behaviour of [m] after the exchanges [tr0] whose
    answers satisfy [R] ends in [Q]. *)
Definition relying (R : entry resp → Prop) {A} (m : GM A) (s : gstate) (tr0 : list (entry resp))
    (Q : list (entry resp) → outcome error A → gstate → Prop) : Prop :=
  wp snoc_trace (λ _, R) m s tr0 Q.

Lemma relies_Forall R (tr0 tr : list (entry resp)) :
  relies snoc_trace (λ _, R) tr0 tr ↔ Forall R tr.
Proof.
  revert tr0. induction tr as [|e tr IH]; intros tr0; simpl; [done|].
  by rewrite IH, Forall_cons.
Qed.

Lemma relying_exec R {A} (m : GM A) s (Q : list (entry resp) → outcome error A → gstate → Prop)
    tr o s' :
  relying R m s [] Q → exec (m s) tr (o, s') → Forall R tr → Q tr o s'.
Proof.
  unfold relying, wp. rewrite pwp_exec. intros H He HR.
  specialize (H tr (o, s') He (proj2 (relies_Forall R [] tr) HR)).
  unfold snoc_trace in H. by rewrite foldl_snoc in H.
Qed.

Lemma relying_call R (o : op) s tr0 (Q : list (entry resp) → outcome error (resp o) → gstate → Prop) :
  (∀ r, R (ex o r) → Q (tr0 ++ [ex o r])%list (Ok r) s) → relying R (call o) s tr0 Q.
Proof. intros H. apply wp_call. exact H. Qed.

Lemma relying_pure R {A} (m : GM A) s o s' tr0
    (Q : list (entry resp) → outcome error A → gstate → Prop) :
  m s = Ret (o, s') → Q tr0 o s' → relying R m s tr0 Q.
Proof. intros Hm HQ. unfold relying, wp. by rewrite Hm. Qed.

(** One step of a program that relies on the answers. *)
Ltac rely_step :=
  try change (wp snoc_trace (λ _, ?R) ?m ?s ?tr ?Q) with (relying R m s tr Q);
  lazymatch goal with
  | |- relying _ (mbind _ _) _ _ _ => apply wp_bind
  | |- relying _ (m_try _ _ _) _ _ _ => apply wp_try
  | |- relying _ (call _) _ _ _ => apply relying_call; intros ? ?
  | |- on_ok _ _ _ _ _ => progress simpl
  | |- relying _ _ _ _ _ => eapply relying_pure; [reflexivity|]
  end.

(** ** Cooperation *)

(** A server that refuses nothing a deletion needs: the tenant is there, with
    properties, and is being deleted. *)
Definition cooperates (e : entry resp) : Prop :=
  match e with
  | existT (OTenantGet _) r => r.2 = None ∧ is_Some (ts_Properties (t_Spec r.1))
  | existT (OAddFinalizer _) r => r.2 = None ∧ meta_WasDeleted (t_ObjectMeta r.1) = true
  | existT (ORemoveFinalizer _) r => r.2 = None
  | existT OPorchList r => r.2 = None
  | existT (OPorchDelete _) r => r = None
  | _ => True
  end.

(** A server that refuses no step of an approval and keeps the lifecycle: a
    revision it is asked about is Proposed or already Published. *)
Definition approves (e : entry resp) : Prop :=
  match e with
  | existT (OPorchGetRevision _) r | existT (OPorchUpdateRevision _) r => r.2 = None
  | existT (ORestGet _) r =>
      r.2 = None ∧ pr_Lifecycle r.1 ∈ [LifecycleProposed; LifecyclePublished]
  | existT (ORestPutApproval _) r => r = None
  | _ => True
  end.

(** ** Lemmas *)

Lemma relying_Delete s tr0 :
  relying cooperates Delete s tr0 (λ tr o s', o = Ok () ∧ s' = s ∧
    ∃ items, tr = (tr0 ++ ex OPorchList (items, None) ::
      deletions (matching (p_packageName (g_pkg s)) items))%list).
Proof.
  unfold Delete. apply wp_bind. apply wp_bind, wp_ret. simpl. apply wp_bind.
  apply relying_call. intros [items err] Hc. simpl in Hc. subst. simpl.
  set (pl := matching (p_packageName (g_pkg s)) items).
  apply wp_iter with (I := λ done tr s',
    tr = (tr0 ++ ex OPorchList (items, None) :: deletions done)%list ∧ s' = s).
  - done.
  - intros done pr rest tr s1 _ [-> ->]. apply wp_bind. apply relying_call.
    intros r Hr. simpl in Hr. subst. apply wp_ret. simpl. split; [|done].
    unfold deletions. rewrite fmap_app, <-(assoc_L (++)%list). done.
  - intros tr s1 [-> ->]. eauto.
Qed.

Lemma relying_Reconcile poll req s :
  relying cooperates (Reconcile poll req) s [] (λ tr o _, o = Ok (zero_Result, None) ∧
    ∃ read fin gone items,
      tr = ([ex (OTenantGet req) (read, None); ex (OAddFinalizer read) (fin, None);
             ex OPorchList (items, None)] ++
            deletions (matching (packageName_of read) items) ++
            [ex (ORemoveFinalizer fin) (gone, None)])%list).
Proof.
  unfold Reconcile. do 2 rely_step. destruct r as [read err].
  destruct H as [Herr [props Hp]]. simpl in Herr, Hp. subst.
  cbn [on_ok fst snd]. do 3 rely_step. cbn [on_ok fst snd]. rewrite Hp.
  repeat rely_step. unfold add_finalizer. repeat rely_step. destruct r as [fin err]. destruct H as [Herr Hdel].
  simpl in Herr, Hdel. subst. cbn [on_ok fst snd]. repeat rely_step.
  cbv iota. repeat rely_step. simpl. rewrite Hdel. unfold reconcile_delete.
  rely_step. eapply wp_mono; [|apply relying_Delete].
  intros tr o s' (-> & -> & items & ->). cbv iota. unfold remove_finalizer. repeat rely_step.
  destruct r as [gone err]. simpl in H. subst. cbn [on_ok fst snd]. repeat rely_step.
  cbv iota. rely_step. split; [done|]. exists read, fin, gone, items.
  reflexivity.
Qed.

(** C12: A deletion makes progress: when the tenant is found, marked as deleted,
    and no request is refused, the reconciliation ends with success, after it
    has set the finalizer, listed the package revisions, deleted every revision
    of the package in the order of the list, and removed the finalizer - and made
    no other request. *)
Theorem Reconcile_delete_progress (poll : Z) (req : ObjectKey) (s s' : gstate) tr o :
  exec (Reconcile poll req s) tr (o, s') → Forall cooperates tr →
  o = Ok (zero_Result, None) ∧
  ∃ read fin gone items,
    tr = ([ex (OTenantGet req) (read, None); ex (OAddFinalizer read) (fin, None);
           ex OPorchList (items, None)] ++
          deletions (matching (packageName_of read) items) ++
          [ex (ORemoveFinalizer fin) (gone, None)])%list.
Proof. intros He Hc. by apply (relying_exec _ _ _ _ _ _ _ (relying_Reconcile poll req s)) in He. Qed.

Lemma Approve_done `{!LifecycleLaws} (s s' : gstate) tr o pr :
  exec (Approve s) tr (o, s') → Forall approves tr → p_pr (g_pkg s) = Some pr →
  pr_Lifecycle pr ∈ [LifecycleDraft; LifecycleProposed; LifecyclePublished] →
  porchv1alpha1_AddToScheme = None → o = Ok ().
Proof.
  intros He Hf Hpr Hl Hadd. revert Hf.
  by_traced He. unfold Approve, updatePackageRevisionApproval, GetLifecycle. rewrite Hadd.
  repeat svc_step; simplify_eq/=; intros Hf; rewrite ?String.eqb_eq, ?String.eqb_neq in *;
    try done; rewrite ?Forall_cons in Hf; simpl in Hf; destruct_and?; simplify_eq/=;
    try done; exfalso; set_solver.
Qed.

(** An approval makes progress: of a revision that is a Draft, Proposed or
    Published, when no request is refused and the server reports it as Proposed
    or Published, [Approve] ends normally. *)
Theorem Approve_progress `{!LifecycleLaws} (s s' : gstate) tr o pr :
  exec (Approve s) tr (o, s') → Forall approves tr → p_pr (g_pkg s) = Some pr →
  pr_Lifecycle pr ∈ [LifecycleDraft; LifecycleProposed; LifecyclePublished] →
  porchv1alpha1_AddToScheme = None → o = Ok ().
Proof. apply Approve_done. Qed.
End progress.

(** ** Against the toy server *)

Section examples.
Abbreviation ex o r := (reply (resp:=toy_resp) o r).

Lemma Reconcile_delete_progress_witness :
  outcome_of toy_reconcile nobody leaving = Ok (zero_Result, None) ∧
  ∃ read fin gone items,
    exchanges_of toy_reconcile nobody leaving =
      ([ex (OTenantGet (Key "default" "t1")) (read, None); ex (OAddFinalizer read) (fin, None);
        ex OPorchList (items, None)] ++
       deletions (matching (packageName_of read) items) ++
       [ex (ORemoveFinalizer fin) (gone, None)])%list.
Proof.
  apply (Reconcile_delete_progress _ _ _ _ _ _ (serve_exec toy_reconcile nobody leaving)).
  vm_compute. repeat constructor. by eexists.
Defined.

Lemma Approve_progress_witness : outcome_of Approve ex_draft (ex_cluster []) = Ok ().
Proof.
  apply (Approve_progress _ _ _ _ ex_p3 (serve_exec Approve ex_draft (ex_cluster []))).
  - vm_compute. repeat constructor.
  - reflexivity.
  - vm_compute. repeat constructor.
  - reflexivity.
Defined.
End examples.
