(* ===== verification/Publish.v ===== *)
(** * Progress of a live tenant

    When the servers refuse nothing and hold the source package of a tenant, its
    reconciliation runs to the end: the package is built, created or brought up to
    date, and approved, and success is recorded. *)

From stdpp Require Import base tactics list gmap strings.
From S2P Require Import Prelude.
From S2P Require Import GoStrings.
From S2P Require Import Effects.
From S2P Require Import Deps.
From S2P Require Import Api.
From S2P Require Import Toy.
From S2P Require Import AppResource.
From S2P Require Import PkgUtil.
From S2P Require Import Services.
From S2P Require Import ToyServer.
From S2P Require Import Porch.
From S2P Require Import PkgRev.
From S2P Require Import RoundTrip.
From S2P Require Import Reconciler.
From S2P Require Import Wanted.
From S2P Require Import Steady.
From S2P Require Import Stable.
From S2P Require Import Progress.

Local Open Scope string_scope.

Section publish.
Context {ET : ExtTypes} {EO : ExtOps}.
Abbreviation ex o r := (reply (resp:=resp) o r).

(** ** Servers that refuse nothing *)

Definition known (pr : PackageRevision) : Prop :=
  pr_Lifecycle pr ∈ [LifecycleDraft; LifecycleProposed; LifecyclePublished].

(** The tenant is there with the inputs [i] and the source reference [ref], and
    is not being deleted; its source package is listed; no request is refused;
    revisions have a known lifecycle, and one that is asked about after it was
    proposed is Proposed or Published. *)
Definition serves (ref : PackageRevisionReference) (i : inputs) (e : entry resp) : Prop :=
  approves e ∧
  match e with
  | existT (OTenantGet _) r => r.2 = None ∧ packageName_of r.1 = i_package i ∧
      is_Some (ts_Properties (t_Spec r.1))
  | existT (OAddFinalizer _) r => r.2 = None ∧ meta_WasDeleted (t_ObjectMeta r.1) = false ∧
      t_GetName r.1 = i_name i ∧ source_of r.1 = Some ref
  | existT (OStatusUpdate _) r => r.2 = None
  | existT OPorchList r => r.2 = None ∧ Forall known r.1 ∧
      Exists (λ pr, IsFound (reference_of pr) (Some ref) = true) r.1
  | existT (OPorchCreate _) r => r.2 = None ∧ known r.1
  | existT (OPorchGetResources _) r | existT (OPorchUpdateResources _) r => r.2 = None
  | _ => True
  end.

(** A run that ends with success recorded and the next poll scheduled. *)
Definition ends_well (poll : Z) (tr : list (entry resp)) (o : outcome error (Result * option error)) :
    Prop :=
  o = Ok ({| Requeue := false; RequeueAfter := poll |}, None) ∧
  ∃ tr0 cr r, tr = (tr0 ++ [ex (OStatusUpdate
    (SetConditions cr [nddv1_ReconcileSuccess; nddv1_Available])) (r, None)])%list.

Lemma ends_well_app poll tr0 tr o : ends_well poll tr o → ends_well poll (tr0 ++ tr)%list o.
Proof.
  intros (Ho & tr1 & cr & r & ->). split; [done|]. exists (tr0 ++ tr1)%list, cr, r.
  by rewrite (assoc_L (++)%list).
Qed.

(** ** Lemmas *)

Context {EL : ErrorLaws} {LL : LifecycleLaws}.
Context {KI : KioLaws} {KR : KioReadLaws} {KL : KYamlLaws}.
Context (ref : PackageRevisionReference) (i : inputs) (poll : Z).
Context (Hadd : porchv1alpha1_AddToScheme = None).

Lemma reconcile_approve_done pr (s s' : gstate) tr o :
  exec (reconcile_approve poll s) tr (o, s') → Forall (serves ref i) tr →
  p_pr (g_pkg s) = Some pr → known pr → ends_well poll tr o.
Proof.
  unfold reconcile_approve. intros (tr1 & oa & s1 & tr2 & -> & H1 & H)%exec_try Hs Hpr Hk.
  apply Forall_app in Hs as [Hs1 Hs]. apply ends_well_app.
  assert (oa = Ok ()) as ->.
  { eapply Approve_done; [exact H1| |exact Hpr|exact Hk|done].
    eapply Forall_impl; [exact Hs1|]. by intros e [? _]. }
  revert Hs. by_traced H. unfold update_status. repeat svc_step.
  cbn [app]. rewrite Forall_singleton. intros [_ Herr]. simpl in Herr. subst. rewrite wrap_nil.
  split; [done|]. by eexists [], _, _.
Qed.

Lemma update_done new ns pr (s s' : gstate) tr o :
  exec (m_try (Update new) (fail_with nddv1_Unknown) (λ _, reconcile_approve poll) s) tr (o, s') →
  Forall (serves ref i) tr → package_ok (g_heap s) new ns → is_Some (p_prr (g_pkg s)) →
  p_pr (g_pkg s) = Some pr → known pr → ends_well poll tr o.
Proof.
  intros (tr1 & oa & s1 & tr2 & -> & H1 & H)%exec_try Hs Hok [prr Hprr] Hpr Hk.
  apply Forall_app in Hs as [Hs1 Hs]. apply ends_well_app.
  destruct (Update_ok new prr ns (file_text ns) _ _ _ _ H1 Hprr)
    as (o1 & o2 & m & u & err & -> & _ & -> & ->); [apply Hok|intros; by eapply file_text_ok|].
  rewrite !Forall_cons in Hs1. destruct Hs1 as (_ & _ & [_ Herr] & _). simpl in Herr. subst.
  by eapply reconcile_approve_done.
Qed.

Lemma Create_done mr (s s' : gstate) tr o :
  exec (Create mr s) tr (o, s') → Forall (serves ref i) tr → is_Some (p_pr (g_pkg s)) →
  ∃ pr prr, o = Ok () ∧ s' = set_pkg (with_prr prr (with_pr pr (g_pkg s))) s ∧ known pr.
Proof.
  intros H Hs [cur Hcur]. revert Hs. by_traced H.
  unfold Create, create_revision, getPackageRevisionResources.
  repeat svc_step; simplify_eq/=; rewrite ?Forall_cons; intros Hs; destruct_and?;
    unfold serves in *; simpl in *; destruct_and?; simplify_eq; try done.
  by eexists _, _.
Qed.

Lemma write_done new ns pr (s s' : gstate) tr o :
  exec (reconcile_write new (reconcile_approve poll) s) tr (o, s') →
  Forall (serves ref i) tr → package_ok (g_heap s) new ns → is_Some (p_prr (g_pkg s)) →
  p_pr (g_pkg s) = Some pr → known pr → ends_well poll tr o.
Proof.
  unfold reconcile_write. intros H Hs Hok Hprr Hpr Hk.
  apply (exec_pure _ _ _ _ _ _ _ (GetLifecycle_ret _ _ Hpr)) in H. cbv beta in H.
  destruct (negb (String.eqb (pr_Lifecycle pr) LifecycleDraft)); [|by eapply update_done].
  apply (exec_pure get_cr _ _ _ _ _ _ eq_refl) in H.
  apply exec_try in H as (tr1 & oa & s1 & tr2 & -> & H1 & H).
  apply Forall_app in Hs as [Hs1 Hs]. apply ends_well_app.
  destruct (Create_done _ _ _ _ _ H1 Hs1 ltac:(by eexists)) as (pr1 & prr1 & -> & -> & Hk1).
  by eapply update_done.
Qed.
Lemma compare_done new ns ss pr prr (s s' : gstate) tr o :
  exec (reconcile_compare poll new s) tr (o, s') → Forall (serves ref i) tr →
  package_ok (g_heap s) new ns → texts (g_heap s) new ss → Forall (prints (g_heap s)) new →
  p_prr (g_pkg s) = Some prr → readable (prr_Resources prr) →
  p_pr (g_pkg s) = Some pr → known pr → ends_well poll tr o.
Proof.
  unfold reconcile_compare.
  intros (tr1 & oa & s1 & tr2 & -> & H1 & H)%exec_try Hs Hok Ht Hp Hprr Hr Hpr Hk.
  apply Forall_app in Hs as [_ Hs]. apply ends_well_app.
  destruct (GetResources_run _ _ _ _ _ H1 Hprr) as (ord & -> & -> & ->).
  destruct (readable_reads_as _ Hr) as (acts0 & Hnd0 & Hra).
  destruct (Hra ord (g_heap s)) as (docs & acts & Hread & Hta & Hperm).
  assert (NoDup acts) as Hnd by by rewrite Hperm.
  rewrite Hread in H. cbn [fst snd] in H.
  apply exec_try in H as (tr1 & oa & s1 & tr3 & -> & H & H2).
  apply exec_zoom in H as (-> & -> & ->). cbn [g_heap set_heap] in H2.
  destruct (IsEqual_ok new (seq (length (g_heap s)) (length docs)) ss acts (g_heap s ++ docs)%list)
    as (b & back & h' & E & _ & Hkeep); [by apply texts_app| |done..|].
  { eapply Forall_impl; [exact Hp|]. intros l. apply prints_app. }
  unfold Get in H2. rewrite E in H2. cbn [fst snd] in H2.
  destruct b; cbn [negb] in H2; [by eapply reconcile_approve_done|].
  eapply write_done; [exact H2|done| |by exists prr|exact Hpr|exact Hk].
  destruct (package_ok_app _ docs _ _ Hok) as (Hn & Hkrm & Hb). destruct Hok as (Hn0 & _).
  split_and!; [|done..]. cbn [g_heap set_heap].
  apply Forall2_same_length_lookup. split; [by eapply Forall2_length|].
  intros j l n Hl Hj. pose proof (Forall2_lookup_lr _ _ _ _ _ _ Hn Hl Hj) as Hln.
  apply (Forall2_lookup_lr _ _ _ _ _ _ Hn0 Hl) in Hj. apply lookup_lt_Some in Hj.
  destruct (Hkeep _ _ Hln) as [?|[Hin%elem_of_seq _]]; [done|lia].
Qed.

Lemma GetOrCreate_done mr (s s' : gstate) tr o :
  exec (GetOrCreate mr s) tr (o, s') → Forall (serves ref i) tr →
  o = Ok () ∧ ∃ pr prr, s' = set_pkg (with_prr prr (with_pr pr (g_pkg s))) s ∧ known pr ∧
    packages_read tr = [prr_Resources prr].
Proof.
  intros H Hs. assert (o = Ok ()) as ->.
  { revert Hs. by_traced H. unfold GetOrCreate, create_revision, getPackageRevisionResources.
    repeat svc_step; simplify_eq/=; rewrite ?Forall_cons; intros Hs; destruct_and?;
      unfold serves in *; simpl in *; destruct_and?; simplify_eq; try done;
      by rewrite client_ignore_nil in *. }
  split; [done|]. apply GetOrCreate_ok in H as (items & err & pr & prr & _ & -> & Htr).
  exists pr, prr. split; [done|]. destruct Htr as [(-> & Hf & _)|(-> & _)]; (split; [|done]).
  - apply Forall_cons in Hs as [(_ & _ & Hk & _) _]. rewrite Forall_forall in Hk. apply Hk.
    by apply first_latest_elem, elem_of_matching in Hf as [_ Hf].
  - rewrite !Forall_cons in Hs. by destruct Hs as (_ & (_ & _ & Hk) & _).
Qed.

Lemma rest_done cr new ns ss (s s' : gstate) tr o :
  exec (reconcile_rest poll cr new s) tr (o, s') → Forall (serves ref i) tr →
  package_ok (g_heap s) new ns → texts (g_heap s) new ss → Forall (prints (g_heap s)) new →
  (∀ m, packages_read tr !! 0 = Some m → readable m) → ends_well poll tr o.
Proof.
  unfold reconcile_rest. intros (tr1 & oa & s1 & tr2 & -> & H1 & H)%exec_try Hs Hok Ht Hp Hr.
  apply Forall_app in Hs as [Hs1 Hs]. apply ends_well_app.
  destruct (GetOrCreate_done _ _ _ _ _ H1 Hs1) as (-> & pr & prr & -> & Hk & Hread).
  eapply compare_done; [exact H|done..| |done|done].
  apply Hr. unfold packages_read in *. by rewrite omap_app, Hread.
Qed.

(** ** The documents *)

Lemma createSourcePackage_runs (s s' : gstate) tr o :
  exec (createSourcePackage s) tr (o, s') → Forall (serves ref i) tr →
  source_of (g_cr s) = Some ref →
  ∃ items k src ord, tr = [ex OPorchList (items, None); ex (OPorchGetResources k) (src, None);
      ex OMapOrder ord] ∧
    let res := source_documents (t_GetName (g_cr s)) ord (prr_Resources src) (g_heap s) in
    o = res.1 ∧ s' = set_heap res.2 s.
Proof.
  intros H Hs Href. revert Hs. by_traced H. unfold source_of, spec_source in Href.
  unfold createSourcePackage, GetPackageRevision, GetPackageRevisionResources, source_documents.
  repeat svc_step; simpl in Href; try (rewrite Heqo1 in Href; injection Href as <-).
  - intros [(_ & Herr & _) _]%Forall_cons. simpl in Herr. subst.
    done.
  - intros [_ [[_ Herr] _]%Forall_cons]%Forall_cons. by simpl in Herr.
  - destruct (ResourcesToPackageBuffer r _ (g_heap s)) as [[nodes|e|f] h1] eqn:E1; simpl.
    2,3: intros [[_ [Herr _]] _]%Forall_cons; simpl in Herr; subst;
      eexists _, _, _, _; (split; [reflexivity|]);
      by first [rewrite (st_bind_err _ _ _ _ _ E1)|rewrite (st_bind_panic _ _ _ _ _ E1)].
    apply on_heap_bind. svc_step. intros [[_ [Herr _]] _]%Forall_cons. simpl in Herr. subst.
    eexists _, _, _, _. split; [reflexivity|]. by rewrite (st_bind_ok _ _ _ _ _ E1).
  - intros [(_ & _ & _ & Hex) _]%Forall_cons. rename select (list_find _ _ = None) into Hf.
    apply list_find_None in Hf. by destruct (Forall_not_Exists _ _ Hf).
  - by rewrite Heqo1 in Href.
  - done.
Qed.
Lemma package_done o1 o2 rs h (s s' : gstate) tr o :
  exec (reconcile_package poll (i_package i) s) tr (o, s') → Forall (serves ref i) tr →
  source_of (g_cr s) = Some ref → ref_PackageName ref = i_app i →
  t_GetName (g_cr s) = i_name i → g_heap s = [] →
  wanted_package o1 o2 i [] = (Ok rs, h) → good_inputs i →
  (∀ m, packages_read tr !! 0 = Some m → m = i_resources i) →
  (∀ m, packages_read tr !! 1 = Some m → readable m) → ends_well poll tr o.
Proof.
  intros H Hs Href Happ Hname Hh Hw Hg H0 Hr. unfold reconcile_package in H.
  apply exec_try in H as (tr1 & oa & s1 & tr2 & -> & H1 & H).
  apply Forall_app in Hs as [Hs1 Hs]. apply ends_well_app.
  destruct (createSourcePackage_runs _ _ _ _ H1 Hs1 Href)
    as (items & k & src & ord & -> & Ho & ->).
  assert (prr_Resources src = i_resources i) as Hsrc by (by apply H0).
  pose proof Hw as (source & h1 & E1 & (new & h2 & E2 & E3)%st_bind_ok_inv)%st_bind_ok_inv.
  rewrite Hname, Hsrc, Hh, (source_documents_order _ ord o1), E1 in Ho, H.
  cbn [fst snd] in Ho, H. subst oa.
  apply exec_try in H as (tr1 & oa & s1 & tr3 & -> & H2 & H).
  apply createNewPackage_runs in H2 as (-> & -> & ->). cbn [g_cr g_heap set_heap] in H.
  rewrite Hname, E2 in H. cbn [fst snd app] in H.
  apply (exec_pure get_cr _ _ _ _ _ _ eq_refl) in H. cbn [g_cr set_heap] in H.
  unfold source_of, spec_source in Href.
  destruct (ts_Properties (t_Spec (g_cr s))) as [props|] eqn:Hprops; [|done]. simpl in Href.
  apply (exec_pure (m_deref (Some props)) _ _ _ _ _ _ eq_refl) in H.
  destruct (tp_Applications props) as [apps|] eqn:Happs; [|done]. injection Href as Href.
  cbv beta in H. rewrite Happs in H.
  apply (exec_pure (m_deref (Some apps)) _ _ _ _ _ _ eq_refl) in H.
  apply exec_seq in H as (tr1 & oa & s1 & tr2 & -> & H1' & H).
  destruct (exec_call OMapOrder _ _ _ _ H1') as (o2' & -> & -> & ->). clear H1'.
  destruct (wanted_package_perm o1 o2 o1 o2' i [] h rs Hw) as (rs' & Hw' & _).
  destruct (Hg _ _ _ _ Hw') as (ns & ss & Hok & Hts & _ & Hp).
  unfold wanted_package in Hw'.
  rewrite (st_bind_ok _ _ _ _ _ E1), (st_bind_ok _ _ _ _ _ E2) in Hw'.
  apply exec_try in H as (tr1 & oa & s1 & tr3 & -> & H2 & H).
  apply exec_zoom in H2 as (-> & -> & ->). cbn [g_heap set_heap] in H.
  rewrite Href, Happ, Hw' in H. cbn [fst snd app] in H.
  apply (ends_well_app poll [ex OMapOrder o2'] tr3).
  eapply rest_done; [exact H| |exact Hok|exact Hts|exact Hp|].
  - by apply Forall_cons in Hs as [_ Hs].
  - intros m Hm. by apply Hr.
Qed.

(** ** Property *)

(** C11: Progress of a live tenant: let the tenant be there, with the inputs [i] and
    not deleted, let its source package be listed and its documents be in order, let
    the resources of the package's revision be readable, and let no request be
    refused.  Then the reconciliation ends with the next poll scheduled, and the
    last thing it did was to record success in the status. *)
Theorem Reconcile_progress (req : ObjectKey) o1 o2 rs h (s s' : gstate) tr o :
  exec (Reconcile poll req s) tr (o, s') → g_heap s = [] → Forall (serves ref i) tr →
  ref_PackageName ref = i_app i → wanted_package o1 o2 i [] = (Ok rs, h) → good_inputs i →
  (∀ m, packages_read tr !! 0 = Some m → m = i_resources i) →
  (∀ m, packages_read tr !! 1 = Some m → readable m) →
  o = Ok ({| Requeue := false; RequeueAfter := poll |}, None) ∧
  ∃ tr0 cr r, tr = (tr0 ++ [ex (OStatusUpdate
    (SetConditions cr [nddv1_ReconcileSuccess; nddv1_Available])) (r, None)])%list.
Proof.
  intros H Hh Hs Happ Hw Hg H0 Hr. change (ends_well poll tr o). unfold Reconcile in H.
  apply exec_seq in H as (tr1 & oa & s1 & tr2 & -> & H1 & H).
  destruct (exec_call (OTenantGet req) _ _ _ _ H1) as ([cr err] & -> & -> & ->). clear H1.
  apply Forall_cons in Hs as [(_ & Herr & Hpkg & [props Hprops]) Hs].
  cbn [fst snd] in Herr, Hpkg, Hprops, H. subst err. apply (ends_well_app _ [_]).
  apply (exec_pure (put_cr cr) _ _ _ _ _ _ eq_refl) in H. rewrite Hprops in H.
  apply (exec_pure (m_deref (Some props)) _ _ _ _ _ _ eq_refl) in H.
  apply (exec_pure (m_modify _) _ _ _ _ _ _ eq_refl) in H.
  apply exec_try in H as (tr1 & oa & s1 & tr3 & -> & H1 & H).
  apply Forall_app in Hs as [Hs1 Hs]. apply ends_well_app.
  assert (∃ fin, tr1 = [ex (OAddFinalizer cr) (fin, None)] ∧ oa = Ok () ∧
    s1 = package_state cr fin props s ∧ meta_WasDeleted (t_ObjectMeta fin) = false ∧
    t_GetName fin = i_name i ∧ source_of fin = Some ref)
    as (fin & -> & -> & -> & Hdel & Hname & Href).
  { clear H. revert Hs1. by_traced H1. unfold add_finalizer. repeat svc_step;
      intros [(_ & Herr & Hf) _]%Forall_cons; simpl in Herr; subst; [done|]. by exists t. }
  apply (exec_pure get_cr _ _ _ _ _ _ eq_refl) in H. cbn [g_cr package_state set_cr] in H.
  rewrite Hdel, Hpkg in H.
  eapply (package_done o1 o2 rs h); [exact H|done..|exact H0|exact Hr].
Qed.
End publish.

(** ** The first reconciliation of a tenant *)

Section examples.
Abbreviation ex o r := (reply (resp:=toy_resp) o r).

Definition ex_source_ref : PackageRevisionReference := {|
  ref_Namespace := ""; ref_RepositoryName := "repo"; ref_PackageName := "app";
  ref_Revision := "v2" |}.

Lemma ex_serves : Forall (serves (EO:=toy_ops) ex_source_ref ex_inputs) (ex_run ex_first).
Proof. vm_compute. repeat constructor. by eexists. Qed.

Lemma ex_loaded_first :
  packages_read (ex_run ex_first) =
    [i_resources ex_inputs; {["README.md" := "# package"]}].
Proof. vm_compute. reflexivity. Qed.

Lemma Reconcile_progress_witness :
  outcome_of toy_reconcile nobody ex_first =
    Ok ({| Requeue := false; RequeueAfter := 60000000000 |}, None) ∧
  ∃ tr0 cr r, ex_run ex_first = (tr0 ++ [ex (OStatusUpdate
    (SetConditions cr [nddv1_ReconcileSuccess; nddv1_Available])) (r, None)])%list.
Proof.
  apply (Reconcile_progress (EO:=toy_ops) ex_source_ref ex_inputs 60000000000 eq_refl (Key "default" "t1")
    mo_id mo_id ex_nodes ex_wanted.2 nobody _ (ex_run ex_first) _
    (serve_exec toy_reconcile nobody ex_first)).
  - reflexivity.
  - exact ex_serves.
  - reflexivity.
  - vm_compute. reflexivity.
  - exact ex_good.
  - rewrite ex_loaded_first. intros m Hm. symmetry. exact (inj Some _ _ Hm).
  - rewrite ex_loaded_first. intros m Hm. apply (inj Some) in Hm as <-. exists [], [].
    split_and!; [vm_compute; reflexivity|constructor|constructor].
Defined.
End examples.
