(* ===== verification/Concurrency.v ===== *)
(** * Concurrent reconciliations

    The manager runs several reconciliations at once ([MaxConcurrentReconciles]).
    A system is a list of programs that share one server: each step lets one of
    them make its next request, which the server answers and remembers.  What is
    proved of all behaviours of one program holds for each program of a system;
    so reconciliations of different tenants stay out of each other's way. *)

From stdpp Require Import base tactics list gmap strings.
From S2P Require Import Prelude.
From S2P Require Import GoStrings.
From S2P Require Import Effects.
From S2P Require Import Deps.
From S2P Require Import Api.
From S2P Require Import Toy.
From S2P Require Import Revision.
From S2P Require Import Services.
From S2P Require Import ToyServer.
From S2P Require Import PkgRev.
From S2P Require Import Reconciler.
From S2P Require Import Protocol.
From S2P Require Import Refinement.
From S2P Require Import Safety.
From S2P Require Import Progress.

Local Open Scope string_scope.

(** ** Interleaving *)

Section system.
Context {op : Type} {resp : op → Type} {A W : Type}.
(** The server may answer in several ways. *)
Context (serves : W → ∀ o, resp o → W → Prop).

Record system := System {
  sys_world : W;
  sys_progs : list (prog resp A);
  sys_log : list (nat * entry resp) }.

Inductive sys_step : system → system → Prop :=
  | sys_request w w' ps log i o k r :
      ps !! i = Some (Vis o k) → serves w o r w' →
      sys_step (System w ps log)
        (System w' (<[i := k r]> ps) (log ++ [(i, reply o r)])%list).

(** The exchanges of the [i]-th program. *)
Definition exchanges_at (i : nat) (log : list (nat * entry resp)) : list (entry resp) :=
  (filter (λ x, x.1 = i) log).*2.

(** [p] has made the exchanges [tr] and has [p'] left to do. *)
Fixpoint runs (p : prog resp A) (tr : list (entry resp)) (p' : prog resp A) {struct tr} :
    Prop :=
  match tr with
  | [] => p = p'
  | e :: tr' => match p with
                | Ret _ => False
                | Vis o k => ∃ r, e = reply o r ∧ runs (k r) tr' p'
                end
  end.

Lemma runs_snoc p tr o k r : runs p tr (Vis o k) → runs p (tr ++ [reply o r])%list (k r).
Proof.
  revert p. induction tr as [|e tr IH]; intros p H; simpl in H |- *.
  - subst. by exists r.
  - destruct p as [a|o' k']; [done|]. destruct H as (r' & -> & H). eauto.
Qed.

Lemma runs_exec p tr a : runs p tr (Ret a) → exec p tr a.
Proof.
  revert p. induction tr as [|e tr IH]; intros p H; simpl in H.
  - by subst.
  - destruct p as [a'|o' k']; [done|]. destruct H as (r' & -> & H). simpl. eauto.
Qed.

Lemma exchanges_at_snoc i j log e :
  exchanges_at i (log ++ [(j, e)])%list =
  if decide (j = i) then (exchanges_at i log ++ [e])%list else exchanges_at i log.
Proof.
  unfold exchanges_at. rewrite filter_app, filter_cons. simpl.
  destruct (decide (j = i)); rewrite ?filter_nil, ?app_nil_r; [|done].
  by rewrite fmap_app.
Qed.

(** In every reachable system each program has run against some server. *)
Lemma reachable_runs w ps x i p :
  rtc sys_step (System w ps []) x → ps !! i = Some p →
  ∃ p', sys_progs x !! i = Some p' ∧ runs p (exchanges_at i (sys_log x)) p'.
Proof.
  intros Hr Hp.
  cut (∀ y, rtc sys_step y x →
    (∃ p', sys_progs y !! i = Some p' ∧ runs p (exchanges_at i (sys_log y)) p') →
    ∃ p', sys_progs x !! i = Some p' ∧ runs p (exchanges_at i (sys_log x)) p').
  { intros H. apply (H _ Hr). by exists p. }
  clear Hr. induction 1 as [|y1 y2 y3 Hs _ IH]; [done|]. intros (p1 & Hp1 & H1). apply IH.
  destruct Hs as [w1 w2 ps1 log j o k r Hj _]. simpl in *. rewrite exchanges_at_snoc.
  destruct (decide (j = i)) as [->|Hne].
  - rewrite Hp1 in Hj. injection Hj as ->. exists (k r). split; [|by apply runs_snoc].
    apply list_lookup_insert_eq. by eapply lookup_lt_Some.
  - exists p1. split; [|done]. by rewrite list_lookup_insert_ne.
Qed.

Lemma reachable_exec w ps x i p a :
  rtc sys_step (System w ps []) x → ps !! i = Some p → sys_progs x !! i = Some (Ret a) →
  exec p (exchanges_at i (sys_log x)) a.
Proof.
  intros Hr Hp Ha. destruct (reachable_runs _ _ _ _ _ Hr Hp) as (p' & Hp' & Hruns).
  apply runs_exec. congruence.
Qed.
End system.

(** ** The reconciliation of one tenant *)

Section isolation.
Context {ET : ExtTypes} {EO : ExtOps}.
Abbreviation ex o r := (reply (resp:=resp) o r).

Definition tenant_get (e : entry resp) : bool :=
  match projT1 e with OTenantGet _ => true | _ => false end.

Definition answered_tenant (e : entry resp) : option Tenant :=
  match e with existT (OTenantGet _) r => Some r.1 | _ => None end.

Lemma step_tenant_get p e p' : step p e p' → tenant_get e = true → p = Idle.
Proof.
  destruct 1; try done. by destruct e as [[] r].
Qed.

Lemma step_not_idle p e p' : step p e p' → p' ≠ Idle.
Proof.
  destruct 1; try done; unfold refused; repeat case_match; try done.
  all: by destruct p; simplify_eq/=.
Qed.

(** A tenant is read once, first. *)
Lemma path_one_get tr p :
  path tr p → (p = Idle → tr = []) ∧ ∀ e e', e ∈ tr → e' ∈ tr →
    tenant_get e = true → tenant_get e' = true → e = e'.
Proof.
  induction 1 as [|tr p e p' Hp [IH0 IH] Hs]; [split; [done|]; set_solver|].
  split; [by intros Hi; destruct (step_not_idle _ _ _ Hs Hi)|].
  intros e1 e2 H1 H2 G1 G2. destruct (tenant_get e) eqn:Ge.
  - rewrite (IH0 (step_tenant_get _ _ _ Hs Ge)) in *. set_solver.
  - apply IH; [|  |done..].
    + apply elem_of_app in H1 as [?| ->%list_elem_of_singleton]; [done|congruence].
    + apply elem_of_app in H2 as [?| ->%list_elem_of_singleton]; [done|congruence].
Qed.

(** A revision that is created or deleted. *)
Definition touches (tr : list (entry resp)) (pr : PackageRevision) : Prop :=
  (∃ r, ex (OPorchCreate pr) r ∈ tr) ∨ (∃ r, ex (OPorchDelete pr) r ∈ tr).

Lemma path_touches tr p k cr pr :
  path tr p → ex (OTenantGet k) (cr, None) ∈ tr → touches tr pr →
  pr_PackageName pr = packageName_of cr.
Proof.
  intros Hp Hcr Ht.
  assert (∃ x, loaded tr x ∧ pr_PackageName pr = ss_package x) as (x & Hl & ->).
  { destruct Ht as [[r Hr]|[r Hr]].
    - destruct (path_justified _ _ _ Hp Hr) as (x & rev & (Hl & _) & ->). by exists x.
    - destruct (path_justified _ _ _ Hp Hr) as (x & items & (Hl & _) & _ & _ & ?). by exists x. }
  destruct Hl as (k' & cr' & props & Hin & _ & -> & _).
  pose proof (proj2 (path_one_get _ _ Hp) _ _ Hin Hcr eq_refl eq_refl) as Heq.
  apply (f_equal answered_tenant) in Heq. by injection Heq as ->.
Qed.

Definition answered_list (e : entry resp) : option (list PackageRevision) :=
  match e with existT OPorchList r => Some r.1 | _ => None end.

Lemma answers {A} (f : entry resp → option A) (tr : list (entry resp)) e a :
  f e = Some a → e ∈ tr → a ∈ omap f tr.
Proof. intros. apply list_elem_of_omap. eauto. Qed.

Lemma omap_deletions {A} (f : entry resp → option A) prs :
  (∀ pr, f (ex (OPorchDelete pr) None) = None) → omap f (deletions prs) = [].
Proof. intros H. induction prs as [|pr prs IH]; csimpl; [done|]. by rewrite H. Qed.

(** The package of a tenant depends on its name only. *)
Lemma packageName_iff (cr1 cr2 : Tenant) :
  packageName_of cr1 = packageName_of cr2 ↔ t_GetName cr1 = t_GetName cr2.
Proof.
  unfold packageName_of. split; [|by intros ->]. simpl. intros H. by simplify_eq/=.
Qed.

(** C6: Reconciliations of tenants with different names that run concurrently,
    in any interleaving with any number of others and against any server, create
    and delete revisions of different packages only. *)
Theorem concurrent_isolation {W} (serves : W → ∀ o, resp o → W → Prop) (w : W) ps x i j
    poll1 poll2 req1 req2 s1 s2 a1 a2 k1 k2 cr1 cr2 :
  rtc (sys_step serves) (System w ps []) x →
  ps !! i = Some (Reconcile poll1 req1 s1) → sys_progs x !! i = Some (Ret a1) →
  ps !! j = Some (Reconcile poll2 req2 s2) → sys_progs x !! j = Some (Ret a2) →
  ex (OTenantGet k1) (cr1, None) ∈ exchanges_at i (sys_log x) →
  ex (OTenantGet k2) (cr2, None) ∈ exchanges_at j (sys_log x) →
  t_GetName cr1 ≠ t_GetName cr2 →
  ∀ pr1 pr2, touches (exchanges_at i (sys_log x)) pr1 → touches (exchanges_at j (sys_log x)) pr2 →
    pr_PackageName pr1 ≠ pr_PackageName pr2.
Proof.
  intros Hr Hi Ha1 Hj Ha2 Hc1 Hc2 Hne pr1 pr2 Ht1 Ht2 Heq.
  destruct a1 as [o1 s1'], a2 as [o2 s2'].
  destruct (Reconcile_path _ _ _ _ _ _ (reachable_exec _ _ _ _ _ _ _ Hr Hi Ha1)) as (p1 & Hp1 & _).
  destruct (Reconcile_path _ _ _ _ _ _ (reachable_exec _ _ _ _ _ _ _ Hr Hj Ha2)) as (p2 & Hp2 & _).
  rewrite (path_touches _ _ _ _ _ Hp1 Hc1 Ht1), (path_touches _ _ _ _ _ Hp2 Hc2 Ht2) in Heq.
  by apply packageName_iff in Heq.
Qed.

(** C26: Tenants of the same name share their package whatever their namespaces
    are: when one of them is deleted and no request is refused, every listed
    revision of the other's package is deleted with it.  So the controller has to
    be kept to one namespace, as the manager options in [main] do. *)
Theorem same_name_deleted (poll : Z) (req : ObjectKey) (s s' : gstate) tr o k cr1 cr2 items pr :
  exec (Reconcile poll req s) tr (o, s') → Forall cooperates tr →
  ex (OTenantGet k) (cr1, None) ∈ tr → ex OPorchList (items, None) ∈ tr →
  t_GetName cr2 = t_GetName cr1 → pr ∈ items → pr_PackageName pr = packageName_of cr2 →
  ex (OPorchDelete pr) None ∈ tr.
Proof.
  intros He Hc Hcr Hl Hname Hpr Hpkg.
  destruct (relying_exec _ _ _ _ _ _ _ (relying_Reconcile poll req s) He Hc)
    as (_ & read & fin & gone & items' & ->).
  assert (read = cr1) as ->.
  { eapply (answers answered_tenant) in Hcr; [|reflexivity].
    rewrite !omap_app, omap_deletions in Hcr by done.
    by apply list_elem_of_singleton in Hcr. }
  assert (items' = items) as ->.
  { eapply (answers answered_list) in Hl; [|reflexivity].
    rewrite !omap_app, omap_deletions in Hl by done.
    by apply list_elem_of_singleton in Hl. }
  rewrite !elem_of_app. right. left. unfold deletions. apply list_elem_of_fmap.
  exists pr. split; [done|]. apply list_elem_of_filter. split; [|done].
  by rewrite Hpkg, packageName_iff.
Qed.
End isolation.

(** ** Two tenants at once *)

(** The run of a system under a schedule, with a server that is a function. *)
Section schedule.
Context {op : Type} {resp : op → Type} {A W : Type} (h : ∀ o, W → resp o * W).

Definition served (w : W) (o : op) (r : resp o) (w' : W) : Prop := h o w = (r, w').

Definition sys_turn (i : nat) (x : @system op resp A W) : @system op resp A W :=
  match sys_progs x !! i with
  | Some (Vis o k) =>
      System (h o (sys_world x)).2 (<[i := k (h o (sys_world x)).1]> (sys_progs x))
        (sys_log x ++ [(i, reply o (h o (sys_world x)).1)])%list
  | _ => x
  end.

Lemma sys_turns_reach (schedule : list nat) x :
  rtc (sys_step served) x (foldl (λ x i, sys_turn i x) x schedule).
Proof.
  revert x. induction schedule as [|i schedule IH]; intros x; simpl; [done|].
  etrans; [|apply IH]. unfold sys_turn.
  destruct (sys_progs x !! i) as [[a|o k]|] eqn:Hi; [done| |done].
  destruct x as [w ps log]. apply rtc_once. constructor; [done|].
  unfold served. simpl. by destruct (h o w).
Qed.
End schedule.

Section examples.
Abbreviation ex o r := (reply (resp:=toy_resp) o r).

Definition ex_other : @Tenant toy_types := toy_cr (toy_meta "t2") (Some toy_props).
Definition ex_both : world :=
  World [toy_tenant; ex_other] [toy_pr "src" "app" "v2" "Published"]
    [toy_prr "src" {["ctl.yaml" := toy_deployment; "README.md" := "hi"]}] 1 [].
Definition ex_progs : list (prog toy_resp (outcome toy_error (Result * option toy_error) *
    @gstate toy_types)) :=
  [Reconcile 60000000000 (Key "default" "t1") nobody;
   Reconcile 60000000000 (Key "default" "t2") nobody].

(** Their requests alternate. *)
Definition ex_schedule : list nat := mjoin (replicate 20 [0; 1]).
Definition ex_system := System ex_both ex_progs [].
Definition ex_end := foldl (λ x i, sys_turn server i x) ex_system ex_schedule.

Definition ex_result (i : nat) : outcome toy_error (Result * option toy_error) * @gstate toy_types :=
  match sys_progs ex_end !! i with Some (Ret a) => a | _ => (Panic NilDeref, nobody) end.
Example ex_both_published :
  (ex_result 0).1 = Ok ({| Requeue := false; RequeueAfter := 60000000000 |}, None) ∧
  (ex_result 1).1 = (ex_result 0).1 ∧
  (pr_PackageName <$> w_prs (sys_world ex_end)) =
    ["app"; "admin.yndd.io_Tenant_t1"; "admin.yndd.io_Tenant_t2"] ∧
  (pr_Lifecycle <$> w_prs (sys_world ex_end)) = ["Published"; "Published"; "Published"].
Proof. vm_compute. by split_and!. Qed.

(** The revision that each of them creates. *)
Definition ex_created (cr : @Tenant toy_types) : @PackageRevision toy_types :=
  buildPackageRevision "default" "repo" (packageName_of cr) "v1"
    (set_meta (set_finalizers [finalizer]) cr).

Lemma concurrent_isolation_witness :
  pr_PackageName (ex_created toy_tenant) ≠ pr_PackageName (ex_created ex_other).
Proof.
  eapply (concurrent_isolation (served server) ex_both ex_progs ex_end 0 1 60000000000 60000000000
    (Key "default" "t1") (Key "default" "t2") nobody nobody (ex_result 0) (ex_result 1)
    (Key "default" "t1") (Key "default" "t2") toy_tenant ex_other).
  - exact (sys_turns_reach server ex_schedule ex_system).
  - reflexivity.
  - vm_compute. reflexivity.
  - reflexivity.
  - vm_compute. reflexivity.
  - apply (list_elem_of_lookup_2 _ 0). vm_compute. reflexivity.
  - apply (list_elem_of_lookup_2 _ 0). vm_compute. reflexivity.
  - discriminate.
  - left. eexists. apply (list_elem_of_lookup_2 _ 7). vm_compute. reflexivity.
  - left. eexists. apply (list_elem_of_lookup_2 _ 7). vm_compute. reflexivity.
Defined.

(** The tenant of the same name in another namespace. *)
Definition ex_namesake : @Tenant toy_types :=
  toy_cr {| om_Name := "t1"; om_Namespace := "other"; om_Annotations := ∅; om_Finalizers := [];
            om_DeletionTimestamp := None; om_OwnerReferences := [] |} (Some toy_props).

Lemma same_name_deleted_witness :
  ex (OPorchDelete ex_v1) None ∈ exchanges_of toy_reconcile nobody leaving.
Proof.
  apply (same_name_deleted _ _ _ _ _ _ (Key "default" "t1") ex_gone ex_namesake
    [toy_pr "src" "app" "v2" "Published"; ex_v1; ex_v2] _
    (serve_exec toy_reconcile nobody leaving)).
  - vm_compute. repeat constructor. by eexists.
  - apply (list_elem_of_lookup_2 _ 0). vm_compute. reflexivity.
  - apply (list_elem_of_lookup_2 _ 2). vm_compute. reflexivity.
  - reflexivity.
  - apply (list_elem_of_lookup_2 _ 1). reflexivity.
  - vm_compute. reflexivity.
Defined.
End examples.
