(* ===== verification/Startup.v ===== *)
(** * Starting the operator (cmd/main.go, internal/controllers/controller.go,
    pkg/porch/client.go, and Setup of internal/controllers/tenant/reconciler.go)

    The start of the process: the command line is parsed, which may end it; the
    manager and the two Porch clients are built, the controllers set up, the health
    checks added and the manager run, until the first step that fails, which ends
    the process with status 1. *)

From Stdlib Require Import Ascii.
From stdpp Require Import base tactics list gmap strings.
From S2P Require Import Prelude.
From S2P Require Import GoStrings.
From S2P Require Import GoFlag.
From S2P Require Import Effects.
From S2P Require Import Deps.
From S2P Require Import Api.
From S2P Require Import Toy.

Local Open Scope string_scope.

(** ** The command line *)

Record Flags := MkFlags {
  metricsAddr : string;
  probeAddr : string;
  enableLeaderElection : bool;
  concurrency : Z;
  pollInterval : Z;                (** nanoseconds *)
  debug : bool;
  profiler : bool }.

Definition default_flags : Flags := {|
  metricsAddr := ":8080";
  probeAddr := ":8081";
  enableLeaderElection := false;
  concurrency := 1;
  pollInterval := 60 * 1000000000;
  debug := false;
  profiler := false |}.

Section flags.
(** The parsers of integer and duration flags, and the flags that libraries have
    put on the command line - those of the logger and of the client configuration
    - with what each accepts. *)
Context (strconv_ParseInt time_ParseDuration : string → option Z).
Context (registered : string → option (bool * (string → bool))).

(** A flag bound to a variable. *)
Definition bind_var {A} (is_bool : bool) (parse : string → option A) (set : A → Flags → Flags) :
    Flag Flags := {|
  IsBoolFlag := is_bool;
  FlagSet v f := a ← parse v; Some (set a f) |}.

(** The flags [main] declares. *)
Definition declared_flags : list (string * Flag Flags) := [
  ("metrics-bind-address", bind_var false Some
     (λ v '(MkFlags _ b c d e f g), MkFlags v b c d e f g));
  ("health-probe-bind-address", bind_var false Some
     (λ v '(MkFlags a _ c d e f g), MkFlags a v c d e f g));
  ("leader-elect", bind_var true ParseBool
     (λ v '(MkFlags a b _ d e f g), MkFlags a b v d e f g));
  ("concurrency", bind_var false strconv_ParseInt
     (λ v '(MkFlags a b c _ e f g), MkFlags a b c v e f g));
  ("poll-interval", bind_var false time_ParseDuration
     (λ v '(MkFlags a b c d _ f g), MkFlags a b c d v f g));
  ("debug", bind_var true ParseBool
     (λ v '(MkFlags a b c d e _ g), MkFlags a b c d e v g));
  ("profile", bind_var true ParseBool
     (λ v '(MkFlags a b c d e f _), MkFlags a b c d e f v)) ].

(** The flags on the command line: a library's flag sets a variable of the
    library. *)
Definition formal_flags (name : string) : option (Flag Flags) :=
  match list_find (λ d, d.1 = name) declared_flags with
  | Some (_, d) => Some d.2
  | None =>
      '(is_bool, accepts) ← registered name;
      Some {| IsBoolFlag := is_bool;
              FlagSet v f := if (accepts v : bool) then Some f else None |}
  end.

(** [flag.Parse()]. *)
Definition flag_Parse (args : list string) : Z + Flags :=
  Parse formal_flags args default_flags.
End flags.

(** [ctrl.Options], with the fields that are set. *)
Record Options := {
  opt_Namespace : string;
  opt_MetricsBindAddress : string;
  opt_Port : Z;
  opt_HealthProbeBindAddress : string;
  opt_LeaderElection : bool;
  opt_LeaderElectionID : string }.

Definition manager_options (f : Flags) : Options := {|
  opt_Namespace := "ndd-system";
  opt_MetricsBindAddress := metricsAddr f;
  opt_Port := 9443;
  opt_HealthProbeBindAddress := probeAddr f;
  opt_LeaderElection := enableLeaderElection f;
  opt_LeaderElectionID := "b3cf4aa5.yndd.io" |}.

(** [shared.NddControllerOptions], without the clients and the logger. *)
Record NddControllerOptions := { ndd_Poll : Z; ndd_MaxConcurrentReconciles : Z }.

(** The groups whose types a scheme can learn. *)
Inductive api := ApiPorchConfig | ApiPorch | ApiCore | ApiMeta | ApiClientGo | ApiAdmin.
#[export] Instance api_eq_dec : EqDecision api.
Proof. solve_decision. Defined.

(** One line of the REST mapper: all are namespaced. *)
Record mapping := Mapping {
  map_group : api; map_kind : string; map_plural : string; map_singular : string }.

(** ** The calls to the libraries; each may fail *)

Inductive sop :=
  | SGetConfigOrDie
  | SNewManager (o : Options)
  | SGetConfig
  | SAddToScheme (a : api)
  | SNewClient (mapper : option (list mapping))
  | SNewClientWithWatch (mapper : option (list mapping))
  | SRESTClientFor (group : api) (apiPath : string)
  | SNewController (name : string) (o : NddControllerOptions)
  | SAddHealthzCheck (name : string)
  | SAddReadyzCheck (name : string)
  | SStart
  | SPatch (fieldOwner : string).

Section startup.
Context {ET : ExtTypes} {EO : ExtOps}.

Definition sresp (_ : sop) : Type := option error.

(** A program that may return an error, and the main program, whose errors are
    exit codes. *)
Abbreviation SM := (M sresp error ()).
Abbreviation Main := (M sresp Z ()).

Definition try (o : sop) : SM () := e ← call o; m_check e.

(** ** pkg/porch/client.go *)

Definition scheme_apis : list api := [ApiPorchConfig; ApiPorch; ApiCore; ApiMeta].

Definition createScheme : SM () := m_iter (λ a, try (SAddToScheme a)) scheme_apis.

Definition createRESTMapper : list mapping := [
  Mapping ApiPorchConfig "Repository" "repositories" "repository";
  Mapping ApiPorch "PackageRevision" "packagerevisions" "packagerevision";
  Mapping ApiPorch "PackageRevisionResources" "packagerevisionresources" "packagerevisionresources";
  Mapping ApiPorch "Function" "functions" "function";
  Mapping ApiCore "Secret" "secrets" "secret";
  Mapping ApiMeta "Table" "tables" "table" ].

Definition CreateClient : SM () :=
  _ ← try SGetConfig;
  _ ← createScheme;
  try (SNewClient (Some createRESTMapper)).

Definition CreateDynamicClient : SM () :=
  _ ← try SGetConfig;
  _ ← createScheme;
  try (SNewClientWithWatch None).

Definition CreateRESTClient : SM () :=
  _ ← try SGetConfig;
  _ ← createScheme;
  try (SRESTClientFor ApiPorch "/apis").

Definition Apply : SM () := try (SPatch "kubectl").

(** ** Setting up the controllers *)

Definition tenant_controller : string := Join [Group; ToLower TenantKind] "/".

(** [tenant.Setup]. *)
Definition tenant_Setup (o : NddControllerOptions) : SM () := try (SNewController tenant_controller o).

(** [controllers.Setup]: the set-up functions in order, until one fails. *)
Definition controllers_Setup (o : NddControllerOptions) : SM () :=
  m_iter (λ setup, setup o) [tenant_Setup].

(** ** cmd/main.go *)

(** [if err != nil { ...; os.Exit(1) }]. *)
Definition or_exit (m : SM ()) (k : Main ()) : Main () := m_catch m (λ _, m_err 1%Z) (λ _, k).

(** What [main] does once the command line is parsed. *)
Definition run_manager (f : Flags) : Main () :=
  or_exit (try SGetConfigOrDie) (
  or_exit (try (SNewManager (manager_options f))) (
  or_exit CreateClient (
  or_exit CreateRESTClient (
  or_exit (controllers_Setup {| ndd_Poll := pollInterval f;
                                ndd_MaxConcurrentReconciles := concurrency f |}) (
  or_exit (try (SAddHealthzCheck "healthz")) (
  or_exit (try (SAddReadyzCheck "readyz")) (
  or_exit (try SStart) (
  mret ())))))))).

(** How the libraries parse and extend the command line. *)
Context (strconv_ParseInt time_ParseDuration : string → option Z).
Context (registered : string → option (bool * (string → bool))).
Abbreviation parse_args := (flag_Parse strconv_ParseInt time_ParseDuration registered).

(** A command line that cannot be parsed, or asks for help, ends the process. *)
Definition main (args : list string) : Main () :=
  match parse_args args with
  | inl status => m_err status
  | inr f => run_manager f
  end.

(** [utilruntime.Must]: an error becomes a panic. *)
Definition Must (m : SM ()) : Main () := m_catch m (λ _, m_panic MustFailed) (λ _, mret ()).

(** The types the manager's scheme learns before [main] runs. *)
Definition init_apis : list api := [ApiClientGo; ApiAdmin].
Definition init : Main () := m_iter (λ a, Must (try (SAddToScheme a))) init_apis.

(** The process: the package is initialised, then [main] runs. *)
Definition process (args : list string) : Main () := _ ← init; main args.

(** The process ends with status 0 when [main] returns, with the given status
    when it calls [os.Exit], and with a panic otherwise. *)

(** ** Lemmas *)

Definition init_steps : list sop := SAddToScheme <$> init_apis.

(** The steps of a start, in order. *)
Definition startup_steps (f : Flags) : list sop :=
  [SGetConfigOrDie; SNewManager (manager_options f)] ++
  (SGetConfig :: (SAddToScheme <$> scheme_apis) ++ [SNewClient (Some createRESTMapper)]) ++
  (SGetConfig :: (SAddToScheme <$> scheme_apis) ++ [SRESTClientFor ApiPorch "/apis"]) ++
  [SNewController "admin.yndd.io/tenant"
     {| ndd_Poll := pollInterval f; ndd_MaxConcurrentReconciles := concurrency f |};
   SAddHealthzCheck "healthz"; SAddReadyzCheck "readyz"; SStart].

Definition worked (o : sop) : entry sresp := reply o None.

Lemma traced_call_try o s tr0 (Q : list (entry sresp) → outcome error () → () → Prop) :
  Q (tr0 ++ [worked o])%list (Ok ()) s →
  (∀ e, Q (tr0 ++ [reply (resp:=sresp) o (Some e)])%list (Err e) s) →
  traced (try o) s tr0 Q.
Proof.
  intros HOk HErr. unfold try. apply traced_bind. refine (traced_call o s tr0 _ _).
  intros [e|]; simpl; (eapply traced_pure; [reflexivity|]); auto.
Qed.

Ltac start_step :=
  lazymatch goal with
  | |- traced (or_exit _ _) _ _ _ => unfold or_exit
  | |- traced (try _) _ _ _ => apply traced_call_try; [|intros ?]
  | |- traced CreateClient _ _ _ => unfold CreateClient
  | |- traced CreateRESTClient _ _ _ => unfold CreateRESTClient
  | |- traced (controllers_Setup _) _ _ _ => unfold controllers_Setup, tenant_Setup
  | |- traced createScheme _ _ _ => unfold createScheme, scheme_apis
  | |- traced (m_iter _ _) _ _ _ => cbn [m_iter]
  | _ => traced_step
  end; cbn [on_ok].

(** The step a start stopped at, looked for from the [n]-th on. *)
Ltac stopped_at f n :=
  first
    [ eexists (take n (startup_steps f)), _, (drop (S n) (startup_steps f)), _;
      split; reflexivity
    | stopped_at f (S n) ].

(** ** Properties *)

(** Starting the operator makes its library calls in one fixed order: the
    manager is run last, after the clients, the controllers and both checks.
    The process ends with status 0 exactly when every call, the run included,
    succeeded, and with status 1 right after the first one that failed. *)
Theorem run_manager_spec (f : Flags) (s s' : ()) tr o :
  exec (run_manager f s) tr (o, s') →
  (o = Ok () ∧ tr = worked <$> startup_steps f) ∨
  (o = Err 1%Z ∧ ∃ before step after e, startup_steps f = (before ++ step :: after)%list ∧
     tr = ((worked <$> before) ++ [reply (resp:=sresp) step (Some e)])%list).
Proof.
  intros H. by_traced H. unfold run_manager. repeat start_step.
  { by left. }
  all: right; (split; [reflexivity|]); stopped_at f 0.
Qed.

(** C33: The process first fills the scheme, and panics when that fails; then it
    parses the command line, and ends there with status 0 when help is asked for
    and with status 2 when it is in error; then it makes the calls of the start in
    one fixed order: the manager and the clients are built, the controllers and
    both checks set up, and the manager is run last.  It ends with status 1 right
    after the first of these calls that fails, and with status 0 when all of them,
    the run included, succeed. *)
Theorem process_spec (args : list string) (s s' : ()) tr o :
  exec (process args s) tr (o, s') →
  (o = Panic MustFailed ∧ ∃ before step after e, (init_steps = before ++ step :: after ∧
     tr = (worked <$> before) ++ [reply (resp:=sresp) step (Some e)])%list) ∨
  match parse_args args with
  | inl status =>
      (status = 0 ∨ status = 2)%Z ∧ o = Err status ∧ tr = worked <$> init_steps
  | inr f =>
      (o = Ok () ∧ tr = worked <$> (init_steps ++ startup_steps f)%list) ∨
      (o = Err 1%Z ∧ ∃ before step after e, (startup_steps f = before ++ step :: after ∧
        tr = (worked <$> init_steps ++ before) ++ [reply (resp:=sresp) step (Some e)])%list)
  end.
Proof.
  intros H. by_traced H. unfold process, init, init_apis. cbn [m_iter]. unfold Must.
  repeat lazymatch goal with
  | |- traced (main _) _ _ _ => fail
  | _ => start_step
  end.
  - unfold main, flag_Parse.
    destruct (Parse _ args default_flags) as [status|f] eqn:E; simpl.
    + eapply traced_pure; [done|]. right. split; [by eapply Parse_status|done].
    + eapply traced_use; [intros ???; apply run_manager_spec|]. simpl.
      intros tr1 o1 _ [[-> ->]|(-> & before & step & after & e & Hst & ->)]; right; [by left|right].
      split; [done|]. by exists before, step, after, e.
  - left. split; [done|]. by exists [SAddToScheme ApiClientGo], (SAddToScheme ApiAdmin), [], e.
  - left. split; [done|]. by exists [], (SAddToScheme ApiClientGo), [SAddToScheme ApiAdmin], e.
Qed.

(** The settings that give the flags [f], with the texts [si] and [sd] for the
    number and the duration: kind, name and value. *)
Definition settings (f : Flags) (si sd : string) : list (bool * string * string) :=
  let text (b : bool) := if b then "true" else "false" in
  [(false, "metrics-bind-address", metricsAddr f);
   (false, "health-probe-bind-address", probeAddr f);
   (true, "leader-elect", text (enableLeaderElection f));
   (false, "concurrency", si);
   (false, "poll-interval", sd);
   (true, "debug", text (debug f));
   (true, "profile", text (profiler f))].

(** C34: The command line reaches the variables: without arguments they have their
    defaults, and arguments that spell a value for every flag - with one dash or
    two, with an equals sign or the value as the next argument, a bare name for a
    true - give exactly these values, whatever flags libraries have added. *)
Theorem flags_given (f : Flags) (si sd : string) (args : list (list string)) :
  strconv_ParseInt si = Some (concurrency f) → time_ParseDuration sd = Some (pollInterval f) →
  Forall2 (λ '(is_bool, name, v) l, spells is_bool name v l) (settings f si sd) args →
  parse_args [] = inr default_flags ∧ parse_args (concat args) = inr f.
Proof.
  intros Hi Hd Ha. split; [done|]. unfold settings in Ha.
  repeat (apply Forall2_cons_inv_l in Ha as (? & ? & ? & Ha & ->)).
  apply Forall2_nil_inv_l in Ha as ->. unfold flag_Parse, default_flags. simpl.
  destruct f as [a b c d e g h]; simpl in *.
  repeat lazymatch goal with
  | Hs : spells _ ?name ?v ?l |- Parse ?formal (?l ++ ?rest)%list ?st = _ =>
      erewrite (Parse_setting formal name v l rest _ st); [|reflexivity|reflexivity|exact Hs];
      simpl; rewrite ?Hi, ?Hd, ?ParseBool_text; clear Hs; simpl
  end.
  done.
Qed.
End startup.

(** ** A start that fails at the second REST client step *)

Definition start_server (o : sop) (n : nat) : @sresp toy_types o * nat :=
  match n with
  | 0 => (Some (ToyError false "no"), 0)
  | S n' => (None, n')
  end.

(** A command line with a number, a flag of the logger, and the next one. *)
Definition toy_int (v : string) : option Z := Atoi v.
Definition toy_duration (v : string) : option Z :=
  if decide (v = "1m0s") then Some (60 * 1000000000)%Z else None.
Definition toy_registered (name : string) : option (bool * (string → bool)) :=
  if decide (name = "zap-devel") then Some (true, λ v, bool_decide (is_Some (ParseBool v))) else None.
Definition start_args : list string := ["-concurrency=3"; "--zap-devel"; "-metrics-bind-address"; ":1"].

Definition start_run :=
  run start_server (process (ET:=toy_types) toy_int toy_duration toy_registered start_args ()) 9.

Lemma process_spec_witness :
  (start_run.1.1.1 = Panic MustFailed ∧ ∃ before step after e,
    (init_steps = before ++ step :: after ∧
     start_run.1.2 = (worked <$> before) ++ [reply (resp:=sresp) step (Some e)])%list) ∨
  match flag_Parse toy_int toy_duration toy_registered start_args with
  | inl status => (status = 0 ∨ status = 2)%Z ∧ start_run.1.1.1 = Err status ∧
      start_run.1.2 = worked <$> init_steps
  | inr f =>
      (start_run.1.1.1 = Ok () ∧
       start_run.1.2 = worked <$> (init_steps ++ startup_steps f)%list) ∨
      (start_run.1.1.1 = Err 1%Z ∧ ∃ before step after e,
        (startup_steps f = before ++ step :: after ∧
         start_run.1.2 = (worked <$> init_steps ++ before) ++
           [reply (resp:=sresp) step (Some e)])%list)
  end.
Proof.
  apply (process_spec toy_int toy_duration toy_registered start_args () start_run.1.1.2).
  apply (run_exec start_server _ 9 _ _ start_run.2). reflexivity.
Defined.

Definition ex_flags : Flags := MkFlags ":1" ":2" true 3 60000000000 false true.

Lemma flags_given_witness :
  flag_Parse toy_int toy_duration toy_registered [] = inr default_flags ∧
  flag_Parse toy_int toy_duration toy_registered
    ["-metrics-bind-address=:1"; "--health-probe-bind-address"; ":2"; "-leader-elect";
     "--concurrency=3"; "-poll-interval"; "1m0s"; "-debug=false"; "--profile=true"] = inr ex_flags.
Proof.
  apply (flags_given toy_int toy_duration toy_registered ex_flags "3" "1m0s"
    [["-metrics-bind-address=:1"]; ["--health-probe-bind-address"; ":2"]; ["-leader-elect"];
     ["--concurrency=3"]; ["-poll-interval"; "1m0s"]; ["-debug=false"]; ["--profile=true"]]).
  - reflexivity.
  - reflexivity.
  - repeat (apply Forall2_cons_2; [|]; [cbn;
      first [ exact (spells_equals _ _ _ "-" ltac:(set_solver))
            | exact (spells_equals _ _ _ "--" ltac:(set_solver))
            | exact (spells_next _ _ _ "-" ltac:(set_solver) eq_refl)
            | exact (spells_next _ _ _ "--" ltac:(set_solver) eq_refl)
            | exact (spells_alone _ _ _ "-" ltac:(set_solver) eq_refl eq_refl) ]|]).
    apply Forall2_nil_2.
Defined.

(** The two objects the controller exchanges with Porch are mapped to the
    resources of its REST requests, and no kind or resource is listed twice. *)
Example rest_mapping :
  (map_plural <$> filter (λ m, map_kind m = "PackageRevision") createRESTMapper) =
    ["packagerevisions"] ∧
  NoDup (map_kind <$> createRESTMapper) ∧ NoDup (map_plural <$> createRESTMapper).
Proof. split; [reflexivity|]. split; apply (bool_decide_unpack _); vm_compute; exact I. Qed.
